(** * BreatheEasy backend: a shallow embedding of the AQI core

    The development follows the Python sources of the repository:

    - [core/utils.py]        EPA sub-index computation, AQI categories and
                             the indoor index
    - [aqi/services.py]      outdoor-fetch client: throttle, request loop,
                             batch fetch, response formatting, daily
                             aggregates
    - [aqi/tasks.py]         the periodic alert sweep
    - [aqi/waqi_service.py]  worst-AQI ranking builder
    - [aqi/serializers.py]   validation of a city subscription
    - [accounts/models.py], [accounts/views.py]  password reset and email
                             verification flows
    - [sensors/management/commands/mqtt_listener.py]  the readings passed
                             on to the indoor index

    Numbers.  Python ints are [Z].  Python floats are taken as exact
    rationals ([Q]) with the exact comparisons, [min], [max] and [round],
    except where the binary rounding of IEEE doubles or the values nan and
    inf matter: [UtilsFloat] has the EPA sub-index in double precision
    ([Float], over the Standard Library's [SpecFloat]), and [Sensors] has
    the indoor index on readings that may be nan or infinite.

    Strings are byte strings holding UTF-8. *)

From Stdlib Require Import List String Ascii Bool ZArith QArith Qminmax Lia Lqa.
From Stdlib Require Import Sorted Permutation SpecFloat.
Import ListNotations.
Open Scope string_scope.
Open Scope Z_scope.

(** ** Python helpers *)

Module Py.

(** [round(x)] of a float: nearest integer, ties to the even one. *)
Definition round (x : Q) : Z :=
  let n := Qnum x in
  let d := Zpos (Qden x) in
  let f := n / d in
  let r := n mod d in
  if 2 * r <? d then f
  else if d <? 2 * r then f + 1
  else if Z.even f then f else f + 1.

(** [int(x)] of a float: truncation toward zero. *)
Definition int (x : Q) : Z := Z.quot (Qnum x) (Zpos (Qden x)).

Definition lower_ascii (c : ascii) : ascii :=
  let n := nat_of_ascii c in
  if (65 <=? n)%nat && (n <=? 90)%nat then ascii_of_nat (n + 32) else c.

(** [str.lower()].  Strings are byte strings; only the ASCII letters are
    folded, which is all that membership in an ASCII-keyed table can see. *)
Fixpoint lower (s : string) : string :=
  match s with
  | EmptyString => EmptyString
  | String c s' => String (lower_ascii c) (lower s')
  end.

(** A dict with string keys, in insertion order. *)
Definition dict (V : Type) : Type := list (string * V).

Fixpoint get {V : Type} (k : string) (d : dict V) : option V :=
  match d with
  | [] => None
  | (k', v) :: d' => if String.eqb k k' then Some v else get k d'
  end.

(** [d[k] = v]: overwrite in place, or append a new key at the end. *)
Fixpoint set {V : Type} (k : string) (v : V) (d : dict V) : dict V :=
  match d with
  | [] => [(k, v)]
  | (k', v') :: d' =>
      if String.eqb k k' then (k', v) :: d' else (k', v') :: set k v d'
  end.

Definition values {V : Type} (d : dict V) : list V := map snd d.
Definition keys {V : Type} (d : dict V) : list string := map fst d.

(** [str.isspace()] and [str.strip()].  Strings are byte strings holding
    UTF-8, so a white-space character is one, two or three bytes long:
    U+0009..U+000D, U+001C..U+0020; U+0085 and U+00A0; U+1680,
    U+2000..U+200A, U+2028, U+2029, U+202F, U+205F and U+3000. *)
Definition is_space (c : ascii) : bool :=
  let n := nat_of_ascii c in
  ((9 <=? n)%nat && (n <=? 13)%nat) || ((28 <=? n)%nat && (n <=? 32)%nat).

Definition is_space2 (a b : ascii) : bool :=
  let x := nat_of_ascii a in
  let y := nat_of_ascii b in
  (x =? 194)%nat && ((y =? 133)%nat || (y =? 160)%nat).

Definition is_space3 (a b c : ascii) : bool :=
  let x := nat_of_ascii a in
  let y := nat_of_ascii b in
  let z := nat_of_ascii c in
  ((x =? 225)%nat && (y =? 154)%nat && (z =? 128)%nat)
  || ((x =? 226)%nat && (y =? 128)%nat
      && (((128 <=? z)%nat && (z <=? 138)%nat)
          || (z =? 168)%nat || (z =? 169)%nat || (z =? 175)%nat))
  || ((x =? 226)%nat && (y =? 129)%nat && (z =? 159)%nat)
  || ((x =? 227)%nat && (y =? 128)%nat && (z =? 128)%nat).

(** [s.lstrip()] *)
Fixpoint lstrip (s : string) : string :=
  match s with
  | EmptyString => EmptyString
  | String a s1 =>
      if is_space a then lstrip s1
      else
        match s1 with
        | EmptyString => s
        | String b s2 =>
            if is_space2 a b then lstrip s2
            else
              match s2 with
              | EmptyString => s
              | String c s3 => if is_space3 a b c then lstrip s3 else s
              end
        end
  end.

(** [s.rstrip()]: the string is cut where the rest of it is white space
    only. *)
Fixpoint rstrip (s : string) : string :=
  match s with
  | EmptyString => EmptyString
  | String c s' =>
      if String.eqb (lstrip s) "" then "" else String c (rstrip s')
  end.

(** [s.strip()] *)
Definition strip (s : string) : string := rstrip (lstrip s).

Fixpoint rev_string (s acc : string) : string :=
  match s with
  | EmptyString => acc
  | String c s' => rev_string s' (String c acc)
  end.

(** [s.split(',')[-1]], together with [',' in s]. *)
Fixpoint last_part (s : string) (seen : bool) (part : string)
  : bool * string :=
  match s with
  | EmptyString => (seen, rev_string part "")
  | String c s' =>
      if Ascii.eqb c ","%char then last_part s' true ""
      else last_part s' seen (String c part)
  end.

(** Values decoded from a JSON body ([response.json()]) or built by the
    code: [None], booleans, numbers, strings, lists and dicts. *)
#[warnings="-register-all"]
Inductive value : Type :=
| VNone
| VBool (b : bool)
| VNum (x : Q)
| VStr (s : string)
| VList (l : list value)
| VDict (d : list (string * value)).

(** Truthiness, as tested by [if v] and [not v]. *)
Definition truthy (v : value) : bool :=
  match v with
  | VNone => false
  | VBool b => b
  | VNum x => negb (Qeq_bool x 0)
  | VStr s => negb (String.eqb s "")
  | VList l => negb (Nat.eqb (List.length l) 0)
  | VDict d => negb (Nat.eqb (List.length d) 0)
  end.

Definition is_none (v : value) : bool :=
  match v with VNone => true | _ => false end.

(** [isinstance(v, (int, float))]; [bool] is a subclass of [int]. *)
Definition as_number (v : value) : option Q :=
  match v with
  | VNum x => Some x
  | VBool true => Some 1%Q
  | VBool false => Some 0%Q
  | _ => None
  end.

(** [d.get(k, default)] on a dict value. *)
Definition get_or (k : string) (default : value) (d : dict value) : value :=
  match get k d with
  | Some v => v
  | None => default
  end.

Definition of_option_int (o : option Z) : value :=
  match o with
  | Some z => VNum (inject_Z z)
  | None => VNone
  end.

(** Computations that may raise: [Raised] stands for any Python exception
    ([TypeError], [AttributeError], [IndexError], [KeyError], ...). *)
Inductive exc (A : Type) : Type :=
| Return (a : A)
| Raised.
Arguments Return {A} a.
Arguments Raised {A}.

Definition bind {A B : Type} (m : exc A) (k : A -> exc B) : exc B :=
  match m with
  | Return a => k a
  | Raised => Raised
  end.

Definition of_option {A : Type} (o : option A) : exc A :=
  match o with
  | Some a => Return a
  | None => Raised
  end.

(** [try: ... except Exception: handler] *)
Definition try_except {A : Type} (m : exc A) (handler : A) : A :=
  match m with
  | Return a => a
  | Raised => handler
  end.

(** [min(a, b)] and [max(a, b)] on two numbers: the first argument wins
    ties. *)
Definition py_min (a b : Q) : Q := if Qlt_le_dec b a then b else a.
Definition py_max (a b : Q) : Q := if Qlt_le_dec a b then b else a.

End Py.

Notation "x <- m ;; k" := (Py.bind m (fun x => k))
  (at level 61, m at next level, right associativity).

(** ** core/utils.py *)

Module Utils.

(** One row of a breakpoint table: [(c_low, c_high, aqi_low, aqi_high)]. *)
Definition band : Type := (Q * Q * Z * Z)%type.

Definition c_low (b : band) : Q := let '(cl, _, _, _) := b in cl.
Definition c_high (b : band) : Q := let '(_, ch, _, _) := b in ch.
Definition aqi_low (b : band) : Z := let '(_, _, al, _) := b in al.
Definition aqi_high (b : band) : Z := let '(_, _, _, ah) := b in ah.

Definition row (cl ch : Q) (al ah : Z) : band := (cl, ch, al, ah).
Arguments row (cl ch)%_Q (al ah)%_Z.

Definition aqi_breakpoints : Py.dict (list band) :=
  [ ("pm25"%string,
      [ row 0 12.0 0 50;
        row 12.1 35.4 51 100;
        row 35.5 55.4 101 150;
        row 55.5 150.4 151 200;
        row 150.5 250.4 201 300;
        row 250.5 350.4 301 400;
        row 350.5 500.4 401 500 ]);
    ("pm10"%string,
      [ row 0 54 0 50;
        row 55 154 51 100;
        row 155 254 101 150;
        row 255 354 151 200;
        row 355 424 201 300;
        row 425 504 301 400;
        row 505 604 401 500 ]);
    ("o3"%string,
      [ row 0 54 0 50;
        row 55 70 51 100;
        row 71 85 101 150;
        row 86 105 151 200;
        row 106 200 201 300;
        row 201 400 301 400 ]);
    ("no2"%string,
      [ row 0 53 0 50;
        row 54 100 51 100;
        row 101 360 101 150;
        row 361 649 151 200;
        row 650 1249 201 300;
        row 1250 2049 301 400 ]);
    ("so2"%string,
      [ row 0 35 0 50;
        row 36 75 51 100;
        row 76 185 101 150;
        row 186 304 151 200;
        row 305 604 201 300;
        row 605 1004 301 400 ]);
    ("co"%string,
      [ row 0 4400 0 50;
        row 4401 9400 51 100;
        row 9401 12400 101 150;
        row 12401 15400 151 200;
        row 15401 30400 201 300;
        row 30401 50400 301 400 ]) ].

(** [c_low <= concentration <= c_high] *)
Definition in_band (b : band) (concentration : Q) : bool :=
  Qle_bool (c_low b) concentration && Qle_bool concentration (c_high b).

(** The interpolated value before rounding:
    [((aqi_high - aqi_low) / (c_high - c_low)) * (concentration - c_low) + aqi_low] *)
Definition interpolate (b : band) (concentration : Q) : Q :=
  (((inject_Z (aqi_high b) - inject_Z (aqi_low b)) / (c_high b - c_low b))
     * (concentration - c_low b) + inject_Z (aqi_low b))%Q.

(** The [for ... in breakpoints] loop: the first band that holds the
    concentration decides. *)
Fixpoint scan_breakpoints (breakpoints : list band) (concentration : Q)
  : option Z :=
  match breakpoints with
  | [] => None
  | b :: rest =>
      if in_band b concentration
      then Some (Py.round (interpolate b concentration))
      else scan_breakpoints rest concentration
  end.

(** [breakpoints[-1][1]] *)
Definition top_of_table (breakpoints : list band) : Q :=
  c_high (last breakpoints (row 0 0 0 0)).

Definition calculate_epa_aqi (pollutant : string) (concentration : Q)
  : option Z :=
  match Py.get (Py.lower pollutant) aqi_breakpoints with
  | None => None
  | Some breakpoints =>
      match scan_breakpoints breakpoints concentration with
      | Some aqi => Some aqi
      | None =>
          if Qlt_le_dec (top_of_table breakpoints) concentration
          then Some 500
          else None
      end
  end.

(** [calculate_epa_aqi] applied to a decoded value: comparing a band bound
    with anything that is not a number raises [TypeError]. *)
Definition calculate_epa_aqi_value (pollutant : string) (v : Py.value)
  : Py.exc (option Z) :=
  match Py.as_number v with
  | Some concentration => Py.Return (calculate_epa_aqi pollutant concentration)
  | None => Py.Raised
  end.

Record category_info : Type := mk_category_info {
  category : string;
  color : string;
  health_advice : string
}.

Definition unknown_category : category_info :=
  mk_category_info "Unknown" "#808080" "Unable to determine air quality.".

Definition category_of_int (aqi : Z) : category_info :=
  if aqi <=? 50 then
    mk_category_info "Good" "#00E400"
      "Air quality is satisfactory, and air pollution poses little or no risk."
  else if aqi <=? 100 then
    mk_category_info "Moderate" "#FFFF00"
      "Air quality is acceptable. However, there may be a risk for some people, particularly those who are unusually sensitive to air pollution."
  else if aqi <=? 150 then
    mk_category_info "Unhealthy for Sensitive Groups" "#FF7E00"
      "Members of sensitive groups may experience health effects. The general public is less likely to be affected."
  else if aqi <=? 200 then
    mk_category_info "Unhealthy" "#FF0000"
      "Some members of the general public may experience health effects; members of sensitive groups may experience more serious health effects."
  else if aqi <=? 300 then
    mk_category_info "Very Unhealthy" "#8F3F97"
      "Health alert: The risk of health effects is increased for everyone."
  else
    mk_category_info "Hazardous" "#7E0023"
      "Health warning of emergency conditions: everyone is more likely to be affected.".

(** [get_aqi_category(aqi)]: [None] and non-numbers give the Unknown entry;
    numbers are truncated with [int] and looked up. *)
Definition get_aqi_category (aqi : Py.value) : category_info :=
  match Py.as_number aqi with
  | None => unknown_category
  | Some x => category_of_int (Py.int x)
  end.

End Utils.

(** ** Python floats *)

Module Float.

(** A Python [float] is an IEEE 754 binary64 number; the arithmetic is
    the one of [SpecFloat] with 53 bits of precision, rounding to nearest,
    ties to even. *)
Definition prec : Z := 53.
Definition emax : Z := 1024.

Definition float : Type := spec_float.

(** [float(z)] of an int, also implicit when an int meets a float in an
    operation; exact below [2^53]. *)
Definition of_int (z : Z) : float := binary_normalize prec emax z 0 false.

Definition add : float -> float -> float := SFadd prec emax.
Definition sub : float -> float -> float := SFsub prec emax.
Definition mul : float -> float -> float := SFmul prec emax.
Definition div : float -> float -> float := SFdiv prec emax.

(** [x <= y] and [x < y]; false when either side is nan. *)
Definition leb : float -> float -> bool := SFleb.
Definition ltb : float -> float -> bool := SFltb.

(** The float a decimal literal with one digit after the point denotes:
    [tenths 354] is [35.4].  The literal is read as the double nearest to
    the decimal; the division of two ints that are exact as doubles gives
    that same double. *)
Definition tenths (n : Z) : float := div (of_int n) (of_int 10).

(** The exact value of a finite float. *)
Definition to_Q (x : float) : option Q :=
  match x with
  | S754_zero _ => Some 0%Q
  | S754_finite s m e =>
      let n := if s then Zneg m else Zpos m in
      Some (match e with
            | Zneg p => Qmake n (2 ^ p)%positive
            | _ => inject_Z (n * 2 ^ e)
            end)
  | S754_infinity _ => None
  | S754_nan => None
  end.

(** [int(round(x))]: the integer nearest to the exact value, ties to the
    even one; [round] raises on nan ([ValueError]) and on an infinity
    ([OverflowError]). *)
Definition round (x : float) : Py.exc Z :=
  match to_Q x with
  | Some q => Py.Return (Py.round q)
  | None => Py.Raised
  end.

End Float.

(** ** core/utils.py: the EPA sub-index in double precision *)

Module UtilsFloat.

Import Float.

(** One row of a breakpoint table: [(c_low, c_high, aqi_low, aqi_high)];
    the bounds as floats, an int bound being the float of the same
    value. *)
Definition band : Type := (float * float * Z * Z)%type.

Definition c_low (b : band) : float := let '(cl, _, _, _) := b in cl.
Definition c_high (b : band) : float := let '(_, ch, _, _) := b in ch.
Definition aqi_low (b : band) : Z := let '(_, _, al, _) := b in al.
Definition aqi_high (b : band) : Z := let '(_, _, _, ah) := b in ah.

Definition row (cl ch : float) (al ah : Z) : band := (cl, ch, al, ah).

(** A row with int bounds. *)
Definition int_row (cl ch al ah : Z) : band :=
  row (of_int cl) (of_int ch) al ah.

Definition aqi_breakpoints : Py.dict (list band) :=
  [ ("pm25"%string,
      [ row (of_int 0) (tenths 120) 0 50;
        row (tenths 121) (tenths 354) 51 100;
        row (tenths 355) (tenths 554) 101 150;
        row (tenths 555) (tenths 1504) 151 200;
        row (tenths 1505) (tenths 2504) 201 300;
        row (tenths 2505) (tenths 3504) 301 400;
        row (tenths 3505) (tenths 5004) 401 500 ]);
    ("pm10"%string,
      [ int_row 0 54 0 50;
        int_row 55 154 51 100;
        int_row 155 254 101 150;
        int_row 255 354 151 200;
        int_row 355 424 201 300;
        int_row 425 504 301 400;
        int_row 505 604 401 500 ]);
    ("o3"%string,
      [ int_row 0 54 0 50;
        int_row 55 70 51 100;
        int_row 71 85 101 150;
        int_row 86 105 151 200;
        int_row 106 200 201 300;
        int_row 201 400 301 400 ]);
    ("no2"%string,
      [ int_row 0 53 0 50;
        int_row 54 100 51 100;
        int_row 101 360 101 150;
        int_row 361 649 151 200;
        int_row 650 1249 201 300;
        int_row 1250 2049 301 400 ]);
    ("so2"%string,
      [ int_row 0 35 0 50;
        int_row 36 75 51 100;
        int_row 76 185 101 150;
        int_row 186 304 151 200;
        int_row 305 604 201 300;
        int_row 605 1004 301 400 ]);
    ("co"%string,
      [ int_row 0 4400 0 50;
        int_row 4401 9400 51 100;
        int_row 9401 12400 101 150;
        int_row 12401 15400 151 200;
        int_row 15401 30400 201 300;
        int_row 30401 50400 301 400 ]) ].

(** [c_low <= concentration <= c_high] *)
Definition in_band (b : band) (concentration : float) : bool :=
  leb (c_low b) concentration && leb concentration (c_high b).

(** [((aqi_high - aqi_low) / (c_high - c_low)) * (concentration - c_low)
    + aqi_low], each operation rounded to a double, in the order the
    expression is evaluated. *)
Definition interpolate (b : band) (concentration : float) : float :=
  add (mul (div (of_int (aqi_high b - aqi_low b))
              (sub (c_high b) (c_low b)))
         (sub concentration (c_low b)))
    (of_int (aqi_low b)).

(** The [for ... in breakpoints] loop: the first band that holds the
    concentration decides; [aqi] is the value before rounding. *)
Fixpoint scan_breakpoints (breakpoints : list band) (concentration : float)
  : option float :=
  match breakpoints with
  | [] => None
  | b :: rest =>
      if in_band b concentration
      then Some (interpolate b concentration)
      else scan_breakpoints rest concentration
  end.

(** [breakpoints[-1][1]] *)
Definition top_of_table (breakpoints : list band) : float :=
  c_high (last breakpoints (int_row 0 0 0 0)).

Definition calculate_epa_aqi (pollutant : string) (concentration : float)
  : Py.exc (option Z) :=
  match Py.get (Py.lower pollutant) aqi_breakpoints with
  | None => Py.Return None
  | Some breakpoints =>
      match scan_breakpoints breakpoints concentration with
      | Some aqi => n <- Float.round aqi ;; Py.Return (Some n)
      | None =>
          if ltb (top_of_table breakpoints) concentration
          then Py.Return (Some 500)
          else Py.Return None
      end
  end.

End UtilsFloat.

(** ** aqi/services.py: the outdoor-fetch client *)

Module Services.

Import Py.

(** *** Adaptive throttle *)

(** The two attributes the throttle works on: [min_interval] is the
    configured baseline, [_min_request_interval] the interval in force. *)
Record throttle : Type := mk_throttle {
  min_interval : Q;
  _min_request_interval : Q
}.

Definition _max_request_interval : Q := 2.0.

(** [__init__]: the baseline is [OPEN_METEO_MIN_INTERVAL] when the settings
    define it and 1.0 otherwise; the interval in force starts there. *)
Definition init (configured : option Q) : throttle :=
  match configured with
  | Some x => mk_throttle x x
  | None => mk_throttle 1.0 1.0
  end.

Definition _adjust_throttle_interval (increase : bool) (t : throttle)
  : throttle :=
  if increase then
    mk_throttle (min_interval t)
      (py_min (_min_request_interval t * 1.5) _max_request_interval)
  else if Qlt_le_dec (min_interval t) (_min_request_interval t) then
    mk_throttle (min_interval t)
      (py_max (_min_request_interval t * 0.95) (min_interval t))
  else t.

(** A run of the client as the sequence of adjustments it makes:
    [true] for a rate-limit (429) signal, [false] for a success. *)
Definition run_throttle (signals : list bool) (t : throttle) : throttle :=
  fold_left (fun t increase => _adjust_throttle_interval increase t) signals t.

(** *** Formatting one provider response *)

Record weather : Type := mk_weather {
  temperature : value;
  humidity : value;
  wind : value
}.

Record location_block : Type := mk_location {
  loc_lat : value;
  loc_lon : value;
  loc_city : value;
  loc_country : value
}.

Record current_block : Type := mk_current {
  cur_time : value;
  cur_pm2_5 : value;
  cur_pm10 : value;
  cur_ozone : value;
  cur_nitrogen_dioxide : value;
  cur_carbon_monoxide : value;
  cur_sulphur_dioxide : value;
  cur_dust : value;
  cur_uv_index : value
}.

(** The dict returned by [_format_current_response]. *)
Record formatted : Type := mk_formatted {
  f_location : location_block;
  f_timezone : value;
  f_current : current_block;
  f_aqi : value;
  f_us_aqi : value;
  f_european_aqi : value;
  f_aqi_source : option string;
  f_category : string;
  f_color : string;
  f_health_advice : string;
  f_dominant_pollutant : option string;
  f_lastUpdated : value;
  f_weather : option weather
}.

(** [pollutant_aqis[key] = calculate_epa_aqi(pollutant, v)], guarded by
    [if v is not None]. *)
Definition add_pollutant (key pollutant : string) (v : value)
  (pollutant_aqis : dict (option Z)) : exc (dict (option Z)) :=
  if is_none v then Return pollutant_aqis
  else
    a <- Utils.calculate_epa_aqi_value pollutant v ;;
    Return (Py.set key a pollutant_aqis).

(** [max((v for v in values if v is not None), default=None)] *)
Definition max_present (vs : list (option Z)) : option Z :=
  fold_left
    (fun acc v =>
       match v, acc with
       | Some z, Some m => Some (if m <? z then z else m)
       | Some z, None => Some z
       | None, _ => acc
       end)
    vs None.

(** [next(k for k, v in pollutant_aqis.items() if v == max_aqi)] *)
Fixpoint first_key_with (m : Z) (d : dict (option Z)) : option string :=
  match d with
  | [] => None
  | (k, Some z) :: d' => if z =? m then Some k else first_key_with m d'
  | (_, None) :: d' => first_key_with m d'
  end.

Definition dominant_of (pollutant_aqis : dict (option Z)) : option string :=
  match pollutant_aqis with
  | [] => None
  | _ =>
      match max_present (values pollutant_aqis) with
      | Some max_aqi =>
          if max_aqi =? 0 then None else first_key_with max_aqi pollutant_aqis
      | None => None
      end
  end.

(** [get_aqi_category(aqi_value) if aqi_value else {Unknown ...}] *)
Definition category_if_truthy (aqi_value : value) : Utils.category_info :=
  if truthy aqi_value then Utils.get_aqi_category aqi_value
  else Utils.unknown_category.

(** *** Enhanced payload *)

(** One entry of [pollutants_data]. *)
Record pollutant_entry : Type := mk_pollutant_entry {
  p_value : value;
  p_unit : string;
  p_epa_aqi : option Z;
  p_category : option string;
  p_color : option string
}.

(** One of the three blocks under ['aqi'] in the enhanced payload. *)
Record aqi_block : Type := mk_aqi_block {
  b_value : Z;
  b_category : string;
  b_color : string
}.

(** The part of the dict returned by [_enhance_with_aqi_calculations] that
    is computed from the current readings.  The pass-through entries
    (location, timezone, current, hourly) and the daily aggregates of the
    hourly series are not part of this record. *)
Record enhanced : Type := mk_enhanced {
  e_local_epa_aqi : option aqi_block;
  e_uaqi : option aqi_block;
  e_national_aqi : option aqi_block;
  e_category : string;
  e_color : string;
  e_pollutants : dict pollutant_entry;
  e_dominant_pollutant : option string;
  e_health_recommendations : list string
}.

(** Truthiness of an optional int: [None] and [0] are falsy. *)
Definition truthy_int (a : option Z) : bool :=
  match a with
  | Some z => negb (z =? 0)
  | None => false
  end.

(** The [if v is not None: pollutants_data[key] = {...}] step. *)
Definition add_entry (key pollutant : string) (v : value)
  (pollutants_data : dict pollutant_entry) : exc (dict pollutant_entry) :=
  if is_none v then Return pollutants_data
  else
    a <- Utils.calculate_epa_aqi_value pollutant v ;;
    let info := Utils.get_aqi_category (of_option_int a) in
    Return (Py.set key
              (mk_pollutant_entry v "µg/m³" a
                 (if truthy_int a then Some (Utils.category info) else None)
                 (if truthy_int a then Some (Utils.color info) else None))
              pollutants_data).

(** The scan for the dominant pollutant: [(max_aqi, dominant_pollutant)]
    starts at [(0, None)] and moves on a truthy, strictly larger index. *)
Definition scan_dominant (pollutants_data : dict pollutant_entry)
  : Z * option string :=
  fold_left
    (fun '(max_aqi, dominant) '(pollutant, data) =>
       match p_epa_aqi data with
       | Some a =>
           if negb (a =? 0) && (max_aqi <? a) then (a, Some pollutant)
           else (max_aqi, dominant)
       | None => (max_aqi, dominant)
       end)
    pollutants_data (0, None).

Definition recommendations (overall_aqi : option Z) : list string :=
  match overall_aqi with
  | Some a =>
      if a =? 0 then []
      else if a <=? 50 then
        [ "Air quality is good. Enjoy outdoor activities.";
          "No special precautions needed." ]
      else if a <=? 100 then
        [ "Air quality is acceptable for most people.";
          "Sensitive individuals should consider reducing prolonged outdoor exertion." ]
      else if a <=? 150 then
        [ "Sensitive groups should reduce outdoor activities.";
          "Children, elderly, and those with respiratory conditions should take extra care." ]
      else if a <=? 200 then
        [ "Everyone should reduce prolonged outdoor exertion.";
          "Sensitive groups should avoid outdoor activities.";
          "Keep windows closed if possible." ]
      else
        [ "Avoid all outdoor activities.";
          "Stay indoors with windows closed.";
          "Use air purifiers if available.";
          "Consider wearing N95 masks if going outside is necessary." ]
  | None => []
  end.

Definition _enhance_with_aqi_calculations (current_data : dict value)
  : exc enhanced :=
  if negb (truthy (VDict current_data)) then Raised
  else
    let current :=
      match get_or "current" (VDict []) current_data with
      | VDict c => c
      | _ => []
      end in
    d1 <- add_entry "pm25" "pm25" (get_or "pm2_5" VNone current) [] ;;
    d2 <- add_entry "pm10" "pm10" (get_or "pm10" VNone current) d1 ;;
    d3 <- add_entry "o3" "o3" (get_or "ozone" VNone current) d2 ;;
    d4 <- add_entry "no2" "no2" (get_or "nitrogen_dioxide" VNone current) d3 ;;
    d5 <- add_entry "co" "co" (get_or "carbon_monoxide" VNone current) d4 ;;
    d6 <- add_entry "so2" "so2" (get_or "sulphur_dioxide" VNone current) d5 ;;
    let pollutants_data := d6 in
    let dominant_pollutant := snd (scan_dominant pollutants_data) in
    let overall_aqi :=
      match dominant_pollutant with
      | Some k =>
          match Py.get k pollutants_data with
          | Some data => p_epa_aqi data
          | None => None
          end
      | None => None
      end in
    let aqi_info :=
      if truthy_int overall_aqi
      then Utils.get_aqi_category (of_option_int overall_aqi)
      else Utils.unknown_category in
    let block :=
      match overall_aqi with
      | Some a =>
          if a =? 0 then None
          else Some (mk_aqi_block a (Utils.category aqi_info) (Utils.color aqi_info))
      | None => None
      end in
    Return (mk_enhanced block block block
              (Utils.category aqi_info) (Utils.color aqi_info)
              pollutants_data dominant_pollutant
              (recommendations overall_aqi)).

Section Outdoor.

(** The network calls the formatter makes.  [_make_weather_request] gives
    the decoded body or nothing; [reverse_geocode] gives (city, country) or
    nothing.  Both swallow their own failures. *)
Variable _make_weather_request : value -> value -> value -> option (dict value).
Variable reverse_geocode : value -> value -> option (value * value).

(** [lo <= v <= hi]; raises when [v] is not a number. *)
Definition between (lo hi : Q) (v : value) : exc bool :=
  x <- of_option (as_number v) ;;
  Return (Qle_bool lo x && Qle_bool x hi).

Definition fetch_weather_data (latitude longitude timezone : value)
  : exc (option weather) :=
  lat_ok <- between (-90) 90 latitude ;;
  if negb lat_ok then Return None
  else
    lon_ok <- between (-180) 180 longitude ;;
    if negb lon_ok then Return None
    else
      match _make_weather_request latitude longitude timezone with
      | None => Return None
      | Some data =>
          if negb (truthy (VDict data)) then Return None
          else
            match get_or "current" (VDict []) data with
            | VDict current =>
                Return (Some (mk_weather
                                (get_or "temperature_2m" VNone current)
                                (get_or "relative_humidity_2m" VNone current)
                                (get_or "wind_speed_10m" VNone current)))
            | _ => Return None
            end
      end.

Definition _format_current_response (data latitude longitude : value)
  : exc formatted :=
  match data with
  | VDict d =>
      match get_or "current" (VDict []) d with
      | VDict current =>
          let timezone_info := get_or "timezone" (VStr "UTC") d in
          let pm25 := get_or "pm2_5" VNone current in
          let pm10 := get_or "pm10" VNone current in
          let o3 := get_or "ozone" VNone current in
          let no2 := get_or "nitrogen_dioxide" VNone current in
          let co := get_or "carbon_monoxide" VNone current in
          let so2 := get_or "sulphur_dioxide" VNone current in
          let us_aqi := get_or "us_aqi" VNone current in
          let european_aqi := get_or "european_aqi" VNone current in
          chosen <-
            (if negb (is_none us_aqi) then
               a1 <- add_pollutant "pm2_5" "pm25" pm25 [] ;;
               a2 <- add_pollutant "pm10" "pm10" pm10 a1 ;;
               a3 <- add_pollutant "nitrogen_dioxide" "no2" no2 a2 ;;
               a4 <- add_pollutant "ozone" "o3" o3 a3 ;;
               a5 <- add_pollutant "sulphur_dioxide" "so2" so2 a4 ;;
               a6 <- add_pollutant "carbon_monoxide" "co" co a5 ;;
               Return (us_aqi, dominant_of a6, Some "us_aqi")
             else if negb (is_none european_aqi) then
               a1 <- add_pollutant "pm2_5" "pm25" pm25 [] ;;
               a2 <- add_pollutant "pm10" "pm10" pm10 a1 ;;
               a3 <- add_pollutant "nitrogen_dioxide" "no2" no2 a2 ;;
               a4 <- add_pollutant "ozone" "o3" o3 a3 ;;
               a5 <- add_pollutant "sulphur_dioxide" "so2" so2 a4 ;;
               Return (european_aqi, dominant_of a5, Some "european_aqi")
             else if negb (is_none pm25) then
               a <- Utils.calculate_epa_aqi_value "pm25" pm25 ;;
               Return (of_option_int a, Some "pm2_5", Some "calculated_pm25")
             else if negb (is_none pm10) then
               a <- Utils.calculate_epa_aqi_value "pm10" pm10 ;;
               Return (of_option_int a, Some "pm10", Some "calculated_pm10")
             else Return (VNone, None, None)) ;;
          let '(aqi_value, dominant_pollutant, aqi_source) := chosen in
          let aqi_info := category_if_truthy aqi_value in
          weather_data <- fetch_weather_data latitude longitude timezone_info ;;
          let location_info := reverse_geocode latitude longitude in
          Return (mk_formatted
                    (mk_location latitude longitude
                       (match location_info with Some (c, _) => c | None => VNone end)
                       (match location_info with Some (_, c) => c | None => VNone end))
                    timezone_info
                    (mk_current
                       (get_or "time" (VStr "") current)
                       pm25 pm10 o3 no2 co so2
                       (get_or "dust" VNone current)
                       (get_or "uv_index" VNone current))
                    aqi_value us_aqi european_aqi aqi_source
                    (Utils.category aqi_info)
                    (Utils.color aqi_info)
                    (Utils.health_advice aqi_info)
                    dominant_pollutant
                    (get_or "time" (VStr "") current)
                    weather_data)
      | _ => Raised
      end
  | _ => Raised
  end.

(** *** Batch fetch *)

(** One entry of the [locations] argument: [{'lat': ..., 'lon': ...}]. *)
Record location : Type := mk_loc {
  lat : Q;
  lon : Q
}.

Definition BATCH_CHUNK_SIZE : nat := 20.

(** [[None] * n] *)
Definition nones (n : nat) : list (option formatted) := repeat None n.

(** [v[i]] for a non-negative index. *)
Definition index (v : value) (i : nat) : exc value :=
  match v with
  | VList l => of_option (nth_error l i)
  | VStr s =>
      match String.get i s with
      | Some c => Return (VStr (String c ""))
      | None => Raised
      end
  | _ => Raised
  end.

(** The per-location slice of the provider's parallel arrays: a list
    field gives its [i]-th element ([None] when too short), a scalar
    field applies to every location. *)
Definition location_current (current_data : dict value) (i : nat)
  : dict value :=
  map (fun '(key, v) =>
         match v with
         | VList l =>
             (key, match nth_error l i with Some x => x | None => VNone end)
         | _ => (key, v)
         end)
      current_data.

(** The body of an inner [try]: a formatted result, or [None] when the
    body raised. *)
Definition caught (m : exc formatted) : option formatted :=
  match m with
  | Return processed => Some processed
  | Raised => None
  end.

Definition process_batch_location (data : dict value) (timezone : value)
  (latitudes_resp : list value) (longitudes_resp : value)
  (current_data : dict value) (i : nat) : exc formatted :=
  lat <- of_option (nth_error latitudes_resp i) ;;
  lon <- index longitudes_resp i ;;
  let location_data :=
    VDict [ ("latitude", lat);
            ("longitude", lon);
            ("timezone", get_or "timezone" timezone data);
            ("current", VDict (location_current current_data i)) ] in
  _format_current_response location_data lat lon.

(** [enumerate(l)] *)
Definition enumerate {A : Type} (l : list A) : list (nat * A) :=
  combine (seq 0 (List.length l)) l.

(** What one iteration of the chunk loop appends to [all_results], given
    the value [data] that [_make_request] returned for the chunk. *)
Definition process_chunk (timezone : value) (chunk_locations : list location)
  (data : value) : list (option formatted) :=
  let n := List.length chunk_locations in
  if negb (truthy data) then nones n
  else
    match data with
    | VDict d =>
        if truthy (get_or "error" VNone d) then nones n
        else
          match Py.get "latitude" d with
          | Some (VList latitudes_resp) =>
              let longitudes_resp := get_or "longitude" (VList []) d in
              match get_or "current" (VDict []) d with
              | VDict current_data =>
                  let num_locations :=
                    Nat.min (List.length latitudes_resp) n in
                  let chunk_results :=
                    map (fun i =>
                           caught (process_batch_location d timezone
                                     latitudes_resp longitudes_resp
                                     current_data i))
                        (seq 0 num_locations) in
                  chunk_results ++ nones (n - List.length chunk_results)
              | _ => nones n
              end
          | _ =>
              match chunk_locations with
              | first :: _ =>
                  match _format_current_response data
                          (VNum (lat first)) (VNum (lon first)) with
                  | Return processed => Some processed :: nones (n - 1)
                  | Raised => nones n
                  end
              | [] => nones n
              end
          end
    | VList items =>
        map (fun '(i, loc) =>
               match nth_error items i with
               | Some item =>
                   caught (_format_current_response item
                             (VNum (lat loc)) (VNum (lon loc)))
               | None => None
               end)
            (enumerate chunk_locations)
    | _ => nones n
    end.

(** [locations[0:20], locations[20:40], ...]; [fuel] bounds the number of
    chunks and [length locations] is always enough. *)
Fixpoint chunks (fuel : nat) (locations : list location)
  : list (list location) :=
  match fuel with
  | O => []
  | S fuel' =>
      match locations with
      | [] => []
      | _ =>
          firstn BATCH_CHUNK_SIZE locations
            :: chunks fuel' (skipn BATCH_CHUNK_SIZE locations)
      end
  end.

(** The chunk loop.  [responses] lists what the successive calls of
    [_make_request] return, one per chunk ([None] once it runs out). *)
Fixpoint collect (timezone : value) (chs : list (list location))
  (responses : list value) : list (option formatted) :=
  match chs with
  | [] => []
  | chunk_locations :: chs' =>
      process_chunk timezone chunk_locations (hd VNone responses)
        ++ collect timezone chs' (tl responses)
  end.

(** [all_results] at the end of the loop: one slot per input location. *)
Definition all_results (locations : list location) (responses : list value)
  (timezone : value) : list (option formatted) :=
  collect timezone (chunks (List.length locations) locations) responses.

(** [[r for r in all_results if r is not None]] *)
Fixpoint valid_results (results : list (option formatted)) : list formatted :=
  match results with
  | [] => []
  | Some r :: rest => r :: valid_results rest
  | None :: rest => valid_results rest
  end.

Definition fetch_batch_current_aqi (locations : list location)
  (responses : list value) (timezone : value) : list formatted :=
  match locations with
  | [] => []
  | _ => valid_results (all_results locations responses timezone)
  end.

End Outdoor.

End Services.

(** ** aqi/tasks.py: the alert sweep *)

Module Tasks.

Import Py.

Definition AQI_THRESHOLD : Q := 100.

(** *** Stored rows *)

Record User : Type := mk_user {
  user_id : nat;
  email : string;
  user_is_active : bool
}.

Record CitySubscription : Type := mk_subscription {
  sub_user : User;
  sub_city : string;
  sub_country : string;
  sub_latitude : Q;
  sub_longitude : Q;
  sub_is_active : bool
}.

Record SavedLocation : Type := mk_saved_location {
  sl_id : nat;
  sl_user : nat;
  sl_name : string;
  sl_latitude : Q;
  sl_longitude : Q;
  sl_city : string;
  sl_country : string
}.

Record AQINotification : Type := mk_notification {
  n_user : nat;
  n_saved_location : nat;
  n_aqi_value : Q;
  n_date : Z
}.

(** An alert email handed to the mail transport and accepted by it.  The
    date of the sweep that sent it is recorded with it. *)
Record alert_mail : Type := mk_mail {
  m_user : nat;
  m_saved_location : nat;
  m_aqi_value : Q;
  m_date : Z
}.

(** The state a sweep works on: the [saved_locations] and
    [aqi_notifications] tables, the alert emails delivered so far, and the
    outcomes of the coming [send_mail] calls ([true]: accepted, [false]:
    the transport raised; a failure once the list runs out). *)
Record world : Type := mk_world {
  saved_locations : list SavedLocation;
  notifications : list AQINotification;
  outbox : list alert_mail;
  transport : list bool
}.

Inductive status : Type := Success | Error.

(** The summary dict the task returns. *)
Record summary : Type := mk_summary {
  s_status : status;
  notifications_sent : nat;
  error_count : nat
}.

(** *** Grouping by rounded coordinate *)

(** [round(x, 4)] *)
Definition round4 (x : Q) : Q := Qmake (Py.round (x * 10000)) 10000.

Definition coordinate : Type := (Q * Q)%type.

Definition coordinate_eqb (a b : coordinate) : bool :=
  Qeq_bool (fst a) (fst b) && Qeq_bool (snd a) (snd b).

Definition pair : Type := (User * CitySubscription)%type.

(** [location_groups[key].append(p)] on a [defaultdict(list)]; keys stay
    in the order of their first insertion. *)
Fixpoint append_to_group (key : coordinate) (p : pair)
  (groups : list (coordinate * list pair)) : list (coordinate * list pair) :=
  match groups with
  | [] => [(key, [p])]
  | (k, ps) :: groups' =>
      if coordinate_eqb key k then (k, (ps ++ [p])%list) :: groups'
      else (k, ps) :: append_to_group key p groups'
  end.

Definition group_subscriptions (subscriptions : list CitySubscription)
  : list (coordinate * list pair) :=
  fold_left
    (fun groups subscription =>
       if negb (user_is_active (sub_user subscription)) then groups
       else
         append_to_group
           (round4 (sub_latitude subscription),
            round4 (sub_longitude subscription))
           (sub_user subscription, subscription) groups)
    subscriptions [].

(** *** Storage operations *)

Definition fresh_id (rows : list SavedLocation) : nat :=
  S (fold_right (fun l m => Nat.max (sl_id l) m) O rows).

(** [SavedLocation.objects.get_or_create(user, latitude, longitude,
    defaults=...)].  The table is unique on (user, latitude, longitude), so
    the lookup has at most one match. *)
Definition get_or_create (user : User) (subscription : CitySubscription)
  (w : world) : SavedLocation * world :=
  match
    find (fun l =>
            Nat.eqb (sl_user l) (user_id user)
            && Qeq_bool (sl_latitude l) (sub_latitude subscription)
            && Qeq_bool (sl_longitude l) (sub_longitude subscription))
         (saved_locations w)
  with
  | Some l => (l, w)
  | None =>
      let l :=
        mk_saved_location (fresh_id (saved_locations w)) (user_id user)
          (sub_city subscription ++ ", " ++ sub_country subscription)
          (sub_latitude subscription) (sub_longitude subscription)
          (sub_city subscription) (sub_country subscription) in
      (l, mk_world (l :: saved_locations w) (notifications w) (outbox w)
            (transport w))
  end.

(** [AQINotification.objects.filter(user, saved_location, date).exists()] *)
Definition notified (user : User) (saved_location : SavedLocation)
  (today : Z) (w : world) : bool :=
  existsb (fun n =>
             Nat.eqb (n_user n) (user_id user)
             && Nat.eqb (n_saved_location n) (sl_id saved_location)
             && (n_date n =? today))
          (notifications w).

(** *** Sending *)

(** [send_aqi_alert_email] of [aqi/utils.py].  Building the message calls
    [.replace] on the dominant pollutant, which raises when it is [None];
    after that [send_mail] is tried once and its failure is swallowed. *)
Definition send_aqi_alert_email (user : User) (saved_location : SavedLocation)
  (aqi_value : Q) (aqi_data : Services.formatted) (today : Z) (w : world)
  : exc bool * world :=
  match Services.f_dominant_pollutant aqi_data with
  | None => (Raised, w)
  | Some _ =>
      match transport w with
      | true :: rest =>
          (Return true,
           mk_world (saved_locations w) (notifications w)
             (mk_mail (user_id user) (sl_id saved_location) aqi_value today
                :: outbox w)
             rest)
      | false :: rest =>
          (Return false,
           mk_world (saved_locations w) (notifications w) (outbox w) rest)
      | [] => (Return false, w)
      end
  end.

(** Running counters of the sweep: [(notifications_sent, len(errors))]. *)
Definition counters : Type := (nat * nat)%type.

(** The body of the loop over the (user, subscription) pairs of one
    coordinate, with its [try ... except Exception]. *)
Definition process_pair (today : Z) (aqi_value : Q)
  (aqi_data : Services.formatted) (p : pair) (st : world * counters)
  : world * counters :=
  let '(w, (sent, errors)) := st in
  let '(user, subscription) := p in
  let '(saved_location, w1) := get_or_create user subscription w in
  if notified user saved_location today w1 then (w1, (sent, errors))
  else
    match send_aqi_alert_email user saved_location aqi_value aqi_data today w1 with
    | (Return true, w2) =>
        (mk_world (saved_locations w2)
           (mk_notification (user_id user) (sl_id saved_location) aqi_value today
              :: notifications w2)
           (outbox w2) (transport w2),
         (S sent, errors))
    | (Return false, w2) => (w2, (sent, S errors))
    | (Raised, w2) => (w2, (sent, S errors))
    end.

(** [location_aqi_map.get((lat, lon))], where the map pairs the [i]-th
    key of [location_groups] with [aqi_results[i]] for every
    [i < len(aqi_results)]. *)
Fixpoint location_aqi_map_get (key : coordinate) (keys : list coordinate)
  (aqi_results : list Services.formatted) : option Services.formatted :=
  match keys, aqi_results with
  | k :: keys', r :: results' =>
      if coordinate_eqb key k then Some r
      else location_aqi_map_get key keys' results'
  | _, _ => None
  end.

(** One iteration of the loop over [location_groups.items()].  The
    comparison [aqi_value < AQI_THRESHOLD] raises on a value that is not a
    number; that exception leaves the loop. *)
Definition process_group (today : Z) (keys : list coordinate)
  (aqi_results : list Services.formatted)
  (group : coordinate * list pair) (st : world * counters)
  : exc (world * counters) :=
  let '(key, user_location_pairs) := group in
  match location_aqi_map_get key keys aqi_results with
  | None => Return st
  | Some aqi_data =>
      let aqi_value := Services.f_aqi aqi_data in
      if is_none aqi_value then Return st
      else
        match as_number aqi_value with
        | None => Raised
        | Some a =>
            if Qlt_le_dec a AQI_THRESHOLD then Return st
            else
              Return (fold_left
                        (fun st p => process_pair today a aqi_data p st)
                        user_location_pairs st)
        end
  end.

(** The loop over the groups; on an exception the state reached so far
    stays and the task reports an error. *)
Fixpoint process_groups (today : Z) (keys : list coordinate)
  (aqi_results : list Services.formatted)
  (groups : list (coordinate * list pair)) (st : world * counters)
  : world * counters * bool :=
  match groups with
  | [] => (st, true)
  | group :: groups' =>
      match process_group today keys aqi_results group st with
      | Return st' => process_groups today keys aqi_results groups' st'
      | Raised => (st, false)
      end
  end.

Section Sweep.

Variable _make_weather_request : value -> value -> value -> option (dict value).
Variable reverse_geocode : value -> value -> option (value * value).

(** [check_and_send_aqi_alerts].  [subscriptions] is the
    [city_subscriptions] table, [responses] what the provider answers to
    the successive batch requests of this run. *)
Definition check_and_send_aqi_alerts (today : Z)
  (subscriptions : list CitySubscription) (responses : list value)
  (w : world) : world * summary :=
  let active := filter sub_is_active subscriptions in
  match active with
  | [] => (w, mk_summary Success 0 0)
  | _ =>
      let location_groups := group_subscriptions active in
      match location_groups with
      | [] => (w, mk_summary Success 0 0)
      | _ =>
          let keys := map fst location_groups in
          let unique_locations :=
            map (fun '(lat, lon) => Services.mk_loc lat lon) keys in
          let aqi_results :=
            Services.fetch_batch_current_aqi _make_weather_request
              reverse_geocode unique_locations responses (VStr "auto") in
          match aqi_results with
          | [] => (w, mk_summary Error 0 0)
          | _ =>
              match
                process_groups today keys aqi_results location_groups
                  (w, (O, O))
              with
              | ((w', (sent, errors)), true) =>
                  (w', mk_summary Success sent errors)
              | ((w', _), false) => (w', mk_summary Error 0 0)
              end
          end
      end
  end.

End Sweep.

End Tasks.

(** ** aqi/waqi_service.py: worst-AQI rankings *)

Module Waqi.

Import Py.

(** What [fetch_aqi_for_station] returns for a station, reduced to the
    entries the builder reads: [aqi], [city.name], [iaqi.pm25.v],
    [iaqi.pm10.v]. *)
Record station_data : Type := mk_station_data {
  d_aqi : value;
  d_city_name : option string;
  d_pm25 : option Q;
  d_pm10 : option Q
}.

(** A station of a bounding box with the outcome of its feed request. *)
Record station : Type := mk_station {
  st_lat : option Q;
  st_lon : option Q;
  st_feed : option station_data
}.

(** A ranking entry.  The region, coordinates, update time and trend of
    the source dict are not part of this record. *)
Record observation : Type := mk_observation {
  city : string;
  country : string;
  aqi : Z;
  category : string;
  dominantPollutant : string;
  aqi_pm25 : option Z;
  aqi_pm10 : option Z;
  rank : option nat
}.

Definition _extract_country_from_city_name (city_name : string) : string :=
  match last_part city_name false "" with
  | (true, part) => strip part
  | (false, _) => "Unknown"
  end.

Definition nonzero (x : option Q) : bool :=
  match x with
  | Some q => negb (Qeq_bool q 0)
  | None => false
  end.

Definition dominant_pollutant (pm25 pm10 : option Q)
  (aqi_pm25 aqi_pm10 : option Z) : string :=
  match pm25, pm10 with
  | Some x25, Some x10 =>
      if nonzero pm25 && nonzero pm10 then
        if Services.truthy_int aqi_pm10 && Services.truthy_int aqi_pm25 then
          match aqi_pm10, aqi_pm25 with
          | Some a10, Some a25 => if a25 <? a10 then "pm10" else "pm2_5"
          | _, _ => "pm2_5"
          end
        else if Qlt_le_dec x25 x10 then "pm10" else "pm2_5"
      else if nonzero pm10 then "pm10" else "pm2_5"
  | _, _ => if nonzero pm10 then "pm10" else "pm2_5"
  end.

(** The part of the station loop between the feed request and the
    de-duplication: the checks that skip a reading, and the observation
    built from one that passes. *)
Definition observe (data : station_data) : option observation :=
  match as_number (d_aqi data) with
  | None => None
  | Some aqi_value =>
      if Qle_bool aqi_value 0 then None
      else
        match d_city_name data with
        | None => None
        | Some city_name =>
            if String.eqb city_name "Unknown" || String.eqb city_name ""
            then None
            else
              let aqi_pm25 :=
                match d_pm25 data with
                | Some c => Utils.calculate_epa_aqi "pm25" c
                | None => None
                end in
              let aqi_pm10 :=
                match d_pm10 data with
                | Some c => Utils.calculate_epa_aqi "pm10" c
                | None => None
                end in
              Some (mk_observation city_name
                      (_extract_country_from_city_name city_name)
                      (Py.round aqi_value)
                      (Utils.category
                         (Utils.category_of_int (Py.int aqi_value)))
                      (dominant_pollutant (d_pm25 data) (d_pm10 data)
                         aqi_pm25 aqi_pm10)
                      aqi_pm25 aqi_pm10 None)
        end
  end.

Section Rankings.

(** [str.lower]; nothing below depends on which characters it folds. *)
Variable lower : string -> string.

(** [f"{city_name}_{country}".lower()] *)
Definition city_key (o : observation) : string :=
  lower (city o ++ "_" ++ country o).

(** De-duplication: a new key is appended, a known key keeps the entry
    with the strictly higher index. *)
Definition dedup (obs : observation) (city_aqi_map : dict observation)
  : dict observation :=
  match Py.get (city_key obs) city_aqi_map with
  | None => Py.set (city_key obs) obs city_aqi_map
  | Some existing =>
      if aqi existing <? aqi obs
      then Py.set (city_key obs) obs city_aqi_map
      else city_aqi_map
  end.

Definition max_stations_per_box : nat := 30.
Definition max_total_stations : nat := 200.

(** The loop over the stations of one bounding box.  The state is
    [(city_aqi_map, stations_processed)]. *)
Fixpoint scan_stations (stations : list station)
  (st : dict observation * nat) : dict observation * nat :=
  match stations with
  | [] => st
  | s :: rest =>
      let '(city_aqi_map, stations_processed) := st in
      if (max_total_stations <=? stations_processed)%nat then st
      else
        match st_lat s, st_lon s with
        | Some _, Some _ =>
            let st' :=
              match st_feed s with
              | None => (city_aqi_map, S stations_processed)
              | Some data =>
                  match observe data with
                  | None => (city_aqi_map, S stations_processed)
                  | Some o => (dedup o city_aqi_map, S stations_processed)
                  end
              end in
            scan_stations rest st'
        | _, _ => scan_stations rest st
        end
  end.

(** [sum(1 for obs in city_aqi_map.values() if obs.get('aqi', 0) > 100)] *)
Definition high_aqi_count (city_aqi_map : dict observation) : nat :=
  List.length (filter (fun o => 100 <? aqi o) (values city_aqi_map)).

(** The loop over the bounding boxes, each given by the stations the
    bounds request returned for it.  The wall-clock cut-offs of the source
    are left out; they only end the scan earlier. *)
Fixpoint scan_boxes (top_n : nat) (boxes : list (list station))
  (st : dict observation * nat) : dict observation * nat :=
  match boxes with
  | [] => st
  | stations :: rest =>
      let '(city_aqi_map, _) := st in
      if (top_n * 2 <=? List.length city_aqi_map)%nat
         && (top_n <=? high_aqi_count city_aqi_map)%nat
      then st
      else
        let st' := scan_stations (firstn max_stations_per_box stations) st in
        if (max_total_stations <=? snd st')%nat then st'
        else scan_boxes top_n rest st'
  end.

(** [list.sort(key=lambda x: x['aqi'], reverse=True)]: stable, highest
    index first. *)
Fixpoint insert_desc (o : observation) (sorted : list observation)
  : list observation :=
  match sorted with
  | [] => [o]
  | o' :: sorted' =>
      if aqi o <? aqi o' then o' :: insert_desc o sorted'
      else o :: sorted
  end.

Definition sort_desc (l : list observation) : list observation :=
  fold_right insert_desc [] l.

Definition set_rank (i : nat) (o : observation) : observation :=
  mk_observation (city o) (country o) (aqi o) (category o)
    (dominantPollutant o) (aqi_pm25 o) (aqi_pm10 o) (Some i).

(** [for i, obs in enumerate(all_observations[:top_n], 1): obs['rank'] = i],
    then [return all_observations[:top_n]]. *)
Definition assign_ranks (top : list observation) : list observation :=
  map (fun '(i, o) => set_rank (S i) o) (Services.enumerate top).

Definition build_worst_aqi_rankings (top_n : nat)
  (boxes : list (list station)) : list observation :=
  let city_aqi_map := fst (scan_boxes top_n boxes ([], O)) in
  let all_observations := sort_desc (values city_aqi_map) in
  assign_ranks (firstn top_n all_observations).

End Rankings.

End Waqi.

(** ** accounts/models.py and accounts/views.py: password reset *)

Module Accounts.

(** The columns of [users] the reset flow touches.  Times are instants in
    microseconds. *)
Record User : Type := mk_user {
  id : nat;
  email : string;
  password : string;
  password_reset_token : option string;
  password_reset_expires : option Z
}.

(** [timezone.timedelta(hours=1)] *)
Definition one_hour : Z := 3600 * 1000000.

(** [generate_password_reset_token]; [token] is what
    [secrets.token_urlsafe(32)] produced and [now] the current instant. *)
Definition generate_password_reset_token (token : string) (now : Z)
  (self : User) : User :=
  mk_user (id self) (email self) (password self)
    (Some token) (Some (now + one_hour)).

Definition is_password_reset_token_valid (token : string) (now : Z)
  (self : User) : bool :=
  match password_reset_token self, password_reset_expires self with
  | Some stored, Some expires =>
      if String.eqb stored "" then false
      else if negb (String.eqb stored token) then false
      else if expires <? now then false
      else true
  | _, _ => false
  end.

Definition clear_password_reset_token (self : User) : User :=
  mk_user (id self) (email self) (password self) None None.

(** *** Storage *)

Inductive lookup : Type :=
| Found (user : User)
| DoesNotExist
| MultipleObjectsReturned.

(** [User.objects.get(...)] *)
Definition objects_get (matches : User -> bool) (db : list User) : lookup :=
  match filter matches db with
  | [] => DoesNotExist
  | [user] => Found user
  | _ => MultipleObjectsReturned
  end.

(** [user.save()]: the row with the user's primary key is overwritten. *)
Definition save (user : User) (db : list User) : list User :=
  map (fun row => if Nat.eqb (id row) (id user) then user else row) db.

Definition has_token (token : string) (user : User) : bool :=
  match password_reset_token user with
  | Some stored => String.eqb stored token
  | None => false
  end.

Definition has_email (address : string) (user : User) : bool :=
  String.eqb (email user) address.

(** *** Views *)

Record Response : Type := mk_response {
  status_code : nat;
  error : bool;
  detail : string
}.

Definition HTTP_200_OK : nat := 200.
Definition HTTP_400_BAD_REQUEST : nat := 400.
Definition HTTP_500_INTERNAL_SERVER_ERROR : nat := 500.

Section Views.

(** The request body as received, and the two serializers of the views:
    each gives the validated data, or nothing when validation fails (the
    framework then answers 400).  [make_password] is the password hasher
    behind [set_password]. *)
Variable body : Type.
Variable PasswordResetRequestSerializer : body -> option string.
Variable PasswordResetSerializer : body -> option (string * string).
Variable make_password : string -> string.

Definition set_password (raw : string) (self : User) : User :=
  mk_user (id self) (email self) (make_password raw)
    (password_reset_token self) (password_reset_expires self).

(** [ForgotPasswordView.post].  [token] and [now] are the random token and
    the instant used if a token is generated.  The reset email is sent by
    [send_password_reset_email], which swallows its own failures. *)
Definition ForgotPasswordView_post (request : body) (token : string)
  (now : Z) (db : list User) : list User * Response :=
  match PasswordResetRequestSerializer request with
  | None =>
      (db, mk_response HTTP_400_BAD_REQUEST true "Invalid input.")
  | Some address =>
      match objects_get (has_email address) db with
      | Found user =>
          (save (generate_password_reset_token token now user) db,
           mk_response HTTP_200_OK false
             "If the email exists, a password reset email has been sent.")
      | DoesNotExist =>
          (db,
           mk_response HTTP_200_OK false
             "If the email exists, a password reset email has been sent.")
      | MultipleObjectsReturned =>
          (db,
           mk_response HTTP_500_INTERNAL_SERVER_ERROR true
             "get() returned more than one User")
      end
  end.

(** [ResetPasswordView.post] *)
Definition ResetPasswordView_post (request : body) (now : Z)
  (db : list User) : list User * Response :=
  match PasswordResetSerializer request with
  | None =>
      (db, mk_response HTTP_400_BAD_REQUEST true "Invalid input.")
  | Some (token, new_password) =>
      match objects_get (has_token token) db with
      | Found user =>
          if negb (is_password_reset_token_valid token now user) then
            (db,
             mk_response HTTP_400_BAD_REQUEST true
               "Invalid or expired password reset token.")
          else
            (save (clear_password_reset_token (set_password new_password user))
               db,
             mk_response HTTP_200_OK false "Password successfully reset.")
      | DoesNotExist =>
          (db,
           mk_response HTTP_400_BAD_REQUEST true
             "Invalid password reset token.")
      | MultipleObjectsReturned =>
          (db,
           mk_response HTTP_500_INTERNAL_SERVER_ERROR true
             "get() returned more than one User")
      end
  end.

End Views.

End Accounts.

(** ** core/utils.py: indoor air quality *)

Module Indoor.

Import Py.

(** CO thresholds in ppm. *)
Definition co_index (co_ppm : Q) : Z :=
  if Qle_bool co_ppm 1 then 25
  else if Qle_bool co_ppm 4 then 50
  else if Qle_bool co_ppm 9 then 75
  else if Qle_bool co_ppm 15 then 100
  else if Qle_bool co_ppm 25 then 125
  else if Qle_bool co_ppm 35 then 150
  else if Qle_bool co_ppm 50 then 200
  else if Qle_bool co_ppm 100 then 300
  else 400.

(** CO2 thresholds in ppm. *)
Definition co2_index (co2_ppm : Q) : Z :=
  if Qle_bool co2_ppm 400 then 25
  else if Qle_bool co2_ppm 600 then 50
  else if Qle_bool co2_ppm 1000 then 75
  else if Qle_bool co2_ppm 1500 then 100
  else if Qle_bool co2_ppm 2000 then 125
  else if Qle_bool co2_ppm 2500 then 150
  else if Qle_bool co2_ppm 5000 then 200
  else 300.

(** CH4 thresholds in ppm. *)
Definition ch4_index (ch4_ppm : Q) : Z :=
  if Qle_bool ch4_ppm 2 then 25
  else if Qle_bool ch4_ppm 10 then 50
  else if Qle_bool ch4_ppm 50 then 75
  else if Qle_bool ch4_ppm 100 then 100
  else if Qle_bool ch4_ppm 500 then 125
  else if Qle_bool ch4_ppm 1000 then 150
  else if Qle_bool ch4_ppm 5000 then 200
  else 300.

(** [aqi_values]: one entry per reading that is present, in the order
    co, co2, ch4. *)
Definition aqi_values (co_ppm co2_ppm ch4_ppm : option Q) : dict Z :=
  let d0 := [] in
  let d1 :=
    match co_ppm with
    | Some x => Py.set "co" (co_index x) d0
    | None => d0
    end in
  let d2 :=
    match co2_ppm with
    | Some x => Py.set "co2" (co2_index x) d1
    | None => d1
    end in
  match ch4_ppm with
  | Some x => Py.set "ch4" (ch4_index x) d2
  | None => d2
  end.

(** [max(d, key=d.get)] on a non-empty dict: the first key whose value is
    the largest. *)
Fixpoint max_key (best : string * Z) (rest : dict Z) : string * Z :=
  match rest with
  | [] => best
  | (k, v) :: rest' =>
      if snd best <? v then max_key (k, v) rest' else max_key best rest'
  end.

Definition pollutant_names : dict string :=
  [ ("co", "CO"); ("co2", "CO₂"); ("ch4", "CH₄") ].

(** The dict [calculate_indoor_aqi] returns. *)
Record indoor : Type := mk_indoor {
  aqi : option Z;
  category : option string;
  color : option string;
  dominant_pollutant : option string
}.

Definition calculate_indoor_aqi (co_ppm co2_ppm ch4_ppm : option Q) : indoor :=
  match aqi_values co_ppm co2_ppm ch4_ppm with
  | [] => mk_indoor None None None None
  | first :: rest =>
      let '(dominant_pollutant_key, max_aqi) := max_key first rest in
      let category_info := Utils.get_aqi_category (VNum (inject_Z max_aqi)) in
      mk_indoor (Some max_aqi)
        (Some (Utils.category category_info))
        (Some (Utils.color category_info))
        (Py.get dominant_pollutant_key pollutant_names)
  end.

End Indoor.

(** ** aqi/services.py: the request loop *)

Module Requests.

Import Py Services.

(** The body of an HTTP answer: no content, content that is not JSON, or
    a decoded JSON value. *)
Inductive content : Type :=
| NoContent
| NotJson
| Json (data : value).

(** What one call of [requests.get] does: it times out, fails with
    another [RequestException], or brings an answer. *)
Inductive outcome : Type :=
| Timeout
| RequestException
| Answer (status_code : nat) (body : content).

(** What [_make_request] did: the value it returned, the throttle it
    left, the waits it slept (in seconds, oldest first) and the number of
    requests it sent. *)
Record made : Type := mk_made {
  returned : option (dict value);
  throttle_after : throttle;
  slept : list nat;
  requests_sent : nat
}.

(** What the loop body does with the outcome of one attempt. *)
Inductive step : Type :=
| Done (data : option (dict value)) (adjusted : bool)
| Retry (wait_time : nat) (increase : bool).

(** The part of the loop body after [raise_for_status]: the answer is
    decoded and only a JSON object is handed back. *)
Definition decode (body : content) : option (dict value) :=
  match body with
  | NoContent => None
  | NotJson => None
  | Json (VDict d) => Some d
  | Json _ => None
  end.

(** One pass through the loop body, for attempt number [attempt] of
    [retries]. *)
Definition attempt_step (retries attempt : nat) (o : outcome) : step :=
  let last := negb (attempt <? retries - 1)%nat in
  match o with
  | Timeout => if last then Done None false else Retry (2 ^ attempt) false
  | RequestException =>
      if last then Done None false else Retry (2 ^ attempt) false
  | Answer status_code body =>
      if (status_code =? 429)%nat then
        if last then Done None false
        else Retry (2 * 2 ^ attempt + attempt * 1) true
      else if (status_code =? 400)%nat then Done None false
      else if (500 <=? status_code)%nat then
        if last then Done None false else Retry (2 ^ attempt) false
      else if (400 <=? status_code)%nat && (status_code <? 600)%nat then
        (* [raise_for_status] raises an [HTTPError] *)
        if last then Done None false else Retry (2 ^ attempt) false
      else
        match decode body with
        | Some d => Done (Some d) true
        | None => Done None false
        end
  end.

(** [for attempt in range(retries)], given the outcome of each attempt's
    request. *)
Fixpoint request_loop (retries : nat) (attempts : list nat)
  (outcomes : nat -> outcome) (t : throttle) (waits : list nat) (sent : nat)
  : made :=
  match attempts with
  | [] => mk_made None t waits sent
  | attempt :: rest =>
      match attempt_step retries attempt (outcomes attempt) with
      | Done data adjusted =>
          mk_made data
            (if adjusted then _adjust_throttle_interval false t else t)
            waits (S sent)
      | Retry wait_time increase =>
          request_loop retries rest outcomes
            (if increase then _adjust_throttle_interval true t else t)
            (waits ++ [wait_time]) (S sent)
      end
  end.

(** [_make_request], after the initial throttle pause. *)
Definition _make_request (retries : nat) (outcomes : nat -> outcome)
  (t : throttle) : made :=
  request_loop retries (seq 0 retries) outcomes t [] 0.

End Requests.

(** ** accounts/models.py and accounts/views.py: email verification *)

Module Verification.

(** The columns of [users] the verification flow touches.  Times are
    instants in microseconds. *)
Record User : Type := mk_user {
  id : nat;
  email : string;
  is_verified : bool;
  verification_token : option string;
  verification_token_created : option Z
}.

(** [generate_verification_token]; [token] is what
    [secrets.token_urlsafe(32)] produced and [now] the current instant. *)
Definition generate_verification_token (token : string) (now : Z)
  (self : User) : User :=
  mk_user (id self) (email self) (is_verified self) (Some token) (Some now).

(** *** Storage *)

Inductive lookup : Type :=
| Found (user : User)
| DoesNotExist
| MultipleObjectsReturned.

(** [User.objects.get(...)] *)
Definition objects_get (matches : User -> bool) (db : list User) : lookup :=
  match filter matches db with
  | [] => DoesNotExist
  | [user] => Found user
  | _ => MultipleObjectsReturned
  end.

(** [user.save(update_fields=[...])]: the row with the user's primary key
    is overwritten. *)
Definition save (user : User) (db : list User) : list User :=
  map (fun row => if Nat.eqb (id row) (id user) then user else row) db.

Definition has_token (token : string) (user : User) : bool :=
  match verification_token user with
  | Some stored => String.eqb stored token
  | None => false
  end.

Definition has_email (address : string) (user : User) : bool :=
  String.eqb (email user) address.

(** *** Views *)

(** [a or b] on two optional strings: [a] unless it is [None] or empty. *)
Definition or_else (a b : option string) : option string :=
  match a with
  | Some s => if String.eqb s "" then b else a
  | None => b
  end.

(** [VerifyEmailView.post].  [query_token] is
    [request.query_params.get('token')] and [data_token] is
    [request.data.get('token')], for a body whose token is a string. *)
Definition VerifyEmailView_post (query_token data_token : option string)
  (db : list User) : list User * Accounts.Response :=
  let required :=
    (db, Accounts.mk_response Accounts.HTTP_400_BAD_REQUEST true
           "Verification token is required.") in
  match or_else query_token data_token with
  | None => required
  | Some token =>
      if String.eqb token "" then required
      else
        match objects_get (has_token token) db with
        | Found user =>
            if is_verified user then
              (db,
               Accounts.mk_response Accounts.HTTP_200_OK false
                 "Email is already verified.")
            else
              (save (mk_user (id user) (email user) true None None) db,
               Accounts.mk_response Accounts.HTTP_200_OK false
                 "Email successfully verified.")
        | DoesNotExist =>
            (db,
             Accounts.mk_response Accounts.HTTP_400_BAD_REQUEST true
               "Invalid verification token.")
        | MultipleObjectsReturned =>
            (db,
             Accounts.mk_response Accounts.HTTP_500_INTERNAL_SERVER_ERROR true
               "An error occurred during email verification. Please try again later.")
        end
  end.

(** [ResendVerificationView.post].  [address] is
    [request.data.get('email')] for a body whose email is a string;
    [token] and [now] are the random token and the instant used if a
    token is generated.  The email is sent by [send_verification_email],
    which swallows its own failures. *)
Definition ResendVerificationView_post (address : option string)
  (token : string) (now : Z) (db : list User)
  : list User * Accounts.Response :=
  let required :=
    (db, Accounts.mk_response Accounts.HTTP_400_BAD_REQUEST true
           "Email is required.") in
  match address with
  | None => required
  | Some address =>
      if String.eqb address "" then required
      else
        match objects_get (has_email address) db with
        | Found user =>
            if is_verified user then
              (db,
               Accounts.mk_response Accounts.HTTP_200_OK false
                 "Email is already verified.")
            else
              (save (generate_verification_token token now user) db,
               Accounts.mk_response Accounts.HTTP_200_OK false
                 "Verification email sent.")
        | DoesNotExist =>
            (db,
             Accounts.mk_response Accounts.HTTP_200_OK false
               "If the email exists, a verification email has been sent.")
        | MultipleObjectsReturned =>
            (db,
             Accounts.mk_response Accounts.HTTP_500_INTERNAL_SERVER_ERROR true
               "get() returned more than one User")
        end
  end.

End Verification.

(** ** aqi/services.py: daily aggregates of the hourly series *)

Module Daily.

Import Py.

(** The ['hourly'] block of the provider's answer: the time axis and, per
    pollutant, a series of readings in which [None] marks a missing
    hour. *)
Record hourly : Type := mk_hourly {
  h_time : list value;
  h_series : dict (list (option Q))
}.

(** [daily_agg]: the ['time'] list and one list per pollutant. *)
Record daily : Type := mk_daily {
  d_time : list value;
  d_series : dict (list (option Q))
}.

Definition pollutants : list string :=
  [ "pm2_5"; "pm10"; "ozone"; "nitrogen_dioxide"; "sulphur_dioxide";
    "carbon_monoxide" ].

(** [h.get(p, [])] *)
Definition series_of (p : string) (h : hourly) : list (option Q) :=
  match Py.get p (h_series h) with
  | Some vals => vals
  | None => []
  end.

(** [l[start:stop]] *)
Definition slice {A : Type} (l : list A) (start stop : nat) : list A :=
  firstn (stop - start) (skipn start l).

(** [[v for v in chunk if v is not None]] *)
Fixpoint valid (chunk : list (option Q)) : list Q :=
  match chunk with
  | [] => []
  | Some v :: rest => v :: valid rest
  | None :: rest => valid rest
  end.

(** [max] of a non-empty list: the first of the largest elements. *)
Definition max_of (first : Q) (rest : list Q) : Q :=
  fold_left (fun m x => if Qlt_le_dec m x then x else m) rest first.

(** [daily_agg[p].append(v)]; the list of every pollutant is created
    before the loop. *)
Definition append (p : string) (v : option Q)
  (agg : dict (list (option Q))) : dict (list (option Q)) :=
  match Py.get p agg with
  | Some l => Py.set p (l ++ [v])%list agg
  | None => agg
  end.

(** The body of the loop over the pollutants, for day [d]. *)
Definition pollutant_step (h : hourly) (d : nat)
  (agg : dict (list (option Q))) (p : string) : dict (list (option Q)) :=
  let start := (d * 24)%nat in
  let stop := (start + 24)%nat in
  let vals := series_of p h in
  if negb (Nat.eqb (List.length vals) 0) && (start <? List.length vals)%nat
  then
    match valid (slice vals start stop) with
    | first :: rest => append p (Some (max_of first rest)) agg
    | [] => append p None agg
    end
  else agg.

(** The body of [for d in range(days)]. *)
Definition day_step (h : hourly) (count : nat) (agg : daily) (d : nat)
  : daily :=
  let start := (d * 24)%nat in
  let time :=
    if (start <? count)%nat then
      let mid := (start + 12)%nat in
      (d_time agg
         ++ [nth (if (mid <? count)%nat then mid else start) (h_time h)
               VNone])%list
    else d_time agg in
  mk_daily time (fold_left (pollutant_step h d) pollutants (d_series agg)).

(** The daily aggregates [_enhance_with_aqi_calculations] computes from
    an hourly block. *)
Definition daily_agg (h : hourly) : daily :=
  let times := h_time h in
  let count := List.length times in
  let days := if (24 <=? count)%nat then (count / 24)%nat else O in
  fold_left (day_step h count) (seq 0 days)
    (mk_daily [] (map (fun p => (p, [])) pollutants)).

End Daily.

(** ** aqi/serializers.py: validation of a city subscription *)

Module Subscriptions.

Import Py.





End Subscriptions.

(** ** sensors/management/commands/mqtt_listener.py: the readings *)

Module Sensors.

Import Py.

(** A number as [json.loads] decodes it: an int or a float, and the
    floats include [nan], [inf] and [-inf] (the payload may spell them
    NaN, Infinity and -Infinity). *)
Inductive number : Type :=
| Finite (q : Q)
| PosInf
| NegInf
| NaN.

(** What [data.get(key)] gives [process_sensor_data] for a sensor, and
    what it passes on to [calculate_indoor_aqi] unchecked: [None] (no
    entry, or null), a number ([True] and [False] are the ints 1 and 0),
    or something else, a string, a list or a dict. *)
Inductive reading : Type :=
| Absent
| Number (x : number)
| Other.

(** [x <= k] for a number [x] and an int literal [k]; every comparison
    with nan is false. *)
Definition le_int (x : number) (k : Z) : bool :=
  match x with
  | Finite q => Qle_bool q (inject_Z k)
  | NegInf => true
  | PosInf => false
  | NaN => false
  end.

(** The three threshold chains of [calculate_indoor_aqi]. *)
Definition co_index (co_ppm : number) : Z :=
  if le_int co_ppm 1 then 25
  else if le_int co_ppm 4 then 50
  else if le_int co_ppm 9 then 75
  else if le_int co_ppm 15 then 100
  else if le_int co_ppm 25 then 125
  else if le_int co_ppm 35 then 150
  else if le_int co_ppm 50 then 200
  else if le_int co_ppm 100 then 300
  else 400.

Definition co2_index (co2_ppm : number) : Z :=
  if le_int co2_ppm 400 then 25
  else if le_int co2_ppm 600 then 50
  else if le_int co2_ppm 1000 then 75
  else if le_int co2_ppm 1500 then 100
  else if le_int co2_ppm 2000 then 125
  else if le_int co2_ppm 2500 then 150
  else if le_int co2_ppm 5000 then 200
  else 300.

Definition ch4_index (ch4_ppm : number) : Z :=
  if le_int ch4_ppm 2 then 25
  else if le_int ch4_ppm 10 then 50
  else if le_int ch4_ppm 50 then 75
  else if le_int ch4_ppm 100 then 100
  else if le_int ch4_ppm 500 then 125
  else if le_int ch4_ppm 1000 then 150
  else if le_int ch4_ppm 5000 then 200
  else 300.

(** One block [if x is not None: if x <= ...]: no entry for [None], the
    index of a number, and a [TypeError] for a value that has no order
    with an int. *)
Definition sub_index (index : number -> Z) (r : reading) : exc (option Z) :=
  match r with
  | Absent => Return None
  | Number x => Return (Some (index x))
  | Other => Raised
  end.

(** The rest of [calculate_indoor_aqi], from the sub-indices on. *)
Definition report (co co2 ch4 : option Z) : Indoor.indoor :=
  let d0 := [] in
  let d1 := match co with Some i => Py.set "co" i d0 | None => d0 end in
  let d2 := match co2 with Some i => Py.set "co2" i d1 | None => d1 end in
  let aqi_values :=
    match ch4 with Some i => Py.set "ch4" i d2 | None => d2 end in
  match aqi_values with
  | [] => Indoor.mk_indoor None None None None
  | first :: rest =>
      let '(dominant_pollutant_key, max_aqi) := Indoor.max_key first rest in
      let category_info := Utils.get_aqi_category (VNum (inject_Z max_aqi)) in
      Indoor.mk_indoor (Some max_aqi)
        (Some (Utils.category category_info))
        (Some (Utils.color category_info))
        (Py.get dominant_pollutant_key Indoor.pollutant_names)
  end.

(** [calculate_indoor_aqi] on the readings of a payload. *)
Definition calculate_indoor_aqi (co_ppm co2_ppm ch4_ppm : reading)
  : exc Indoor.indoor :=
  co <- sub_index co_index co_ppm ;;
  co2 <- sub_index co2_index co2_ppm ;;
  ch4 <- sub_index ch4_index ch4_ppm ;;
  Return (report co co2 ch4).

(** A reading that is a finite number, or absent. *)
Definition of_float (x : option Q) : reading :=
  match x with
  | Some q => Number (Finite q)
  | None => Absent
  end.

End Sensors.

(** * Vocabulary of the properties *)

(** ** Breakpoint tables *)

Module UtilsSpec.

Import Utils.

(** A band holds a concentration. *)
Definition holds (b : band) (c : Q) : Prop :=
  (c_low b <= c /\ c <= c_high b)%Q.

(** The shape every table has: bands are non-empty intervals, listed in
    increasing order with a gap between neighbours. *)
Inductive separated : list band -> Prop :=
| separated_nil : separated []
| separated_cons (b : band) (rest : list band) :
    (c_low b <= c_high b)%Q ->
    Forall (fun b' => (c_high b < c_low b')%Q) rest ->
    separated rest ->
    separated (b :: rest).

Fixpoint separatedb (bps : list band) : bool :=
  match bps with
  | [] => true
  | b :: rest =>
      Qle_bool (c_low b) (c_high b)
      && forallb (fun b' => negb (Qle_bool (c_low b') (c_high b))) rest
      && separatedb rest
  end.

End UtilsSpec.

(** ** Doubles *)

Module FloatSpec.

Import Float.

(** [x] is a double: a zero, an infinity, nan, or a finite number in
    canonical form. *)
Definition double (x : float) : Prop := valid_binary prec emax x = true.

(** [x] is a zero or a finite float with exponent at most [E] and
    magnitude below [2^K]. *)
Definition within (E K : Z) (x : float) : Prop :=
  match x with
  | S754_zero _ => True
  | S754_finite _ m e => e <= E /\ Zpos m < 2 ^ (K - e)
  | S754_infinity _ => False
  | S754_nan => False
  end.

Definition withinb (E K : Z) (x : float) : bool :=
  match x with
  | S754_zero _ => true
  | S754_finite _ m e => (e <=? E) && (Zpos m <? 2 ^ (K - e))
  | S754_infinity _ => false
  | S754_nan => false
  end.

(** A lower bound of a band: zero or positive. *)
Definition low_ok (l : float) : bool :=
  match l with
  | S754_zero _ => true
  | S754_finite false _ _ => true
  | _ => false
  end.

(** An upper bound of a band: positive and below [2^16]. *)
Definition high_ok (h : float) : bool :=
  match h with
  | S754_finite false _ e => e <=? -37
  | _ => false
  end.

End FloatSpec.

(** ** Sub-index in double precision *)

Module UtilsFloatSpec.

Import Float UtilsFloat.

(** The shape every table has: the bands are listed in increasing order
    with a gap between neighbours. *)
Fixpoint separatedb (bps : list band) : bool :=
  match bps with
  | [] => true
  | b :: rest =>
      forallb (fun b' => ltb (c_high b) (c_low b')) rest && separatedb rest
  end.

(** No band reaches above the last one. *)
Definition toppedb (bps : list band) : bool :=
  forallb (fun b => leb (c_high b) (top_of_table bps)) bps.

(** What the interpolation in a band needs to stay finite: bounds that
    are not negative and below [2^16], a slope and a base index below
    [2^10]. *)
Definition band_ok (b : band) : bool :=
  FloatSpec.low_ok (c_low b)
  && FloatSpec.withinb (-37) 16 (c_low b)
  && FloatSpec.high_ok (c_high b)
  && FloatSpec.withinb 0 10
       (div (of_int (aqi_high b - aqi_low b)) (sub (c_high b) (c_low b)))
  && FloatSpec.withinb 0 10 (of_int (aqi_low b)).

End UtilsFloatSpec.

(** ** Adaptive throttle *)

Module ThrottleSpec.

Import Services.

(** The interval in force lies between the baseline and the cap. *)
Definition within (t : throttle) : Prop :=
  (min_interval t <= _min_request_interval t
   /\ _min_request_interval t <= _max_request_interval)%Q.

End ThrottleSpec.

(** ** Batch fetch *)

Module BatchSpec.

Import Py Services.

(** Twenty-one locations on the equator, one degree apart. *)
Definition equator : list location :=
  map (fun i => mk_loc 0 (inject_Z (Z.of_nat i))) (seq 0 21).

(** The provider's answer for a single location with a US AQI of 155. *)
Definition answer_155 : value :=
  VDict [ ("latitude", VNum 0);
          ("longitude", VNum 20);
          ("current", VDict [("us_aqi", VNum 155)]) ].

End BatchSpec.

(** ** Worst-AQI rankings *)

Module WaqiSpec.

Import Py Waqi.

Section Keys.

(** [str.lower], as in the builder. *)
Variable lower : string -> string.

Abbreviation key := (city_key lower).

(** Feeding a sequence of readings to the de-duplication step. *)
Definition dedup_all (readings : list observation) (m : dict observation)
  : dict observation :=
  fold_left (fun m o => dedup lower o m) readings m.

(** The map is keyed by the city keys of its entries, once each. *)
Definition keyed (m : dict observation) : Prop :=
  NoDup (keys m) /\ forall k e, In (k, e) m -> k = key e.

(** The map holds, for the readings seen, the worst reading of each city. *)
Definition worst_of (readings : list observation) (m : dict observation)
  : Prop :=
  (forall k e, In (k, e) m -> In e readings)
  /\ (forall o, In o readings ->
                exists e, Py.get (key o) m = Some e /\ aqi o <= aqi e).

End Keys.

(** The reading a station contributes, if any. *)
Definition reading_of (s : station) : list observation :=
  match st_lat s, st_lon s, st_feed s with
  | Some _, Some _, Some data =>
      match observe data with
      | Some o => [o]
      | None => []
      end
  | _, _, _ => []
  end.

Definition readings_of (stations : list station) : list observation :=
  flat_map reading_of stations.

(** A reading that some station of some box contributes. *)
Definition from_boxes (boxes : list (list station)) (o : observation) : Prop :=
  exists stations s,
    In stations boxes /\ In s stations /\ In o (reading_of s).

(** Highest index first, ties allowed. *)
Definition descending : list observation -> Prop :=
  StronglySorted (fun a b => aqi b <= aqi a).

(** Highest index first, no ties. *)
Definition strictly_descending : list observation -> Prop :=
  StronglySorted (fun a b => aqi b < aqi a).

(** The station has coordinates, so its feed is requested. *)
Definition has_coordinates (s : station) : bool :=
  match st_lat s, st_lon s with
  | Some _, Some _ => true
  | _, _ => false
  end.

(** The number of feed requests a list of stations takes. *)
Definition requested (stations : list station) : nat :=
  List.length (filter has_coordinates stations).

(** The stations the scan may come to, in its order: the first 30 of
    every box. *)
Definition offered (boxes : list (list station)) : list station :=
  flat_map (firstn 30) boxes.

(** The number of entries with an index above 100. *)
Definition high (l : list observation) : nat :=
  List.length (filter (fun o => 100 <? aqi o) l).

(** A station whose feed gives the index [a] for the city [name]. *)
Definition reading (name : string) (a : Q) : station :=
  mk_station (Some 0%Q) (Some 0%Q)
    (Some (mk_station_data (VNum a) (Some name) None None)).

End WaqiSpec.

(** ** Alert sweep *)

Module SweepSpec.

Import Py Tasks.

Definition same_alert (u l : nat) (d : Z) (u' l' : nat) (d' : Z) : bool :=
  Nat.eqb u' u && Nat.eqb l' l && (d' =? d).

(** Notification rows for (user, saved location, date). *)
Definition rows (u l : nat) (d : Z) (w : world) : nat :=
  List.length
    (filter (fun n => same_alert u l d (n_user n) (n_saved_location n) (n_date n))
       (notifications w)).

(** Delivered alert emails for (user, saved location, date). *)
Definition mails (u l : nat) (d : Z) (w : world) : nat :=
  List.length
    (filter (fun m => same_alert u l d (m_user m) (m_saved_location m) (m_date m))
       (outbox w)).

(** At most one row per (user, saved location, date), and no more
    delivered emails than rows. *)
Definition ledger (w : world) : Prop :=
  forall u l d, (mails u l d w <= rows u l d w <= 1)%nat.

(** What one (user, subscription) pair can do to the two ledgers: nothing,
    or one delivered email together with its notification row, and the
    latter only when no row for (user, saved location, today) existed. *)
Inductive pair_effect (today : Z) (a : Q) (user : User) (w w' : world)
  : Prop :=
| effect_none :
    notifications w' = notifications w ->
    outbox w' = outbox w ->
    pair_effect today a user w w'
| effect_alert (l : nat) :
    rows (user_id user) l today w = O ->
    notifications w'
      = mk_notification (user_id user) l a today :: notifications w ->
    outbox w' = mk_mail (user_id user) l a today :: outbox w ->
    pair_effect today a user w w'.

(** Subscriber [i]: an active user [i] watching the point (0, i). *)
Definition subscriber (i : nat) : CitySubscription :=
  mk_subscription (mk_user i "user@example.org" true) "City" "Country"
    0 (inject_Z (Z.of_nat i)) true.

(** The provider's answer for the points (0, 20) .. (0, 39): a US AQI of
    45 everywhere. *)
Definition batch_45 : value :=
  VDict [ ("latitude", VList (repeat (VNum 0) 20));
          ("longitude",
            VList (map (fun i => VNum (inject_Z (Z.of_nat i))) (seq 20 20)));
          ("current",
            VDict [ ("us_aqi", VList (repeat (VNum 45) 20));
                    ("pm2_5", VList (repeat (VNum 10) 20)) ]) ].

(** The provider's answer for the single point (0, 40): a US AQI of 155. *)
Definition single_155 : value :=
  VDict [ ("latitude", VNum 0);
          ("longitude", VNum 40);
          ("current", VDict [ ("us_aqi", VNum 155); ("pm2_5", VNum 65) ]) ].

End SweepSpec.

(** ** Breakpoint tables: index ranges *)

Module TableSpec.

Import Utils.

(** A band is a proper interval of concentrations with an index range
    that does not decrease. *)
Definition proper (b : band) : Prop :=
  (c_low b < c_high b)%Q /\ aqi_low b <= aqi_high b.

Definition properb (b : band) : bool :=
  negb (Qle_bool (c_high b) (c_low b)) && (aqi_low b <=? aqi_high b).

(** The index ranges of a table increase with its bands. *)
Inductive graded : list band -> Prop :=
| graded_nil : graded []
| graded_cons (b : band) (rest : list band) :
    Forall (fun b' => aqi_high b < aqi_low b') rest ->
    graded rest ->
    graded (b :: rest).

Fixpoint gradedb (bps : list band) : bool :=
  match bps with
  | [] => true
  | b :: rest =>
      forallb (fun b' => aqi_high b <? aqi_low b') rest && gradedb rest
  end.

(** Index ranges stay within 0..500 and within one category. *)
Definition in_scale (b : band) : bool :=
  (0 <=? aqi_low b) && (aqi_high b <=? 500)
  && String.eqb (category (category_of_int (aqi_low b)))
                (category (category_of_int (aqi_high b))).

End TableSpec.

(** ** Indoor air quality *)

Module IndoorSpec.

(** The order on optional readings: both absent, or both present and
    ordered. *)
Definition reading_le (a b : option Q) : Prop :=
  match a, b with
  | None, None => True
  | Some x, Some y => (x <= y)%Q
  | _, _ => False
  end.

End IndoorSpec.

(** ** The request loop *)

Module RequestsSpec.

Import Py Requests.

(** An outcome after which the loop tries again when attempts are left:
    a timeout, a failed request, or an answer with a status above 400. *)
Definition retryable (o : outcome) : bool :=
  match o with
  | Timeout => true
  | RequestException => true
  | Answer status_code _ => (400 <? status_code)%nat
  end.

(** What an outcome that ends the loop makes the call return. *)
Definition final_value (o : outcome) : option (dict value) :=
  match o with
  | Answer status_code body =>
      if (status_code =? 400)%nat then None else decode body
  | _ => None
  end.

End RequestsSpec.

(** ** Alert sweep: what a sweep may add *)

Module AlertSpec.

Import Py Tasks.

(** The notification row written for a delivered alert email. *)
Definition row_of (m : alert_mail) : AQINotification :=
  mk_notification (m_user m) (m_saved_location m) (m_aqi_value m) (m_date m).

(** The rounded coordinate a subscription is grouped under. *)
Definition key_of (s : CitySubscription) : coordinate :=
  (round4 (sub_latitude s), round4 (sub_longitude s)).

(** The (user, subscription) pairs of the subscriptions whose user is
    active, in the order of the subscriptions. *)
Definition active_pairs (subscriptions : list CitySubscription) : list pair :=
  map (fun s => (sub_user s, s))
    (filter (fun s => user_is_active (sub_user s)) subscriptions).

(** No two groups have the same key. *)
Definition distinct_keys (groups : list (coordinate * list pair)) : Prop :=
  ForallOrdPairs
    (fun g g' => coordinate_eqb (fst g) (fst g') = false) groups.

(** An alert of [today] to an active user with an active subscription,
    for an index of at least [AQI_THRESHOLD]. *)
Definition justified (today : Z) (subscriptions : list CitySubscription)
  (m : alert_mail) : Prop :=
  m_date m = today
  /\ (AQI_THRESHOLD <= m_aqi_value m)%Q
  /\ exists s,
       In s subscriptions
       /\ sub_is_active s = true
       /\ user_is_active (sub_user s) = true
       /\ user_id (sub_user s) = m_user m.

(** Two rows of [saved_locations] for the same user and coordinates. *)
Definition same_place (a b : SavedLocation) : bool :=
  Nat.eqb (sl_user a) (sl_user b)
  && Qeq_bool (sl_latitude a) (sl_latitude b)
  && Qeq_bool (sl_longitude a) (sl_longitude b).

(** The table is unique on the primary key and on (user, latitude,
    longitude). *)
Definition unique_places (rows : list SavedLocation) : Prop :=
  NoDup (map sl_id rows)
  /\ ForallOrdPairs (fun a b => same_place a b = false) rows.

(** [st'] is [st] with the alert emails [new] delivered (newest first),
    their rows written and the deliveries counted. *)
Definition delivered (new : list alert_mail) (st st' : world * counters)
  : Prop :=
  outbox (fst st') = (new ++ outbox (fst st))%list
  /\ notifications (fst st')
     = (map row_of new ++ notifications (fst st))%list
  /\ fst (snd st') = (fst (snd st) + List.length new)%nat.

End AlertSpec.

(** ** Country names *)

Module CountrySpec.

(** [',' in s] *)
Fixpoint has_comma (s : string) : bool :=
  match s with
  | EmptyString => false
  | String c s' => Ascii.eqb c ","%char || has_comma s'
  end.

Local Open Scope nat_scope.

(** The white-space characters of [str.strip], in UTF-8. *)
Definition bytes (codes : list nat) : string :=
  fold_right (fun n s => String (ascii_of_nat n) s) "" codes.

Definition white_space : list string :=
  map bytes
    [ [9]; [10]; [11]; [12]; [13]; [28]; [29]; [30]; [31]; [32];
      [194; 133]; [194; 160]; [225; 154; 128];
      [226; 128; 128]; [226; 128; 129]; [226; 128; 130]; [226; 128; 131];
      [226; 128; 132]; [226; 128; 133]; [226; 128; 134]; [226; 128; 135];
      [226; 128; 136]; [226; 128; 137]; [226; 128; 138];
      [226; 128; 168]; [226; 128; 169]; [226; 128; 175];
      [226; 129; 159]; [227; 128; 128] ].

(** A no-break space, U+00A0. *)
Definition nbsp : string := bytes [194; 160].

(** [s] is made of white-space characters only. *)
Inductive white : string -> Prop :=
| white_nil : white ""
| white_cons (w s : string) : In w white_space -> white s -> white (w ++ s).

(** [s] does not start with white space. *)
Definition starts_clean (s : string) : Prop :=
  forall w t, In w white_space -> s <> w ++ t.

(** [s] does not end in white space. *)
Definition ends_clean (s : string) : Prop :=
  forall w t, In w white_space -> s <> t ++ w.

(** [t] is [s] without the white space at its two ends. *)
Definition stripped (s t : string) : Prop :=
  exists l r,
    white l /\ white r /\ s = l ++ t ++ r
    /\ starts_clean t /\ ends_clean t.

(** The string after the white-space character [s] starts with, if it
    starts with one. *)
Definition space_prefix (s : string) : option string :=
  match s with
  | EmptyString => None
  | String a s1 =>
      if Py.is_space a then Some s1
      else
        match s1 with
        | EmptyString => None
        | String b s2 =>
            if Py.is_space2 a b then Some s2
            else
              match s2 with
              | EmptyString => None
              | String c s3 => if Py.is_space3 a b c then Some s3 else None
              end
        end
  end.

End CountrySpec.

(** ** Email verification *)

Module VerificationSpec.

Import Verification.

(** A verified user holds no verification token. *)
Definition consistent (db : list User) : Prop :=
  forall u, In u db -> is_verified u = true -> verification_token u = None.

End VerificationSpec.

(** ** Dominant pollutant of a formatted response *)

Module FormatSpec.

Import Py Services.

(** The pollutants the formatter computes a sub-index for when the
    provider gave a US AQI, in the order it enters them: the provider's
    key with the table [calculate_epa_aqi] is asked for. *)
Definition considered_us : list (string * string) :=
  [ ("pm2_5", "pm25"); ("pm10", "pm10"); ("nitrogen_dioxide", "no2");
    ("ozone", "o3"); ("sulphur_dioxide", "so2"); ("carbon_monoxide", "co") ].

(** The same when only a European AQI was given: no carbon monoxide. *)
Definition considered_european : list (string * string) :=
  [ ("pm2_5", "pm25"); ("pm10", "pm10"); ("nitrogen_dioxide", "no2");
    ("ozone", "o3"); ("sulphur_dioxide", "so2") ].

(** The reading of a pollutant in the ['current'] block of a formatted
    response. *)
Definition reading (key : string) (c : current_block) : value :=
  if String.eqb key "pm2_5" then cur_pm2_5 c
  else if String.eqb key "pm10" then cur_pm10 c
  else if String.eqb key "nitrogen_dioxide" then cur_nitrogen_dioxide c
  else if String.eqb key "ozone" then cur_ozone c
  else if String.eqb key "sulphur_dioxide" then cur_sulphur_dioxide c
  else if String.eqb key "carbon_monoxide" then cur_carbon_monoxide c
  else VNone.

(** The sub-index of a pollutant whose reading is present. *)
Definition sub_index (key table : string) (c : current_block) : option Z :=
  if is_none (reading key c) then None
  else
    match Utils.calculate_epa_aqi_value table (reading key c) with
    | Return a => a
    | Raised => None
    end.

(** The sub-indices the formatter has entered for the pollutants
    [considered]: one entry, in their order, for each reading that is
    present. *)
Definition entries (considered : list (string * string)) (c : current_block)
  : dict (option Z) :=
  flat_map
    (fun '(key, table) =>
       if is_none (reading key c) then []
       else
         match Utils.calculate_epa_aqi_value table (reading key c) with
         | Return a => [(key, a)]
         | Raised => []
         end)
    considered.

(** The dominant pollutant is one of the pollutants considered, with a
    positive sub-index that no other considered pollutant exceeds; none
    is named when no considered pollutant has a non-zero sub-index. *)
Definition dominant_among (considered : list (string * string))
  (r : formatted) : Prop :=
  match f_dominant_pollutant r with
  | Some key =>
      exists table m,
        In (key, table) considered
        /\ sub_index key table (f_current r) = Some m
        /\ 0 < m
        /\ forall key' table' m',
             In (key', table') considered ->
             sub_index key' table' (f_current r) = Some m' -> m' <= m
  | None =>
      forall key' table' m',
        In (key', table') considered ->
        sub_index key' table' (f_current r) = Some m' -> m' = 0
  end.

End FormatSpec.

(** ** Daily aggregates *)

Module DailySpec.

Import Py Daily.

(** The hours of day [d] in a series. *)
Definition window (vals : list (option Q)) (d : nat) : list (option Q) :=
  slice vals (d * 24) (d * 24 + 24).

(** The value of day [d]: the largest reading of its hours, or [None]
    when every hour is missing. *)
Definition day_value (vals : list (option Q)) (d : nat) : option Q :=
  match valid (window vals d) with
  | first :: rest => Some (max_of first rest)
  | [] => None
  end.

(** What day [d] appends to the list of a series: its value when the
    series reaches into the day, nothing otherwise. *)
Definition day_entry (vals : list (option Q)) (d : nat)
  : list (option Q) :=
  if (d * 24 <? List.length vals)%nat then [day_value vals d] else [].

(** [m] is the largest reading present in [chunk]. *)
Definition largest_of (chunk : list (option Q)) (m : Q) : Prop :=
  In (Some m) chunk /\ forall x, In (Some x) chunk -> (x <= m)%Q.

End DailySpec.

(** ** Indoor index: the scale *)

Module IndoorScaleSpec.

(** The values an indoor sub-index takes. *)
Definition steps : list Z := [25; 50; 75; 100; 125; 150; 200; 300; 400].

End IndoorScaleSpec.

(** ** Indoor index: unchecked readings *)

Module SensorsSpec.

(** A number that is not at most 100: above 100, infinite, or not a
    number at all. *)
Definition beyond_100 (x : Sensors.number) : Prop :=
  match x with
  | Sensors.Finite q => (100 < q)%Q
  | Sensors.PosInf => True
  | Sensors.NaN => True
  | Sensors.NegInf => False
  end.

End SensorsSpec.

(** * Properties *)

(** ** Rounding *)

Lemma round_nearest (x : Q) :
  (x - (1#2) <= inject_Z (Py.round x) /\ inject_Z (Py.round x) <= x + (1#2))%Q.
Proof.
  destruct x as [n d]. unfold Py.round. cbn [Qnum Qden].
  pose proof (Z.div_mod n (Zpos d) ltac:(lia)) as E.
  pose proof (Z.mod_pos_bound n (Zpos d) ltac:(lia)) as B.
  set (f := n / Zpos d) in *. set (r := n mod Zpos d) in *.
  assert (K : forall k,
             2 * (Zpos d * k) <= 2 * n + Zpos d /\
             2 * n - Zpos d <= 2 * (Zpos d * k) ->
             ((n # d) - (1#2) <= inject_Z k /\
              inject_Z k <= (n # d) + (1#2))%Q).
  { intros k [H1 H2]. unfold Qle, Qminus, Qplus, Qopp, inject_Z. cbn.
    split; nia. }
  destruct (2 * r <? Zpos d) eqn:C1; [apply K; apply Z.ltb_lt in C1; lia|].
  destruct (Zpos d <? 2 * r) eqn:C2; [apply K; apply Z.ltb_lt in C2; lia|].
  apply Z.ltb_ge in C1, C2.
  destruct (Z.even f); apply K; lia.
Qed.

(** ** Breakpoint tables *)

Module UtilsFacts.

Import Utils UtilsSpec.

Lemma in_band_iff (b : band) (c : Q) : in_band b c = true <-> holds b c.
Proof.
  unfold in_band, holds. rewrite andb_true_iff, !Qle_bool_iff. tauto.
Qed.

Lemma in_band_false (b : band) (c : Q) :
  in_band b c = false <-> ~ holds b c.
Proof.
  rewrite <- in_band_iff. destruct (in_band b c); intuition congruence.
Qed.

Lemma separatedb_sound (bps : list band) :
  separatedb bps = true -> separated bps.
Proof.
  induction bps as [|b rest IH]; cbn; intros H; [constructor|].
  apply andb_true_iff in H. destruct H as [H H3].
  apply andb_true_iff in H. destruct H as [H1 H2].
  constructor; auto.
  - now apply Qle_bool_iff.
  - apply Forall_forall. intros b' Hin.
    rewrite forallb_forall in H2. specialize (H2 b' Hin).
    apply negb_true_iff in H2.
    destruct (Qlt_le_dec (c_high b) (c_low b')) as [L|L]; [exact L|].
    apply Qle_bool_iff in L. congruence.
Qed.

Lemma get_In {V : Type} (k : string) (d : Py.dict V) (v : V) :
  Py.get k d = Some v -> In v (Py.values d).
Proof.
  induction d as [|[k' v'] d IH]; cbn; [discriminate|].
  destruct (String.eqb k k'); intros H.
  - injection H as ->. now left.
  - right. now apply IH.
Qed.

Lemma tables_separated (bps : list band) :
  In bps (Py.values aqi_breakpoints) -> separated bps.
Proof.
  intros H. apply separatedb_sound.
  cbn in H. repeat (destruct H as [<-|H]; [reflexivity|]). destruct H.
Qed.



(** In a separated table the first band that holds [c] is the only one. *)
Lemma scan_in_band (bps : list band) (b : band) (c : Q) :
  separated bps -> In b bps -> holds b c ->
  scan_breakpoints bps c = Some (Py.round (interpolate b c)).
Proof.
  intros S. induction S as [|h rest Hh Hsep S IH]; intros Hin Hb; [easy|].
  cbn. destruct (in_band h c) eqn:E.
  - destruct Hin as [->|Hin]; [reflexivity|].
    apply in_band_iff in E. rewrite Forall_forall in Hsep.
    specialize (Hsep b Hin). unfold holds in *. lra.
  - destruct Hin as [->|Hin]; [|now apply IH].
    apply in_band_false in E. contradiction.
Qed.


(** Every band of a separated table ends at or below the top of the
    table. *)
Lemma below_top (bps : list band) (b : band) :
  separated bps -> In b bps -> (c_high b <= top_of_table bps)%Q.
Proof.
  unfold top_of_table. intros S. revert b.
  induction S as [|h rest Hh Hsep S IH]; intros b Hin; [easy|].
  destruct rest as [|h' rest'].
  - destruct Hin as [->|[]]. cbn. lra.
  - change (last (h :: h' :: rest') (row 0 0 0 0))
      with (last (h' :: rest') (row 0 0 0 0)).
    destruct Hin as [->|Hin]; [|now apply IH].
    assert (c_high h' <= c_high (last (h' :: rest') (row 0 0 0 0)))%Q
      by (apply IH; now left).
    inversion S; subst. inversion Hsep; subst. lra.
Qed.





End UtilsFacts.

Lemma get_not_in {V : Type} (k : string) (d : Py.dict V) :
  ~ In k (Py.keys d) -> Py.get k d = None.
Proof.
  induction d as [|[k' v'] d IH]; cbn; intros H; [reflexivity|].
  destruct (String.eqb k k') eqn:E.
  - apply String.eqb_eq in E. subst. exfalso. apply H. now left.
  - apply IH. intros Hin. apply H. now right.
Qed.

(** ** Doubles: no overflow *)

Module BoundFacts.

Import Float FloatSpec.

Lemma digits2_size (p : positive) : digits2_pos p = Pos.size p.
Proof. induction p; cbn; congruence. Qed.

Lemma Zdigits2_log2 (m : Z) : 0 < m -> Zdigits2 m = Z.log2 m + 1.
Proof.
  destruct m as [|p|p]; try lia. intros _.
  destruct p; cbn; rewrite ?digits2_size; lia.
Qed.

Lemma Zdigits2_bound (m k : Z) : 0 <= m -> m < 2 ^ k -> Zdigits2 m <= k.
Proof.
  intros H L.
  assert (0 <= k).
  { destruct (Z.le_gt_cases 0 k); [assumption|].
    rewrite Z.pow_neg_r in L by lia. lia. }
  destruct (Z.eq_dec m 0) as [->|N]; [cbn; lia|].
  rewrite Zdigits2_log2 by lia.
  apply Z.log2_lt_pow2 in L; lia.
Qed.

Lemma shr_m_of_loc (m : Z) (l : location) :
  shr_m (shr_record_of_loc m l) = m.
Proof. destruct l as [|[]]; reflexivity. Qed.

Lemma shr_1_m (mrs : shr_record) :
  0 <= shr_m mrs -> shr_m (shr_1 mrs) = shr_m mrs / 2.
Proof.
  destruct mrs as [m r s]. cbn [shr_m]. intros H.
  destruct m as [|p|p]; [reflexivity| |lia].
  destruct p; cbn [shr_1 shr_m].
  - rewrite Pos2Z.inj_xI. apply Z.div_unique with (r := 1); lia.
  - rewrite Pos2Z.inj_xO. apply Z.div_unique with (r := 0); lia.
  - reflexivity.
Qed.

Lemma iter_shr_m (p : positive) (mrs : shr_record) :
  0 <= shr_m mrs ->
  shr_m (iter_pos shr_1 p mrs) = shr_m mrs / 2 ^ Zpos p.
Proof.
  revert mrs. induction p as [p IH|p IH|]; intros mrs H; cbn [iter_pos].
  - assert (H1 : 0 <= shr_m (shr_1 mrs))
      by (rewrite shr_1_m by lia; apply Z.div_pos; lia).
    assert (H2 : 0 <= shr_m (iter_pos shr_1 p (shr_1 mrs)))
      by (rewrite IH by lia; apply Z.div_pos; lia).
    rewrite IH, IH, shr_1_m by lia.
    rewrite !Z.div_div by lia. f_equal.
    rewrite <- Z.pow_add_r by lia. rewrite <- Z.pow_succ_r by lia.
    f_equal. lia.
  - assert (H2 : 0 <= shr_m (iter_pos shr_1 p mrs))
      by (rewrite IH by lia; apply Z.div_pos; lia).
    rewrite IH, IH by lia.
    rewrite !Z.div_div by lia. f_equal.
    rewrite <- Z.pow_add_r by lia. f_equal. lia.
  - rewrite shr_1_m by lia. reflexivity.
Qed.

(** One alignment step of the rounding: the mantissa stays below the
    bound and the exponent rises at most to the format's. *)
Lemma shr_fexp_bound (m e : Z) (l : location) (E K : Z) :
  0 <= m -> m < 2 ^ (K - e) -> e <= E -> -1074 <= E -> -1074 <= K ->
  let '(mrs, e') := shr_fexp prec emax m e l in
  0 <= shr_m mrs /\ shr_m mrs < 2 ^ (K - e') /\ e' <= Z.max E (K - 53).
Proof.
  intros Hm Hb He HE HK.
  assert (Hk : 0 <= K - e).
  { destruct (Z.le_gt_cases 0 (K - e)); [assumption|].
    rewrite Z.pow_neg_r in Hb by lia. lia. }
  pose proof (Zdigits2_bound m (K - e) Hm Hb) as D.
  unfold shr_fexp, shr.
  set (n := fexp prec emax (Zdigits2 m + e) - e).
  assert (Hn : n <= Z.max (K - 53) (-1074) - e).
  { unfold n, fexp, SpecFloat.emin, prec, emax. lia. }
  destruct n as [|p|p] eqn:En.
  - rewrite shr_m_of_loc. repeat split; try assumption; lia.
  - rewrite iter_shr_m by (rewrite shr_m_of_loc; lia).
    rewrite shr_m_of_loc.
    split; [apply Z.div_pos; lia|]. split; [|lia].
    apply Z.div_lt_upper_bound; [lia|].
    rewrite <- Z.pow_add_r by lia.
    replace (Zpos p + (K - (e + Zpos p))) with (K - e) by lia. exact Hb.
  - rewrite shr_m_of_loc. repeat split; try assumption; lia.
Qed.

Lemma round_nearest_even_bound (m : Z) (l : location) :
  m <= round_nearest_even m l <= m + 1.
Proof.
  destruct l as [|[]]; cbn; try lia. destruct (Z.even m); lia.
Qed.

(** Rounding to the format does not overflow while exponent and magnitude
    are within the format's range. *)
Lemma binary_round_aux_bound (s : bool) (m e : Z) (l : location) (E K : Z) :
  0 <= m -> m < 2 ^ (K - e) -> e <= E ->
  -1074 <= E -> E <= 971 -> -1074 <= K -> K <= 1023 ->
  within (Z.max E (K - 52)) (K + 1) (binary_round_aux prec emax s m e l).
Proof.
  intros Hm Hb He HE HE' HK HK'.
  unfold binary_round_aux.
  pose proof (shr_fexp_bound m e l E K Hm Hb He HE HK) as S1.
  destruct (shr_fexp prec emax m e l) as [mrs' e'].
  destruct S1 as [P1 [B1 E1]].
  pose proof (round_nearest_even_bound (shr_m mrs')
                (loc_of_shr_record mrs')) as R.
  set (m1 := round_nearest_even (shr_m mrs') (loc_of_shr_record mrs')) in *.
  assert (B1' : m1 < 2 ^ (K + 1 - e')).
  { assert (0 <= K - e').
    { destruct (Z.le_gt_cases 0 (K - e')); [assumption|].
      rewrite Z.pow_neg_r in B1 by lia. lia. }
    replace (K + 1 - e') with (1 + (K - e')) by lia.
    rewrite Z.pow_add_r by lia. lia. }
  pose proof (shr_fexp_bound m1 e' loc_Exact (Z.max E (K - 53)) (K + 1))
    as S2.
  destruct (shr_fexp prec emax m1 e' loc_Exact) as [mrs'' e''].
  destruct S2 as [P2 [B2 E2]]; try lia.
  destruct (shr_m mrs'') as [|p|p] eqn:Em; [exact I| |lia].
  assert (L : e'' <= emax - prec) by (unfold emax, prec; lia).
  apply Z.leb_le in L. rewrite L. cbn [within]. split; [lia|exact B2].
Qed.

Lemma iter_xO (m d : positive) :
  Zpos (Pos.iter xO m d) = Zpos m * 2 ^ Zpos d.
Proof.
  induction d as [|d IH] using Pos.peano_ind.
  - cbn. lia.
  - rewrite Pos.iter_succ, Pos2Z.inj_xO, IH, Pos2Z.inj_succ, Z.pow_succ_r by lia.
    lia.
Qed.

(** Aligning a mantissa to a lower exponent keeps the value. *)
Lemma shl_align_bound (m : positive) (e e' K : Z) :
  Zpos m < 2 ^ (K - e) ->
  let '(mz, ez) := shl_align m e e' in
  ez <= e /\ Zpos mz < 2 ^ (K - ez).
Proof.
  intros Hb.
  assert (Hk : 0 <= K - e).
  { destruct (Z.le_gt_cases 0 (K - e)); [assumption|].
    rewrite Z.pow_neg_r in Hb by lia. lia. }
  unfold shl_align. destruct (e' - e) as [|d|d] eqn:Ed.
  - split; [lia|exact Hb].
  - split; [lia|exact Hb].
  - split; [lia|]. rewrite iter_xO.
    replace (K - e') with ((K - e) + Zpos d) by lia.
    rewrite Z.pow_add_r by lia.
    apply Z.mul_lt_mono_pos_r; [apply Z.pow_pos_nonneg; lia|exact Hb].
Qed.

Lemma shl_align_fst (m : positive) (e e' K : Z) :
  e' <= e -> Zpos m < 2 ^ (K - e) ->
  Zpos (fst (shl_align m e e')) < 2 ^ (K - e').
Proof.
  intros L Hb.
  assert (Hk : 0 <= K - e).
  { destruct (Z.le_gt_cases 0 (K - e)); [assumption|].
    rewrite Z.pow_neg_r in Hb by lia. lia. }
  unfold shl_align. destruct (e' - e) as [|d|d] eqn:Ed; cbn [fst].
  - replace e' with e by lia. exact Hb.
  - lia.
  - rewrite iter_xO.
    replace (K - e') with ((K - e) + Zpos d) by lia.
    rewrite Z.pow_add_r by lia.
    apply Z.mul_lt_mono_pos_r; [apply Z.pow_pos_nonneg; lia|exact Hb].
Qed.

Lemma binary_round_bound (s : bool) (m : positive) (e E K : Z) :
  Zpos m < 2 ^ (K - e) -> e <= E ->
  -1074 <= E -> E <= 971 -> -1074 <= K -> K <= 1023 ->
  within (Z.max E (K - 52)) (K + 1) (binary_round prec emax s m e).
Proof.
  intros Hb He HE HE' HK HK'. unfold binary_round.
  pose proof (shl_align_bound m e
                (fexp prec emax (Zpos (digits2_pos m) + e)) K Hb) as A.
  destruct (shl_align m e (fexp prec emax (Zpos (digits2_pos m) + e)))
    as [mz ez].
  destruct A as [A1 A2].
  apply binary_round_aux_bound; lia.
Qed.

Lemma binary_normalize_bound (m e : Z) (szero : bool) (E K : Z) :
  Z.abs m < 2 ^ (K - e) -> e <= E ->
  -1074 <= E -> E <= 971 -> -1074 <= K -> K <= 1023 ->
  within (Z.max E (K - 52)) (K + 1) (binary_normalize prec emax m e szero).
Proof.
  intros Hb He HE HE' HK HK'. unfold binary_normalize.
  destruct m as [|p|p]; [exact I| |];
    apply binary_round_bound; try lia; exact Hb.
Qed.

Lemma within_weaken (E K E' K' : Z) (x : float) :
  E <= E' -> K <= K' -> within E K x -> within E' K' x.
Proof.
  intros HE HK. destruct x as [s|s| |s m e]; cbn; try tauto.
  intros [A B]. split; [lia|].
  assert (0 <= K - e).
  { destruct (Z.le_gt_cases 0 (K - e)); [assumption|].
    rewrite Z.pow_neg_r in B by lia. lia. }
  eapply Z.lt_le_trans; [exact B|]. apply Z.pow_le_mono_r; lia.
Qed.

(** Sums and differences of two aligned mantissas. *)
Lemma aligned_bound (sx sy : bool) (mx my : positive) (ex ey : Z)
  (K : Z) (op : Z -> Z -> Z) :
  (forall a b, Z.abs (op a b) <= Z.abs a + Z.abs b) ->
  Zpos mx < 2 ^ (K - ex) -> Zpos my < 2 ^ (K - ey) ->
  let ez := Z.min ex ey in
  Z.abs (op (cond_Zopp sx (Zpos (fst (shl_align mx ex ez))))
            (cond_Zopp sy (Zpos (fst (shl_align my ey ez)))))
  < 2 ^ (K + 1 - ez).
Proof.
  intros Hop Bx By ez.
  pose proof (shl_align_fst mx ex ez K ltac:(lia) Bx) as Ax.
  pose proof (shl_align_fst my ey ez K ltac:(lia) By) as Ay.
  assert (0 <= K - ez).
  { destruct (Z.le_gt_cases 0 (K - ez)); [assumption|].
    rewrite Z.pow_neg_r in Ax by lia. lia. }
  replace (K + 1 - ez) with (1 + (K - ez)) by lia.
  rewrite Z.pow_add_r by lia.
  eapply Z.le_lt_trans; [apply Hop|].
  destruct sx, sy; cbn [cond_Zopp]; lia.
Qed.

Lemma sub_bound (x y : float) (E K : Z) :
  within E K x -> within E K y ->
  -1074 <= E -> E <= 971 -> -1074 <= K -> K + 1 <= 1023 ->
  within (Z.max E (K - 51)) (K + 2) (sub x y).
Proof.
  intros Hx Hy HE HE' HK HK'. unfold sub, SFsub.
  destruct x as [sx|sx| |sx mx ex], y as [sy|sy| |sy my ey];
    cbn [within] in Hx, Hy; try contradiction; cbv beta iota.
  - destruct sx, sy; exact I.
  - apply (within_weaken E K); try lia. exact Hy.
  - apply (within_weaken E K); try lia. exact Hx.
  - destruct Hx as [Ax Bx], Hy as [Ay By].
    apply (within_weaken (Z.max E (K + 1 - 52)) (K + 1 + 1)); try lia.
    apply binary_normalize_bound; try lia.
    apply (aligned_bound sx sy mx my ex ey K Z.sub); [intros; lia| |];
      assumption.
Qed.

Lemma add_bound (x y : float) (E K : Z) :
  within E K x -> within E K y ->
  -1074 <= E -> E <= 971 -> -1074 <= K -> K + 1 <= 1023 ->
  within (Z.max E (K - 51)) (K + 2) (add x y).
Proof.
  intros Hx Hy HE HE' HK HK'. unfold add, SFadd.
  destruct x as [sx|sx| |sx mx ex], y as [sy|sy| |sy my ey];
    cbn [within] in Hx, Hy; try contradiction; cbv beta iota.
  - destruct sx, sy; exact I.
  - apply (within_weaken E K); try lia. exact Hy.
  - apply (within_weaken E K); try lia. exact Hx.
  - destruct Hx as [Ax Bx], Hy as [Ay By].
    apply (within_weaken (Z.max E (K + 1 - 52)) (K + 1 + 1)); try lia.
    apply binary_normalize_bound; try lia.
    apply (aligned_bound sx sy mx my ex ey K Z.add); [intros; lia| |];
      assumption.
Qed.

Lemma mul_bound (x y : float) (Ex Kx Ey Ky : Z) :
  within Ex Kx x -> within Ey Ky y ->
  -1074 <= Ex + Ey -> Ex + Ey <= 971 ->
  -1074 <= Kx + Ky -> Kx + Ky <= 1023 ->
  within (Z.max (Ex + Ey) (Kx + Ky - 52)) (Kx + Ky + 1) (mul x y).
Proof.
  intros Hx Hy HE HE' HK HK'. unfold mul, SFmul.
  destruct x as [sx|sx| |sx mx ex], y as [sy|sy| |sy my ey];
    cbn [within] in Hx, Hy; try contradiction; cbv beta iota; try exact I.
  destruct Hx as [Ax Bx], Hy as [Ay By].
  assert (0 <= Kx - ex).
  { destruct (Z.le_gt_cases 0 (Kx - ex)); [assumption|].
    rewrite Z.pow_neg_r in Bx by lia. lia. }
  assert (0 <= Ky - ey).
  { destruct (Z.le_gt_cases 0 (Ky - ey)); [assumption|].
    rewrite Z.pow_neg_r in By by lia. lia. }
  apply binary_round_aux_bound; try lia.
  rewrite Pos2Z.inj_mul.
  replace (Kx + Ky - (ex + ey)) with ((Kx - ex) + (Ky - ey)) by lia.
  rewrite Z.pow_add_r by lia.
  apply Z.mul_lt_mono_nonneg; lia.
Qed.


Lemma Zdigits2_lt (m : positive) : Zpos m < 2 ^ Zpos (digits2_pos m).
Proof.
  change (Zpos (digits2_pos m)) with (Zdigits2 (Zpos m)).
  rewrite Zdigits2_log2 by lia.
  apply Z.log2_spec. lia.
Qed.

Lemma withinb_sound (E K : Z) (x : float) :
  withinb E K x = true -> within E K x.
Proof.
  destruct x as [s|s| |s m e]; cbn; try discriminate; [tauto|].
  intros H. apply andb_true_iff in H. destruct H as [A B].
  apply Z.leb_le in A. apply Z.ltb_lt in B. tauto.
Qed.

(** A double between a non-negative bound and a bound below [2^16] is a
    zero or positive, below [2^16]. *)
Lemma between_within (l h c : float) :
  low_ok l = true -> high_ok h = true -> double c ->
  leb l c = true -> leb c h = true ->
  within (-37) 16 c.
Proof.
  unfold low_ok, high_ok, double, leb, SFleb, SFcompare.
  intros Hl Hh V L H.
  destruct h as [|?| |sh mh eh]; try discriminate Hh.
  destruct sh; [discriminate Hh|]. apply Z.leb_le in Hh.
  destruct c as [sc|sc| |sc mc ec].
  - exact I.
  - destruct sc; [|discriminate H].
    destruct l as [?|?| |sl ml el]; try discriminate Hl;
      try destruct sl; discriminate.
  - destruct l; discriminate.
  - assert (sc = false) as ->.
    { destruct sc; [|reflexivity].
      destruct l as [?|?| |sl ml el]; try discriminate Hl;
        try destruct sl; discriminate. }
    cbn [within].
    assert (ec <= eh).
    { destruct (Z.compare_spec ec eh); first [lia | discriminate H]. }
    split; [lia|].
    cbn [valid_binary] in V. unfold bounded, canonical_mantissa in V.
    apply andb_true_iff in V. destruct V as [V _].
    apply Z.eqb_eq in V. unfold fexp, SpecFloat.emin, prec, emax in V.
    pose proof (Zdigits2_lt mc) as D.
    eapply Z.lt_le_trans; [exact D|].
    apply Z.pow_le_mono_r; lia.
Qed.

End BoundFacts.

(** ** Sub-index in double precision *)

Module FloatFacts.

Import Float.

(** The order of floats. *)
Lemma leb_trans (a b c : float) :
  leb a b = true -> leb b c = true -> leb a c = true.
Proof.
  unfold leb, SFleb, SFcompare.
  destruct a as [sa|sa| |sa ma ea], b as [sb|sb| |sb mb eb],
    c as [sc|sc| |sc mc ec];
    try destruct sa; try destruct sb; try destruct sc;
    try reflexivity; try discriminate;
    change (Pos.compare_cont Eq ?x ?y) with (Pos.compare x y);
    repeat match goal with
           | |- context [Z.compare ?x ?y] =>
               destruct (Z.compare_spec x y)
           | |- context [Pos.compare ?x ?y] =>
               destruct (Pos.compare_spec x y)
           end;
    cbn; try reflexivity; try discriminate; intros; exfalso; subst; lia.
Qed.

Lemma ltb_not_leb (a b : float) : ltb a b = true -> leb b a = false.
Proof.
  unfold ltb, leb, SFltb, SFleb, SFcompare.
  destruct a as [sa|sa| |sa ma ea], b as [sb|sb| |sb mb eb];
    try destruct sa; try destruct sb;
    try reflexivity; try discriminate;
    change (Pos.compare_cont Eq ?x ?y) with (Pos.compare x y);
    repeat match goal with
           | |- context [Z.compare ?x ?y] =>
               destruct (Z.compare_spec x y)
           | |- context [Pos.compare ?x ?y] =>
               destruct (Pos.compare_spec x y)
           end;
    cbn; try reflexivity; try discriminate; intros; exfalso; subst; lia.
Qed.

(** A concentration above [t] is in no band that ends at or before [t]. *)
Lemma above_excluded (c h t : float) :
  ltb t c = true -> leb h t = true -> leb c h = false.
Proof.
  intros T H. destruct (leb c h) eqn:C; [|reflexivity].
  pose proof (leb_trans c h t C H) as L.
  pose proof (ltb_not_leb t c T). congruence.
Qed.

(** A concentration from [l] on is in no band that ends before [l]. *)
Lemma below_excluded (h l c : float) :
  ltb h l = true -> leb l c = true -> leb c h = false.
Proof.
  intros T L. destruct (leb c h) eqn:C; [|reflexivity].
  pose proof (leb_trans l c h L C) as L'.
  pose proof (ltb_not_leb h l T). congruence.
Qed.

End FloatFacts.

Module UtilsFloatFacts.

Import Float UtilsFloat UtilsFloatSpec.

Lemma float_tables_separated :
  forallb separatedb (Py.values aqi_breakpoints) = true.
Proof. vm_compute. reflexivity. Qed.

Lemma float_tables_topped :
  forallb toppedb (Py.values aqi_breakpoints) = true.
Proof. vm_compute. reflexivity. Qed.

(** In a separated table the band that holds the concentration is the
    first one that does. *)
Lemma float_scan_in_band (bps : list band) (b : band) (c : float) :
  separatedb bps = true -> In b bps -> in_band b c = true ->
  scan_breakpoints bps c = Some (interpolate b c).
Proof.
  induction bps as [|b0 rest IH]; intros S Hin Hb; [destruct Hin|].
  cbn [separatedb] in S. apply andb_true_iff in S. destruct S as [S0 S].
  cbn [scan_breakpoints]. destruct Hin as [->|Hin]; [now rewrite Hb|].
  assert (O : in_band b0 c = false).
  { unfold in_band in *. apply andb_true_iff in Hb. destruct Hb as [L _].
    rewrite forallb_forall in S0. specialize (S0 b Hin).
    rewrite (FloatFacts.below_excluded _ _ _ S0 L). apply andb_false_r. }
  rewrite O. now apply IH.
Qed.

Lemma float_scan_none (bps : list band) (c : float) :
  (forall b, In b bps -> in_band b c = false) ->
  scan_breakpoints bps c = None.
Proof.
  induction bps as [|b0 rest IH]; intros H; [reflexivity|].
  cbn [scan_breakpoints]. rewrite (H b0) by now left.
  apply IH. intros b Hb. apply H. now right.
Qed.

Lemma float_tables_ok :
  forallb (forallb band_ok) (Py.values aqi_breakpoints) = true.
Proof. vm_compute. reflexivity. Qed.

(** In a band the interpolated value is finite: none of the four
    operations overflows. *)
Lemma interpolate_finite (b : band) (c : float) :
  band_ok b = true -> FloatSpec.double c -> in_band b c = true ->
  exists q, to_Q (interpolate b c) = Some q.
Proof.
  unfold band_ok, in_band. intros B V H.
  destruct (andb_prop _ _ B) as [B1 Hbase].
  destruct (andb_prop _ _ B1) as [B2 Hslope].
  destruct (andb_prop _ _ B2) as [B3 Hhigh].
  destruct (andb_prop _ _ B3) as [Hlow Hlw].
  apply andb_true_iff in H. destruct H as [L U].
  pose proof (BoundFacts.between_within _ _ c Hlow Hhigh V L U) as Wc.
  pose proof (BoundFacts.withinb_sound _ _ _ Hlw) as Wl.
  pose proof (BoundFacts.withinb_sound _ _ _ Hslope) as Ws.
  pose proof (BoundFacts.withinb_sound _ _ _ Hbase) as Wb.
  pose proof (BoundFacts.sub_bound c (c_low b) (-37) 16 Wc Wl
                ltac:(lia) ltac:(lia) ltac:(lia) ltac:(lia)) as Wd.
  pose proof (BoundFacts.mul_bound _ _ 0 10 _ _ Ws Wd
                ltac:(lia) ltac:(lia) ltac:(lia) ltac:(lia)) as Wp.
  match type of Wp with
  | FloatSpec.within _ _ ?x =>
      assert (Wp' : FloatSpec.within 0 29 x)
        by (eapply BoundFacts.within_weaken; [| |exact Wp]; lia)
  end.
  assert (Wb' : FloatSpec.within 0 29 (of_int (aqi_low b)))
    by (eapply BoundFacts.within_weaken; [| |exact Wb]; lia).
  pose proof (BoundFacts.add_bound _ _ 0 29 Wp' Wb'
                ltac:(lia) ltac:(lia) ltac:(lia) ltac:(lia)) as Wr.
  unfold interpolate.
  destruct (add _ _) as [s|s| |s m e]; cbn [FloatSpec.within] in Wr;
    try contradiction; cbn [to_Q]; eauto.
Qed.

End UtilsFloatFacts.

(** C1. [calculate_epa_aqi] interpolates linearly within the band that
    holds the concentration and rounds to the nearest integer.  The
    arithmetic is the one of the program, IEEE double precision.  For a
    concentration, a double, in a band of the pollutant's table, the
    expression
    [((aqi_high - aqi_low) / (c_high - c_low)) * (concentration - c_low)
    + aqi_low], every operation rounded to the nearest double, has a
    finite value [q], and the result is [round q], an integer within 1/2
    of [q] (the even one when two are).  For PM2.5 it gives 50 at 12.0, a
    value in [51,100] at 12.1 (it is 51), 500 at 500.4, 25 in the middle
    of the first band at 6.0 and 5 at 1.08, where the product is the
    double just above 4.5; for PM10 it gives 75 at 104.  Above the top of
    the pollutant's table it gives 500; for a key that is not in the table
    it gives nothing. *)
Theorem calculate_epa_aqi_spec (pollutant : string)
  (concentration : Float.float) :
  (forall breakpoints b,
      Py.get (Py.lower pollutant) UtilsFloat.aqi_breakpoints
        = Some breakpoints ->
      In b breakpoints ->
      FloatSpec.double concentration ->
      Float.leb (UtilsFloat.c_low b) concentration = true ->
      Float.leb concentration (UtilsFloat.c_high b) = true ->
      exists q,
        Float.to_Q
          (Float.add
             (Float.mul
                (Float.div
                   (Float.of_int
                      (UtilsFloat.aqi_high b - UtilsFloat.aqi_low b))
                   (Float.sub (UtilsFloat.c_high b) (UtilsFloat.c_low b)))
                (Float.sub concentration (UtilsFloat.c_low b)))
             (Float.of_int (UtilsFloat.aqi_low b)))
        = Some q
        /\ UtilsFloat.calculate_epa_aqi pollutant concentration
           = Py.Return (Some (Py.round q))
        /\ (q - (1#2) <= inject_Z (Py.round q)
            /\ inject_Z (Py.round q) <= q + (1#2))%Q)
  /\ UtilsFloat.calculate_epa_aqi "pm25" (Float.tenths 120)
     = Py.Return (Some 50)
  /\ (exists aqi,
         UtilsFloat.calculate_epa_aqi "pm25" (Float.tenths 121)
         = Py.Return (Some aqi)
         /\ 51 <= aqi <= 100)
  /\ UtilsFloat.calculate_epa_aqi "pm25" (Float.tenths 5004)
     = Py.Return (Some 500)
  /\ UtilsFloat.calculate_epa_aqi "pm25" (Float.tenths 60)
     = Py.Return (Some 25)
  /\ UtilsFloat.calculate_epa_aqi "pm25"
       (Float.div (Float.of_int 108) (Float.of_int 100))
     = Py.Return (Some 5)
  /\ UtilsFloat.calculate_epa_aqi "pm10" (Float.of_int 104)
     = Py.Return (Some 75)
  /\ (forall breakpoints,
         Py.get (Py.lower pollutant) UtilsFloat.aqi_breakpoints
           = Some breakpoints ->
         Float.ltb (UtilsFloat.top_of_table breakpoints) concentration
           = true ->
         UtilsFloat.calculate_epa_aqi pollutant concentration
         = Py.Return (Some 500))
  /\ (~ In (Py.lower pollutant) (Py.keys UtilsFloat.aqi_breakpoints) ->
      UtilsFloat.calculate_epa_aqi pollutant concentration
      = Py.Return None).
Proof.
  split; [|split; [|split; [|split; [|split; [|split; [|split;
    [|split]]]]]]].
  - intros bps b G Hin V L H.
    pose proof (UtilsFacts.get_In _ _ _ G) as Hv.
    assert (Hb : UtilsFloat.in_band b concentration = true)
      by (unfold UtilsFloat.in_band; now rewrite L, H).
    pose proof UtilsFloatFacts.float_tables_ok as Ok.
    rewrite forallb_forall in Ok. specialize (Ok bps Hv).
    rewrite forallb_forall in Ok. specialize (Ok b Hin).
    destruct (UtilsFloatFacts.interpolate_finite b concentration Ok V Hb)
      as [q Eq].
    exists q. split; [exact Eq|]. split; [|apply round_nearest].
    unfold UtilsFloat.calculate_epa_aqi. rewrite G.
    pose proof UtilsFloatFacts.float_tables_separated as S.
    rewrite forallb_forall in S. specialize (S bps Hv).
    rewrite (UtilsFloatFacts.float_scan_in_band bps b concentration S Hin Hb).
    unfold Float.round. unfold UtilsFloat.interpolate in Eq.
    unfold UtilsFloat.interpolate. now rewrite Eq.
  - vm_compute. reflexivity.
  - exists 51. split; [vm_compute; reflexivity|lia].
  - vm_compute. reflexivity.
  - vm_compute. reflexivity.
  - vm_compute. reflexivity.
  - vm_compute. reflexivity.
  - intros bps G T.
    unfold UtilsFloat.calculate_epa_aqi. rewrite G.
    pose proof UtilsFloatFacts.float_tables_topped as S.
    rewrite forallb_forall in S.
    specialize (S bps (UtilsFacts.get_In _ _ _ G)).
    unfold UtilsFloatSpec.toppedb in S. rewrite forallb_forall in S.
    rewrite UtilsFloatFacts.float_scan_none; [now rewrite T|].
    intros b Hb. unfold UtilsFloat.in_band.
    rewrite (FloatFacts.above_excluded _ _ _ T (S b Hb)).
    apply andb_false_r.
  - intros Hk. unfold UtilsFloat.calculate_epa_aqi.
    now rewrite (get_not_in _ _ Hk).
Qed.

Lemma calculate_epa_aqi_spec_witness :
  (exists q,
      Float.to_Q
        (Float.add
           (Float.mul
              (Float.div (Float.of_int (100 - 51))
                 (Float.sub (Float.tenths 354) (Float.tenths 121)))
              (Float.sub (Float.of_int 20) (Float.tenths 121)))
           (Float.of_int 51))
      = Some q
      /\ UtilsFloat.calculate_epa_aqi "PM25" (Float.of_int 20)
         = Py.Return (Some (Py.round q)))
  /\ UtilsFloat.calculate_epa_aqi "PM25" (Float.of_int 20)
     = Py.Return (Some 68)
  /\ UtilsFloat.calculate_epa_aqi "pm10" (Float.of_int 700)
     = Py.Return (Some 500)
  /\ UtilsFloat.calculate_epa_aqi "unknown" (Float.of_int 10)
     = Py.Return None.
Proof.
  split; [|split; [|split]].
  - destruct (proj1 (calculate_epa_aqi_spec "PM25" (Float.of_int 20))
                _ (UtilsFloat.row (Float.tenths 121) (Float.tenths 354) 51 100)
                eq_refl (or_intror (or_introl eq_refl))
                eq_refl eq_refl eq_refl)
      as [q [A [B _]]].
    exists q. split; [exact A|exact B].
  - vm_compute. reflexivity.
  - refine (proj1 (proj2 (proj2 (proj2 (proj2 (proj2 (proj2 (proj2
             (calculate_epa_aqi_spec "pm10" (Float.of_int 700)))))))))
              _ _ _).
    + reflexivity.
    + vm_compute. reflexivity.
  - apply (proj2 (proj2 (proj2 (proj2 (proj2 (proj2 (proj2 (proj2
             (calculate_epa_aqi_spec "unknown" (Float.of_int 10)))))))))).
    vm_compute. intuition discriminate.
Defined.



(** ** Adaptive throttle *)

Module ThrottleFacts.

Import Services ThrottleSpec.

Lemma py_min_spec (a b : Q) : (Py.py_min a b == Qmin a b)%Q.
Proof.
  unfold Py.py_min. destruct (Qlt_le_dec b a) as [L|L].
  - symmetry. apply Q.min_r. lra.
  - symmetry. now apply Q.min_l.
Qed.

Lemma py_max_spec (a b : Q) : (Py.py_max a b == Qmax a b)%Q.
Proof.
  unfold Py.py_max. destruct (Qlt_le_dec a b) as [L|L].
  - symmetry. apply Q.max_r. lra.
  - symmetry. now apply Q.max_l.
Qed.

Lemma adjust_baseline (increase : bool) (t : throttle) :
  min_interval (_adjust_throttle_interval increase t) = min_interval t.
Proof.
  unfold _adjust_throttle_interval.
  destruct increase; [reflexivity|].
  now destruct (Qlt_le_dec (min_interval t) (_min_request_interval t)).
Qed.

Lemma adjust_within (increase : bool) (t : throttle) :
  (0 <= min_interval t)%Q -> within t ->
  within (_adjust_throttle_interval increase t).
Proof.
  unfold within, _adjust_throttle_interval, _max_request_interval,
    Py.py_min, Py.py_max.
  intros H0 [H1 H2]. destruct increase.
  - cbn [min_interval _min_request_interval].
    destruct (Qlt_le_dec 2.0 (_min_request_interval t * 1.5)); lra.
  - destruct (Qlt_le_dec (min_interval t) (_min_request_interval t)).
    + cbn [min_interval _min_request_interval].
      destruct (Qlt_le_dec (_min_request_interval t * 0.95) (min_interval t));
        lra.
    + lra.
Qed.

Lemma run_within (signals : list bool) (t : throttle) :
  (0 <= min_interval t)%Q -> within t ->
  within (run_throttle signals t)
  /\ min_interval (run_throttle signals t) = min_interval t.
Proof.
  revert t. induction signals as [|s signals IH]; intros t H0 W; [easy|].
  change (run_throttle (s :: signals) t)
    with (run_throttle signals (_adjust_throttle_interval s t)).
  destruct (IH (_adjust_throttle_interval s t)) as [W' E].
  - now rewrite adjust_baseline.
  - now apply adjust_within.
  - split; [exact W'|]. now rewrite E, adjust_baseline.
Qed.

End ThrottleFacts.

(** C6, as stated, fails: with a configured baseline of -1 (which is below
    2.0) a single rate-limit signal moves the interval to -1.5, below the
    baseline. *)
Lemma throttle_negative_baseline :
  (-1 <= Services._max_request_interval)%Q
  /\ ~ (-1 <= Services._min_request_interval
                (Services.run_throttle [true] (Services.init (Some (-1%Q)))))%Q.
Proof.
  split; vm_compute; [discriminate|]. intros H. now apply H.
Qed.

(** C6 (amended). For every configured baseline between 0 and 2.0 (and
    for the default baseline 1.0), the interval in force stays within
    [baseline, 2.0] after any sequence of adjustments; a rate-limit
    adjustment sets it to the minimum of 1.5 times the interval and 2.0; a
    success adjustment sets it to the maximum of 0.95 times the interval and
    the baseline when it is above the baseline and leaves it alone
    otherwise; in particular the bounds hold after one rate-limit signal
    followed by one success signal. *)
Theorem throttle_interval_bounds (configured : option Q) :
  let baseline := Services.min_interval (Services.init configured) in
  (0 <= baseline)%Q -> (baseline <= 2.0)%Q ->
  (forall signals,
      let t := Services.run_throttle signals (Services.init configured) in
      (baseline <= Services._min_request_interval t
       /\ Services._min_request_interval t <= 2.0)%Q)
  /\ (forall t,
         (Services._min_request_interval
            (Services._adjust_throttle_interval true t)
          == Qmin (Services._min_request_interval t * 1.5) 2.0)%Q)
  /\ (forall t,
         (Services.min_interval t < Services._min_request_interval t ->
          Services._min_request_interval
            (Services._adjust_throttle_interval false t)
          == Qmax (Services._min_request_interval t * 0.95)
               (Services.min_interval t))%Q
         /\ ((Services._min_request_interval t <= Services.min_interval t)%Q ->
             Services._adjust_throttle_interval false t = t))
  /\ (let t := Services.run_throttle [true; false] (Services.init configured) in
      (baseline <= Services._min_request_interval t
       /\ Services._min_request_interval t <= 2.0)%Q).
Proof.
  intros baseline H0 H2.
  assert (W : ThrottleSpec.within (Services.init configured)).
  { unfold ThrottleSpec.within, Services._max_request_interval.
    subst baseline. destruct configured; cbn in *; lra. }
  assert (R : forall signals,
             let t := Services.run_throttle signals (Services.init configured) in
             (baseline <= Services._min_request_interval t
              /\ Services._min_request_interval t <= 2.0)%Q).
  { intros signals t.
    destruct (ThrottleFacts.run_within signals _ H0 W) as [[L U] E].
    subst t baseline. rewrite E in L. split; [exact L|exact U]. }
  split; [exact R|]. split; [|split; [|apply R]].
  - intros t. cbn. apply ThrottleFacts.py_min_spec.
  - intros t. unfold Services._adjust_throttle_interval. split.
    + intros L.
      destruct (Qlt_le_dec (Services.min_interval t)
                  (Services._min_request_interval t)); [|lra].
      cbn. apply ThrottleFacts.py_max_spec.
    + intros L.
      destruct (Qlt_le_dec (Services.min_interval t)
                  (Services._min_request_interval t)); [lra|reflexivity].
Qed.

Lemma throttle_interval_bounds_witness :
  (1.0 <= Services._min_request_interval
            (Services.run_throttle [true; true; false] (Services.init None))
   /\ Services._min_request_interval
        (Services.run_throttle [true; true; false] (Services.init None))
      <= 2.0)%Q.
Proof.
  refine (proj1 (throttle_interval_bounds None _ _) [true; true; false]);
    vm_compute; discriminate.
Defined.

(** ** Response formatting *)

Module FormatFacts.

Import Py Services.

(** The category fields of a formatted response are those of the
    truthiness-guarded lookup on its [aqi] entry. *)
Lemma format_category W G (data latitude longitude : value) (r : formatted) :
  _format_current_response W G data latitude longitude = Return r ->
  f_category r = Utils.category (category_if_truthy (f_aqi r))
  /\ f_color r = Utils.color (category_if_truthy (f_aqi r))
  /\ f_health_advice r = Utils.health_advice (category_if_truthy (f_aqi r)).
Proof.
  unfold _format_current_response.
  destruct data; try discriminate.
  destruct (get_or "current" (VDict []) d); try discriminate.
  match goal with
  | |- (Py.bind ?m _) = _ -> _ => destruct m as [[[a dp] src]|]
  end; [|discriminate].
  cbn [Py.bind].
  destruct (fetch_weather_data W latitude longitude _); [|discriminate].
  cbn [Py.bind]. intros H. injection H as <-. cbn. auto.
Qed.

Lemma truthy_zero (x : Q) : (x == 0)%Q -> truthy (VNum x) = false.
Proof.
  intros H. cbn. apply negb_false_iff. now apply Qeq_bool_iff.
Qed.

(** The scan for the dominant pollutant does not move when no entry has a
    truthy index. *)
Lemma scan_dominant_none (pollutants_data : dict pollutant_entry)
  (acc : Z * option string) :
  (forall k p, In (k, p) pollutants_data -> truthy_int (p_epa_aqi p) = false) ->
  fold_left
    (fun '(max_aqi, dominant) '(pollutant, data) =>
       match p_epa_aqi data with
       | Some a =>
           if negb (a =? 0) && (max_aqi <? a) then (a, Some pollutant)
           else (max_aqi, dominant)
       | None => (max_aqi, dominant)
       end)
    pollutants_data acc = acc.
Proof.
  revert acc. induction pollutants_data as [|[k p] rest IH]; intros acc H;
    [reflexivity|].
  cbn [fold_left]. destruct acc as [m dom].
  assert (F : truthy_int (p_epa_aqi p) = false) by (apply (H k); now left).
  destruct (p_epa_aqi p) as [a|]; cbn in F.
  - rewrite F. cbn [andb]. apply IH. intros k' p' Hin. apply (H k'). now right.
  - apply IH. intros k' p' Hin. apply (H k'). now right.
Qed.

End FormatFacts.

(** C10. An AQI of exactly 0 is treated as missing by the formatting
    layer.  A response formatted by [_format_current_response] whose
    resolved AQI is 0 carries the category 'Unknown' and the gray color;
    an enhanced payload in which no pollutant has a non-zero index (the
    resolved AQI is 0 or absent) carries 'Unknown', gray, three null AQI
    blocks and no health recommendations, as happens for a PM2.5 reading
    of 0 whose own index is 0; [get_aqi_category(0)] itself is 'Good'. *)
Theorem zero_aqi_is_unknown :
  (forall W G (data latitude longitude : Py.value) (r : Services.formatted)
          (x : Q),
      Services._format_current_response W G data latitude longitude
        = Py.Return r ->
      Services.f_aqi r = Py.VNum x -> (x == 0)%Q ->
      Services.f_category r = "Unknown" /\ Services.f_color r = "#808080")
  /\ (forall (current_data : Py.dict Py.value) (e : Services.enhanced),
         Services._enhance_with_aqi_calculations current_data = Py.Return e ->
         (forall k p, In (k, p) (Services.e_pollutants e) ->
                      Services.truthy_int (Services.p_epa_aqi p) = false) ->
         Services.e_category e = "Unknown"
         /\ Services.e_color e = "#808080"
         /\ Services.e_local_epa_aqi e = None
         /\ Services.e_uaqi e = None
         /\ Services.e_national_aqi e = None
         /\ Services.e_health_recommendations e = [])
  /\ (exists e,
         Services._enhance_with_aqi_calculations
           [("current", Py.VDict [("pm2_5", Py.VNum 0)])] = Py.Return e
         /\ (exists p, Py.get "pm25" (Services.e_pollutants e) = Some p
                       /\ Services.p_epa_aqi p = Some 0)
         /\ Services.e_category e = "Unknown"
         /\ Services.e_local_epa_aqi e = None
         /\ Services.e_health_recommendations e = [])
  /\ Utils.category (Utils.get_aqi_category (Py.VNum 0)) = "Good"
  /\ Utils.color (Utils.get_aqi_category (Py.VNum 0)) = "#00E400".
Proof.
  split; [|split; [|split; [|split]]].
  - intros W G data latitude longitude r x H A Z.
    destruct (FormatFacts.format_category W G _ _ _ _ H) as [C [K _]].
    rewrite C, K. unfold Services.category_if_truthy.
    rewrite A, (FormatFacts.truthy_zero x Z). split; reflexivity.
  - intros current_data e. unfold Services._enhance_with_aqi_calculations.
    destruct (negb (Py.truthy (Py.VDict current_data))); [discriminate|].
    repeat match goal with
           | |- (Py.bind ?m _) = _ -> _ =>
               destruct m; [cbn [Py.bind]|discriminate]
           end.
    intros H. injection H as <-. cbn [Services.e_pollutants]. intros F.
    unfold Services.scan_dominant.
    rewrite (FormatFacts.scan_dominant_none _ _ F). cbn. tauto.
  - eexists. split; [reflexivity|]. cbn.
    split; [eexists; split; reflexivity|]. tauto.
  - reflexivity.
  - reflexivity.
Qed.

Lemma zero_aqi_is_unknown_witness :
  let zero_response :=
    Py.VDict [("current", Py.VDict [("us_aqi", Py.VNum 0)])] in
  exists r,
    Services._format_current_response (fun _ _ _ => None) (fun _ _ => None)
      zero_response (Py.VNum 1) (Py.VNum 2) = Py.Return r
    /\ Services.f_category r = "Unknown"
    /\ Services.f_color r = "#808080".
Proof.
  intros zero_response. eexists. split; [reflexivity|].
  refine (proj1 zero_aqi_is_unknown (fun _ _ _ => None) (fun _ _ => None)
            zero_response (Py.VNum 1) (Py.VNum 2) _ 0%Q eq_refl eq_refl _).
  reflexivity.
Defined.

(** ** Batch fetch *)

Module BatchFacts.

Import Py Services BatchSpec.

Section Batch.

Variable W : value -> value -> value -> option (dict value).
Variable G : value -> value -> option (value * value).

Lemma nones_length (n : nat) : List.length (nones n) = n.
Proof. apply repeat_length. Qed.

Lemma enumerate_length {A : Type} (l : list A) :
  List.length (enumerate l) = List.length l.
Proof.
  unfold enumerate. rewrite length_combine, length_seq. apply Nat.min_id.
Qed.

(** Every iteration of the chunk loop appends one slot per location of
    the chunk, whatever the provider answered. *)
Lemma process_chunk_length (timezone : value) (chunk : list location)
  (data : value) :
  List.length (process_chunk W G timezone chunk data) = List.length chunk.
Proof.
  unfold process_chunk.
  destruct (negb (truthy data)); [apply nones_length|].
  destruct data; try apply nones_length.
  - rewrite length_map. apply enumerate_length.
  - destruct (truthy (get_or "error" VNone d)); [apply nones_length|].
    destruct (Py.get "latitude" d) as [[| | | |latitudes_resp|]|].
    all: try (destruct chunk as [|first rest]; [reflexivity|];
              destruct (_format_current_response W G (VDict d) _ _);
              cbn [List.length]; rewrite nones_length; cbn; lia).
    destruct (get_or "current" (VDict []) d); try apply nones_length.
    rewrite length_app, nones_length, length_map, length_seq. lia.
Qed.

Lemma chunks_concat (fuel : nat) (locations : list location) :
  (List.length locations <= fuel)%nat ->
  List.concat (chunks fuel locations) = locations.
Proof.
  revert locations. induction fuel as [|fuel IH]; intros locations H.
  - destruct locations; [reflexivity|cbn in H; lia].
  - destruct locations as [|l rest]; [reflexivity|].
    change (chunks (S fuel) (l :: rest))
      with (firstn BATCH_CHUNK_SIZE (l :: rest)
              :: chunks fuel (skipn BATCH_CHUNK_SIZE (l :: rest))).
    cbn [List.concat]. rewrite IH; [apply firstn_skipn|].
    rewrite length_skipn. unfold BATCH_CHUNK_SIZE. cbn in *. lia.
Qed.

Lemma collect_length (timezone : value) (chs : list (list location))
  (responses : list value) :
  List.length (collect W G timezone chs responses) = List.length (List.concat chs).
Proof.
  revert responses. induction chs as [|c chs IH]; intros responses;
    [reflexivity|].
  cbn [collect List.concat]. now rewrite !length_app, process_chunk_length, IH.
Qed.

Lemma all_results_length (locations : list location)
  (responses : list value) (timezone : value) :
  List.length (all_results W G locations responses timezone)
    = List.length locations.
Proof.
  unfold all_results. rewrite collect_length, chunks_concat; auto.
Qed.

Lemma valid_results_length (results : list (option formatted)) :
  (List.length (valid_results results) <= List.length results)%nat.
Proof.
  induction results as [|[r|] rest IH]; cbn; lia.
Qed.

Lemma valid_results_In (results : list (option formatted)) (r : formatted) :
  In r (valid_results results) <-> In (Some r) results.
Proof.
  induction results as [|[r'|] rest IH]; cbn; [tauto| |].
  - rewrite IH. split; intros [H|H]; auto; left; congruence.
  - rewrite IH. split; [auto|]. intros [H|H]; [discriminate|exact H].
Qed.

End Batch.

End BatchFacts.

(** C5. [fetch_batch_current_aqi] returns exactly the non-absent entries
    of [all_results], which has one slot per input location: every entry
    of the output is a formatted result, the output is never longer than
    the input, and an empty input gives an empty output.  Positions are
    not kept: with 21 locations, a failed first chunk and an answered
    second chunk, the slot of the first location is absent while the
    output's first entry is the result of the twenty-first location. *)
Theorem fetch_batch_current_aqi_compacts :
  (forall W G (locations : list Services.location)
          (responses : list Py.value) (timezone : Py.value),
      let all := Services.all_results W G locations responses timezone in
      let out :=
        Services.fetch_batch_current_aqi W G locations responses timezone in
      out = Services.valid_results all
      /\ List.length all = List.length locations
      /\ (forall r, In r out <-> In (Some r) all)
      /\ (List.length out <= List.length locations)%nat)
  /\ (forall W G responses timezone,
         Services.fetch_batch_current_aqi W G [] responses timezone = [])
  /\ (let W := fun _ _ _ => None in
      let G := fun _ _ => None in
      let responses := [Py.VNone; BatchSpec.answer_155] in
      let all :=
        Services.all_results W G BatchSpec.equator responses (Py.VStr "auto") in
      let out :=
        Services.fetch_batch_current_aqi W G BatchSpec.equator responses
          (Py.VStr "auto") in
      nth_error all 0 = Some None
      /\ nth_error all 20 = Some (nth_error out 0)
      /\ List.length out = 1%nat
      /\ exists r, nth_error out 0 = Some r
                   /\ Services.loc_lon (Services.f_location r) = Py.VNum 20).
Proof.
  split; [|split].
  - intros W G locations responses timezone all out.
    assert (E : out = Services.valid_results all).
    { subst out all. destruct locations; reflexivity. }
    split; [exact E|]. split; [apply BatchFacts.all_results_length|].
    split.
    + intros r. rewrite E. apply BatchFacts.valid_results_In.
    + rewrite E. subst all.
      rewrite <- (BatchFacts.all_results_length W G locations responses timezone).
      apply BatchFacts.valid_results_length.
  - reflexivity.
  - vm_compute. repeat split. eexists. split; reflexivity.
Qed.

(** ** Password reset *)

Module AccountsFacts.

Import Accounts.

Lemma valid_iff (token : string) (now : Z) (u : User) :
  is_password_reset_token_valid token now u = true
  <-> exists expires,
        password_reset_token u = Some token
        /\ token <> ""
        /\ password_reset_expires u = Some expires
        /\ now <= expires.
Proof.
  unfold is_password_reset_token_valid.
  destruct (password_reset_token u) as [stored|];
    [|split; [discriminate|intros [e [H _]]; discriminate]].
  destruct (password_reset_expires u) as [expires|];
    [|split; [discriminate|intros [e [_ [_ [H _]]]]; discriminate]].
  destruct (String.eqb stored "") eqn:E0.
  { apply String.eqb_eq in E0. subst. split; [discriminate|].
    intros [e [H [N _]]]. injection H as <-. now contradiction N. }
  apply String.eqb_neq in E0.
  destruct (String.eqb stored token) eqn:E1; cbn [negb].
  - apply String.eqb_eq in E1. subst.
    destruct (expires <? now) eqn:E2.
    + apply Z.ltb_lt in E2. split; [discriminate|].
      intros [e [_ [_ [H L]]]]. injection H as <-. lia.
    + apply Z.ltb_ge in E2. split; [|reflexivity].
      intros _. exists expires. auto.
  - apply String.eqb_neq in E1. split; [discriminate|].
    intros [e [H _]]. injection H as H. contradiction.
Qed.

(** A list of users none of whom carries the token. *)
Lemma filter_none {A : Type} (f : A -> bool) (l : list A) :
  (forall x, In x l -> f x = false) -> filter f l = [].
Proof.
  induction l as [|x l IH]; intros H; [reflexivity|].
  cbn. rewrite (H x (or_introl eq_refl)). apply IH. intros y Hy.
  apply H. now right.
Qed.

(** After the only holder of a token is saved without it, nobody holds
    the token. *)
Lemma token_gone (token : string) (user cleared : User) (db : list User) :
  objects_get (has_token token) db = Found user ->
  id cleared = id user ->
  has_token token cleared = false ->
  objects_get (has_token token) (save cleared db) = DoesNotExist.
Proof.
  unfold objects_get. intros H Hid Hc.
  destruct (filter (has_token token) db) as [|u [|u' rest]] eqn:F;
    try discriminate.
  injection H as ->.
  rewrite filter_none; [reflexivity|].
  intros x Hx. unfold save in Hx. apply in_map_iff in Hx.
  destruct Hx as [row [<- Hrow]]. rewrite Hid.
  destruct (Nat.eqb (id row) (id user)) eqn:E; [exact Hc|].
  destruct (has_token token row) eqn:T; [|reflexivity].
  assert (In row (filter (has_token token) db))
    by (apply filter_In; split; assumption).
  rewrite F in H. destruct H as [->|[]].
  now rewrite Nat.eqb_refl in E.
Qed.

(** With unique emails a lookup by email finds one user or none. *)
Lemma unique_email (address : string) (db : list User) :
  NoDup (map email db) ->
  filter (has_email address) db = []
  \/ exists u, filter (has_email address) db = [u].
Proof.
  induction db as [|u db IH]; intros N; [now left|].
  cbn in N. inversion N as [|? ? Hnot N']; subst.
  cbn [filter]. destruct (has_email address u) eqn:E.
  - right. exists u. f_equal. apply filter_none. intros x Hx.
    unfold has_email in *. apply String.eqb_eq in E.
    apply String.eqb_neq. intros Hx'. apply Hnot.
    rewrite E, <- Hx'. now apply in_map.
  - now apply IH.
Qed.

End AccountsFacts.

(** C7. A reset token is valid exactly when a non-empty token is stored,
    the presented token equals it, and the current time is not past the
    stored expiry; generating a token sets the expiry one hour after the
    issue time, so the generated token is valid from the issue time up to
    one hour later and no token is valid after that; and after a reset
    that succeeded, presenting the same request again is answered with
    400 and the invalid-token message. *)
Theorem password_reset_token_lifecycle :
  (forall token now u,
      Accounts.is_password_reset_token_valid token now u = true
      <-> exists expires,
            Accounts.password_reset_token u = Some token
            /\ token <> ""
            /\ Accounts.password_reset_expires u = Some expires
            /\ now <= expires)
  /\ (forall token now u,
         Accounts.password_reset_expires
           (Accounts.generate_password_reset_token token now u)
         = Some (now + Accounts.one_hour))
  /\ (forall token now later u,
         token <> "" -> now <= later <= now + Accounts.one_hour ->
         Accounts.is_password_reset_token_valid token later
           (Accounts.generate_password_reset_token token now u) = true)
  /\ (forall token presented now later u,
         now + Accounts.one_hour < later ->
         Accounts.is_password_reset_token_valid presented later
           (Accounts.generate_password_reset_token token now u) = false)
  /\ (forall (body : Type) (serializer : body -> option (string * string))
             (make_password : string -> string)
             (request : body) (now later : Z)
             (db db' : list Accounts.User) (response : Accounts.Response),
         Accounts.ResetPasswordView_post body serializer make_password
           request now db = (db', response) ->
         Accounts.status_code response = Accounts.HTTP_200_OK ->
         Accounts.ResetPasswordView_post body serializer make_password
           request later db'
         = (db', Accounts.mk_response Accounts.HTTP_400_BAD_REQUEST true
                   "Invalid password reset token.")).
Proof.
  split; [exact AccountsFacts.valid_iff|].
  split; [reflexivity|]. split; [|split].
  - intros token now later u N L. apply AccountsFacts.valid_iff.
    exists (now + Accounts.one_hour).
    repeat split; [exact N|apply L].
  - intros token presented now later u L.
    destruct (Accounts.is_password_reset_token_valid presented later _) eqn:V;
      [|reflexivity].
    apply AccountsFacts.valid_iff in V. destruct V as [e [_ [_ [H Le]]]].
    cbn [Accounts.generate_password_reset_token
           Accounts.password_reset_expires] in H.
    injection H as <-. lia.
  - intros body serializer make_password request now later db db' response.
    unfold Accounts.ResetPasswordView_post.
    destruct (serializer request) as [[token new_password]|];
      [|intros H; injection H as <- <-; discriminate].
    destruct (Accounts.objects_get (Accounts.has_token token) db)
      as [user| |] eqn:L;
      try (intros H; injection H as <- <-; discriminate).
    destruct (negb (Accounts.is_password_reset_token_valid token now user));
      [intros H; injection H as <- <-; discriminate|].
    intros H _. injection H as <- _.
    rewrite (AccountsFacts.token_gone token user _ db L); reflexivity.
Qed.

Lemma password_reset_token_lifecycle_witness :
  let alice := Accounts.mk_user 1 "alice@example.org" "old" None None in
  let issued := Accounts.generate_password_reset_token "s3cr3t" 1000 alice in
  let serializer := fun request : string * string => Some request in
  let hasher := fun raw : string => raw in
  let after_reset :=
    fst (Accounts.ResetPasswordView_post _ serializer hasher
           ("s3cr3t", "new") 1500 [issued]) in
  Accounts.is_password_reset_token_valid "s3cr3t" 1000 issued = true
  /\ Accounts.is_password_reset_token_valid "s3cr3t"
       (1000 + Accounts.one_hour + 1) issued = false
  /\ Accounts.ResetPasswordView_post _ serializer hasher ("s3cr3t", "new")
       2000 after_reset
     = (after_reset,
        Accounts.mk_response 400 true "Invalid password reset token.").
Proof.
  intros alice issued serializer hasher after_reset.
  split; [|split].
  - apply (proj1 (proj2 (proj2 password_reset_token_lifecycle)));
      [discriminate|vm_compute; split; discriminate].
  - apply (proj1 (proj2 (proj2 (proj2 password_reset_token_lifecycle)))).
    reflexivity.
  - apply (proj2 (proj2 (proj2 (proj2 password_reset_token_lifecycle)))
             _ serializer hasher ("s3cr3t", "new") 1500 2000 [issued]
             after_reset
             (Accounts.mk_response 200 false "Password successfully reset."));
      reflexivity.
Defined.

(** C8. The forgot-password endpoint does not tell whether an email
    exists.  Over a [users] table with unique emails, a request whose
    validated email belongs to a user and a request whose validated email
    belongs to nobody get the same response: status 200 and the generic
    'if the email exists' message. *)
Theorem forgot_password_non_enumerating
  (body : Type) (serializer : body -> option string)
  (db : list Accounts.User)
  (known unknown : body) (known_email unknown_email : string)
  (token token' : string) (now now' : Z) :
  NoDup (map Accounts.email db) ->
  serializer known = Some known_email ->
  serializer unknown = Some unknown_email ->
  (exists u, In u db /\ Accounts.email u = known_email) ->
  (forall u, In u db -> Accounts.email u <> unknown_email) ->
  let generic :=
    Accounts.mk_response Accounts.HTTP_200_OK false
      "If the email exists, a password reset email has been sent." in
  snd (Accounts.ForgotPasswordView_post body serializer known token now db)
    = generic
  /\ snd (Accounts.ForgotPasswordView_post body serializer unknown token' now' db)
    = generic.
Proof.
  intros N K U [u [Hu Eu]] Hnone generic.
  unfold Accounts.ForgotPasswordView_post. rewrite K, U.
  unfold Accounts.objects_get. split.
  - destruct (AccountsFacts.unique_email known_email db N) as [E|[v E]];
      rewrite E; [|reflexivity].
    exfalso.
    assert (In u (filter (Accounts.has_email known_email) db)).
    { apply filter_In. split; [exact Hu|].
      unfold Accounts.has_email. now apply String.eqb_eq. }
    rewrite E in H. destruct H.
  - rewrite AccountsFacts.filter_none; [reflexivity|].
    intros x Hx. unfold Accounts.has_email. apply String.eqb_neq.
    now apply Hnone.
Qed.

Lemma forgot_password_non_enumerating_witness :
  let alice := Accounts.mk_user 1 "alice@example.org" "pw" None None in
  let serializer := fun request : string => Some request in
  snd (Accounts.ForgotPasswordView_post string serializer
         "alice@example.org" "t1" 10 [alice])
  = snd (Accounts.ForgotPasswordView_post string serializer
           "bob@example.org" "t2" 20 [alice]).
Proof.
  intros alice serializer.
  destruct (forgot_password_non_enumerating string serializer [alice]
              "alice@example.org" "bob@example.org"
              "alice@example.org" "bob@example.org" "t1" "t2" 10 20)
    as [A B].
  - repeat constructor. intros [].
  - reflexivity.
  - reflexivity.
  - exists alice. split; [now left|reflexivity].
  - intros u [<-|[]]. discriminate.
  - rewrite A, B. reflexivity.
Defined.

(** ** Worst-AQI rankings *)

Module WaqiFacts.

Import Py Waqi WaqiSpec.

(** *** Dicts *)

Lemma get_set_same {V : Type} (k : string) (v : V) (d : dict V) :
  Py.get k (Py.set k v d) = Some v.
Proof.
  induction d as [|[k' v'] d IH]; cbn.
  - now rewrite String.eqb_refl.
  - destruct (String.eqb k k') eqn:E; cbn; rewrite E; auto.
Qed.

Lemma get_set_other {V : Type} (k k' : string) (v : V) (d : dict V) :
  k' <> k -> Py.get k' (Py.set k v d) = Py.get k' d.
Proof.
  intros N. induction d as [|[k0 v0] d IH]; cbn.
  - apply String.eqb_neq in N. now rewrite N.
  - destruct (String.eqb k k0) eqn:E; cbn.
    + apply String.eqb_eq in E. subst k0.
      apply String.eqb_neq in N. now rewrite N.
    + destruct (String.eqb k' k0); auto.
Qed.

Lemma get_Some_In {V : Type} (k : string) (v : V) (d : dict V) :
  Py.get k d = Some v -> In (k, v) d.
Proof.
  induction d as [|[k' v'] d IH]; cbn; [discriminate|].
  destruct (String.eqb k k') eqn:E.
  - apply String.eqb_eq in E. subst. intros H. injection H as ->. now left.
  - intros H. right. now apply IH.
Qed.

Lemma get_None_not_In {V : Type} (k : string) (d : dict V) :
  Py.get k d = None -> ~ In k (keys d).
Proof.
  induction d as [|[k' v'] d IH]; cbn; [tauto|].
  destruct (String.eqb k k') eqn:E; [discriminate|].
  apply String.eqb_neq in E. intros H [H'|H']; [congruence|].
  now apply IH.
Qed.

Lemma In_get {V : Type} (k : string) (v : V) (d : dict V) :
  NoDup (keys d) -> In (k, v) d -> Py.get k d = Some v.
Proof.
  induction d as [|[k' v'] d IH]; cbn; intros N H; [easy|].
  inversion N as [|? ? Hnot N']; subst.
  destruct H as [H|H].
  - injection H as -> ->. now rewrite String.eqb_refl.
  - destruct (String.eqb k k') eqn:E; [|now apply IH].
    apply String.eqb_eq in E. subst. exfalso. apply Hnot.
    change k' with (fst (k', v)). now apply in_map.
Qed.

Lemma In_set {V : Type} (k k' : string) (v v' : V) (d : dict V) :
  In (k', v') (Py.set k v d) -> (k' = k /\ v' = v) \/ In (k', v') d.
Proof.
  induction d as [|[k0 v0] d IH]; cbn.
  - intros [H|[]]. injection H as <- <-. now left.
  - destruct (String.eqb k k0) eqn:E; cbn.
    + apply String.eqb_eq in E. subst k0.
      intros [H|H]; [injection H as <- <-; now left|tauto].
    + intros [H|H]; [tauto|]. destruct (IH H); tauto.
Qed.

Lemma keys_set_present {V : Type} (k : string) (v : V) (d : dict V) :
  In k (keys d) -> keys (Py.set k v d) = keys d.
Proof.
  induction d as [|[k0 v0] d IH]; cbn; [tauto|].
  destruct (String.eqb k k0) eqn:E; cbn.
  - reflexivity.
  - apply String.eqb_neq in E. intros [H|H]; [congruence|].
    f_equal. now apply IH.
Qed.

Lemma keys_set_absent {V : Type} (k : string) (v : V) (d : dict V) :
  ~ In k (keys d) -> keys (Py.set k v d) = (keys d ++ [k])%list.
Proof.
  induction d as [|[k0 v0] d IH]; cbn; [reflexivity|].
  intros N. destruct (String.eqb k k0) eqn:E; cbn.
  - apply String.eqb_eq in E. subst. tauto.
  - f_equal. apply IH. tauto.
Qed.

Lemma keys_set_NoDup {V : Type} (k : string) (v : V) (d : dict V) :
  NoDup (keys d) -> NoDup (keys (Py.set k v d)).
Proof.
  intros N. destruct (in_dec string_dec k (keys d)) as [I|I].
  - now rewrite keys_set_present.
  - rewrite keys_set_absent by exact I.
    apply NoDup_app; [exact N|repeat constructor; intros []|].
    intros x Hx [<-|[]]. contradiction.
Qed.

Section Dedup.

Variable lower : string -> string.

Abbreviation key := (city_key lower).

Lemma dedup_keyed (o : observation) (m : dict observation) :
  keyed lower m -> keyed lower (dedup lower o m).
Proof.
  intros [N K]. unfold dedup.
  assert (S : keyed lower (Py.set (key o) o m)).
  { split; [now apply keys_set_NoDup|].
    intros k e H. apply In_set in H. destruct H as [[-> ->]|H]; auto. }
  destruct (Py.get (key o) m) as [existing|]; [|exact S].
  destruct (aqi existing <? aqi o); [exact S|split; assumption].
Qed.

Lemma dedup_worst (readings : list observation) (o : observation)
  (m : dict observation) :
  keyed lower m -> worst_of lower readings m ->
  worst_of lower (readings ++ [o]) (dedup lower o m).
Proof.
  intros [N K] [Hfrom Hmax].
  assert (S : (forall existing, Py.get (key o) m = Some existing ->
                                aqi existing <= aqi o) ->
              worst_of lower (readings ++ [o]) (Py.set (key o) o m)).
  { intros Hle. split.
    - intros k e H. apply In_set in H. apply in_or_app.
      destruct H as [[-> ->]|H]; [right; now left|left; eauto].
    - intros o' H. apply in_app_or in H.
      destruct (string_dec (key o') (key o)) as [E|E].
      + rewrite E, get_set_same. eexists. split; [reflexivity|].
        destruct H as [H|[<-|[]]]; [|lia].
        destruct (Hmax o' H) as [e [G L]]. rewrite E in G.
        specialize (Hle e G). lia.
      + rewrite get_set_other by exact E.
        destruct H as [H|[<-|[]]]; [now apply Hmax|congruence]. }
  unfold dedup. destruct (Py.get (key o) m) as [existing|] eqn:G.
  - destruct (aqi existing <? aqi o) eqn:C.
    + apply S. intros e' H. injection H as <-. apply Z.ltb_lt in C. lia.
    + apply Z.ltb_ge in C. split.
      * intros k e H. apply in_or_app. left. eauto.
      * intros o' H. apply in_app_or in H.
        destruct H as [H|[<-|[]]]; [now apply Hmax|].
        exists existing. split; [exact G|exact C].
  - apply S. intros e' H. discriminate.
Qed.

Lemma dedup_all_spec (readings seen : list observation)
  (m : dict observation) :
  keyed lower m -> worst_of lower seen m ->
  keyed lower (dedup_all lower readings m)
  /\ worst_of lower (seen ++ readings) (dedup_all lower readings m).
Proof.
  revert seen m. induction readings as [|o readings IH]; intros seen m K W.
  - cbn. now rewrite app_nil_r.
  - cbn [dedup_all fold_left].
    replace (seen ++ o :: readings)%list
      with ((seen ++ [o]) ++ readings)%list
      by (rewrite <- app_assoc; reflexivity).
    apply IH; [now apply dedup_keyed|now apply dedup_worst].
Qed.

End Dedup.

(** *** The scan *)

Section Scan.

Variable lower : string -> string.

(** The station loop feeds the readings of a prefix of the stations to
    the de-duplication step; under the station limit the prefix is the
    whole list. *)
Lemma scan_stations_prefix (stations : list station) (m : dict observation)
  (n : nat) :
  exists k,
    fst (scan_stations lower stations (m, n))
      = dedup_all lower (readings_of (firstn k stations)) m
    /\ ((n + List.length stations <= max_total_stations)%nat ->
        k = List.length stations).
Proof.
  revert m n. induction stations as [|s rest IH]; intros m n.
  - exists O. split; [reflexivity|reflexivity].
  - cbn [scan_stations].
    destruct (max_total_stations <=? n)%nat eqn:L.
    + exists O. split; [reflexivity|].
      apply Nat.leb_le in L. cbn. lia.
    + apply Nat.leb_gt in L.
      assert (Skip : reading_of s = [] ->
                     forall n',
                       (n' <= S n)%nat ->
                       exists k,
                         fst (scan_stations lower rest (m, n'))
                           = dedup_all lower (readings_of (firstn k (s :: rest))) m
                         /\ ((n + List.length (s :: rest)
                              <= max_total_stations)%nat ->
                             k = List.length (s :: rest))).
      { intros E n' Hn. destruct (IH m n') as [k [Hk Hfull]].
        exists (S k). cbn [firstn readings_of flat_map]. rewrite E.
        split; [exact Hk|]. cbn [List.length]. intros B. f_equal.
        apply Hfull. lia. }
      destruct (st_lat s) eqn:E1;
        [|apply Skip; [unfold reading_of; now rewrite E1|auto]].
      destruct (st_lon s) eqn:E2;
        [|apply Skip; [unfold reading_of; now rewrite E1, E2|auto]].
      destruct (st_feed s) as [data|] eqn:E3;
        [|apply Skip; [unfold reading_of; now rewrite E1, E2, E3|auto]].
      destruct (observe data) as [o|] eqn:O;
        [|apply Skip; [unfold reading_of; now rewrite E1, E2, E3, O|auto]].
      assert (R : reading_of s = [o])
        by (unfold reading_of; now rewrite E1, E2, E3, O).
      destruct (IH (dedup lower o m) (S n)) as [k [Hk Hfull]].
      exists (S k). cbn [firstn readings_of flat_map]. rewrite R.
      split; [exact Hk|].
      cbn [List.length]. intros B. f_equal. apply Hfull. lia.
Qed.

End Scan.

Lemma In_firstn {A : Type} (n : nat) (l : list A) (x : A) :
  In x (firstn n l) -> In x l.
Proof.
  intros H. rewrite <- (firstn_skipn n l). apply in_or_app. now left.
Qed.

Section Boxes.

Variable lower : string -> string.

Lemma dedup_all_app (r1 r2 : list observation) (m : dict observation) :
  dedup_all lower (r1 ++ r2) m = dedup_all lower r2 (dedup_all lower r1 m).
Proof. apply fold_left_app. Qed.

(** The box loop feeds readings of the boxes' stations, and nothing
    else, to the de-duplication step. *)
Lemma scan_boxes_readings (top_n : nat) (boxes : list (list station))
  (m : dict observation) (n : nat) :
  exists readings,
    (forall o, In o readings -> from_boxes boxes o)
    /\ fst (scan_boxes lower top_n boxes (m, n)) = dedup_all lower readings m.
Proof.
  revert m n. induction boxes as [|stations rest IH]; intros m n.
  - exists []. split; [intros o []|reflexivity].
  - cbn [scan_boxes].
    destruct ((top_n * 2 <=? List.length m)%nat
              && (top_n <=? high_aqi_count m)%nat).
    + exists []. split; [intros o []|reflexivity].
    + destruct (scan_stations_prefix lower
                  (firstn max_stations_per_box stations) m n) as [k [Hk _]].
      assert (P : forall o,
                 In o (readings_of
                         (firstn k (firstn max_stations_per_box stations))) ->
                 from_boxes (stations :: rest) o).
      { intros o Ho. apply in_flat_map in Ho. destruct Ho as [s [Hs Ho]].
        exists stations, s. split; [now left|]. split; [|exact Ho].
        eapply In_firstn, In_firstn, Hs. }
      destruct (scan_stations lower (firstn max_stations_per_box stations)
                  (m, n)) as [m' n'] eqn:E.
      cbn [fst snd] in *.
      destruct (max_total_stations <=? n')%nat.
      * eexists. split; [exact P|exact Hk].
      * destruct (IH m' n') as [readings [Hfrom Hr]].
        exists (readings_of (firstn k (firstn max_stations_per_box stations))
                  ++ readings)%list.
        split.
        -- intros o Ho. apply in_app_or in Ho. destruct Ho as [Ho|Ho].
           ++ now apply P.
           ++ destruct (Hfrom o Ho) as [st [s [H1 H2]]].
              exists st, s. split; [now right|exact H2].
        -- now rewrite dedup_all_app, <- Hk.
Qed.

(** Once the station limit is reached, or enough cities are known, the
    scan is over. *)
Lemma scan_stations_spent (stations : list station) (m : dict observation)
  (n : nat) :
  (max_total_stations <= n)%nat ->
  scan_stations lower stations (m, n) = (m, n).
Proof.
  intros L. destruct stations as [|s rest]; [reflexivity|].
  cbn [scan_stations]. apply Nat.leb_le in L. now rewrite L.
Qed.

Lemma scan_boxes_stopped (top_n : nat) (boxes : list (list station))
  (m : dict observation) (n : nat) :
  (max_total_stations <= n)%nat
  \/ (top_n * 2 <=? List.length m)%nat
     && (top_n <=? high_aqi_count m)%nat = true ->
  scan_boxes lower top_n boxes (m, n) = (m, n).
Proof.
  intros H. destruct boxes as [|stations rest]; [reflexivity|].
  cbn [scan_boxes].
  destruct ((top_n * 2 <=? List.length m)%nat
            && (top_n <=? high_aqi_count m)%nat); [reflexivity|].
  destruct H as [H|H]; [|discriminate].
  rewrite (scan_stations_spent _ m n H). cbn [snd].
  apply Nat.leb_le in H. now rewrite H.
Qed.

(** The box loop works box by box. *)
Lemma scan_boxes_app (top_n : nat) (b1 b2 : list (list station))
  (st : dict observation * nat) :
  scan_boxes lower top_n (b1 ++ b2) st
  = scan_boxes lower top_n b2 (scan_boxes lower top_n b1 st).
Proof.
  revert st. induction b1 as [|stations rest IH]; intros [m n];
    [reflexivity|].
  cbn [app scan_boxes].
  destruct ((top_n * 2 <=? List.length m)%nat
            && (top_n <=? high_aqi_count m)%nat) eqn:C.
  - symmetry. apply scan_boxes_stopped. now right.
  - destruct (scan_stations lower (firstn max_stations_per_box stations)
                (m, n)) as [m' n'].
    cbn [snd]. destruct (max_total_stations <=? n')%nat eqn:L.
    + symmetry. apply scan_boxes_stopped. left. now apply Nat.leb_le.
    + apply IH.
Qed.

(** A single box within the per-box limit is read completely. *)
Lemma scan_single_box (top_n : nat) (stations : list station) :
  (1 <= top_n)%nat ->
  (List.length stations <= max_stations_per_box)%nat ->
  fst (scan_boxes lower top_n [stations] ([], O))
    = dedup_all lower (readings_of stations) [].
Proof.
  intros T L. cbn [scan_boxes].
  replace ((top_n * 2 <=? List.length (@nil (string * observation)))%nat)
    with false by (symmetry; apply Nat.leb_gt; cbn; lia).
  cbn [andb]. rewrite (firstn_all2 stations) by exact L.
  destruct (scan_stations_prefix lower stations [] O) as [k [Hk Hfull]].
  rewrite Hfull in Hk
    by (unfold max_stations_per_box, max_total_stations in *; lia).
  rewrite firstn_all in Hk.
  destruct (max_total_stations <=? snd (scan_stations lower stations ([], O)))%nat;
    exact Hk.
Qed.

End Boxes.

(** *** Sorting and ranking *)

Lemma insert_desc_perm (o : observation) (l : list observation) :
  Permutation (insert_desc o l) (o :: l).
Proof.
  induction l as [|o' l IH]; cbn; [auto|].
  destruct (aqi o <? aqi o'); [|auto].
  rewrite IH. apply perm_swap.
Qed.

Lemma sort_desc_perm (l : list observation) : Permutation (sort_desc l) l.
Proof.
  induction l as [|o l IH]; cbn; [auto|].
  rewrite insert_desc_perm. now constructor.
Qed.

Lemma insert_desc_sorted (o : observation) (l : list observation) :
  descending l -> descending (insert_desc o l).
Proof.
  unfold descending. induction l as [|o' l IH]; intros S; cbn.
  - repeat constructor.
  - inversion S as [|? ? S' F]; subst.
    destruct (aqi o <? aqi o') eqn:C.
    + apply Z.ltb_lt in C. constructor; [now apply IH|].
      apply Forall_forall. intros x Hx.
      apply (Permutation_in _ (insert_desc_perm o l)) in Hx.
      destruct Hx as [<-|Hx]; [lia|].
      rewrite Forall_forall in F. now apply F.
    + apply Z.ltb_ge in C. constructor; [exact S|].
      constructor; [exact C|].
      eapply Forall_impl; [|exact F]. cbn. intros; lia.
Qed.

Lemma sort_desc_sorted (l : list observation) : descending (sort_desc l).
Proof.
  induction l as [|o l IH]; cbn; [constructor|].
  now apply insert_desc_sorted.
Qed.

Lemma firstn_descending (n : nat) (l : list observation) :
  descending l -> descending (firstn n l).
Proof.
  unfold descending. revert n. induction l as [|o l IH]; intros n S.
  - rewrite firstn_nil. constructor.
  - destruct n; [constructor|]. cbn.
    inversion S as [|? ? S' F]; subst. constructor; [now apply IH|].
    rewrite Forall_forall in *. intros x Hx. apply F.
    eapply In_firstn, Hx.
Qed.

Lemma NoDup_firstn {A : Type} (n : nat) (l : list A) :
  NoDup l -> NoDup (firstn n l).
Proof.
  intros N. rewrite <- (firstn_skipn n l) in N.
  now apply NoDup_app_remove_r in N.
Qed.

(** Ranking a list changes nothing but the ranks, which count from 1. *)
Lemma assign_ranks_from (l : list observation) (start : nat) :
  map (fun '(i, o) => set_rank (S i) o) (combine (seq start (List.length l)) l)
  = map (fun '(i, o) => set_rank i o) (combine (seq (S start) (List.length l)) l).
Proof.
  revert start. induction l as [|o l IH]; intros start; [reflexivity|].
  cbn. f_equal. apply IH.
Qed.

Lemma ranked_fields (l : list observation) (start : nat) :
  let ranked :=
    map (fun '(i, o) => set_rank i o) (combine (seq start (List.length l)) l) in
  map aqi ranked = map aqi l
  /\ map city ranked = map city l
  /\ map country ranked = map country l
  /\ map rank ranked = map Some (seq start (List.length l))
  /\ forall e, In e ranked -> exists i o, In o l /\ e = set_rank i o.
Proof.
  revert start. induction l as [|o l IH]; intros start.
  - cbn. repeat split. intros e [].
  - cbn. destruct (IH (S start)) as [A [C [K [R I]]]].
    repeat split; try (f_equal; assumption).
    intros e [<-|H]; [exists start, o; auto|].
    destruct (I e H) as [i [o' [Ho' ->]]]. exists i, o'. auto.
Qed.

Lemma map_descending (l l' : list observation) :
  map aqi l = map aqi l' -> descending l' -> descending l.
Proof.
  unfold descending. revert l'. induction l as [|o l IH]; intros l' E S.
  - constructor.
  - destruct l' as [|o' l']; [discriminate|]. cbn in E.
    injection E as E0 E. inversion S as [|? ? S' F]; subst.
    constructor; [now apply (IH l')|].
    rewrite Forall_forall in *. intros x Hx.
    assert (In (aqi x) (map aqi l')) by (rewrite <- E; now apply in_map).
    apply in_map_iff in H. destruct H as [y [Ey Hy]].
    specialize (F y Hy). lia.
Qed.

Section Builder.

Variable lower : string -> string.

Lemma ranked_keys (l : list observation) (start : nat) :
  map (city_key lower)
    (map (fun '(i, o) => set_rank i o) (combine (seq start (List.length l)) l))
  = map (city_key lower) l.
Proof.
  revert start. induction l as [|o l IH]; intros start; [reflexivity|].
  cbn. f_equal. apply IH.
Qed.

Lemma keyed_values (m : dict observation) :
  keyed lower m -> map (city_key lower) (values m) = keys m.
Proof.
  intros [_ K]. induction m as [|[k e] m IH]; [reflexivity|].
  cbn. f_equal.
  - symmetry. apply K. now left.
  - apply IH. intros k' e' H. apply K. now right.
Qed.

(** The map the scan ends with, seen from the readings it was fed. *)
Lemma scanned_map (top_n : nat) (boxes : list (list station)) :
  exists readings,
    (forall o, In o readings -> from_boxes boxes o)
    /\ fst (scan_boxes lower top_n boxes ([], O))
       = dedup_all lower readings []
    /\ keyed lower (dedup_all lower readings [])
    /\ worst_of lower readings (dedup_all lower readings []).
Proof.
  destruct (scan_boxes_readings lower top_n boxes [] O) as [readings [F E]].
  exists readings. split; [exact F|]. split; [exact E|].
  apply (dedup_all_spec lower readings [] []).
  - split; [constructor|intros k e []].
  - split; [intros k e []|intros o []].
Qed.

(** What the builder returns, given the map the scan ended with. *)
Lemma built_from_map (top_n : nat) (readings : list observation)
  (m : dict observation) (out : list observation) :
  keyed lower m -> worst_of lower readings m ->
  out = assign_ranks (firstn top_n (sort_desc (values m))) ->
  NoDup (map (city_key lower) out)
  /\ (forall e, In e out ->
        (exists i o, In o readings /\ e = set_rank i o)
        /\ (forall o, In o readings ->
                      city_key lower o = city_key lower e ->
                      aqi o <= aqi e))
  /\ descending out
  /\ map rank out = map Some (seq 1 (List.length out))
  /\ (List.length out <= top_n)%nat
  /\ (forall o, In o readings ->
        (exists e, In e out /\ city_key lower e = city_key lower o
                   /\ aqi o <= aqi e)
        \/ List.length out = top_n).
Proof.
  intros K W ->.
  set (full := sort_desc (values m)).
  set (top := firstn top_n full).
  assert (P : Permutation full (values m)) by apply sort_desc_perm.
  unfold assign_ranks, Services.enumerate. rewrite assign_ranks_from.
  destruct (ranked_fields top 1) as [A [_ [_ [R I]]]].
  pose proof (ranked_keys top 1) as Keys.
  set (out := map (fun '(i, o) => set_rank i o)
                (combine (seq 1 (List.length top)) top)) in *.
  assert (Len : List.length out = List.length top).
  { unfold out. rewrite length_map, length_combine, length_seq.
    apply Nat.min_id. }
  assert (InTop : forall o, In o top -> In (city_key lower o, o) m).
  { intros o Ho. apply In_firstn in Ho.
    apply (Permutation_in _ P) in Ho. apply in_map_iff in Ho.
    destruct Ho as [[k e] [E H]]. cbn in E. subst e.
    destruct K as [_ K]. now rewrite <- (K k o H). }
  split; [|split; [|split; [|split; [|split]]]].
  - rewrite Keys. unfold top. rewrite <- firstn_map. apply NoDup_firstn.
    apply (Permutation_NoDup (l := keys m)); [|apply K].
    rewrite <- (keyed_values m K). symmetry. now apply Permutation_map.
  - intros e He. destruct (I e He) as [i [o [Ho ->]]].
    pose proof (InTop o Ho) as Hm.
    split.
    + exists i, o. split; [|reflexivity]. destruct W as [F _]. eauto.
    + intros o' Ho' E. change (city_key lower (set_rank i o))
        with (city_key lower o) in E.
      destruct W as [_ M]. destruct (M o' Ho') as [e' [G L]].
      rewrite E in G.
      rewrite (In_get _ _ _ (proj1 K) Hm) in G. injection G as <-.
      exact L.
  - apply (map_descending out top A). apply firstn_descending.
    apply sort_desc_sorted.
  - rewrite R. now rewrite Len.
  - rewrite Len. apply firstn_le_length.
  - intros o Ho. destruct W as [_ M]. destruct (M o Ho) as [e [G L]].
    apply get_Some_In in G.
    assert (Hfull : In e full).
    { apply (Permutation_in _ (Permutation_sym P)).
      change e with (snd (city_key lower o, e)). now apply in_map. }
    destruct (Nat.le_gt_cases (List.length full) top_n) as [C|C].
    + left. unfold top in *. rewrite (firstn_all2 full) in * by exact C.
      apply (In_nth _ _ e) in Hfull. destruct Hfull as [j [Hj Ej]].
      exists (set_rank (1 + j) e).
      split; [|split; [|exact L]].
      * unfold out. apply in_map_iff. exists ((1 + j)%nat, e).
        split; [reflexivity|].
        assert (NI : In (nth j (combine (seq 1 (List.length full)) full)
                           (O, e))
                       (combine (seq 1 (List.length full)) full)).
        { apply nth_In. now rewrite length_combine, length_seq, Nat.min_id. }
        rewrite combine_nth in NI by now rewrite length_seq.
        rewrite seq_nth in NI by exact Hj. rewrite Ej in NI.
        now rewrite (firstn_all2 full) by exact C.
      * change (city_key lower (set_rank (1 + j) e)) with (city_key lower e).
        destruct K as [_ K]. symmetry. apply K. exact G.
    + right. rewrite Len. unfold top. apply firstn_length_le. lia.
Qed.

End Builder.

(** *** How far the scan goes *)

Section Extent.

Variable lower : string -> string.

Lemma readings_of_cons (s : station) (l : list station) :
  readings_of (s :: l) = (reading_of s ++ readings_of l)%list.
Proof. reflexivity. Qed.

(** The station loop, exactly: it takes the stations in order up to some
    point, and stops before the end only when the station limit is
    reached. *)
Lemma scan_stations_exact (stations : list station) (m : dict observation)
  (n : nat) :
  exists k,
    (k <= List.length stations)%nat
    /\ scan_stations lower stations (m, n)
       = (dedup_all lower (readings_of (firstn k stations)) m,
          (n + requested (firstn k stations))%nat)
    /\ (k = List.length stations
        \/ (max_total_stations <= n + requested (firstn k stations))%nat).
Proof.
  revert m n. induction stations as [|s rest IH]; intros m n.
  - exists O. cbn. rewrite Nat.add_0_r. auto.
  - cbn [scan_stations].
    destruct (max_total_stations <=? n)%nat eqn:L.
    + exists O. cbn. rewrite Nat.add_0_r. apply Nat.leb_le in L.
      split; [lia|]. split; [reflexivity|]. now right.
    + assert (Skip : reading_of s = [] ->
                forall n',
                  (n' = n + requested [s])%nat ->
                  exists k,
                    (k <= List.length (s :: rest))%nat
                    /\ scan_stations lower rest (m, n')
                       = (dedup_all lower
                            (readings_of (firstn k (s :: rest))) m,
                          (n + requested (firstn k (s :: rest)))%nat)
                    /\ (k = List.length (s :: rest)
                        \/ (max_total_stations
                            <= n + requested (firstn k (s :: rest)))%nat)).
      { intros E n' Hn. destruct (IH m n') as [k [Hk [Ek D]]].
        exists (S k). cbn [firstn List.length].
        rewrite readings_of_cons, E. cbn [app].
        assert (R : (n + requested (s :: firstn k rest)
                     = n' + requested (firstn k rest))%nat).
        { subst n'. unfold requested. cbn [filter].
          destruct (has_coordinates s); cbn [List.length]; lia. }
        rewrite R. split; [lia|]. split; [exact Ek|].
        destruct D as [->|D]; [now left|now right]. }
      destruct (st_lat s) eqn:E1;
        [|apply Skip;
          [unfold reading_of; now rewrite E1
          |unfold requested, has_coordinates; cbn; rewrite E1; cbn; lia]].
      destruct (st_lon s) eqn:E2;
        [|apply Skip;
          [unfold reading_of; now rewrite E1, E2
          |unfold requested, has_coordinates; cbn; rewrite E1, E2; cbn; lia]].
      assert (C : (S n = n + requested [s])%nat)
        by (unfold requested, has_coordinates; cbn; rewrite E1, E2; cbn; lia).
      destruct (st_feed s) as [data|] eqn:E3;
        [|apply Skip; [unfold reading_of; now rewrite E1, E2, E3|exact C]].
      destruct (observe data) as [o|] eqn:O;
        [|apply Skip; [unfold reading_of; now rewrite E1, E2, E3, O|exact C]].
      assert (R : reading_of s = [o])
        by (unfold reading_of; now rewrite E1, E2, E3, O).
      destruct (IH (dedup lower o m) (S n)) as [k [Hk [Ek D]]].
      exists (S k). cbn [firstn List.length].
      rewrite readings_of_cons, R. cbn [app].
      assert (Q : (n + requested (s :: firstn k rest)
                   = S n + requested (firstn k rest))%nat).
      { unfold requested. cbn [filter]. unfold has_coordinates at 1.
        rewrite E1, E2. cbn [List.length]. lia. }
      rewrite Q. split; [lia|]. split; [exact Ek|].
      destruct D as [->|D]; [now left|now right].
Qed.

Lemma readings_of_app (a b : list station) :
  readings_of (a ++ b) = (readings_of a ++ readings_of b)%list.
Proof. apply flat_map_app. Qed.

Lemma requested_app (a b : list station) :
  requested (a ++ b) = (requested a + requested b)%nat.
Proof. unfold requested. now rewrite filter_app, length_app. Qed.

(** The box loop, exactly: it takes the first 30 stations of the boxes in
    order up to some point, and stops before the end only when the
    station limit is reached or when the map holds enough cities. *)
Lemma scan_boxes_exact (top_n : nat) (boxes : list (list station))
  (m : dict observation) (n : nat) :
  exists k,
    let visited := firstn k (offered boxes) in
    let m' := dedup_all lower (readings_of visited) m in
    scan_boxes lower top_n boxes (m, n) = (m', (n + requested visited)%nat)
    /\ (k = List.length (offered boxes)
        \/ (max_total_stations <= n + requested visited)%nat
        \/ (top_n * 2 <=? List.length m')%nat
           && (top_n <=? high_aqi_count m')%nat = true).
Proof.
  revert m n. induction boxes as [|stations rest IH]; intros m n.
  - exists O. cbn. rewrite Nat.add_0_r. auto.
  - cbn [scan_boxes].
    destruct ((top_n * 2 <=? List.length m)%nat
              && (top_n <=? high_aqi_count m)%nat) eqn:C.
    + exists O. cbn. rewrite Nat.add_0_r. split; [reflexivity|].
      right. right. exact C.
    + destruct (scan_stations_exact (firstn 30 stations) m n)
        as [k1 [Hk1 [E1 D1]]].
      change max_stations_per_box with 30%nat. rewrite E1. cbn [snd].
      change (offered (stations :: rest))
        with (firstn 30 stations ++ offered rest)%list.
      destruct (max_total_stations
                <=? n + requested (firstn k1 (firstn 30 stations)))%nat
        eqn:L.
      * exists k1. cbn zeta.
        rewrite firstn_app.
        replace (k1 - List.length (firstn 30 stations))%nat with O by lia.
        cbn [firstn]. rewrite app_nil_r.
        split; [reflexivity|]. right. left. now apply Nat.leb_le.
      * apply Nat.leb_gt in L.
        destruct D1 as [->|D1]; [|lia].
        rewrite firstn_all in *.
        destruct (IH (dedup_all lower (readings_of (firstn 30 stations)) m)
                    (n + requested (firstn 30 stations))%nat)
          as [k2 [E2 D2]].
        cbn zeta in E2, D2.
        exists (List.length (firstn 30 stations) + k2)%nat. cbn zeta.
        rewrite firstn_app_2, readings_of_app, requested_app.
        rewrite WaqiFacts.dedup_all_app, Nat.add_assoc.
        split; [exact E2|].
        destruct D2 as [->|[D2|D2]].
        -- left. now rewrite length_app.
        -- right. left. exact D2.
        -- right. right. exact D2.
Qed.

End Extent.

Lemma filter_length_perm {A : Type} (f : A -> bool) (l l' : list A) :
  Permutation l l' ->
  List.length (filter f l) = List.length (filter f l').
Proof.
  induction 1 as [|x l l' P IH|x y l|l l' l'' P1 IH1 P2 IH2].
  - reflexivity.
  - cbn. destruct (f x); cbn; now rewrite IH.
  - cbn. destruct (f x), (f y); reflexivity.
  - congruence.
Qed.

(** The entry at a position of a ranked list. *)
Lemma ranked_nth (l : list observation) (start i : nat) (o : observation) :
  nth_error l i = Some o ->
  nth_error
    (map (fun '(j, e) => set_rank (S j) e)
       (combine (seq start (List.length l)) l)) i
  = Some (set_rank (S (start + i)) o).
Proof.
  revert i start. induction l as [|e l IH]; intros i start H.
  - destruct i; discriminate.
  - destruct i as [|i]; cbn in *.
    + injection H as <-. now rewrite Nat.add_0_r.
    + rewrite (IH i (S start) H). do 3 f_equal. lia.
Qed.

Lemma assign_ranks_nth (l : list observation) (i : nat) (o : observation) :
  nth_error l i = Some o ->
  nth_error (assign_ranks l) i = Some (set_rank (S i) o).
Proof. exact (ranked_nth l O i o). Qed.

Lemma assign_ranks_length (l : list observation) :
  List.length (assign_ranks l) = List.length l.
Proof.
  unfold assign_ranks, Services.enumerate.
  rewrite length_map, length_combine, length_seq. apply Nat.min_id.
Qed.

End WaqiFacts.

(** *** The station budget *)

Module BudgetFacts.

Import Py Waqi.

Section Budget.

Variable lower : string -> string.

Lemma scan_stations_budget (stations : list station)
  (m : dict observation) (n : nat) :
  let n' := snd (scan_stations lower stations (m, n)) in
  (n <= n')%nat
  /\ (n' <= n + List.length stations)%nat
  /\ (n' <= Nat.max n max_total_stations)%nat.
Proof.
  revert m n. induction stations as [|s rest IH]; intros m n.
  - cbn. lia.
  - cbn [scan_stations].
    destruct (max_total_stations <=? n)%nat eqn:L; [cbn; lia|].
    apply Nat.leb_gt in L.
    destruct (st_lat s), (st_lon s).
    2-4: specialize (IH m n); cbn zeta in IH; cbn [List.length]; lia.
    destruct (st_feed s) as [data|]; [destruct (observe data) as [o|]|].
    + specialize (IH (dedup lower o m) (S n)). cbn zeta in IH.
      cbn [List.length]. lia.
    + specialize (IH m (S n)). cbn zeta in IH. cbn [List.length]. lia.
    + specialize (IH m (S n)). cbn zeta in IH. cbn [List.length]. lia.
Qed.

Lemma scan_boxes_budget (top_n : nat) (boxes : list (list station))
  (m : dict observation) (n : nat) :
  let n' := snd (scan_boxes lower top_n boxes (m, n)) in
  (n <= n')%nat
  /\ (n' <= n + max_stations_per_box * List.length boxes)%nat
  /\ (n' <= Nat.max n max_total_stations)%nat.
Proof.
  revert m n. induction boxes as [|stations rest IH]; intros m n.
  - cbn. unfold max_total_stations. lia.
  - cbn [scan_boxes].
    destruct ((top_n * 2 <=? List.length m)%nat
              && (top_n <=? high_aqi_count m)%nat); [cbn; lia|].
    pose proof (scan_stations_budget
                  (firstn max_stations_per_box stations) m n) as B.
    cbn zeta in B.
    assert (F : (List.length (firstn max_stations_per_box stations)
                 <= max_stations_per_box)%nat) by apply firstn_le_length.
    destruct (scan_stations lower (firstn max_stations_per_box stations)
                (m, n)) as [m1 n1].
    cbn [snd] in *.
    destruct (max_total_stations <=? n1)%nat; cbn [snd List.length].
    + unfold max_stations_per_box, max_total_stations in *. lia.
    + specialize (IH m1 n1). cbn zeta in IH.
      unfold max_stations_per_box, max_total_stations in *. lia.
Qed.

(** What one bounding box adds to the count. *)
Lemma scan_box_budget (top_n : nat) (box : list station)
  (st : dict observation * nat) :
  let n' := snd (scan_boxes lower top_n [box] st) in
  (snd st <= n')%nat
  /\ (n' <= snd st + Nat.min max_stations_per_box (List.length box))%nat.
Proof.
  destruct st as [m n]. cbn [scan_boxes snd].
  destruct ((top_n * 2 <=? List.length m)%nat
            && (top_n <=? high_aqi_count m)%nat); [cbn; lia|].
  pose proof (scan_stations_budget
                (firstn max_stations_per_box box) m n) as B.
  cbn zeta in B. rewrite length_firstn in B.
  destruct (max_total_stations
            <=? snd (scan_stations lower
                       (firstn max_stations_per_box box) (m, n)))%nat;
    cbn zeta; lia.
Qed.

End Budget.

End BudgetFacts.


(** C4, as stated, fails on ties: two different cities with the same
    index 120 both appear, so the returned list is not strictly
    descending. *)
Lemma rankings_ties_not_strict :
  ~ WaqiSpec.strictly_descending
      (Waqi.build_worst_aqi_rankings Py.lower 30
         [[ WaqiSpec.reading "Delhi, India" 120;
            WaqiSpec.reading "Lahore, Pakistan" 120 ]]).
Proof.
  vm_compute. intros S. inversion S as [|? ? _ F]; subst.
  inversion F as [|? ? L _]; subst. cbv in L. discriminate.
Qed.

(** C4 (amended). [build_worst_aqi_rankings] de-duplicates the station
    observations by the lower-cased [city_country] key, keeps for each key
    an observation with the highest index, sorts by index in descending
    order (not strictly: different cities with equal indices both appear)
    and returns the first [top_n] entries of that order with the ranks
    1, 2, ... .

    The observations are the readings of the stations the scan visits:
    the first 30 stations of each box, in order, up to some point [k];
    the scan stops before the end only when it has requested 200 feeds or
    when the map holds at least [2 * top_n] cities, [top_n] of them with
    an index above 100.  The list [full] has one entry per city key of
    the readings, each entry is one of the readings and none of the
    readings with its key has a higher index; [full] is in descending
    order of the index.  The output has [min top_n (length full)]
    entries, and its entry at position [i] is entry [i] of [full] with
    rank [i + 1].  So the output has one entry per key, is in descending
    order and carries the ranks 1..N.

    Two readings for the same key with indices 80 and 120 give one entry
    with index 120, in either order; of four cities in two boxes the two
    with the highest indices are returned when [top_n] is 2. *)
Theorem build_worst_aqi_rankings_spec (lower : string -> string)
  (top_n : nat) (boxes : list (list Waqi.station)) :
  let out := Waqi.build_worst_aqi_rankings lower top_n boxes in
  (exists (k : nat) (full : list Waqi.observation),
      let visited := firstn k (WaqiSpec.offered boxes) in
      let readings := WaqiSpec.readings_of visited in
      (visited = WaqiSpec.offered boxes
       \/ WaqiSpec.requested visited = 200%nat
       \/ (top_n * 2 <= List.length full
           /\ top_n <= WaqiSpec.high full)%nat)
      /\ (forall e, In e full -> In e readings)
      /\ NoDup (map (Waqi.city_key lower) full)
      /\ (forall o, In o readings ->
            exists e, In e full
                      /\ Waqi.city_key lower e = Waqi.city_key lower o
                      /\ Waqi.aqi o <= Waqi.aqi e)
      /\ WaqiSpec.descending full
      /\ List.length out = Nat.min top_n (List.length full)
      /\ (forall i o,
            (i < top_n)%nat -> nth_error full i = Some o ->
            nth_error out i = Some (Waqi.set_rank (S i) o)))
  /\ NoDup (map (Waqi.city_key lower) out)
  /\ WaqiSpec.descending out
  /\ map Waqi.rank out = map Some (seq 1 (List.length out))
  /\ (List.length out <= top_n)%nat
  /\ map Waqi.aqi
       (Waqi.build_worst_aqi_rankings Py.lower 30
          [[ WaqiSpec.reading "Delhi, India" 80;
             WaqiSpec.reading "DELHI, INDIA" 120 ]]) = [120]
  /\ map Waqi.aqi
       (Waqi.build_worst_aqi_rankings Py.lower 30
          [[ WaqiSpec.reading "Delhi, India" 120;
             WaqiSpec.reading "delhi, india" 80 ]]) = [120]
  /\ map (fun e => (Waqi.city e, Waqi.aqi e, Waqi.rank e))
       (Waqi.build_worst_aqi_rankings Py.lower 2
          [ [ WaqiSpec.reading "Oslo, Norway" 20;
              WaqiSpec.reading "Delhi, India" 80 ];
            [ WaqiSpec.reading "DELHI, INDIA" 120;
              WaqiSpec.reading "Lahore, Pakistan" 150;
              WaqiSpec.reading "Dhaka, Bangladesh" 90 ] ])
     = [ ("Lahore, Pakistan", 150, Some 1%nat);
         ("DELHI, INDIA", 120, Some 2%nat) ].
Proof.
  intros out.
  destruct (WaqiFacts.scan_boxes_exact lower top_n boxes [] O)
    as [k [E D]].
  cbn zeta in E, D. cbn [Nat.add] in E, D.
  set (visited := firstn k (WaqiSpec.offered boxes)) in *.
  set (readings := WaqiSpec.readings_of visited) in *.
  set (m := WaqiSpec.dedup_all lower readings []) in *.
  assert (K0 : WaqiSpec.keyed lower [])
    by (split; [constructor|intros ? ? []]).
  assert (W0 : WaqiSpec.worst_of lower [] [])
    by (split; [intros ? ? []|intros ? []]).
  destruct (WaqiFacts.dedup_all_spec lower readings [] [] K0 W0) as [K W].
  fold m in K, W. cbn [app] in W.
  set (full := Waqi.sort_desc (Py.values m)).
  assert (P : Permutation full (Py.values m))
    by apply WaqiFacts.sort_desc_perm.
  assert (Out : out = Waqi.assign_ranks (firstn top_n full)).
  { exact (f_equal
             (fun st => Waqi.assign_ranks
                          (firstn top_n (Waqi.sort_desc (Py.values (fst st)))))
             E). }
  destruct (WaqiFacts.built_from_map lower top_n readings m out K W Out)
    as [P1 [_ [P3 [P4 [P5 _]]]]].
  split; [|split; [exact P1|split; [exact P3|split; [exact P4|
           split; [exact P5|split; [reflexivity|split; reflexivity]]]]]].
  assert (InFull : forall e, In e full -> In (Waqi.city_key lower e, e) m).
  { intros e He. apply (Permutation_in _ P) in He.
    apply in_map_iff in He. destruct He as [[k' e'] [Ee H]].
    cbn in Ee. subst e'. destruct K as [_ K]. now rewrite <- (K k' e H). }
  exists k, full. fold visited. fold readings.
  split; [|split; [|split; [|split; [|split; [|split]]]]].
  - destruct D as [D|[D|D]].
    + left. unfold visited. rewrite D. apply firstn_all.
    + right. left.
      pose proof (BudgetFacts.scan_boxes_budget lower top_n boxes [] O)
        as [_ [_ B]].
      rewrite E in B. cbn [snd] in B. rewrite Nat.max_0_l in B.
      unfold Waqi.max_total_stations in *. lia.
    + right. right. apply andb_true_iff in D. destruct D as [D1 D2].
      apply Nat.leb_le in D1, D2.
      split.
      * rewrite (Permutation_length P). unfold Py.values.
        now rewrite length_map.
      * unfold WaqiSpec.high.
        rewrite (WaqiFacts.filter_length_perm _ _ _ P). exact D2.
  - intros e He. destruct W as [F _]. exact (F _ _ (InFull e He)).
  - apply (Permutation_NoDup (l := Py.keys m)); [|apply K].
    rewrite <- (WaqiFacts.keyed_values lower m K).
    symmetry. now apply Permutation_map.
  - intros o Ho. destruct W as [_ M]. destruct (M o Ho) as [e [G L]].
    apply WaqiFacts.get_Some_In in G. exists e. split; [|split; [|exact L]].
    + apply (Permutation_in _ (Permutation_sym P)).
      change e with (snd (Waqi.city_key lower o, e)). now apply in_map.
    + destruct K as [_ K]. symmetry. exact (K _ _ G).
  - apply WaqiFacts.sort_desc_sorted.
  - rewrite Out, WaqiFacts.assign_ranks_length. apply length_firstn.
  - intros i o Hi Ho. rewrite Out. apply WaqiFacts.assign_ranks_nth.
    rewrite nth_error_firstn. apply Nat.ltb_lt in Hi. now rewrite Hi.
Qed.

(** ** Alert sweep *)

Module SweepFacts.

Import Py Tasks SweepSpec.

(** *** The ledger *)

Lemma notified_rows (user : User) (saved_location : SavedLocation)
  (today : Z) (w : world) :
  notified user saved_location today w = false
  <-> rows (user_id user) (sl_id saved_location) today w = O.
Proof.
  unfold notified, rows, same_alert.
  induction (notifications w) as [|n ns IH]; cbn; [tauto|].
  destruct (Nat.eqb (n_user n) (user_id user)
            && Nat.eqb (n_saved_location n) (sl_id saved_location)
            && (n_date n =? today)); cbn.
  - split; discriminate.
  - exact IH.
Qed.

Lemma get_or_create_keeps (user : User) (subscription : CitySubscription)
  (w : world) :
  let w1 := snd (get_or_create user subscription w) in
  notifications w1 = notifications w
  /\ outbox w1 = outbox w
  /\ transport w1 = transport w.
Proof.
  unfold get_or_create. destruct (find _ (saved_locations w)); cbn; auto.
Qed.

Lemma process_pair_effect (today : Z) (a : Q) (aqi_data : Services.formatted)
  (user : User) (subscription : CitySubscription) (w : world) (c : counters) :
  pair_effect today a user w
    (fst (process_pair today a aqi_data (user, subscription) (w, c))).
Proof.
  unfold process_pair. destruct c as [sent errors].
  pose proof (get_or_create_keeps user subscription w) as K.
  destruct (get_or_create user subscription w) as [l w1].
  cbn [snd] in K. destruct K as [Kn [Ko Kt]].
  destruct (notified user l today w1) eqn:N.
  - apply effect_none; assumption.
  - assert (R : rows (user_id user) (sl_id l) today w = O).
    { apply notified_rows in N. unfold rows in *. now rewrite <- Kn. }
    unfold send_aqi_alert_email.
    destruct (Services.f_dominant_pollutant aqi_data);
      [|apply effect_none; assumption].
    destruct (transport w1) as [|[|] rest]; cbn [fst].
    + apply effect_none; assumption.
    + apply (effect_alert _ _ _ _ _ (sl_id l)); cbn; [exact R|congruence..].
    + apply effect_none; cbn; assumption.
Qed.

Lemma effect_ledger (today : Z) (a : Q) (user : User) (w w' : world) :
  pair_effect today a user w w' -> ledger w -> ledger w'.
Proof.
  intros E L u l d. specialize (L u l d) as L0. unfold mails, rows in *.
  destruct E as [En Eo|l0 R En Eo]; rewrite En, Eo; [exact L0|].
  cbn [filter n_user n_saved_location n_date m_user m_saved_location m_date].
  destruct (same_alert u l d (user_id user) l0 today) eqn:S;
    [|exact L0].
  unfold same_alert in S.
  apply andb_true_iff in S. destruct S as [S Sd].
  apply andb_true_iff in S. destruct S as [Su Sl].
  apply Nat.eqb_eq in Su, Sl. apply Z.eqb_eq in Sd. subst.
  unfold rows in R. cbn [List.length]. rewrite R in L0 |- *. lia.
Qed.

Lemma process_pairs_ledger (today : Z) (a : Q) (aqi_data : Services.formatted)
  (pairs : list pair) (st : world * counters) :
  ledger (fst st) ->
  ledger (fst (fold_left (fun st p => process_pair today a aqi_data p st)
                 pairs st)).
Proof.
  revert st. induction pairs as [|[user subscription] pairs IH];
    intros [w c] L; [exact L|].
  cbn [fold_left]. apply IH.
  eapply effect_ledger; [apply process_pair_effect|exact L].
Qed.

Lemma process_group_ledger (today : Z) (keys : list coordinate)
  (aqi_results : list Services.formatted) (group : coordinate * list pair)
  (st st' : world * counters) :
  process_group today keys aqi_results group st = Return st' ->
  ledger (fst st) -> ledger (fst st').
Proof.
  unfold process_group. destruct group as [key pairs].
  destruct (location_aqi_map_get key keys aqi_results) as [aqi_data|];
    [|intros H; injection H as <-; auto].
  destruct (is_none (Services.f_aqi aqi_data));
    [intros H; injection H as <-; auto|].
  destruct (as_number (Services.f_aqi aqi_data)) as [a|]; [|discriminate].
  destruct (Qlt_le_dec a AQI_THRESHOLD);
    intros H; injection H as <-; [auto|].
  apply process_pairs_ledger.
Qed.

Lemma process_groups_ledger (today : Z) (keys : list coordinate)
  (aqi_results : list Services.formatted)
  (groups : list (coordinate * list pair)) (st : world * counters) :
  ledger (fst st) ->
  ledger (fst (fst (process_groups today keys aqi_results groups st))).
Proof.
  revert st. induction groups as [|group groups IH]; intros st L; [exact L|].
  cbn [process_groups].
  destruct (process_group today keys aqi_results group st) as [st'|] eqn:E;
    [|exact L].
  apply IH. eapply process_group_ledger; eauto.
Qed.

Section Sweep.

Variable W : value -> value -> value -> option (dict value).
Variable G : value -> value -> option (value * value).

(** A sweep keeps the ledger, whatever the subscriptions, the provider's
    answers and the mail transport do. *)
Lemma sweep_ledger (today : Z) (subscriptions : list CitySubscription)
  (responses : list value) (w : world) :
  ledger w ->
  ledger (fst (check_and_send_aqi_alerts W G today subscriptions responses w)).
Proof.
  intros L. unfold check_and_send_aqi_alerts.
  destruct (filter sub_is_active subscriptions) as [|s0 active]; [exact L|].
  destruct (group_subscriptions (s0 :: active)) as [|g0 groups]; [exact L|].
  destruct (Services.fetch_batch_current_aqi W G _ responses (VStr "auto"))
    as [|r0 results]; [exact L|].
  pose proof (process_groups_ledger today (map fst (g0 :: groups))
                (r0 :: results) (g0 :: groups) (w, (O, O)) L) as P.
  destruct (process_groups today (map fst (g0 :: groups)) (r0 :: results)
              (g0 :: groups) (w, (O, O))) as [[w' [sent errors]] [|]];
    exact P.
Qed.

End Sweep.

(** *** One subscription, two sweeps *)

Lemma coordinate_eqb_refl (k : coordinate) : coordinate_eqb k k = true.
Proof.
  unfold coordinate_eqb. apply andb_true_iff.
  split; apply Qeq_bool_iff; reflexivity.
Qed.

(** Looking a location up again, in a state with the same
    [saved_locations] table as the first lookup left, finds the same row. *)
Lemma get_or_create_again (user : User) (subscription : CitySubscription)
  (w w2 : world) :
  saved_locations w2
    = saved_locations (snd (get_or_create user subscription w)) ->
  get_or_create user subscription w2
    = (fst (get_or_create user subscription w), w2).
Proof.
  unfold get_or_create.
  destruct (find _ (saved_locations w)) as [l|] eqn:F; cbn [fst snd].
  - intros E. now rewrite E, F.
  - cbn [saved_locations]. intros E. rewrite E. cbn [find sl_user
      sl_latitude sl_longitude].
    rewrite Nat.eqb_refl.
    replace (Qeq_bool (sub_latitude subscription) (sub_latitude subscription))
      with true by (symmetry; apply Qeq_bool_iff; reflexivity).
    replace (Qeq_bool (sub_longitude subscription) (sub_longitude subscription))
      with true by (symmetry; apply Qeq_bool_iff; reflexivity).
    reflexivity.
Qed.

(** The first alert for a pair on a day: with no notification rows yet, a
    dominant pollutant in the data and a transport that accepts the mail,
    one mail is delivered and one row written. *)
Lemma process_pair_first (today : Z) (a : Q) (aqi_data : Services.formatted)
  (user : User) (subscription : CitySubscription) (w : world)
  (rest : list bool) :
  notifications w = [] ->
  transport w = true :: rest ->
  Services.f_dominant_pollutant aqi_data <> None ->
  let l := fst (get_or_create user subscription w) in
  let w1 := snd (get_or_create user subscription w) in
  process_pair today a aqi_data (user, subscription) (w, (O, O))
  = (mk_world (saved_locations w1)
       [mk_notification (user_id user) (sl_id l) a today]
       (mk_mail (user_id user) (sl_id l) a today :: outbox w)
       rest,
     (1%nat, O)).
Proof.
  intros Hn Ht Hd l w1. unfold process_pair.
  pose proof (get_or_create_keeps user subscription w) as K.
  subst l w1.
  destruct (get_or_create user subscription w) as [l w1].
  cbn [fst snd] in *. destruct K as [Kn [Ko Kt]].
  unfold notified. rewrite Kn, Hn. cbn [existsb].
  unfold send_aqi_alert_email.
  destruct (Services.f_dominant_pollutant aqi_data); [|contradiction].
  rewrite Kt, Ht. cbn. now rewrite Kn, Ko, Hn.
Qed.

(** The same pair later on the same day: the row is found and nothing is
    sent or written. *)
Lemma process_pair_again (today : Z) (a a' : Q)
  (aqi_data : Services.formatted) (user : User)
  (subscription : CitySubscription) (w w2 : world) (c : counters) :
  let l := fst (get_or_create user subscription w) in
  saved_locations w2
    = saved_locations (snd (get_or_create user subscription w)) ->
  notifications w2 = [mk_notification (user_id user) (sl_id l) a' today] ->
  process_pair today a aqi_data (user, subscription) (w2, c) = (w2, c).
Proof.
  intros l Hs Hn. unfold process_pair. destruct c as [sent errors].
  rewrite (get_or_create_again user subscription w w2 Hs).
  fold l. unfold notified. rewrite Hn. cbn.
  now rewrite !Nat.eqb_refl, Z.eqb_refl.
Qed.

Section OneSubscription.

Variable W : value -> value -> value -> option (dict value).
Variable G : value -> value -> option (value * value).

(** The sweep over a single active subscription of an active user whose
    coordinate is answered with an index of at least 100. *)
Lemma sweep_single (today : Z) (s : CitySubscription)
  (responses : list value) (aqi_data : Services.formatted) (a : Q)
  (w : world) :
  sub_is_active s = true ->
  user_is_active (sub_user s) = true ->
  Services.fetch_batch_current_aqi W G
    [Services.mk_loc (round4 (sub_latitude s)) (round4 (sub_longitude s))]
    responses (VStr "auto") = [aqi_data] ->
  Services.f_aqi aqi_data = VNum a ->
  (AQI_THRESHOLD <= a)%Q ->
  fst (check_and_send_aqi_alerts W G today [s] responses w)
  = fst (process_pair today a aqi_data (sub_user s, s) (w, (O, O))).
Proof.
  intros Ha Hu Hf Hv Hq. unfold check_and_send_aqi_alerts.
  cbn [filter]. rewrite Ha.
  unfold group_subscriptions. cbn [fold_left]. rewrite Hu.
  cbn [negb append_to_group map fst]. rewrite Hf.
  cbn [process_groups process_group location_aqi_map_get].
  rewrite coordinate_eqb_refl, Hv. cbn [is_none as_number].
  destruct (Qlt_le_dec a AQI_THRESHOLD) as [L|L]; [lra|].
  cbn [fold_left].
  now destruct (process_pair today a aqi_data (sub_user s, s) (w, (O, O)))
    as [w' [sent errors]].
Qed.

End OneSubscription.

End SweepFacts.

(** C3. The sweep sends at most one alert email per (user, saved
    location, date).  A state in which every such triple has at most one
    notification row and no more delivered emails than rows stays so
    through any sweep.  A pair for which a row of today exists is skipped
    with no email and no new row; otherwise the pair leaves both ledgers
    alone or adds one delivered email together with its row.  With one
    active subscription whose coordinate is answered with an index of at
    least 100, empty ledgers and a transport that accepts the first mail,
    the first sweep delivers exactly one email and writes exactly one row,
    and a second sweep on the same date adds nothing. *)
Theorem alert_sweep_once_per_day :
  (forall W G (today : Z) (subscriptions : list Tasks.CitySubscription)
          (responses : list Py.value) (w : Tasks.world),
      SweepSpec.ledger w ->
      SweepSpec.ledger
        (fst (Tasks.check_and_send_aqi_alerts W G today subscriptions
                responses w)))
  /\ (forall (today : Z) (a : Q) (aqi_data : Services.formatted)
             (user : Tasks.User) (subscription : Tasks.CitySubscription)
             (w : Tasks.world) (c : Tasks.counters),
         let l := fst (Tasks.get_or_create user subscription w) in
         let w' :=
           fst (Tasks.process_pair today a aqi_data (user, subscription)
                  (w, c)) in
         (Tasks.notified user l today w = true ->
          Tasks.notifications w' = Tasks.notifications w
          /\ Tasks.outbox w' = Tasks.outbox w)
         /\ ((Tasks.notifications w' = Tasks.notifications w
              /\ Tasks.outbox w' = Tasks.outbox w)
             \/ (Tasks.notifications w'
                 = Tasks.mk_notification (Tasks.user_id user) (Tasks.sl_id l)
                     a today :: Tasks.notifications w
                 /\ Tasks.outbox w'
                    = Tasks.mk_mail (Tasks.user_id user) (Tasks.sl_id l)
                        a today :: Tasks.outbox w)))
  /\ (forall W G (today : Z) (s : Tasks.CitySubscription)
             (responses1 responses2 : list Py.value)
             (data1 data2 : Services.formatted) (a1 a2 : Q)
             (w : Tasks.world) (rest : list bool),
         Tasks.sub_is_active s = true ->
         Tasks.user_is_active (Tasks.sub_user s) = true ->
         Services.fetch_batch_current_aqi W G
           [Services.mk_loc (Tasks.round4 (Tasks.sub_latitude s))
              (Tasks.round4 (Tasks.sub_longitude s))]
           responses1 (Py.VStr "auto") = [data1] ->
         Services.f_aqi data1 = Py.VNum a1 ->
         (Tasks.AQI_THRESHOLD <= a1)%Q ->
         Services.f_dominant_pollutant data1 <> None ->
         Services.fetch_batch_current_aqi W G
           [Services.mk_loc (Tasks.round4 (Tasks.sub_latitude s))
              (Tasks.round4 (Tasks.sub_longitude s))]
           responses2 (Py.VStr "auto") = [data2] ->
         Services.f_aqi data2 = Py.VNum a2 ->
         (Tasks.AQI_THRESHOLD <= a2)%Q ->
         Tasks.notifications w = [] ->
         Tasks.outbox w = [] ->
         Tasks.transport w = true :: rest ->
         let w1 :=
           fst (Tasks.check_and_send_aqi_alerts W G today [s] responses1 w) in
         let w2 :=
           fst (Tasks.check_and_send_aqi_alerts W G today [s] responses2 w1) in
         List.length (Tasks.outbox w1) = 1%nat
         /\ List.length (Tasks.notifications w1) = 1%nat
         /\ Tasks.outbox w2 = Tasks.outbox w1
         /\ Tasks.notifications w2 = Tasks.notifications w1).
Proof.
  split; [exact SweepFacts.sweep_ledger|]. split.
  - intros today a aqi_data user subscription w [sent errors] l w'.
    subst l w'. unfold Tasks.process_pair.
    pose proof (SweepFacts.get_or_create_keeps user subscription w) as K.
    destruct (Tasks.get_or_create user subscription w) as [l w1].
    cbn [fst snd] in *. destruct K as [Kn [Ko Kt]].
    assert (N : Tasks.notified user l today w1 = Tasks.notified user l today w)
      by (unfold Tasks.notified; now rewrite Kn).
    rewrite N.
    destruct (Tasks.notified user l today w); cbn [fst].
    { split; [auto|left; auto]. }
    split; [discriminate|].
    unfold Tasks.send_aqi_alert_email.
    destruct (Services.f_dominant_pollutant aqi_data); [|left; auto].
    destruct (Tasks.transport w1) as [|[|] more]; cbn.
    + left; auto.
    + right. now rewrite Kn, Ko.
    + left; auto.
  - intros W G today s responses1 responses2 data1 data2 a1 a2 w rest
      Ha Hu F1 V1 Q1 D1 F2 V2 Q2 Hn Ho Ht w1 w2.
    assert (E1 : w1 = fst (Tasks.process_pair today a1 data1
                             (Tasks.sub_user s, s) (w, (O, O))))
      by (apply SweepFacts.sweep_single; assumption).
    rewrite (SweepFacts.process_pair_first today a1 data1 _ s w rest Hn Ht D1)
      in E1.
    cbn [fst] in E1.
    assert (E2 : w2 = fst (Tasks.process_pair today a2 data2
                             (Tasks.sub_user s, s) (w1, (O, O))))
      by (apply SweepFacts.sweep_single; assumption).
    rewrite (SweepFacts.process_pair_again today a2 a1 data2 _ s w w1) in E2;
      [|now rewrite E1..].
    cbn [fst] in E2. rewrite E2, E1, Ho. cbn. auto.
Qed.

Lemma alert_sweep_once_per_day_witness :
  let nobody := fun _ _ => @None (Py.value * Py.value) in
  let no_weather := fun _ _ _ => @None (Py.dict Py.value) in
  let alice := Tasks.mk_user 7 "alice@example.org" true in
  let s := Tasks.mk_subscription alice "Delhi" "India" 28.6139 77.209 true in
  let answer :=
    Py.VDict [ ("latitude", Py.VNum 28.6139);
               ("longitude", Py.VNum 77.209);
               ("current", Py.VDict [ ("us_aqi", Py.VNum 155);
                                      ("pm2_5", Py.VNum 65) ]) ] in
  let w := Tasks.mk_world [] [] [] [true; true] in
  let w1 :=
    fst (Tasks.check_and_send_aqi_alerts no_weather nobody 100 [s] [answer] w) in
  let w2 :=
    fst (Tasks.check_and_send_aqi_alerts no_weather nobody 100 [s] [answer] w1) in
  List.length (Tasks.outbox w1) = 1%nat
  /\ List.length (Tasks.notifications w1) = 1%nat
  /\ Tasks.outbox w2 = Tasks.outbox w1
  /\ Tasks.notifications w2 = Tasks.notifications w1.
Proof.
  intros nobody no_weather alice s answer w w1 w2.
  eapply (proj2 (proj2 alert_sweep_once_per_day) no_weather nobody 100 s
            [answer] [answer] _ _ 155%Q 155%Q w [true]).
  all: try reflexivity.
  all: vm_compute; discriminate.
Defined.

(** C2 does not hold for the code.  Forty-one subscribers watch forty-one
    points; the request for the first chunk of twenty points fails, the
    second chunk is answered with an index of 45 everywhere and the last
    point with 155.  The batch fetch returns the twenty-one results it
    has, and the sweep pairs them with the first twenty-one points: the
    result of point 40 lands on point 20, whose own index is 45, and
    subscriber 20 gets the alert email and the notification row. *)
Theorem alert_sweep_misaligned :
  let no_weather := fun _ _ _ : Py.value => @None (Py.dict Py.value) in
  let nobody := fun _ _ : Py.value => @None (Py.value * Py.value) in
  let subscriptions := map SweepSpec.subscriber (seq 0 41) in
  let responses := [Py.VNone; SweepSpec.batch_45; SweepSpec.single_155] in
  let keys := map fst (Tasks.group_subscriptions subscriptions) in
  let locations := map (fun '(lat, lon) => Services.mk_loc lat lon) keys in
  let fetched :=
    Services.all_results no_weather nobody locations responses
      (Py.VStr "auto") in
  let w :=
    fst (Tasks.check_and_send_aqi_alerts no_weather nobody 100 subscriptions
           responses (Tasks.mk_world [] [] [] [true; true; true])) in
  nth_error keys 20
    = Some (Tasks.round4 (Tasks.sub_latitude (SweepSpec.subscriber 20)),
            Tasks.round4 (Tasks.sub_longitude (SweepSpec.subscriber 20)))
  /\ option_map (option_map Services.f_aqi) (nth_error fetched 20)
     = Some (Some (Py.VNum 45))
  /\ Tasks.outbox w = [Tasks.mk_mail 20 1 155 100]
  /\ Tasks.notifications w = [Tasks.mk_notification 20 1 155 100].
Proof.
  vm_compute. repeat split.
Qed.

(** ** Sub-index ranges *)

Module TableFacts.

Import Utils UtilsSpec UtilsFacts TableSpec.

Lemma properb_sound (b : band) : properb b = true -> proper b.
Proof.
  unfold properb, proper. intros H. apply andb_true_iff in H.
  destruct H as [H1 H2]. apply Z.leb_le in H2. split; [|exact H2].
  apply negb_true_iff in H1.
  destruct (Qlt_le_dec (c_low b) (c_high b)) as [L|L]; [exact L|].
  apply Qle_bool_iff in L. congruence.
Qed.

Lemma gradedb_sound (bps : list band) : gradedb bps = true -> graded bps.
Proof.
  induction bps as [|b rest IH]; cbn; intros H; [constructor|].
  apply andb_true_iff in H. destruct H as [H1 H2].
  constructor; [|now apply IH].
  apply Forall_forall. intros b' Hb. rewrite forallb_forall in H1.
  now apply Z.ltb_lt, H1.
Qed.

Lemma tables_checked (bps : list band) :
  In bps (Py.values aqi_breakpoints) ->
  graded bps
  /\ forall b, In b bps -> proper b /\ in_scale b = true.
Proof.
  intros H. cbn in H.
  repeat (destruct H as [<-|H];
          [split; [apply gradedb_sound; reflexivity|];
           intros b Hb; cbn in Hb;
           repeat (destruct Hb as [<-|Hb];
                   [split; [apply properb_sound; reflexivity|reflexivity]|]);
           destruct Hb|]).
  destruct H.
Qed.

(** Rounding keeps a value between two integers between them. *)
Lemma round_between (x : Q) (lo hi : Z) :
  (inject_Z lo <= x)%Q -> (x <= inject_Z hi)%Q ->
  lo <= Py.round x <= hi.
Proof.
  intros L H. destruct (round_nearest x) as [R1 R2].
  assert (A : (inject_Z lo - 1 < inject_Z (Py.round x))%Q) by lra.
  assert (B : (inject_Z (Py.round x) < inject_Z hi + 1)%Q) by lra.
  unfold Qlt, Qminus, Qplus, Qopp, inject_Z in A, B. cbn in A, B. lia.
Qed.

(** The slope of a proper band is not negative and spans its index
    range. *)
Lemma slope (b : band) :
  proper b ->
  let t := ((inject_Z (aqi_high b) - inject_Z (aqi_low b))
             / (c_high b - c_low b))%Q in
  (0 <= t)%Q
  /\ (t * (c_high b - c_low b)
      == inject_Z (aqi_high b) - inject_Z (aqi_low b))%Q.
Proof.
  intros [Hc Ha] t. subst t.
  assert (D : (0 < c_high b - c_low b)%Q) by lra.
  assert (N : (0 <= inject_Z (aqi_high b) - inject_Z (aqi_low b))%Q).
  { rewrite Zle_Qle in Ha. lra. }
  split.
  - apply Qle_shift_div_l; [exact D|]. lra.
  - field. lra.
Qed.

Lemma interpolate_between (b : band) (c : Q) :
  proper b -> holds b c ->
  (inject_Z (aqi_low b) <= interpolate b c)%Q
  /\ (interpolate b c <= inject_Z (aqi_high b))%Q.
Proof.
  intros P [Hl Hh]. destruct (slope b P) as [T0 T1]. unfold interpolate.
  set (t := ((inject_Z (aqi_high b) - inject_Z (aqi_low b))
              / (c_high b - c_low b))%Q) in *.
  assert (M : (t * (c - c_low b) <= t * (c_high b - c_low b))%Q).
  { rewrite !(Qmult_comm t). apply Qmult_le_compat_r; lra. }
  assert (Z0 : (0 <= t * (c - c_low b))%Q) by (apply Qmult_le_0_compat; lra).
  split; lra.
Qed.

Lemma interpolate_monotone (b : band) (c1 c2 : Q) :
  proper b -> (c1 <= c2)%Q -> (interpolate b c1 <= interpolate b c2)%Q.
Proof.
  intros P L. destruct (slope b P) as [T0 _]. unfold interpolate.
  set (t := ((inject_Z (aqi_high b) - inject_Z (aqi_low b))
              / (c_high b - c_low b))%Q) in *.
  assert (M : (t * (c1 - c_low b) <= t * (c2 - c_low b))%Q).
  { rewrite !(Qmult_comm t). apply Qmult_le_compat_r; lra. }
  lra.
Qed.

End TableFacts.

(** ** Rounding, continued *)

(** [round] gives the integer strictly within 1/2, or at a tie the even
    one. *)
Lemma round_spec (x : Q) :
  ((x - (1#2) < inject_Z (Py.round x))%Q
   /\ (inject_Z (Py.round x) < x + (1#2))%Q)
  \/ (((inject_Z (Py.round x) == x - (1#2))%Q
       \/ (inject_Z (Py.round x) == x + (1#2))%Q)
      /\ Z.even (Py.round x) = true).
Proof.
  destruct x as [n d]. unfold Py.round. cbn [Qnum Qden].
  pose proof (Z.div_mod n (Zpos d) ltac:(lia)) as E.
  pose proof (Z.mod_pos_bound n (Zpos d) ltac:(lia)) as B.
  set (f := n / Zpos d) in *. set (r := n mod Zpos d) in *.
  assert (Strict : forall k,
             2 * (Zpos d * k) < 2 * n + Zpos d /\
             2 * n - Zpos d < 2 * (Zpos d * k) ->
             ((n # d) - (1#2) < inject_Z k /\
              inject_Z k < (n # d) + (1#2))%Q).
  { intros k [H1 H2]. unfold Qlt, Qminus, Qplus, Qopp, inject_Z. cbn.
    split; nia. }
  assert (Tie : forall k,
             2 * (Zpos d * k) = 2 * n + Zpos d \/
             2 * (Zpos d * k) = 2 * n - Zpos d ->
             (inject_Z k == (n # d) - (1#2))%Q
             \/ (inject_Z k == (n # d) + (1#2))%Q).
  { intros k [H|H]; [right|left];
      unfold Qeq, Qminus, Qplus, Qopp, inject_Z; cbn; nia. }
  destruct (2 * r <? Zpos d) eqn:C1;
    [left; apply Strict; apply Z.ltb_lt in C1; lia|].
  destruct (Zpos d <? 2 * r) eqn:C2;
    [left; apply Strict; apply Z.ltb_lt in C2; lia|].
  apply Z.ltb_ge in C1, C2. right.
  destruct (Z.even f) eqn:Ev.
  - split; [apply Tie; lia|exact Ev].
  - split; [apply Tie; lia|].
    rewrite Z.even_add, Ev. reflexivity.
Qed.

Lemma round_monotone (x y : Q) : (x <= y)%Q -> Py.round x <= Py.round y.
Proof.
  intros L.
  destruct (Z_le_gt_dec (Py.round x) (Py.round y)) as [H|H]; [exact H|].
  exfalso.
  assert (G : (inject_Z (Py.round y) + 1 <= inject_Z (Py.round x))%Q).
  { unfold Qle, Qplus, inject_Z. cbn. lia. }
  destruct (round_nearest x) as [X1 X2].
  destruct (round_nearest y) as [Y1 Y2].
  destruct (round_spec x) as [[Sx1 Sx2]|[Tx Ex]]; [lra|].
  destruct (round_spec y) as [[Sy1 Sy2]|[Ty Ey]]; [lra|].
  assert (Eq : (inject_Z (Py.round x) == inject_Z (Py.round y) + 1)%Q)
    by (destruct Tx, Ty; lra).
  assert (Ez : Py.round x = Py.round y + 1).
  { unfold Qeq, Qplus, inject_Z in Eq. cbn in Eq. lia. }
  rewrite Ez, Z.even_add, Ey in Ex. discriminate.
Qed.

Module SubIndexFacts.

Import Utils UtilsSpec UtilsFacts TableSpec TableFacts.

Lemma scan_some (bps : list band) (c : Q) (a : Z) :
  scan_breakpoints bps c = Some a ->
  exists b, In b bps /\ holds b c /\ a = Py.round (interpolate b c).
Proof.
  induction bps as [|h rest IH]; cbn; [discriminate|].
  destruct (in_band h c) eqn:E.
  - intros H. injection H as <-. exists h.
    split; [now left|]. split; [now apply in_band_iff|reflexivity].
  - intros H. destruct (IH H) as [b [Hb R]]. exists b. split; [now right|exact R].
Qed.

(** The sub-index of a concentration in a band of a table lies in the
    band's index range. *)
Lemma band_range (bps : list band) (b : band) (c : Q) :
  In bps (Py.values aqi_breakpoints) -> In b bps -> holds b c ->
  aqi_low b <= Py.round (interpolate b c) <= aqi_high b.
Proof.
  intros Hv Hb Hc. destruct (tables_checked bps Hv) as [_ P].
  destruct (P b Hb) as [Pb _].
  destruct (interpolate_between b c Pb Hc). now apply round_between.
Qed.

Lemma scale (bps : list band) (b : band) :
  In bps (Py.values aqi_breakpoints) -> In b bps ->
  0 <= aqi_low b /\ aqi_high b <= 500
  /\ category (category_of_int (aqi_low b))
     = category (category_of_int (aqi_high b)).
Proof.
  intros Hv Hb. destruct (tables_checked bps Hv) as [_ P].
  destruct (P b Hb) as [_ S]. unfold in_scale in S.
  apply andb_true_iff in S. destruct S as [S S3].
  apply andb_true_iff in S. destruct S as [S1 S2].
  apply Z.leb_le in S1, S2. apply String.eqb_eq in S3. auto.
Qed.

(** Two bands of a table that hold ordered concentrations are the same
    band, or the first has the lower index range. *)
Lemma bands_ordered (bps : list band) (b1 b2 : band) (c1 c2 : Q) :
  separated bps -> graded bps ->
  In b1 bps -> In b2 bps -> holds b1 c1 -> holds b2 c2 -> (c1 <= c2)%Q ->
  b1 = b2 \/ aqi_high b1 < aqi_low b2.
Proof.
  intros S. induction S as [|h rest Hh Hsep S IH];
    intros Gr H1 H2 [L1 U1] [L2 U2] L; [easy|].
  inversion Gr as [|? ? F Gr']; subst.
  rewrite Forall_forall in Hsep, F.
  destruct H1 as [<-|H1], H2 as [<-|H2].
  - now left.
  - right. now apply F.
  - specialize (Hsep b1 H1). lra.
  - apply IH; auto; split; assumption.
Qed.

Lemma int_of_integer (a : Z) : Py.int (inject_Z a) = a.
Proof. unfold Py.int. cbn. apply Z.quot_1_r. Qed.

(** [int(x) <= k] holds exactly when [x < k + 1], for [k >= 0]. *)
Lemma int_le (x : Q) (k : Z) :
  0 <= k -> (Py.int x <= k <-> (x < inject_Z (k + 1))%Q).
Proof.
  intros K. destruct x as [n d]. unfold Py.int, Qlt, inject_Z. cbn.
  pose proof (Z.quot_rem' n (Zpos d)) as E.
  destruct (Z_le_gt_dec 0 n) as [N|N].
  - pose proof (Z.rem_bound_pos n (Zpos d) N ltac:(lia)) as B.
    pose proof (Z.quot_pos n (Zpos d) N ltac:(lia)) as Qp.
    split; intros H; nia.
  - assert (Qn : Z.quot n (Zpos d) <= 0)
      by (apply Z.quot_le_upper_bound; lia).
    split; intros H; nia.
Qed.

Lemma category_between (lo a hi : Z) :
  lo <= a <= hi ->
  category (category_of_int lo) = category (category_of_int hi) ->
  category (category_of_int a) = category (category_of_int hi).
Proof.
  unfold category_of_int. intros H.
  repeat match goal with
         | |- context [?x <=? ?y] =>
             let E := fresh "E" in
             destruct (Z.leb_spec x y) as [E|E]
         end; cbn; intros C; try reflexivity; try discriminate C; lia.
Qed.

End SubIndexFacts.

(** The range of a sub-index. *)
Lemma sub_index_range (pollutant : string) (concentration : Q)
  (aqi : Z) :
  Utils.calculate_epa_aqi pollutant concentration = Some aqi ->
  0 <= aqi <= 500
  /\ forall breakpoints b,
       Py.get (Py.lower pollutant) Utils.aqi_breakpoints = Some breakpoints ->
       In b breakpoints ->
       (Utils.c_low b <= concentration /\ concentration <= Utils.c_high b)%Q ->
       Utils.aqi_low b <= aqi <= Utils.aqi_high b.
Proof.
  unfold Utils.calculate_epa_aqi.
  destruct (Py.get (Py.lower pollutant) Utils.aqi_breakpoints)
    as [bps|] eqn:G; [|discriminate].
  assert (Hv : In bps (Py.values Utils.aqi_breakpoints))
    by (eapply UtilsFacts.get_In; eauto).
  destruct (Utils.scan_breakpoints bps concentration) as [a|] eqn:S.
  - intros H. injection H as <-.
    destruct (SubIndexFacts.scan_some _ _ _ S) as [b0 [Hb0 [Hc0 ->]]].
    pose proof (SubIndexFacts.band_range bps b0 concentration Hv Hb0 Hc0) as R.
    destruct (SubIndexFacts.scale bps b0 Hv Hb0) as [L [U _]].
    split; [lia|].
    intros bps' b G' Hb Hc. injection G' as E'. subst bps'.
    rewrite (UtilsFacts.scan_in_band bps b concentration
               (UtilsFacts.tables_separated bps Hv) Hb Hc) in S.
    injection S as S. rewrite <- S.
    exact (SubIndexFacts.band_range bps b concentration Hv Hb Hc).
  - destruct (Qlt_le_dec (Utils.top_of_table bps) concentration);
      [|discriminate].
    intros H. injection H as <-. split; [lia|].
    intros bps' b G' Hb [_ Hc]. injection G' as E'. subst bps'.
    pose proof (UtilsFacts.below_top bps b
                  (UtilsFacts.tables_separated bps Hv) Hb). lra.
Qed.

(** X1. Every sub-index [calculate_epa_aqi] returns lies between 0 and
    500, and for a concentration in a band of the pollutant's table it
    lies in that band's index range. *)
Theorem calculate_epa_aqi_range (pollutant : string) (concentration : Q)
  (aqi : Z) :
  Utils.calculate_epa_aqi pollutant concentration = Some aqi ->
  0 <= aqi <= 500
  /\ forall breakpoints b,
       Py.get (Py.lower pollutant) Utils.aqi_breakpoints = Some breakpoints ->
       In b breakpoints ->
       (Utils.c_low b <= concentration /\ concentration <= Utils.c_high b)%Q ->
       Utils.aqi_low b <= aqi <= Utils.aqi_high b.
Proof. exact (sub_index_range pollutant concentration aqi). Qed.

Lemma calculate_epa_aqi_range_witness :
  0 <= 75 <= 500
  /\ forall breakpoints b,
       Py.get (Py.lower "pm10") Utils.aqi_breakpoints = Some breakpoints ->
       In b breakpoints ->
       (Utils.c_low b <= 104 /\ 104 <= Utils.c_high b)%Q ->
       Utils.aqi_low b <= 75 <= Utils.aqi_high b.
Proof.
  apply (calculate_epa_aqi_range "pm10" 104 75). reflexivity.
Defined.

(** X2. Within a pollutant's table the sub-index never decreases when
    the concentration increases: of two concentrations that both get a
    sub-index, the larger gets the larger or equal one. *)
Theorem calculate_epa_aqi_monotone (pollutant : string) (c1 c2 : Q)
  (aqi1 aqi2 : Z) :
  Utils.calculate_epa_aqi pollutant c1 = Some aqi1 ->
  Utils.calculate_epa_aqi pollutant c2 = Some aqi2 ->
  (c1 <= c2)%Q ->
  aqi1 <= aqi2.
Proof.
  intros H1 H2 L.
  destruct (sub_index_range pollutant c1 aqi1 H1) as [R1 B1].
  destruct (sub_index_range pollutant c2 aqi2 H2) as [R2 B2].
  unfold Utils.calculate_epa_aqi in H1, H2.
  destruct (Py.get (Py.lower pollutant) Utils.aqi_breakpoints)
    as [bps|] eqn:G; [|discriminate].
  assert (Hv : In bps (Py.values Utils.aqi_breakpoints))
    by (eapply UtilsFacts.get_In; eauto).
  pose proof (UtilsFacts.tables_separated bps Hv) as Sep.
  destruct (TableFacts.tables_checked bps Hv) as [Gr P].
  destruct (Utils.scan_breakpoints bps c2) as [a2|] eqn:S2.
  - injection H2 as ->.
    destruct (SubIndexFacts.scan_some _ _ _ S2) as [b2 [Hb2 [Hc2 E2]]].
    destruct (Utils.scan_breakpoints bps c1) as [a1|] eqn:S1.
    + injection H1 as ->.
      destruct (SubIndexFacts.scan_some _ _ _ S1) as [b1 [Hb1 [Hc1 E1]]].
      destruct (SubIndexFacts.bands_ordered bps b1 b2 c1 c2 Sep Gr
                  Hb1 Hb2 Hc1 Hc2 L) as [<-|Lt].
      * rewrite E1, E2. apply round_monotone.
        apply TableFacts.interpolate_monotone; [apply P, Hb1|exact L].
      * specialize (B1 bps b1 eq_refl Hb1 Hc1).
        specialize (B2 bps b2 eq_refl Hb2 Hc2). lia.
    + destruct (Qlt_le_dec (Utils.top_of_table bps) c1); [|discriminate].
      pose proof (UtilsFacts.below_top bps b2 Sep Hb2).
      destruct Hc2. lra.
  - destruct (Qlt_le_dec (Utils.top_of_table bps) c2); [|discriminate].
    injection H2 as <-. lia.
Qed.

Lemma calculate_epa_aqi_monotone_witness : 50 <= 51.
Proof.
  apply (calculate_epa_aqi_monotone "pm25" 12.0 12.1 50 51);
    [reflexivity|reflexivity|vm_compute; discriminate].
Defined.

(** X3. The category of a sub-index depends only on the band: for a
    concentration in a band of the pollutant's table, [get_aqi_category]
    of the sub-index is the category of the band's upper index. *)
Theorem calculate_epa_aqi_category (pollutant : string)
  (breakpoints : list Utils.band) (b : Utils.band) (concentration : Q) :
  Py.get (Py.lower pollutant) Utils.aqi_breakpoints = Some breakpoints ->
  In b breakpoints ->
  (Utils.c_low b <= concentration /\ concentration <= Utils.c_high b)%Q ->
  exists aqi,
    Utils.calculate_epa_aqi pollutant concentration = Some aqi
    /\ Utils.category (Utils.get_aqi_category (Py.VNum (inject_Z aqi)))
       = Utils.category (Utils.category_of_int (Utils.aqi_high b)).
Proof.
  intros G Hb Hc.
  assert (Hv : In breakpoints (Py.values Utils.aqi_breakpoints))
    by (eapply UtilsFacts.get_In; eauto).
  exists (Py.round (Utils.interpolate b concentration)). split.
  - unfold Utils.calculate_epa_aqi. rewrite G.
    now rewrite (UtilsFacts.scan_in_band breakpoints b concentration
                   (UtilsFacts.tables_separated _ Hv) Hb Hc).
  - unfold Utils.get_aqi_category. cbn [Py.as_number].
    rewrite SubIndexFacts.int_of_integer.
    destruct (SubIndexFacts.scale breakpoints b Hv Hb) as [_ [_ C]].
    apply (SubIndexFacts.category_between (Utils.aqi_low b)); [|exact C].
    exact (SubIndexFacts.band_range breakpoints b concentration Hv Hb Hc).
Qed.

Lemma calculate_epa_aqi_category_witness :
  exists aqi,
    Utils.calculate_epa_aqi "pm25" 40 = Some aqi
    /\ Utils.category (Utils.get_aqi_category (Py.VNum (inject_Z aqi)))
       = "Unhealthy for Sensitive Groups".
Proof.
  apply (calculate_epa_aqi_category "pm25" _ (Utils.row 35.5 55.4 101 150) 40
           eq_refl).
  - right. right. left. reflexivity.
  - split; vm_compute; discriminate.
Defined.

(** X4. [get_aqi_category] truncates a fractional index before it
    compares: a number is 'Good' exactly when it is below 51, 'Moderate'
    from 51 to below 101, 'Unhealthy for Sensitive Groups' from 101 to
    below 151, 'Unhealthy' from 151 to below 201, 'Very Unhealthy' from 201
    to below 301, and 'Hazardous' from 301 on. *)
Theorem get_aqi_category_thresholds (x : Q) :
  let category := Utils.category (Utils.get_aqi_category (Py.VNum x)) in
  (category = "Good" <-> (x < 51)%Q)
  /\ (category = "Moderate" <-> (51 <= x /\ x < 101)%Q)
  /\ (category = "Unhealthy for Sensitive Groups"
      <-> (101 <= x /\ x < 151)%Q)
  /\ (category = "Unhealthy" <-> (151 <= x /\ x < 201)%Q)
  /\ (category = "Very Unhealthy" <-> (201 <= x /\ x < 301)%Q)
  /\ (category = "Hazardous" <-> (301 <= x)%Q).
Proof.
  cbn zeta. unfold Utils.get_aqi_category. cbn [Py.as_number].
  unfold Utils.category_of_int.
  pose proof (SubIndexFacts.int_le x 50 ltac:(lia)) as I50.
  pose proof (SubIndexFacts.int_le x 100 ltac:(lia)) as I100.
  pose proof (SubIndexFacts.int_le x 150 ltac:(lia)) as I150.
  pose proof (SubIndexFacts.int_le x 200 ltac:(lia)) as I200.
  pose proof (SubIndexFacts.int_le x 300 ltac:(lia)) as I300.
  cbn [Z.add Pos.add Pos.succ] in *.
  change (inject_Z 51) with 51%Q in *. change (inject_Z 101) with 101%Q in *.
  change (inject_Z 151) with 151%Q in *. change (inject_Z 201) with 201%Q in *.
  change (inject_Z 301) with 301%Q in *.
  assert (T : forall k q, (Py.int x <= k <-> (x < q)%Q) ->
                          k < Py.int x -> (q <= x)%Q).
  { intros k q I L. destruct (Qlt_le_dec x q) as [C|C]; [|exact C].
    apply I in C. lia. }
  repeat match goal with
         | |- context [?a <=? ?b] =>
             let E := fresh "E" in
             destruct (Z.leb_spec a b) as [E|E]
         end; cbn [Utils.category];
    repeat match goal with
           | E : Py.int x <= ?k, I : Py.int x <= ?k <-> _ |- _ =>
               apply I in E
           | E : ?k < Py.int x, I : Py.int x <= ?k <-> _ |- _ =>
               apply (T _ _ I) in E
           end;
    clear I50 I100 I150 I200 I300 T;
    repeat split; intros;
    first [reflexivity | congruence | lra | (exfalso; lra)].
Qed.

(** ** Indoor air quality *)

Module IndoorFacts.

Import Indoor IndoorSpec.

Ltac thresholds :=
  repeat match goal with
         | |- context [Qle_bool ?a ?b] =>
             let E := fresh "E" in
             destruct (Qle_bool a b) eqn:E;
             [apply Qle_bool_iff in E
             |assert (b < a)%Q
                by (let C := fresh "C" in
                    destruct (Qlt_le_dec b a) as [C|C];
                    [exact C|apply Qle_bool_iff in C; congruence]);
              clear E]
         end.

Lemma co_index_monotone (x y : Q) : (x <= y)%Q -> co_index x <= co_index y.
Proof. intros L. unfold co_index. thresholds; first [lia | (exfalso; lra)]. Qed.

Lemma co2_index_monotone (x y : Q) : (x <= y)%Q -> co2_index x <= co2_index y.
Proof. intros L. unfold co2_index. thresholds; first [lia | (exfalso; lra)]. Qed.

Lemma ch4_index_monotone (x y : Q) : (x <= y)%Q -> ch4_index x <= ch4_index y.
Proof. intros L. unfold ch4_index. thresholds; first [lia | (exfalso; lra)]. Qed.

End IndoorFacts.

(** The indoor index and its dominant pollutant. *)
Lemma indoor_index (co_ppm co2_ppm ch4_ppm : option Q) :
  let r := Indoor.calculate_indoor_aqi co_ppm co2_ppm ch4_ppm in
  (Indoor.aqi r = None
   <-> co_ppm = None /\ co2_ppm = None /\ ch4_ppm = None)
  /\ (Indoor.aqi r = None -> r = Indoor.mk_indoor None None None None)
  /\ forall m, Indoor.aqi r = Some m ->
       (forall x, co_ppm = Some x -> Indoor.co_index x <= m)
       /\ (forall x, co2_ppm = Some x -> Indoor.co2_index x <= m)
       /\ (forall x, ch4_ppm = Some x -> Indoor.ch4_index x <= m)
       /\ ((Indoor.dominant_pollutant r = Some "CO"
            /\ exists x, co_ppm = Some x /\ Indoor.co_index x = m)
           \/ (Indoor.dominant_pollutant r = Some "CO₂"
               /\ (exists x, co2_ppm = Some x /\ Indoor.co2_index x = m)
               /\ forall x, co_ppm = Some x -> Indoor.co_index x < m)
           \/ (Indoor.dominant_pollutant r = Some "CH₄"
               /\ (exists x, ch4_ppm = Some x /\ Indoor.ch4_index x = m)
               /\ (forall x, co_ppm = Some x -> Indoor.co_index x < m)
               /\ forall x, co2_ppm = Some x -> Indoor.co2_index x < m))
       /\ Indoor.category r
          = Some (Utils.category (Utils.category_of_int m))
       /\ Indoor.color r = Some (Utils.color (Utils.category_of_int m)).
Proof.
  assert (I : forall m, Utils.get_aqi_category (Py.VNum (inject_Z m))
                        = Utils.category_of_int m).
  { intros m. unfold Utils.get_aqi_category. cbn [Py.as_number].
    now rewrite SubIndexFacts.int_of_integer. }
  destruct co_ppm as [co|], co2_ppm as [co2|], ch4_ppm as [ch4|];
    unfold Indoor.calculate_indoor_aqi, Indoor.aqi_values;
    cbn [Py.set String.eqb Ascii.eqb Bool.eqb Indoor.max_key fst snd];
    repeat match goal with
           | |- context [?a <? ?b] =>
               let E := fresh "E" in
               destruct (Z.ltb_spec a b) as [E|E]
           end;
    cbn [Indoor.max_key fst snd]; rewrite ?I; cbn;
    (split;
     [split; [intros H; first [discriminate H | auto]
             |intros [? [? ?]]; first [discriminate | reflexivity]]|]);
    (split; [intros H; first [discriminate H | reflexivity]|]);
    intros m H; first [discriminate H | injection H as <-];
    (split; [intros x Hx; first [discriminate Hx | injection Hx as <-; lia]|]);
    (split; [intros x Hx; first [discriminate Hx | injection Hx as <-; lia]|]);
    (split; [intros x Hx; first [discriminate Hx | injection Hx as <-; lia]|]);
    (split; [|split; reflexivity]);
    first
      [ left; split; [reflexivity|eexists; split; reflexivity]
      | right; left; split; [reflexivity|];
        split; [eexists; split; reflexivity|];
        intros x Hx; first [discriminate Hx | injection Hx as <-; lia]
      | right; right; split; [reflexivity|];
        split; [eexists; split; reflexivity|];
        split; intros x Hx;
        first [discriminate Hx | injection Hx as <-; lia] ].
Qed.

(** X5. [calculate_indoor_aqi] reports the largest of the sub-indices of
    the readings that are present, names the first reading in the order CO,
    CO2, CH4 that attains it as the dominant pollutant, and reports the
    category and color [get_aqi_category] gives for that index; with no
    reading at all every entry of the result is absent. *)
Theorem calculate_indoor_aqi_spec (co_ppm co2_ppm ch4_ppm : option Q) :
  let r := Indoor.calculate_indoor_aqi co_ppm co2_ppm ch4_ppm in
  (Indoor.aqi r = None
   <-> co_ppm = None /\ co2_ppm = None /\ ch4_ppm = None)
  /\ (Indoor.aqi r = None -> r = Indoor.mk_indoor None None None None)
  /\ forall m, Indoor.aqi r = Some m ->
       (forall x, co_ppm = Some x -> Indoor.co_index x <= m)
       /\ (forall x, co2_ppm = Some x -> Indoor.co2_index x <= m)
       /\ (forall x, ch4_ppm = Some x -> Indoor.ch4_index x <= m)
       /\ ((Indoor.dominant_pollutant r = Some "CO"
            /\ exists x, co_ppm = Some x /\ Indoor.co_index x = m)
           \/ (Indoor.dominant_pollutant r = Some "CO₂"
               /\ (exists x, co2_ppm = Some x /\ Indoor.co2_index x = m)
               /\ forall x, co_ppm = Some x -> Indoor.co_index x < m)
           \/ (Indoor.dominant_pollutant r = Some "CH₄"
               /\ (exists x, ch4_ppm = Some x /\ Indoor.ch4_index x = m)
               /\ (forall x, co_ppm = Some x -> Indoor.co_index x < m)
               /\ forall x, co2_ppm = Some x -> Indoor.co2_index x < m))
       /\ Indoor.category r
          = Some (Utils.category (Utils.category_of_int m))
       /\ Indoor.color r = Some (Utils.color (Utils.category_of_int m)).
Proof. exact (indoor_index co_ppm co2_ppm ch4_ppm). Qed.

Lemma calculate_indoor_aqi_spec_witness :
  (forall x, Some 12%Q = Some x -> Indoor.co_index x <= 100)
  /\ Indoor.category (Indoor.calculate_indoor_aqi (Some 12%Q) (Some 900%Q) None)
     = Some "Moderate".
Proof.
  destruct (proj2 (proj2 (calculate_indoor_aqi_spec (Some 12%Q) (Some 900%Q)
                            None)) 100 eq_refl)
    as [A [_ [_ [_ [C _]]]]].
  split; [exact A|exact C].
Defined.

(** X6. The indoor index never decreases when readings increase: if the
    same readings are present and none of them is lower, the reported
    index is at least as high. *)
Theorem calculate_indoor_aqi_monotone
  (co co' co2 co2' ch4 ch4' : option Q) (m m' : Z) :
  IndoorSpec.reading_le co co' ->
  IndoorSpec.reading_le co2 co2' ->
  IndoorSpec.reading_le ch4 ch4' ->
  Indoor.aqi (Indoor.calculate_indoor_aqi co co2 ch4) = Some m ->
  Indoor.aqi (Indoor.calculate_indoor_aqi co' co2' ch4') = Some m' ->
  m <= m'.
Proof.
  intros L1 L2 L3 H H'.
  destruct (proj2 (proj2 (indoor_index co co2 ch4)) m H)
    as [_ [_ [_ [D _]]]].
  destruct (proj2 (proj2 (indoor_index co' co2' ch4')) m' H')
    as [U1 [U2 [U3 _]]].
  destruct D as [[_ [x [E <-]]]|[[_ [[x [E <-]] _]]|[_ [[x [E <-]] _]]]];
    subst.
  - destruct co' as [y|]; [|contradiction].
    specialize (U1 y eq_refl).
    pose proof (IndoorFacts.co_index_monotone x y L1). lia.
  - destruct co2' as [y|]; [|contradiction].
    specialize (U2 y eq_refl).
    pose proof (IndoorFacts.co2_index_monotone x y L2). lia.
  - destruct ch4' as [y|]; [|contradiction].
    specialize (U3 y eq_refl).
    pose proof (IndoorFacts.ch4_index_monotone x y L3). lia.
Qed.

Lemma calculate_indoor_aqi_monotone_witness : 75 <= 200.
Proof.
  apply (calculate_indoor_aqi_monotone
           (Some 5%Q) (Some 40%Q) None None (Some 1%Q) (Some 1%Q));
    try reflexivity; vm_compute; first [discriminate | exact I].
Defined.

(** ** The request loop *)

Module RequestsFacts.

Import Py Services Requests RequestsSpec.

Lemma step_final (retries attempt : nat) (o : outcome) :
  retryable o = false ->
  exists adjusted,
    attempt_step retries attempt o = Done (final_value o) adjusted.
Proof.
  destruct o as [| |s body]; unfold retryable; try discriminate.
  intros R. apply Nat.ltb_ge in R.
  unfold attempt_step, final_value.
  destruct (s =? 429)%nat eqn:E1; [apply Nat.eqb_eq in E1; lia|].
  destruct (s =? 400)%nat eqn:E2; [now exists false|].
  apply Nat.eqb_neq in E2.
  destruct (500 <=? s)%nat eqn:E3; [apply Nat.leb_le in E3; lia|].
  destruct (400 <=? s)%nat eqn:E4; [apply Nat.leb_le in E4; lia|].
  cbn [andb]. destruct (decode body); eauto.
Qed.

Lemma step_retryable (retries attempt : nat) (o : outcome) :
  retryable o = true ->
  if (attempt <? retries - 1)%nat
  then exists wait_time increase,
         attempt_step retries attempt o = Retry wait_time increase
  else attempt_step retries attempt o = Done None false.
Proof.
  destruct o as [| |s body]; unfold retryable; intros R;
    unfold attempt_step;
    try (destruct (attempt <? retries - 1)%nat; cbn [negb]; eauto; fail).
  apply Nat.ltb_lt in R.
  destruct (attempt <? retries - 1)%nat; cbn [negb].
  - destruct (s =? 429)%nat; [eauto|].
    destruct (s =? 400)%nat eqn:E2; [apply Nat.eqb_eq in E2; lia|].
    destruct (500 <=? s)%nat eqn:E3; [eauto|]. apply Nat.leb_gt in E3.
    replace ((400 <=? s)%nat && (s <? 600)%nat) with true
      by (symmetry; apply andb_true_iff; split;
          [apply Nat.leb_le|apply Nat.ltb_lt]; lia).
    eauto.
  - destruct (s =? 429)%nat; [reflexivity|].
    destruct (s =? 400)%nat eqn:E2; [apply Nat.eqb_eq in E2; lia|].
    destruct (500 <=? s)%nat eqn:E3; [reflexivity|]. apply Nat.leb_gt in E3.
    replace ((400 <=? s)%nat && (s <? 600)%nat) with true
      by (symmetry; apply andb_true_iff; split;
          [apply Nat.leb_le|apply Nat.ltb_lt]; lia).
    reflexivity.
Qed.

(** The throttle an attempt leaves is the old one or an adjusted one. *)
Lemma loop_throttle (retries : nat) (attempts : list nat)
  (outcomes : nat -> outcome) (t : throttle) (waits : list nat) (sent : nat) :
  (0 <= min_interval t)%Q -> ThrottleSpec.within t ->
  ThrottleSpec.within
    (throttle_after (request_loop retries attempts outcomes t waits sent))
  /\ min_interval
       (throttle_after (request_loop retries attempts outcomes t waits sent))
     = min_interval t.
Proof.
  revert t waits sent.
  induction attempts as [|attempt rest IH]; intros t waits sent H0 W;
    [split; [exact W|reflexivity]|].
  cbn [request_loop].
  destruct (attempt_step retries attempt (outcomes attempt))
    as [data [|]|wait_time [|]]; cbn [throttle_after].
  - split; [now apply ThrottleFacts.adjust_within
           |apply ThrottleFacts.adjust_baseline].
  - split; [exact W|reflexivity].
  - destruct (IH (_adjust_throttle_interval true t) (waits ++ [wait_time])%list
                (S sent)) as [W' E].
    + now rewrite ThrottleFacts.adjust_baseline.
    + now apply ThrottleFacts.adjust_within.
    + split; [exact W'|]. now rewrite E, ThrottleFacts.adjust_baseline.
  - now apply IH.
Qed.

(** The loop from attempt [k] on: it ends at the first outcome that is
    not retryable, or runs out of attempts. *)
Lemma loop_spec (retries : nat) (outcomes : nat -> outcome) (n k : nat)
  (t : throttle) (waits : list nat) :
  (k + n = retries)%nat ->
  let m := request_loop retries (seq k n) outcomes t waits k in
  (exists i,
      (k <= i < retries)%nat
      /\ (forall j, (k <= j < i)%nat -> retryable (outcomes j) = true)
      /\ retryable (outcomes i) = false
      /\ requests_sent m = S i
      /\ returned m = final_value (outcomes i)
      /\ List.length (slept m) = (List.length waits + (i - k))%nat)
  \/ ((forall j, (k <= j < retries)%nat -> retryable (outcomes j) = true)
      /\ returned m = None
      /\ requests_sent m = retries
      /\ List.length (slept m) = (List.length waits + pred n)%nat).
Proof.
  revert k t waits. induction n as [|n IH]; intros k t waits E m.
  - right. subst m. cbn.
    split; [intros j Hj; lia|]. repeat split; lia.
  - subst m. cbn [seq request_loop].
    destruct (retryable (outcomes k)) eqn:R.
    + pose proof (step_retryable retries k (outcomes k) R) as St.
      destruct (k <? retries - 1)%nat eqn:L.
      * apply Nat.ltb_lt in L. destruct St as [w [inc St]]. rewrite St.
        destruct (IH (S k)
                    (if inc then _adjust_throttle_interval true t else t)
                    (waits ++ [w])%list ltac:(lia))
          as [[i [Hi [Hr [Hf [Hs [Hv Hl]]]]]]|[Hr [Hv [Hs Hl]]]].
        -- left. exists i.
           split; [lia|]. split.
           { intros j Hj. destruct (Nat.eq_dec j k) as [->|N];
               [exact R|apply Hr; lia]. }
           split; [exact Hf|]. split; [exact Hs|]. split; [exact Hv|].
           rewrite Hl, length_app. cbn. lia.
        -- right. split.
           { intros j Hj. destruct (Nat.eq_dec j k) as [->|N];
               [exact R|apply Hr; lia]. }
           split; [exact Hv|]. split; [exact Hs|].
           rewrite Hl, length_app. cbn. destruct n; [lia|]. cbn. lia.
      * apply Nat.ltb_ge in L. rewrite St. right. cbn.
        assert (n = O) by lia. subst n.
        split; [intros j Hj; assert (j = k) by lia; now subst|].
        repeat split; lia.
    + destruct (step_final retries k (outcomes k) R) as [adj St]. rewrite St.
      left. exists k. cbn.
      split; [lia|]. split; [intros j Hj; lia|].
      split; [exact R|]. repeat split; lia.
Qed.

End RequestsFacts.

(** X7. [_make_request] sends at most [retries] requests and sleeps
    once between two consecutive requests, never after the last.  It ends
    at the first outcome that is not retryable (a status of 400 or below
    400) and returns what that answer decodes to, and it returns nothing
    when every attempt was retryable.  Whenever it returns data, the last
    request was answered with a status below 400 and a JSON object, which
    is the data returned: a JSON list or scalar is never handed on. *)
Theorem make_request_outcome (retries : nat)
  (outcomes : nat -> Requests.outcome) (t : Services.throttle) :
  let m := Requests._make_request retries outcomes t in
  (Requests.requests_sent m <= retries)%nat
  /\ List.length (Requests.slept m) = pred (Requests.requests_sent m)
  /\ (forall i,
         (i < retries)%nat ->
         (forall j, (j < i)%nat ->
                    RequestsSpec.retryable (outcomes j) = true) ->
         RequestsSpec.retryable (outcomes i) = false ->
         Requests.requests_sent m = S i
         /\ Requests.returned m = RequestsSpec.final_value (outcomes i))
  /\ ((forall j, (j < retries)%nat ->
                 RequestsSpec.retryable (outcomes j) = true) ->
      Requests.returned m = None /\ Requests.requests_sent m = retries)
  /\ (forall d,
         Requests.returned m = Some d ->
         exists status_code,
           (status_code < 400)%nat
           /\ outcomes (pred (Requests.requests_sent m))
              = Requests.Answer status_code (Requests.Json (Py.VDict d))).
Proof.
  intros m.
  pose proof (RequestsFacts.loop_spec retries outcomes retries 0 t []
                eq_refl) as L.
  fold (Requests._make_request retries outcomes t) in L. fold m in L.
  cbn zeta in L.
  destruct L as [[i [Hi [Hr [Hf [Hs [Hv Hl]]]]]]|[Hr [Hv [Hs Hl]]]].
  - split; [lia|]. split; [rewrite Hl, Hs; cbn; lia|].
    split; [|split].
    + intros i' Hi' Hr' Hf'.
      assert (i' = i).
      { destruct (Nat.lt_trichotomy i' i) as [C|[C|C]]; [|exact C|].
        - rewrite (Hr i') in Hf' by lia. discriminate.
        - rewrite (Hr' i C) in Hf. discriminate. }
      subst i'. split; assumption.
    + intros All. rewrite (All i) in Hf by lia. discriminate.
    + intros d Hd. rewrite Hs. cbn [pred]. rewrite Hv in Hd.
      destruct (outcomes i) as [| |s body]; try discriminate.
      unfold RequestsSpec.retryable in Hf. apply Nat.ltb_ge in Hf.
      unfold RequestsSpec.final_value in Hd.
      destruct (s =? 400)%nat eqn:E; [discriminate|].
      apply Nat.eqb_neq in E. exists s. split; [lia|].
      destruct body as [| |[]]; try discriminate.
      unfold Requests.decode in Hd. now injection Hd as ->.
  - split; [lia|]. split; [rewrite Hl, Hs; cbn; lia|].
    split; [|split].
    + intros i Hi _ Hf. rewrite (Hr i) in Hf by lia. discriminate.
    + intros _. split; assumption.
    + intros d Hd. rewrite Hv in Hd. discriminate.
Qed.

(** X8. [_make_request] keeps the throttle within its bounds: with a
    baseline that is not negative and an interval between the baseline and
    2.0 before the call, the interval is between them after the call,
    whatever the provider answers, and the baseline is unchanged. *)
Theorem make_request_keeps_throttle (retries : nat)
  (outcomes : nat -> Requests.outcome) (t : Services.throttle) :
  (0 <= Services.min_interval t)%Q ->
  (Services.min_interval t <= Services._min_request_interval t)%Q ->
  (Services._min_request_interval t <= 2.0)%Q ->
  let t' := Requests.throttle_after
              (Requests._make_request retries outcomes t) in
  (Services.min_interval t <= Services._min_request_interval t')%Q
  /\ (Services._min_request_interval t' <= 2.0)%Q
  /\ Services.min_interval t' = Services.min_interval t.
Proof.
  intros H0 H1 H2 t'.
  destruct (RequestsFacts.loop_throttle retries (seq 0 retries) outcomes t
              [] 0 H0 (conj H1 H2)) as [[W1 W2] E].
  fold (Requests._make_request retries outcomes t) in W1, W2, E.
  fold t' in W1, W2, E. rewrite E in W1. auto.
Qed.

Lemma make_request_keeps_throttle_witness :
  let rate_limited := fun _ : nat => Requests.Answer 429 Requests.NoContent in
  let t' := Requests.throttle_after
              (Requests._make_request 3 rate_limited (Services.init None)) in
  (1.0 <= Services._min_request_interval t')%Q
  /\ (Services._min_request_interval t' <= 2.0)%Q
  /\ Services.min_interval t' = 1.0%Q.
Proof.
  intros rate_limited t'.
  apply (make_request_keeps_throttle 3 rate_limited (Services.init None));
    vm_compute; discriminate.
Defined.

(** ** Enhanced payload *)

Module EnhanceFacts.

Import Py Services.

Lemma add_entry_keys (key pollutant : string) (v : value)
  (d d' : dict pollutant_entry) :
  add_entry key pollutant v d = Return d' ->
  NoDup (keys d) -> NoDup (keys d').
Proof.
  unfold add_entry. destruct (is_none v); [intros H; now injection H as <-|].
  destruct (Utils.calculate_epa_aqi_value pollutant v); [|discriminate].
  cbn [Py.bind]. intros H. injection H as <-.
  apply WaqiFacts.keys_set_NoDup.
Qed.

(** The scan for the dominant pollutant ends with the largest index seen
    and the first pollutant that has it, or where it started. *)
Lemma scan_dominant_spec (l : dict pollutant_entry) (m0 : Z)
  (d0 : option string) :
  let '(m, dom) :=
    fold_left
      (fun '(max_aqi, dominant) '(pollutant, data) =>
         match p_epa_aqi data with
         | Some a =>
             if negb (a =? 0) && (max_aqi <? a) then (a, Some pollutant)
             else (max_aqi, dominant)
         | None => (max_aqi, dominant)
         end)
      l (m0, d0) in
  m0 <= m
  /\ (forall k p a, In (k, p) l -> p_epa_aqi p = Some a -> a <= Z.max 0 m)
  /\ ((m = m0 /\ dom = d0)
      \/ (m0 < m /\ exists k p, dom = Some k /\ In (k, p) l
                                /\ p_epa_aqi p = Some m)).
Proof.
  revert m0 d0. induction l as [|[k p] l IH]; intros m0 d0.
  - cbn. split; [lia|]. split; [intros ? ? ? []|left; auto].
  - cbn [fold_left].
    assert (Step : forall m1 d1,
               m0 <= m1 ->
               (forall a, p_epa_aqi p = Some a -> a <= Z.max 0 m1) ->
               ((m1 = m0 /\ d1 = d0)
                \/ (m0 < m1 /\ d1 = Some k /\ p_epa_aqi p = Some m1)) ->
               let '(m, dom) :=
                 fold_left
                   (fun '(max_aqi, dominant) '(pollutant, data) =>
                      match p_epa_aqi data with
                      | Some a =>
                          if negb (a =? 0) && (max_aqi <? a)
                          then (a, Some pollutant)
                          else (max_aqi, dominant)
                      | None => (max_aqi, dominant)
                      end)
                   l (m1, d1) in
               m0 <= m
               /\ (forall k' p' a, In (k', p') ((k, p) :: l) ->
                                   p_epa_aqi p' = Some a -> a <= Z.max 0 m)
               /\ ((m = m0 /\ dom = d0)
                   \/ (m0 < m /\ exists k' p', dom = Some k'
                                               /\ In (k', p') ((k, p) :: l)
                                               /\ p_epa_aqi p' = Some m))).
    { intros m1 d1 L1 B1 C1. specialize (IH m1 d1).
      destruct (fold_left _ l (m1, d1)) as [m dom].
      destruct IH as [L [B C]]. split; [lia|]. split.
      - intros k' p' a [H|H] E.
        + injection H as <- <-. specialize (B1 a E). lia.
        + eapply B; eauto.
      - destruct C as [[-> ->]|[Lt [k' [p' [E [I P]]]]]].
        + destruct C1 as [[-> ->]|[Lt [-> P]]]; [left; auto|].
          right. split; [exact Lt|]. exists k, p. split; [reflexivity|].
          split; [now left|exact P].
        + right. split; [lia|]. exists k', p'. split; [exact E|].
          split; [now right|exact P]. }
    destruct (p_epa_aqi p) as [a|] eqn:E.
    + destruct (negb (a =? 0) && (m0 <? a)) eqn:C.
      * apply andb_true_iff in C. destruct C as [_ C].
        apply Z.ltb_lt in C.
        apply Step; [lia| |right; auto].
        intros a' H. injection H as <-. lia.
      * apply Step; [lia| |left; auto].
        intros a' H. injection H as <-.
        apply andb_false_iff in C. destruct C as [C|C].
        -- apply negb_false_iff, Z.eqb_eq in C. lia.
        -- apply Z.ltb_ge in C. lia.
    + apply Step; [lia|intros a H; discriminate|left; auto].
Qed.

(** Every entry carries an index that is not negative. *)
Definition nonneg (d : dict pollutant_entry) : Prop :=
  forall k p a, In (k, p) d -> p_epa_aqi p = Some a -> 0 <= a.

Lemma add_entry_nonneg (key pollutant : string) (v : value)
  (d d' : dict pollutant_entry) :
  add_entry key pollutant v d = Return d' -> nonneg d -> nonneg d'.
Proof.
  unfold add_entry. destruct (is_none v); [intros H; now injection H as <-|].
  unfold Utils.calculate_epa_aqi_value.
  destruct (as_number v) as [c|]; [|discriminate].
  cbn [Py.bind]. intros H. injection H as <-. intros N k p a I E.
  apply WaqiFacts.In_set in I. destruct I as [[-> ->]|I]; [|eauto].
  cbn in E. apply (sub_index_range pollutant c a E).
Qed.

End EnhanceFacts.

(** X9. In the enhanced payload the overall index is the largest
    pollutant index.  When a dominant pollutant is named, its entry has a
    positive index, no pollutant has a higher one, the three AQI blocks
    carry that index with its category and color, and recommendations are
    given; when none is named, no pollutant has a non-zero index and the
    blocks are null. *)
Theorem enhance_overall_is_max (current_data : Py.dict Py.value)
  (e : Services.enhanced) :
  Services._enhance_with_aqi_calculations current_data = Py.Return e ->
  match Services.e_dominant_pollutant e with
  | Some k =>
      exists p m,
        Py.get k (Services.e_pollutants e) = Some p
        /\ Services.p_epa_aqi p = Some m
        /\ 0 < m
        /\ (forall k' p' m',
               In (k', p') (Services.e_pollutants e) ->
               Services.p_epa_aqi p' = Some m' -> m' <= m)
        /\ Services.e_local_epa_aqi e
           = Some (Services.mk_aqi_block m
                     (Utils.category (Utils.category_of_int m))
                     (Utils.color (Utils.category_of_int m)))
        /\ Services.e_uaqi e = Services.e_local_epa_aqi e
        /\ Services.e_national_aqi e = Services.e_local_epa_aqi e
        /\ Services.e_health_recommendations e <> []
  | None =>
      (forall k p, In (k, p) (Services.e_pollutants e) ->
                   Services.truthy_int (Services.p_epa_aqi p) = false)
      /\ Services.e_local_epa_aqi e = None
  end.
Proof.
  unfold Services._enhance_with_aqi_calculations.
  destruct (negb (Py.truthy (Py.VDict current_data))); [discriminate|].
  assert (N0 : NoDup (Py.keys (@nil (string * Services.pollutant_entry))))
    by constructor.
  assert (P0 : EnhanceFacts.nonneg []) by (intros ? ? ? []).
  repeat match goal with
         | |- (Py.bind ?m _) = _ -> _ =>
             let E := fresh "E" in
             destruct m eqn:E; [cbn [Py.bind]|discriminate];
             match goal with
             | N : NoDup (Py.keys _), P : EnhanceFacts.nonneg _ |- _ =>
                 apply (EnhanceFacts.add_entry_keys _ _ _ _ _ E) in N;
                 apply (EnhanceFacts.add_entry_nonneg _ _ _ _ _ E) in P
             end
         end.
  intros H. injection H as <-.
  cbn [Services.e_dominant_pollutant Services.e_pollutants
       Services.e_local_epa_aqi Services.e_uaqi Services.e_national_aqi
       Services.e_health_recommendations].
  unfold Services.scan_dominant.
  match goal with
  | |- context [fold_left ?f ?l (0, None)] =>
      pose proof (EnhanceFacts.scan_dominant_spec l 0 None) as S;
      destruct (fold_left f l (0, None)) as [m dom]
  end.
  destruct S as [L [B C]]. cbn [snd].
  destruct C as [[-> ->]|[Lt [k [p [-> [I P]]]]]].
  - split; [|reflexivity]. intros k p I.
    destruct (Services.p_epa_aqi p) as [a'|] eqn:E'; [|reflexivity].
    cbn. specialize (B k p a' I E'). specialize (P0 k p a' I E').
    apply negb_false_iff, Z.eqb_eq. lia.
  - exists p, m.
    rewrite (WaqiFacts.In_get _ _ _ N0 I), P.
    assert (Z : (m =? 0) = false) by (apply Z.eqb_neq; lia).
    assert (G : Utils.get_aqi_category (Py.of_option_int (Some m))
                = Utils.category_of_int m).
    { unfold Utils.get_aqi_category. cbn [Py.of_option_int Py.as_number].
      now rewrite SubIndexFacts.int_of_integer. }
    unfold Services.truthy_int. rewrite Z. cbn [negb]. rewrite G.
    split; [reflexivity|]. split; [reflexivity|]. split; [lia|].
    split; [intros k' p' m' I' E'; specialize (B k' p' m' I' E'); lia|].
    split; [reflexivity|]. split; [reflexivity|]. split; [reflexivity|].
    unfold Services.recommendations. rewrite Z.
    destruct (m <=? 50), (m <=? 100), (m <=? 150), (m <=? 200);
      discriminate.
Qed.

Lemma enhance_overall_is_max_witness :
  exists e,
    Services._enhance_with_aqi_calculations
      [("current", Py.VDict [("pm2_5", Py.VNum 40); ("pm10", Py.VNum 20)])]
    = Py.Return e
    /\ Services.e_dominant_pollutant e = Some "pm25"
    /\ Services.e_health_recommendations e <> [].
Proof.
  eexists. split; [reflexivity|]. split; [reflexivity|].
  pose proof (enhance_overall_is_max
                [("current",
                  Py.VDict [("pm2_5", Py.VNum 40); ("pm10", Py.VNum 20)])]
                _ eq_refl) as H.
  cbn [Services.e_dominant_pollutant] in H.
  destruct H as [p [m [_ [_ [_ [_ [_ [_ [_ R]]]]]]]]]. exact R.
Defined.

(** ** Grouping the subscriptions *)

Module GroupFacts.

Import Py Tasks AlertSpec.

Lemma coordinate_eqb_sym (a b : coordinate) :
  coordinate_eqb a b = coordinate_eqb b a.
Proof.
  unfold coordinate_eqb.
  assert (S : forall x y, Qeq_bool x y = Qeq_bool y x).
  { intros x y. destruct (Qeq_bool x y) eqn:E, (Qeq_bool y x) eqn:E';
      try reflexivity.
    - apply Qeq_bool_iff in E. symmetry in E. apply Qeq_bool_iff in E.
      congruence.
    - apply Qeq_bool_iff in E'. symmetry in E'. apply Qeq_bool_iff in E'.
      congruence. }
  now rewrite (S (fst a)), (S (snd a)).
Qed.

Lemma coordinate_eqb_trans (a b c : coordinate) :
  coordinate_eqb a b = true -> coordinate_eqb b c = true ->
  coordinate_eqb a c = true.
Proof.
  unfold coordinate_eqb. rewrite !andb_true_iff, !Qeq_bool_iff.
  intros [A1 A2] [B1 B2]. split; etransitivity; eauto.
Qed.

(** What one [append] does to the groups. *)
Lemma append_to_group_spec (key : coordinate) (p : pair)
  (groups : list (coordinate * list pair)) :
  distinct_keys groups ->
  distinct_keys (append_to_group key p groups)
  /\ Permutation (flat_map snd (append_to_group key p groups))
       (p :: flat_map snd groups)
  /\ (forall k ps, In (k, ps) (append_to_group key p groups) ->
        (In (k, ps) groups)
        \/ (coordinate_eqb key k = true
            /\ exists ps0, ps = (ps0 ++ [p])%list
                           /\ (ps0 = [] \/ In (k, ps0) groups)))
  /\ map fst (append_to_group key p groups)
     = (map fst groups
          ++ if existsb (coordinate_eqb key) (map fst groups) then []
             else [key])%list.
Proof.
  induction groups as [|[k ps] groups IH]; intros D.
  - cbn. split; [repeat constructor|]. split; [reflexivity|].
    split; [|reflexivity].
    intros k ps [E|[]]. injection E as <- <-. right.
    split; [apply SweepFacts.coordinate_eqb_refl|].
    exists []. split; [reflexivity|now left].
  - cbn [append_to_group]. inversion D as [|? ? F D']; subst.
    destruct (coordinate_eqb key k) eqn:E.
    + split; [|split; [|split]].
      * constructor; [exact F|exact D'].
      * cbn [flat_map snd]. rewrite <- app_assoc. cbn [app].
        apply Permutation_sym, Permutation_middle.
      * intros k' ps' [H|H].
        -- injection H as <- <-. right. split; [exact E|].
           exists ps. split; [reflexivity|right; now left].
        -- left. now right.
      * cbn [map fst existsb]. rewrite E. cbn [orb].
        now rewrite app_nil_r.
    + destruct (IH D') as [I1 [I2 [I3 I4]]].
      split; [|split; [|split]].
      * constructor; [|exact I1].
        apply Forall_forall. intros [k' ps'] H.
        destruct (I3 k' ps' H) as [H'|[Ek _]].
        -- rewrite Forall_forall in F. apply (F _ H').
        -- cbn [fst].
           destruct (coordinate_eqb k k') eqn:E'; [|reflexivity].
           rewrite coordinate_eqb_sym in E'.
           rewrite (coordinate_eqb_trans _ _ _ Ek E') in E. discriminate.
      * cbn [flat_map snd]. rewrite I2. apply Permutation_sym.
        apply Permutation_middle.
      * intros k' ps' [H|H]; [left; now left|].
        destruct (I3 k' ps' H) as [H'|[Ek [ps0 [Ep [Hn|Hi]]]]].
        -- left. now right.
        -- right. split; [exact Ek|]. exists ps0. split; [exact Ep|now left].
        -- right. split; [exact Ek|]. exists ps0.
           split; [exact Ep|right; now right].
      * cbn [map fst existsb]. rewrite E. cbn [orb]. now rewrite I4.
Qed.

(** The groups built from a list of subscriptions. *)
Lemma groups_spec (subscriptions : list CitySubscription)
  (groups : list (coordinate * list pair)) :
  distinct_keys groups ->
  (forall k ps, In (k, ps) groups ->
     ps <> [] /\ forall u s, In (u, s) ps ->
       u = sub_user s /\ user_is_active u = true
       /\ coordinate_eqb (key_of s) k = true) ->
  let groups' :=
    fold_left
      (fun groups subscription =>
         if negb (user_is_active (sub_user subscription)) then groups
         else
           append_to_group
             (round4 (sub_latitude subscription),
              round4 (sub_longitude subscription))
             (sub_user subscription, subscription) groups)
      subscriptions groups in
  distinct_keys groups'
  /\ (forall k ps, In (k, ps) groups' ->
        ps <> [] /\ forall u s, In (u, s) ps ->
          u = sub_user s /\ user_is_active u = true
          /\ coordinate_eqb (key_of s) k = true)
  /\ Permutation (flat_map snd groups')
       (flat_map snd groups ++ active_pairs subscriptions).
Proof.
  revert groups.
  induction subscriptions as [|s subscriptions IH]; intros groups D W.
  - cbn. split; [exact D|]. split; [exact W|].
    unfold active_pairs. cbn. now rewrite app_nil_r.
  - cbn [fold_left]. unfold active_pairs. cbn [filter].
    destruct (user_is_active (sub_user s)) eqn:A; cbn [negb map].
    + destruct (append_to_group_spec (key_of s) (sub_user s, s) groups D)
        as [D1 [P1 [I1 _]]].
      fold (key_of s).
      destruct (IH (append_to_group (key_of s) (sub_user s, s) groups) D1)
        as [D2 [W2 P2]].
      * intros k ps H.
        destruct (I1 k ps H) as [H'|[Ek [ps0 [-> Hps0]]]];
          [exact (W k ps H')|].
        split; [now destruct ps0|].
        intros u s' Hin. apply in_app_or in Hin.
        destruct Hin as [Hin|[Hin|[]]].
        -- destruct Hps0 as [->|Hps0]; [destruct Hin|].
           exact (proj2 (W k ps0 Hps0) u s' Hin).
        -- injection Hin as <- <-. auto.
      * split; [exact D2|]. split; [exact W2|].
        rewrite P2, P1. cbn [app]. apply Permutation_middle.
    + exact (IH groups D W).
Qed.

End GroupFacts.

(** X10. [check_and_send_aqi_alerts] groups the subscriptions of active
    users by coordinate rounded to four decimals: no two groups have the
    same key, no group is empty, every pair of a group is a subscription
    paired with its own, active user and rounds to the group's key, and
    the groups together hold exactly the subscriptions of active users,
    each once. *)
Theorem group_subscriptions_partition
  (subscriptions : list Tasks.CitySubscription) :
  let groups := Tasks.group_subscriptions subscriptions in
  AlertSpec.distinct_keys groups
  /\ (forall k ps, In (k, ps) groups ->
        ps <> []
        /\ forall u s, In (u, s) ps ->
             u = Tasks.sub_user s
             /\ Tasks.user_is_active u = true
             /\ Tasks.coordinate_eqb (AlertSpec.key_of s) k = true)
  /\ Permutation (flat_map snd groups) (AlertSpec.active_pairs subscriptions).
Proof.
  intros groups.
  destruct (GroupFacts.groups_spec subscriptions []) as [D [W P]].
  - constructor.
  - intros k ps [].
  - split; [exact D|]. split; [exact W|exact P].
Qed.

(** ** Alert sweep: what a sweep adds *)

Module AlertFacts.

Import Py Tasks AlertSpec.

Lemma delivered_refl (st : world * counters) : delivered [] st st.
Proof. unfold delivered. cbn. auto. Qed.

Lemma delivered_trans (new1 new2 : list alert_mail)
  (st1 st2 st3 : world * counters) :
  delivered new1 st1 st2 -> delivered new2 st2 st3 ->
  delivered (new2 ++ new1) st1 st3.
Proof.
  unfold delivered. intros [O1 [N1 C1]] [O2 [N2 C2]].
  rewrite O2, O1, N2, N1, C2, C1, map_app, !length_app, <- !app_assoc.
  repeat split. lia.
Qed.

(** One pair delivers nothing or one alert of today for its user and the
    index at hand. *)
Lemma process_pair_delivered (today : Z) (a : Q)
  (aqi_data : Services.formatted) (user : User)
  (subscription : CitySubscription) (st : world * counters) :
  exists new,
    delivered new st (process_pair today a aqi_data (user, subscription) st)
    /\ Forall (fun m => m_user m = user_id user
                        /\ m_aqi_value m = a /\ m_date m = today) new.
Proof.
  destruct st as [w [sent errors]]. unfold process_pair.
  pose proof (SweepFacts.get_or_create_keeps user subscription w) as K.
  destruct (get_or_create user subscription w) as [l w1].
  cbn [snd] in K. destruct K as [Kn [Ko Kt]].
  destruct (notified user l today w1).
  { exists []. split; [|constructor].
    unfold delivered. cbn. repeat split; auto. }
  unfold send_aqi_alert_email.
  destruct (Services.f_dominant_pollutant aqi_data).
  2:{ exists []. split; [|constructor].
      unfold delivered. cbn. repeat split; auto. }
  destruct (transport w1) as [|[|] rest].
  - exists []. split; [|constructor].
    unfold delivered. cbn. repeat split; auto.
  - exists [mk_mail (user_id user) (sl_id l) a today].
    split; [|repeat constructor].
    unfold delivered, row_of. cbn. rewrite Ko, Kn. repeat split. lia.
  - exists []. split; [|constructor].
    unfold delivered. cbn. repeat split; auto.
Qed.

Lemma process_pairs_delivered (P : alert_mail -> Prop) (today : Z) (a : Q)
  (aqi_data : Services.formatted) (pairs : list pair)
  (st : world * counters) :
  (forall u s m, In (u, s) pairs ->
     m_user m = user_id u -> m_aqi_value m = a -> m_date m = today -> P m) ->
  exists new,
    delivered new st
      (fold_left (fun st p => process_pair today a aqi_data p st) pairs st)
    /\ Forall P new.
Proof.
  revert st. induction pairs as [|[u s] pairs IH]; intros st H.
  - exists []. split; [apply delivered_refl|constructor].
  - cbn [fold_left].
    destruct (process_pair_delivered today a aqi_data u s st)
      as [new1 [D1 F1]].
    destruct (IH (process_pair today a aqi_data (u, s) st)) as [new2 [D2 F2]].
    { intros u' s' m Hin. apply (H u' s' m). now right. }
    exists (new2 ++ new1)%list. split; [eapply delivered_trans; eauto|].
    apply Forall_app. split; [exact F2|].
    eapply Forall_impl; [|exact F1].
    intros m [Hu [Ha Hd]]. apply (H u s m); auto. now left.
Qed.

Lemma process_group_delivered (P : alert_mail -> Prop) (today : Z)
  (keys : list coordinate) (aqi_results : list Services.formatted)
  (group : coordinate * list pair) (st st' : world * counters) :
  (forall u s m, In (u, s) (snd group) ->
     m_user m = user_id u -> (AQI_THRESHOLD <= m_aqi_value m)%Q ->
     m_date m = today -> P m) ->
  process_group today keys aqi_results group st = Return st' ->
  exists new, delivered new st st' /\ Forall P new.
Proof.
  intros H. unfold process_group. destruct group as [key pairs].
  cbn [snd] in H.
  destruct (location_aqi_map_get key keys aqi_results) as [aqi_data|].
  2:{ intros E. injection E as <-. exists [].
      split; [apply delivered_refl|constructor]. }
  destruct (is_none (Services.f_aqi aqi_data)).
  { intros E. injection E as <-. exists [].
    split; [apply delivered_refl|constructor]. }
  destruct (as_number (Services.f_aqi aqi_data)) as [a|]; [|discriminate].
  destruct (Qlt_le_dec a AQI_THRESHOLD) as [L|L]; intros E; injection E as <-.
  { exists []. split; [apply delivered_refl|constructor]. }
  apply process_pairs_delivered.
  intros u s m Hin Hu Ha Hd. apply (H u s m); auto. now rewrite Ha.
Qed.

Lemma process_groups_delivered (P : alert_mail -> Prop) (today : Z)
  (keys : list coordinate) (aqi_results : list Services.formatted)
  (groups : list (coordinate * list pair)) (st : world * counters) :
  (forall k ps u s m, In (k, ps) groups -> In (u, s) ps ->
     m_user m = user_id u -> (AQI_THRESHOLD <= m_aqi_value m)%Q ->
     m_date m = today -> P m) ->
  exists new,
    delivered new st (fst (process_groups today keys aqi_results groups st))
    /\ Forall P new.
Proof.
  revert st. induction groups as [|[k ps] groups IH]; intros st H.
  - exists []. split; [apply delivered_refl|constructor].
  - cbn [process_groups].
    destruct (process_group today keys aqi_results (k, ps) st) as [st1|] eqn:E.
    + destruct (process_group_delivered P today keys aqi_results (k, ps)
                  st st1) as [new1 [D1 F1]]; [|exact E|].
      { intros u s m Hin. apply (H k ps u s m); auto. now left. }
      destruct (IH st1) as [new2 [D2 F2]].
      { intros k' ps' u s m Hg. apply (H k' ps' u s m). now right. }
      exists (new2 ++ new1)%list. split; [eapply delivered_trans; eauto|].
      apply Forall_app. split; assumption.
    + exists []. split; [apply delivered_refl|constructor].
Qed.

Section Sweep.

Variable W : value -> value -> value -> option (dict value).
Variable G : value -> value -> option (value * value).

(** What a sweep adds: alerts that are justified, each with its row; the
    summary counts them when the sweep is not aborted. *)
Lemma sweep_delivered (today : Z) (subscriptions : list CitySubscription)
  (responses : list value) (w : world) :
  let result :=
    check_and_send_aqi_alerts W G today subscriptions responses w in
  exists new,
    outbox (fst result) = (new ++ outbox w)%list
    /\ notifications (fst result)
       = (map row_of new ++ notifications w)%list
    /\ Forall (justified today subscriptions) new
    /\ (notifications_sent (snd result) <= List.length new)%nat
    /\ (s_status (snd result) = Success ->
        notifications_sent (snd result) = List.length new).
Proof.
  intros result. subst result. unfold check_and_send_aqi_alerts.
  assert (Z0 : exists new : list alert_mail,
             outbox w = (new ++ outbox w)%list
             /\ notifications w = (map row_of new ++ notifications w)%list
             /\ Forall (justified today subscriptions) new
             /\ (0 <= List.length new)%nat
             /\ 0%nat = List.length new).
  { exists []. repeat split; auto. }
  destruct (filter sub_is_active subscriptions) as [|s0 active] eqn:Ea.
  { destruct Z0 as [new Z0]. exists new. cbn. tauto. }
  destruct (group_subscriptions (s0 :: active)) as [|g0 groups] eqn:Eg.
  { destruct Z0 as [new Z0]. exists new. cbn. tauto. }
  destruct (Services.fetch_batch_current_aqi W G _ responses (VStr "auto"))
    as [|r0 results].
  { destruct Z0 as [new Z0]. exists new. cbn. tauto. }
  clear Z0.
  destruct (GroupFacts.groups_spec (s0 :: active) []) as [_ [Wf Pm]];
    [constructor|intros k ps []|].
  fold (group_subscriptions (s0 :: active)) in Wf, Pm.
  rewrite Eg in Wf, Pm. cbn [flat_map app] in Pm.
  destruct (process_groups_delivered (justified today subscriptions) today
              (map fst (g0 :: groups)) (r0 :: results) (g0 :: groups)
              (w, (O, O))) as [new [[Do [Dn Dc]] F]].
  { intros k ps u s m Hg Hp Hu Ha Hd.
    destruct (Wf k ps Hg) as [_ Wp]. destruct (Wp u s Hp) as [-> [Au _]].
    assert (Hin : In (sub_user s, s) (active_pairs (s0 :: active))).
    { eapply Permutation_in; [exact Pm|].
      change (In (sub_user s, s) (flat_map snd (g0 :: groups))).
      apply in_flat_map. exists (k, ps). split; assumption. }
    unfold active_pairs in Hin. apply in_map_iff in Hin.
    destruct Hin as [s' [Es Hin]]. injection Es as _ ->.
    apply filter_In in Hin. destruct Hin as [Hin _].
    rewrite <- Ea in Hin. apply filter_In in Hin. destruct Hin as [Hin As].
    split; [exact Hd|]. split; [exact Ha|].
    exists s. auto. }
  destruct (process_groups today (map fst (g0 :: groups)) (r0 :: results)
              (g0 :: groups) (w, (O, O))) as [[w' [sent errors]] [|]];
    cbn [fst snd] in *; exists new; cbn [fst snd notifications_sent s_status].
  - repeat split; auto; lia.
  - repeat split; auto; [lia|discriminate].
Qed.

End Sweep.

End AlertFacts.

(** X11. A sweep only adds alert emails that are justified: the outbox
    after [check_and_send_aqi_alerts] is the outbox before it with new
    mails in front, and every new mail is dated today, is for an index of
    at least 100, and goes to an active user who has an active
    subscription. *)
Theorem sweep_alerts_justified
  (W : Py.value -> Py.value -> Py.value -> option (Py.dict Py.value))
  (G : Py.value -> Py.value -> option (Py.value * Py.value))
  (today : Z) (subscriptions : list Tasks.CitySubscription)
  (responses : list Py.value) (w : Tasks.world) :
  let w' :=
    fst (Tasks.check_and_send_aqi_alerts W G today subscriptions
           responses w) in
  exists new,
    Tasks.outbox w' = (new ++ Tasks.outbox w)%list
    /\ forall m, In m new -> AlertSpec.justified today subscriptions m.
Proof.
  intros w'.
  destruct (AlertFacts.sweep_delivered W G today subscriptions responses w)
    as [new [Ho [_ [F _]]]].
  exists new. split; [exact Ho|]. now apply Forall_forall.
Qed.

(** X12. Every alert email a sweep delivers has its notification row, and
    the summary never over-reports: the sweep puts the new mails in front
    of the outbox and exactly their rows in front of the notification
    table; [notifications_sent] is the number of new mails when the status
    is 'success', and is not above it when the sweep was aborted (it is
    then 0, whatever was delivered before). *)
Theorem sweep_summary_counts
  (W : Py.value -> Py.value -> Py.value -> option (Py.dict Py.value))
  (G : Py.value -> Py.value -> option (Py.value * Py.value))
  (today : Z) (subscriptions : list Tasks.CitySubscription)
  (responses : list Py.value) (w : Tasks.world) :
  let result :=
    Tasks.check_and_send_aqi_alerts W G today subscriptions responses w in
  exists new,
    Tasks.outbox (fst result) = (new ++ Tasks.outbox w)%list
    /\ Tasks.notifications (fst result)
       = (map AlertSpec.row_of new ++ Tasks.notifications w)%list
    /\ (Tasks.notifications_sent (snd result) <= List.length new)%nat
    /\ (Tasks.s_status (snd result) = Tasks.Success ->
        Tasks.notifications_sent (snd result) = List.length new)
    /\ (Tasks.s_status (snd result) = Tasks.Error ->
        Tasks.notifications_sent (snd result) = 0%nat).
Proof.
  intros result.
  destruct (AlertFacts.sweep_delivered W G today subscriptions responses w)
    as [new [Ho [Hn [_ [Hle Hs]]]]].
  exists new. fold result in Ho, Hn, Hle, Hs.
  split; [exact Ho|]. split; [exact Hn|]. split; [exact Hle|].
  split; [exact Hs|].
  subst result. unfold Tasks.check_and_send_aqi_alerts.
  destruct (filter Tasks.sub_is_active subscriptions); [discriminate|].
  destruct (Tasks.group_subscriptions _); [discriminate|].
  destruct (Services.fetch_batch_current_aqi W G _ responses _);
    [reflexivity|].
  destruct (Tasks.process_groups _ _ _ _ _) as [[w' [sent errors]] [|]];
    [discriminate|reflexivity].
Qed.

(** ** Saved locations *)

Module SavedFacts.

Import Py Tasks AlertSpec.

Lemma Qeq_bool_sym (x y : Q) : Qeq_bool x y = Qeq_bool y x.
Proof.
  destruct (Qeq_bool x y) eqn:E, (Qeq_bool y x) eqn:E'; try reflexivity.
  - apply Qeq_bool_iff in E. symmetry in E. apply Qeq_bool_iff in E.
    congruence.
  - apply Qeq_bool_iff in E'. symmetry in E'. apply Qeq_bool_iff in E'.
    congruence.
Qed.

Lemma fresh_id_above (rows : list SavedLocation) (x : SavedLocation) :
  In x rows -> (sl_id x < fresh_id rows)%nat.
Proof.
  unfold fresh_id. induction rows as [|r rows IH]; [intros []|].
  intros [<-|H]; cbn [fold_right]; [lia|]. specialize (IH H). lia.
Qed.

Lemma get_or_create_row (user : User) (subscription : CitySubscription)
  (w : world) :
  unique_places (saved_locations w) ->
  let l := fst (get_or_create user subscription w) in
  let w1 := snd (get_or_create user subscription w) in
  In l (saved_locations w1)
  /\ sl_user l = user_id user
  /\ (sl_latitude l == sub_latitude subscription)%Q
  /\ (sl_longitude l == sub_longitude subscription)%Q
  /\ (saved_locations w1 = saved_locations w
      \/ (saved_locations w1 = l :: saved_locations w
          /\ forall x, In x (saved_locations w) -> same_place l x = false))
  /\ unique_places (saved_locations w1).
Proof.
  intros [Ui Up]. unfold get_or_create.
  destruct (find _ (saved_locations w)) as [l|] eqn:F; cbn [fst snd].
  - apply find_some in F. destruct F as [Hin Hp].
    apply andb_true_iff in Hp. destruct Hp as [Hp Hlon].
    apply andb_true_iff in Hp. destruct Hp as [Hu Hlat].
    apply Nat.eqb_eq in Hu. apply Qeq_bool_iff in Hlat, Hlon.
    repeat split; auto.
  - cbn [saved_locations sl_user sl_latitude sl_longitude].
    assert (N : forall x, In x (saved_locations w) ->
                same_place
                  (mk_saved_location (fresh_id (saved_locations w))
                     (user_id user)
                     (sub_city subscription ++ ", " ++ sub_country subscription)
                     (sub_latitude subscription) (sub_longitude subscription)
                     (sub_city subscription) (sub_country subscription)) x
                = false).
    { intros x Hx. pose proof (find_none _ _ F x Hx) as Hp. cbn beta in Hp.
      unfold same_place. cbn [sl_user sl_latitude sl_longitude].
      now rewrite Nat.eqb_sym, (Qeq_bool_sym (sub_latitude subscription)),
        (Qeq_bool_sym (sub_longitude subscription)). }
    split; [now left|]. split; [reflexivity|].
    split; [reflexivity|]. split; [reflexivity|].
    split; [right; split; [reflexivity|exact N]|].
    split.
    + cbn [map sl_id]. constructor; [|exact Ui].
      intros Hin. apply in_map_iff in Hin. destruct Hin as [x [Ex Hx]].
      pose proof (fresh_id_above _ x Hx). lia.
    + constructor; [|exact Up]. apply Forall_forall. exact N.
Qed.

End SavedFacts.

(** X13. [get_or_create] on [saved_locations] gives a row of the table
    that belongs to the user and has the subscription's coordinates; it
    adds at most one row, and only when no row for the same user and
    coordinates exists; it keeps the table unique on the primary key and
    on (user, latitude, longitude); and asking again gives the same row
    and changes nothing. *)
Theorem get_or_create_spec (user : Tasks.User)
  (subscription : Tasks.CitySubscription) (w : Tasks.world) :
  AlertSpec.unique_places (Tasks.saved_locations w) ->
  let l := fst (Tasks.get_or_create user subscription w) in
  let w1 := snd (Tasks.get_or_create user subscription w) in
  In l (Tasks.saved_locations w1)
  /\ Tasks.sl_user l = Tasks.user_id user
  /\ (Tasks.sl_latitude l == Tasks.sub_latitude subscription)%Q
  /\ (Tasks.sl_longitude l == Tasks.sub_longitude subscription)%Q
  /\ (Tasks.saved_locations w1 = Tasks.saved_locations w
      \/ (Tasks.saved_locations w1 = l :: Tasks.saved_locations w
          /\ forall x, In x (Tasks.saved_locations w) ->
                       AlertSpec.same_place l x = false))
  /\ AlertSpec.unique_places (Tasks.saved_locations w1)
  /\ Tasks.get_or_create user subscription w1 = (l, w1).
Proof.
  intros U l w1.
  destruct (SavedFacts.get_or_create_row user subscription w U)
    as [A [B [C [D [E F]]]]].
  repeat (split; [assumption|]).
  now apply SweepFacts.get_or_create_again.
Qed.

Lemma get_or_create_spec_witness :
  let alice := Tasks.mk_user 7 "alice@example.org" true in
  let s := Tasks.mk_subscription alice "Lahore" "Pakistan" 31.5 74.3 true in
  let w := Tasks.mk_world [] [] [] [] in
  let l := fst (Tasks.get_or_create alice s w) in
  let w1 := snd (Tasks.get_or_create alice s w) in
  Tasks.saved_locations w1 = [l]
  /\ Tasks.sl_name l = "Lahore, Pakistan"
  /\ Tasks.get_or_create alice s w1 = (l, w1).
Proof.
  intros alice s w l w1.
  assert (U : AlertSpec.unique_places (Tasks.saved_locations w))
    by (split; constructor).
  destruct (get_or_create_spec alice s w U) as [_ [_ [_ [_ [_ [_ R]]]]]].
  split; [reflexivity|]. split; [reflexivity|exact R].
Defined.

(** ** A sweep the provider does not answer *)

Module SilentFacts.

Import Py Services Tasks AlertSpec.

Section Silent.

Variable W : value -> value -> value -> option (dict value).
Variable G : value -> value -> option (value * value).

Lemma valid_results_app (a b : list (option formatted)) :
  valid_results (a ++ b) = (valid_results a ++ valid_results b)%list.
Proof.
  induction a as [|[r|] a IH]; cbn; [reflexivity| |exact IH].
  now rewrite IH.
Qed.

Lemma valid_results_nones (n : nat) : valid_results (nones n) = [].
Proof. induction n as [|n IH]; [reflexivity|exact IH]. Qed.

Lemma collect_silent (timezone : value) (chs : list (list location))
  (responses : list value) :
  Forall (fun r => r = VNone) responses ->
  valid_results (collect W G timezone chs responses) = [].
Proof.
  revert responses. induction chs as [|c chs IH]; intros responses F;
    [reflexivity|].
  cbn [collect]. rewrite valid_results_app.
  assert (H : hd VNone responses = VNone)
    by (destruct F as [|r rs Hr _]; [reflexivity|exact Hr]).
  rewrite H. unfold process_chunk. cbn [truthy negb].
  rewrite valid_results_nones. cbn [app]. apply IH.
  destruct F; [constructor|assumption].
Qed.

Lemma fetch_batch_silent (locations : list location)
  (responses : list value) (timezone : value) :
  Forall (fun r => r = VNone) responses ->
  fetch_batch_current_aqi W G locations responses timezone = [].
Proof.
  intros F. unfold fetch_batch_current_aqi, all_results.
  destruct locations; [reflexivity|]. now apply collect_silent.
Qed.

End Silent.

(** There is a group exactly when some subscription has an active user. *)
Lemma groups_empty (subscriptions : list CitySubscription) :
  group_subscriptions subscriptions = []
  <-> forall s, In s subscriptions -> user_is_active (sub_user s) = false.
Proof.
  destruct (GroupFacts.groups_spec subscriptions []) as [_ [Wf Pm]];
    [constructor|intros k ps []|].
  fold (group_subscriptions subscriptions) in Wf, Pm. cbn [flat_map app] in Pm.
  split.
  - intros E s Hs. rewrite E in Pm. cbn in Pm.
    apply Permutation_nil in Pm.
    destruct (user_is_active (sub_user s)) eqn:A; [|reflexivity].
    assert (Hin : In (sub_user s, s) (active_pairs subscriptions)).
    { unfold active_pairs.
      apply (in_map (fun s0 => (sub_user s0, s0))), filter_In. auto. }
    rewrite Pm in Hin. destruct Hin.
  - intros H.
    destruct (group_subscriptions subscriptions) as [|[k ps] groups];
      [reflexivity|].
    destruct (Wf k ps (or_introl eq_refl)) as [Ne Wp].
    destruct ps as [|[u s] ps]; [contradiction|].
    assert (Hin : In (u, s) (active_pairs subscriptions)).
    { eapply Permutation_in; [exact Pm|]. cbn. now left. }
    unfold active_pairs in Hin. apply in_map_iff in Hin.
    destruct Hin as [s' [_ Hin]]. apply filter_In in Hin.
    destruct Hin as [Hin A]. rewrite (H s' Hin) in A. discriminate.
Qed.

End SilentFacts.

(** X14. When the provider answers none of the batch requests of a
    sweep, the sweep changes nothing and reports no notification; it
    reports an error exactly when there was something to check, that is,
    an active subscription of an active user. *)
Theorem sweep_without_answer
  (W : Py.value -> Py.value -> Py.value -> option (Py.dict Py.value))
  (G : Py.value -> Py.value -> option (Py.value * Py.value))
  (today : Z) (subscriptions : list Tasks.CitySubscription)
  (responses : list Py.value) (w : Tasks.world) :
  Forall (fun r => r = Py.VNone) responses ->
  let result :=
    Tasks.check_and_send_aqi_alerts W G today subscriptions responses w in
  fst result = w
  /\ Tasks.notifications_sent (snd result) = 0%nat
  /\ (Tasks.s_status (snd result) = Tasks.Error
      <-> exists s, In s subscriptions
                    /\ Tasks.sub_is_active s = true
                    /\ Tasks.user_is_active (Tasks.sub_user s) = true).
Proof.
  intros F result. subst result. unfold Tasks.check_and_send_aqi_alerts.
  pose proof (SilentFacts.groups_empty
                (filter Tasks.sub_is_active subscriptions)) as Ge.
  destruct (filter Tasks.sub_is_active subscriptions) as [|s0 active] eqn:Ea.
  { cbn. split; [reflexivity|]. split; [reflexivity|].
    split; [discriminate|]. intros [s [Hs [As _]]].
    assert (Hin : In s (filter Tasks.sub_is_active subscriptions))
      by (apply filter_In; auto).
    rewrite Ea in Hin. destruct Hin. }
  destruct (Tasks.group_subscriptions (s0 :: active)) as [|g0 groups] eqn:Eg.
  { cbn. split; [reflexivity|]. split; [reflexivity|].
    split; [discriminate|]. intros [s [Hs [As Au]]].
    assert (Hin : In s (s0 :: active))
      by (rewrite <- Ea; apply filter_In; auto).
    rewrite (proj1 Ge eq_refl s Hin) in Au. discriminate. }
  rewrite (SilentFacts.fetch_batch_silent W G _ responses _ F). cbn.
  split; [reflexivity|]. split; [reflexivity|]. split; [|reflexivity].
  intros _.
  destruct (existsb (fun s => Tasks.user_is_active (Tasks.sub_user s))
              (s0 :: active)) eqn:Ex.
  - apply existsb_exists in Ex. destruct Ex as [s [Hin Au]].
    rewrite <- Ea in Hin. apply filter_In in Hin. destruct Hin as [Hin As].
    exists s. auto.
  - assert (E : g0 :: groups = []).
    { apply (proj2 Ge). intros s Hs.
      destruct (Tasks.user_is_active (Tasks.sub_user s)) eqn:A;
        [|reflexivity].
      assert (existsb (fun s => Tasks.user_is_active (Tasks.sub_user s))
                (s0 :: active) = true)
        by (apply existsb_exists; exists s; auto).
      congruence. }
    discriminate.
Qed.

Lemma sweep_without_answer_witness :
  let w := Tasks.mk_world [] [] [] [true] in
  let result :=
    Tasks.check_and_send_aqi_alerts (fun _ _ _ => None) (fun _ _ => None)
      20000 [SweepSpec.subscriber 1] [Py.VNone] w in
  fst result = w /\ Tasks.s_status (snd result) = Tasks.Error.
Proof.
  intros w result.
  destruct (sweep_without_answer (fun _ _ _ => None) (fun _ _ => None)
              20000 [SweepSpec.subscriber 1] [Py.VNone] w)
    as [A [_ B]].
  - repeat constructor.
  - split; [exact A|]. apply B. exists (SweepSpec.subscriber 1).
    split; [now left|]. split; reflexivity.
Defined.

(** ** Ranking entries *)

Module EntryFacts.

Import Py Waqi WaqiSpec.

Lemma round_positive (x : Q) : (0 < x)%Q -> 0 <= Py.round x.
Proof.
  intros H. apply (TableFacts.round_between x 0 (Py.round x + 1)).
  - apply Qlt_le_weak. exact H.
  - destruct (round_nearest x) as [L _].
    rewrite inject_Z_plus. change (inject_Z 1) with 1%Q. lra.
Qed.

Lemma dominant_pollutant_cases (pm25 pm10 : option Q)
  (aqi_pm25 aqi_pm10 : option Z) :
  dominant_pollutant pm25 pm10 aqi_pm25 aqi_pm10 = "pm2_5"
  \/ dominant_pollutant pm25 pm10 aqi_pm25 aqi_pm10 = "pm10".
Proof.
  unfold dominant_pollutant.
  destruct pm25 as [x25|], pm10 as [x10|];
    repeat match goal with
           | |- context [if ?b then _ else _] => destruct b
           | |- context [match ?a with Some _ => _ | None => _ end] =>
               destruct a
           end; auto.
Qed.

(** What a reading that passes the checks of the station loop looks
    like. *)
Lemma observe_spec (data : station_data) (o : observation) :
  observe data = Some o ->
  (exists reading,
      as_number (d_aqi data) = Some reading
      /\ (0 < reading)%Q
      /\ aqi o = Py.round reading
      /\ category o
         = Utils.category (Utils.category_of_int (Py.int reading)))
  /\ 0 <= aqi o
  /\ d_city_name data = Some (city o)
  /\ city o <> "" /\ city o <> "Unknown"
  /\ country o = _extract_country_from_city_name (city o)
  /\ (dominantPollutant o = "pm2_5" \/ dominantPollutant o = "pm10")
  /\ (forall a, aqi_pm25 o = Some a -> 0 <= a <= 500)
  /\ (forall a, aqi_pm10 o = Some a -> 0 <= a <= 500).
Proof.
  unfold observe.
  destruct (as_number (d_aqi data)) as [r|]; [|discriminate].
  destruct (Qle_bool r 0) eqn:P; [discriminate|].
  assert (Hr : (0 < r)%Q).
  { destruct (Qlt_le_dec 0 r) as [L|L]; [exact L|].
    apply Qle_bool_iff in L. congruence. }
  destruct (d_city_name data) as [name|]; [|discriminate].
  destruct (String.eqb name "Unknown") eqn:E1; [discriminate|].
  destruct (String.eqb name "") eqn:E2; [discriminate|].
  cbn [orb]. intros H. injection H as <-.
  cbn [aqi category city country dominantPollutant aqi_pm25 aqi_pm10].
  apply String.eqb_neq in E1, E2.
  split; [exists r; auto|]. split; [now apply round_positive|].
  split; [reflexivity|]. split; [exact E2|]. split; [exact E1|].
  split; [reflexivity|]. split; [apply dominant_pollutant_cases|].
  split; intros a Ha.
  - destruct (d_pm25 data); [|discriminate].
    exact (proj1 (sub_index_range _ _ _ Ha)).
  - destruct (d_pm10 data); [|discriminate].
    exact (proj1 (sub_index_range _ _ _ Ha)).
Qed.

End EntryFacts.

(** X15. Every entry of the rankings [build_worst_aqi_rankings] returns
    comes from a station whose feed gave a positive numeric index and a
    city name other than the empty string and 'Unknown': its index is that
    reading rounded and is not negative, its category is the category of
    the truncated reading, its country is what
    [_extract_country_from_city_name] gives for the city name, its
    dominant pollutant is 'pm2_5' or 'pm10', and its PM sub-indices, where
    present, lie between 0 and 500. *)
Theorem rankings_entries_wellformed (lower : string -> string)
  (top_n : nat) (boxes : list (list Waqi.station)) (e : Waqi.observation) :
  In e (Waqi.build_worst_aqi_rankings lower top_n boxes) ->
  (exists reading,
      (0 < reading)%Q
      /\ Waqi.aqi e = Py.round reading
      /\ Waqi.category e
         = Utils.category (Utils.category_of_int (Py.int reading)))
  /\ 0 <= Waqi.aqi e
  /\ Waqi.city e <> "" /\ Waqi.city e <> "Unknown"
  /\ Waqi.country e = Waqi._extract_country_from_city_name (Waqi.city e)
  /\ (Waqi.dominantPollutant e = "pm2_5"
      \/ Waqi.dominantPollutant e = "pm10")
  /\ (forall a, Waqi.aqi_pm25 e = Some a -> 0 <= a <= 500)
  /\ (forall a, Waqi.aqi_pm10 e = Some a -> 0 <= a <= 500).
Proof.
  intros Hin.
  destruct (WaqiFacts.scanned_map lower top_n boxes)
    as [readings [F [E [K W]]]].
  destruct (WaqiFacts.built_from_map lower top_n readings _
              (Waqi.build_worst_aqi_rankings lower top_n boxes) K W)
    as [_ [P _]].
  { unfold Waqi.build_worst_aqi_rankings. now rewrite E. }
  destruct (P e Hin) as [[i [o [Ho ->]]] _].
  destruct (F o Ho) as [stations [s [_ [_ Hs]]]].
  unfold WaqiSpec.reading_of in Hs.
  destruct (Waqi.st_lat s), (Waqi.st_lon s), (Waqi.st_feed s) as [data|];
    try destruct Hs.
  destruct (Waqi.observe data) as [o'|] eqn:Ob; [|destruct Hs].
  destruct Hs as [->|[]].
  destruct (EntryFacts.observe_spec data o Ob)
    as [[r [_ [R1 [R2 R3]]]] [A [_ [B [C [D [E' [G H]]]]]]]].
  cbn [Waqi.set_rank Waqi.aqi Waqi.category Waqi.city Waqi.country
       Waqi.dominantPollutant Waqi.aqi_pm25 Waqi.aqi_pm10].
  split; [exists r; auto|]. repeat (split; [assumption|]). assumption.
Qed.

Lemma rankings_entries_wellformed_witness :
  let e :=
    Waqi.mk_observation "Delhi, India" "India" 120
      "Unhealthy for Sensitive Groups" "pm2_5" None None (Some 1%nat) in
  0 <= Waqi.aqi e
  /\ Waqi.country e = Waqi._extract_country_from_city_name (Waqi.city e).
Proof.
  intros e.
  destruct (rankings_entries_wellformed Py.lower 30
              [[WaqiSpec.reading "Delhi, India" 120]] e)
    as [_ [A [_ [_ [B _]]]]].
  - left. reflexivity.
  - split; [exact A|exact B].
Defined.

(** X16. The category of a ranking entry is computed from the truncated
    reading while its index is the rounded reading, so the two can
    disagree: a single station with a usable city name and a reading
    above 50.5 and below 51 is ranked with index 51 and the category
    'Good'. *)
Theorem rankings_category_from_truncation (lower : string -> string)
  (top_n : nat) (name : string) (reading : Q) :
  (1 <= top_n)%nat ->
  name <> "" -> name <> "Unknown" ->
  (50.5 < reading)%Q -> (reading < 51)%Q ->
  exists e,
    Waqi.build_worst_aqi_rankings lower top_n
      [[WaqiSpec.reading name reading]] = [e]
    /\ Waqi.city e = name
    /\ Waqi.aqi e = 51
    /\ Waqi.category e = "Good"
    /\ Utils.category (Utils.category_of_int (Waqi.aqi e)) = "Moderate"
    /\ Waqi.rank e = Some 1%nat.
Proof.
  intros T N1 N2 L H.
  assert (R : Py.round reading = 51).
  { destruct (round_nearest reading) as [R1 R2].
    assert (A : (inject_Z 50 < inject_Z (Py.round reading))%Q)
      by (change (inject_Z 50) with 50%Q; lra).
    assert (B : (inject_Z (Py.round reading) < inject_Z 52)%Q)
      by (change (inject_Z 52) with 52%Q; lra).
    rewrite <- Zlt_Qlt in A, B. lia. }
  assert (I : Py.int reading = 50).
  { assert (A : Py.int reading <= 50)
      by (apply SubIndexFacts.int_le; [lia|];
          change (inject_Z (50 + 1)) with 51%Q; exact H).
    assert (B : ~ Py.int reading <= 49).
    { intros C. apply SubIndexFacts.int_le in C; [|lia].
      change (inject_Z (49 + 1)) with 50%Q in C. lra. }
    lia. }
  assert (P : Qle_bool reading 0 = false).
  { destruct (Qle_bool reading 0) eqn:E; [|reflexivity].
    apply Qle_bool_iff in E. lra. }
  apply String.eqb_neq in N1, N2.
  assert (O : Waqi.observe
                (Waqi.mk_station_data (Py.VNum reading) (Some name) None None)
              = Some (Waqi.mk_observation name
                        (Waqi._extract_country_from_city_name name) 51
                        "Good" "pm2_5" None None None)).
  { unfold Waqi.observe.
    cbn [Waqi.d_aqi Waqi.d_city_name Waqi.d_pm25 Waqi.d_pm10 Py.as_number].
    rewrite P, N1, N2, R, I. reflexivity. }
  unfold Waqi.build_worst_aqi_rankings.
  rewrite (WaqiFacts.scan_single_box lower top_n
             [WaqiSpec.reading name reading] T)
    by (unfold Waqi.max_stations_per_box; cbn; lia).
  unfold WaqiSpec.readings_of, WaqiSpec.reading_of, WaqiSpec.reading.
  cbn [flat_map Waqi.st_lat Waqi.st_lon Waqi.st_feed].
  rewrite O. cbn [app WaqiSpec.dedup_all fold_left].
  unfold Waqi.dedup. cbn [Py.get Py.set Py.values map snd Waqi.sort_desc
                          fold_right Waqi.insert_desc].
  destruct top_n as [|n]; [lia|].
  replace (firstn (S n) [Waqi.mk_observation name
                           (Waqi._extract_country_from_city_name name) 51
                           "Good" "pm2_5" None None None])
    with [Waqi.mk_observation name
            (Waqi._extract_country_from_city_name name) 51
            "Good" "pm2_5" None None None]
    by (cbn [firstn]; now destruct n).
  eexists. split; [reflexivity|].
  cbn. auto.
Qed.

Lemma rankings_category_from_truncation_witness :
  exists e,
    Waqi.build_worst_aqi_rankings Py.lower 30
      [[WaqiSpec.reading "Delhi, India" 50.6]] = [e]
    /\ Waqi.city e = "Delhi, India"
    /\ Waqi.aqi e = 51
    /\ Waqi.category e = "Good"
    /\ Utils.category (Utils.category_of_int (Waqi.aqi e)) = "Moderate"
    /\ Waqi.rank e = Some 1%nat.
Proof.
  apply (rankings_category_from_truncation Py.lower 30 "Delhi, India" 50.6);
    first [lia | discriminate | reflexivity].
Defined.

(** ** The station budget *)

(** X17. The station budget of the scan behind
    [build_worst_aqi_rankings].  The loop over the bounding boxes works
    box by box: the scan of [before], then of [box], then of [after] is
    the scan of the three in a row.  The scan of one box raises the count
    of stations whose feed is requested by at most 30, and by no more
    than the box has stations; the count never exceeds 200 in all. *)
Theorem stations_processed_budget (lower : string -> string)
  (top_n : nat) (before : list (list Waqi.station))
  (box : list Waqi.station) (after : list (list Waqi.station)) :
  let scan := Waqi.scan_boxes lower top_n in
  let reached := scan before ([], O) in
  let left := scan [box] reached in
  let stations_processed := snd (scan (before ++ box :: after)%list ([], O)) in
  scan (before ++ box :: after)%list ([], O) = scan after left
  /\ (snd reached <= snd left)%nat
  /\ (snd left <= snd reached + Waqi.max_stations_per_box)%nat
  /\ (snd left <= snd reached + List.length box)%nat
  /\ (snd left <= stations_processed)%nat
  /\ (stations_processed <= Waqi.max_total_stations)%nat
  /\ (stations_processed
      <= Waqi.max_stations_per_box
         * List.length (before ++ box :: after)%list)%nat.
Proof.
  intros scan reached left stations_processed.
  assert (E : scan (before ++ box :: after)%list ([], O) = scan after left).
  { unfold scan, left, reached.
    rewrite WaqiFacts.scan_boxes_app.
    exact (WaqiFacts.scan_boxes_app lower top_n [box] after _). }
  destruct (BudgetFacts.scan_box_budget lower top_n box reached) as [A B].
  fold scan in A, B. fold left in A, B.
  destruct (BudgetFacts.scan_boxes_budget lower top_n
              (before ++ box :: after)%list [] O) as [_ [C D]].
  fold scan in C, D. fold stations_processed in C, D.
  rewrite Nat.max_0_l in D.
  assert (M : (snd left <= stations_processed)%nat).
  { unfold stations_processed. rewrite E. destruct left as [m n].
    apply (BudgetFacts.scan_boxes_budget lower top_n after m n). }
  repeat split; try assumption; lia.
Qed.

(** ** Country names *)

Module CountryFacts.

Import Py Waqi CountrySpec.

Local Open Scope nat_scope.

Lemma append_assoc (a b c : string) :
  ((a ++ b) ++ c)%string = (a ++ b ++ c)%string.
Proof.
  induction a as [|x a IH]; [reflexivity|]. cbn. now rewrite IH.
Qed.

Lemma append_empty_r (a : string) : (a ++ "")%string = a.
Proof.
  induction a as [|x a IH]; [reflexivity|]. cbn. now rewrite IH.
Qed.

Lemma rev_string_app (s acc : string) :
  rev_string s acc = (rev_string s "" ++ acc)%string.
Proof.
  revert acc. induction s as [|c s IH]; intros acc; [reflexivity|].
  cbn [rev_string]. rewrite (IH (String c acc)), (IH (String c "")).
  now rewrite append_assoc.
Qed.

Lemma has_comma_append (a b : string) :
  has_comma (a ++ b) = has_comma a || has_comma b.
Proof.
  induction a as [|c a IH]; [reflexivity|].
  cbn. now rewrite IH, orb_assoc.
Qed.

Lemma lstrip_step (s : string) :
  lstrip s = match space_prefix s with Some t => lstrip t | None => s end.
Proof.
  destruct s as [|a s1]; [reflexivity|].
  destruct (is_space a) eqn:E1;
    [cbn [space_prefix lstrip]; rewrite E1; reflexivity|].
  destruct s1 as [|b s2];
    [cbn [space_prefix lstrip]; rewrite E1; reflexivity|].
  destruct (is_space2 a b) eqn:E2;
    [cbn [space_prefix lstrip]; rewrite E1, E2; reflexivity|].
  destruct s2 as [|c s3];
    [cbn [space_prefix lstrip]; rewrite E1, E2; reflexivity|].
  destruct (is_space3 a b c) eqn:E3;
    cbn [space_prefix lstrip]; rewrite E1, E2, E3; reflexivity.
Qed.

Lemma space_prefix_complete (w t : string) :
  In w white_space -> space_prefix (w ++ t) = Some t.
Proof.
  intros H. cbv [white_space map] in H.
  repeat (destruct H as [<-|H]; [reflexivity|]). destruct H.
Qed.

Lemma of_code (a : ascii) (n : nat) :
  nat_of_ascii a = n -> a = ascii_of_nat n.
Proof. intros <-. symmetry. apply ascii_nat_embedding. Qed.

Ltac found := cbv [white_space map]; repeat first [left; reflexivity | right].

Lemma space_prefix_sound (s t : string) :
  space_prefix s = Some t -> exists w, In w white_space /\ s = w ++ t.
Proof.
  destruct s as [|a s1]; [discriminate|]. cbn [space_prefix].
  destruct (is_space a) eqn:E1.
  { intros H. injection H as <-. exists (String a ""). split; [|reflexivity].
    unfold is_space in E1. cbv zeta in E1.
    assert (N : (nat_of_ascii a = 9 \/ nat_of_ascii a = 10
                 \/ nat_of_ascii a = 11 \/ nat_of_ascii a = 12
                 \/ nat_of_ascii a = 13 \/ nat_of_ascii a = 28
                 \/ nat_of_ascii a = 29 \/ nat_of_ascii a = 30
                 \/ nat_of_ascii a = 31 \/ nat_of_ascii a = 32)%nat).
    { apply orb_true_iff in E1.
      destruct E1 as [E1|E1]; apply andb_true_iff in E1;
        destruct E1 as [L U]; apply Nat.leb_le in L, U; lia. }
    repeat (destruct N as [N|N]; [apply of_code in N; subst a; found|]).
    apply of_code in N; subst a; found. }
  destruct s1 as [|b s2]; [discriminate|].
  destruct (is_space2 a b) eqn:E2.
  { intros H. injection H as <-. exists (String a (String b "")).
    split; [|reflexivity].
    unfold is_space2 in E2. cbv zeta in E2.
    apply andb_true_iff in E2. destruct E2 as [X Y].
    apply Nat.eqb_eq, of_code in X. subst a.
    apply orb_true_iff in Y.
    destruct Y as [Y|Y]; apply Nat.eqb_eq, of_code in Y; subst b; found. }
  destruct s2 as [|c s3]; [discriminate|].
  destruct (is_space3 a b c) eqn:E3; [|discriminate].
  intros H. injection H as <-. exists (String a (String b (String c ""))).
  split; [|reflexivity].
  unfold is_space3 in E3. cbv zeta in E3.
  repeat first [ rewrite orb_true_iff in E3 | rewrite andb_true_iff in E3
               | rewrite Nat.eqb_eq in E3 | rewrite Nat.leb_le in E3 ].
  assert (N : (nat_of_ascii a = 225 /\ nat_of_ascii b = 154 /\ nat_of_ascii c = 128)
           \/ (nat_of_ascii a = 227 /\ nat_of_ascii b = 128 /\ nat_of_ascii c = 128)
           \/ (nat_of_ascii a = 226 /\ nat_of_ascii b = 129 /\ nat_of_ascii c = 159)
           \/ (nat_of_ascii a = 226 /\ nat_of_ascii b = 128 /\
               (nat_of_ascii c = 128 \/ nat_of_ascii c = 129 \/ nat_of_ascii c = 130
                \/ nat_of_ascii c = 131 \/ nat_of_ascii c = 132 \/ nat_of_ascii c = 133
                \/ nat_of_ascii c = 134 \/ nat_of_ascii c = 135 \/ nat_of_ascii c = 136
                \/ nat_of_ascii c = 137 \/ nat_of_ascii c = 138 \/ nat_of_ascii c = 168
                \/ nat_of_ascii c = 169 \/ nat_of_ascii c = 175))) by lia.
  clear E1 E2 E3.
  destruct N as [[X [Y Z]]|[[X [Y Z]]|[[X [Y Z]]|[X [Y Z]]]]];
    apply of_code in X, Y; subst a b.
  1-3: apply of_code in Z; subst c; found.
  repeat (destruct Z as [Z|Z]; [apply of_code in Z; subst c; found|]).
  apply of_code in Z; subst c; found.
Qed.

Lemma length_append (a b : string) :
  String.length (a ++ b) = (String.length a + String.length b)%nat.
Proof.
  induction a as [|x a IH]; [reflexivity|]. cbn. now rewrite IH.
Qed.

Lemma white_space_nonempty (w : string) :
  In w white_space -> (0 < String.length w)%nat.
Proof.
  intros H. cbv [white_space map] in H.
  repeat (destruct H as [<-|H]; [cbn; lia|]). destruct H.
Qed.

(** [lstrip] removes white space, and all of it, from the start. *)
Lemma lstrip_spec (s : string) :
  exists l, white l /\ s = l ++ lstrip s /\ starts_clean (lstrip s).
Proof.
  remember (String.length s) as n eqn:Hn. revert s Hn.
  induction n as [n IH] using lt_wf_ind. intros s Hn.
  rewrite lstrip_step. destruct (space_prefix s) as [t|] eqn:E.
  - apply space_prefix_sound in E. destruct E as [w [Hw ->]].
    destruct (IH (String.length t)) with (s := t) as [l [Wl [El C]]];
      [|reflexivity|].
    { rewrite Hn, length_append.
      pose proof (white_space_nonempty w Hw). lia. }
    exists (w ++ l). split; [now constructor|]. split; [|exact C].
    rewrite append_assoc. now rewrite <- El.
  - exists "". split; [constructor|]. split; [reflexivity|].
    intros w t Hw ->. rewrite (space_prefix_complete w t Hw) in E.
    discriminate.
Qed.

Lemma lstrip_white (l s : string) : white l -> lstrip (l ++ s) = lstrip s.
Proof.
  induction 1 as [|w l Hw Wl IH]; [reflexivity|].
  rewrite append_assoc, lstrip_step.
  now rewrite (space_prefix_complete w (l ++ s) Hw).
Qed.


Lemma lstrip_of_white (l : string) : white l -> lstrip l = "".
Proof.
  intros W. rewrite <- (append_empty_r l). now rewrite lstrip_white.
Qed.

Lemma lstrip_empty (s : string) : lstrip s = "" -> white s.
Proof.
  intros E. destruct (lstrip_spec s) as [l [W [El _]]].
  rewrite E, append_empty_r in El. now subst.
Qed.

Lemma empty_clean : starts_clean "" /\ ends_clean "".
Proof.
  split; intros w t Hw E; apply white_space_nonempty in Hw;
    apply (f_equal String.length) in E; rewrite length_append in E;
    cbn in E; lia.
Qed.

(** [rstrip] removes white space, and all of it, from the end. *)
Lemma rstrip_spec (s : string) :
  exists r, white r /\ s = rstrip s ++ r /\ ends_clean (rstrip s).
Proof.
  induction s as [|c s IH].
  - exists "". split; [constructor|]. split; [reflexivity|].
    apply empty_clean.
  - cbn [rstrip]. destruct (String.eqb (lstrip (String c s)) "") eqn:E.
    + apply String.eqb_eq in E. exists (String c s).
      split; [now apply lstrip_empty|]. split; [reflexivity|].
      apply empty_clean.
    + apply String.eqb_neq in E. destruct IH as [r [Wr [Er C]]].
      exists r. split; [exact Wr|]. split; [cbn; now rewrite <- Er|].
      intros w t Hw F. destruct t as [|d t].
      * cbn in F. apply E.
        rewrite Er. change (String c (rstrip s ++ r))
          with (String c (rstrip s) ++ r). rewrite F.
        rewrite lstrip_white by (rewrite <- (append_empty_r w);
                                 constructor; [exact Hw|constructor]).
        now apply lstrip_of_white.
      * cbn in F. injection F as _ F. now apply (C w t Hw).
Qed.

Lemma strip_spec (s : string) : stripped s (strip s).
Proof.
  unfold strip.
  destruct (lstrip_spec s) as [l [Wl [El Cs]]].
  destruct (rstrip_spec (lstrip s)) as [r [Wr [Er Ce]]].
  exists l, r. split; [exact Wl|]. split; [exact Wr|].
  split; [now rewrite <- Er|]. split; [|exact Ce].
  intros w t Hw E. apply (Cs w (t ++ r) Hw).
  rewrite Er at 1. rewrite E. apply append_assoc.
Qed.





Lemma strip_of_white (s : string) : white s -> strip s = "".
Proof.
  intros W. unfold strip. now rewrite (lstrip_of_white s W).
Qed.

Lemma white_no_comma (s : string) : white s -> has_comma s = false.
Proof.
  induction 1 as [|w s Hw Ws IH]; [reflexivity|].
  rewrite has_comma_append, IH, orb_false_r.
  cbv [white_space map] in Hw.
  repeat (destruct Hw as [<-|Hw]; [reflexivity|]). destruct Hw.
Qed.

Lemma stripped_no_comma (s t : string) :
  stripped s t -> has_comma s = false -> has_comma t = false.
Proof.
  intros [l [r [_ [_ [-> _]]]]] H.
  rewrite !has_comma_append in H.
  apply orb_false_iff in H. destruct H as [_ H].
  apply orb_false_iff in H. tauto.
Qed.

(** The scan for the last part, on a string without a comma. *)
Lemma last_part_plain (s : string) (seen : bool) (part : string) :
  has_comma s = false ->
  last_part s seen part = (seen, (rev_string part "" ++ s)%string).
Proof.
  revert part. induction s as [|c s IH]; intros part H.
  - cbn. now rewrite append_empty_r.
  - cbn in H. apply orb_false_iff in H. destruct H as [Hc Hs].
    cbn [last_part]. rewrite Hc, (IH _ Hs). cbn [rev_string].
    rewrite (rev_string_app part (String c "")), append_assoc. reflexivity.
Qed.

Lemma last_part_split (a b : string) (seen : bool) (part : string) :
  has_comma b = false ->
  last_part (a ++ String "," b) seen part = (true, b).
Proof.
  revert seen part. induction a as [|c a IH]; intros seen part H.
  - cbn [String.append last_part]. rewrite Ascii.eqb_refl.
    now rewrite (last_part_plain b true "" H).
  - cbn [String.append last_part].
    destruct (Ascii.eqb c ","); apply IH; exact H.
Qed.

End CountryFacts.

(** X18. [_extract_country_from_city_name] gives 'Unknown' for a name
    without a comma, and for a name with a comma the text after the last
    comma with the white space at its two ends removed, Unicode white
    space such as a no-break space included: what is cut off on either
    side is white space only, and what is left holds no comma and neither
    starts nor ends with a white-space character.  When nothing but white
    space follows the last comma the result is the empty string, not
    'Unknown'. *)
Theorem extract_country_spec :
  (forall name,
      CountrySpec.has_comma name = false ->
      Waqi._extract_country_from_city_name name = "Unknown")
  /\ (forall before after,
         CountrySpec.has_comma after = false ->
         let country :=
           Waqi._extract_country_from_city_name
             (before ++ String "," after) in
         country = Py.strip after
         /\ CountrySpec.stripped after country
         /\ CountrySpec.has_comma country = false)
  /\ (forall before after,
         CountrySpec.white after ->
         Waqi._extract_country_from_city_name (before ++ String "," after)
         = "")
  /\ Waqi._extract_country_from_city_name
       ("Paris," ++ CountrySpec.nbsp ++ "France" ++ CountrySpec.nbsp)
     = "France".
Proof.
  split; [|split; [|split; [|reflexivity]]].
  - intros name H. unfold Waqi._extract_country_from_city_name.
    now rewrite (CountryFacts.last_part_plain name false "" H).
  - intros before after H country. subst country.
    unfold Waqi._extract_country_from_city_name.
    rewrite (CountryFacts.last_part_split before after false "" H).
    split; [reflexivity|]. split; [apply CountryFacts.strip_spec|].
    exact (CountryFacts.stripped_no_comma _ _
             (CountryFacts.strip_spec after) H).
  - intros before after W.
    unfold Waqi._extract_country_from_city_name.
    rewrite (CountryFacts.last_part_split before after false ""
               (CountryFacts.white_no_comma after W)).
    now apply CountryFacts.strip_of_white.
Qed.

Lemma extract_country_spec_witness :
  Waqi._extract_country_from_city_name "Beijing" = "Unknown"
  /\ Waqi._extract_country_from_city_name "Shanghai, Pudong,  China "
     = "China"
  /\ Waqi._extract_country_from_city_name
       ("Beijing, " ++ CountrySpec.nbsp) = "".
Proof.
  destruct extract_country_spec as [A [B [C _]]].
  split; [apply A; reflexivity|]. split.
  - exact (proj1 (B "Shanghai, Pudong" "  China " eq_refl)).
  - apply (C "Beijing" (" " ++ CountrySpec.nbsp ++ "")).
    constructor; [cbv; tauto|]. constructor; [cbv; tauto|constructor].
Defined.

(** ** Password reset: storage *)

Module ResetFacts.

Import Accounts.

Lemma save_ids (user : User) (db : list User) :
  map id (save user db) = map id db.
Proof.
  unfold save. rewrite map_map. apply map_ext_in. intros row _.
  destruct (Nat.eqb (id row) (id user)) eqn:E; [|reflexivity].
  apply Nat.eqb_eq in E. now rewrite E.
Qed.

Lemma NoDup_ids (db : list User) : NoDup (map id db) -> NoDup db.
Proof. apply NoDup_map_inv. Qed.

(** Rows of a table are told apart by a unique column. *)
Lemma NoDup_map_inj {A B : Type} (f : A -> B) (l : list A) (x y : A) :
  NoDup (map f l) -> In x l -> In y l -> f x = f y -> x = y.
Proof.
  induction l as [|a l IH]; intros N Hx Hy E; [destruct Hx|].
  cbn in N. inversion N as [|? ? Hnot N']; subst.
  destruct Hx as [->|Hx], Hy as [->|Hy]; auto.
  - exfalso. apply Hnot. rewrite E. now apply in_map.
  - exfalso. apply Hnot. rewrite <- E. now apply in_map.
Qed.

(** The rows of a table after a save. *)
Lemma In_save (user x : User) (db : list User) :
  In x (save user db)
  <-> (x = user /\ exists row, In row db /\ id row = id user)
      \/ (In x db /\ id x <> id user).
Proof.
  unfold save. rewrite in_map_iff. split.
  - intros [row [E Hrow]].
    destruct (Nat.eqb (id row) (id user)) eqn:Ei.
    + apply Nat.eqb_eq in Ei. left. split; [auto|]. exists row. auto.
    + apply Nat.eqb_neq in Ei. right. subst x. auto.
  - intros [[-> [row [Hrow Ei]]]|[Hx Ei]].
    + exists row. split; [|exact Hrow].
      apply Nat.eqb_eq in Ei. now rewrite Ei.
    + exists x. split; [|exact Hx].
      apply Nat.eqb_neq in Ei. now rewrite Ei.
Qed.

(** Saving twice under the same primary key is saving the last. *)
Lemma save_save (a b : User) (db : list User) :
  id a = id b -> save b (save a db) = save b db.
Proof.
  intros E. unfold save. rewrite map_map. apply map_ext. intros row.
  destruct (Nat.eqb (id row) (id a)) eqn:Ea.
  - rewrite E, Nat.eqb_refl.
    rewrite E in Ea. now rewrite Ea.
  - reflexivity.
Qed.

(** A lookup that exactly one row of the table answers. *)
Lemma get_found (matches : User -> bool) (db : list User) (user : User) :
  NoDup db -> In user db -> matches user = true ->
  (forall x, In x db -> matches x = true -> x = user) ->
  objects_get matches db = Found user.
Proof.
  intros N Hin Hm Hu. unfold objects_get.
  assert (F : filter matches db = [user]).
  { induction db as [|row db IH]; [destruct Hin|].
    inversion N as [|? ? Hnot N']; subst. cbn [filter].
    destruct (matches row) eqn:E.
    - assert (row = user) by (apply Hu; [now left|exact E]). subst row.
      f_equal. apply AccountsFacts.filter_none. intros x Hx.
      destruct (matches x) eqn:Ex; [|reflexivity].
      assert (x = user) by (apply Hu; [now right|exact Ex]).
      subst x. contradiction.
    - destruct Hin as [->|Hin]; [congruence|].
      apply IH; auto. intros x Hx. apply Hu. now right. }
  now rewrite F.
Qed.

Lemma get_found_In (matches : User -> bool) (db : list User) (user : User) :
  objects_get matches db = Found user ->
  In user db /\ matches user = true.
Proof.
  unfold objects_get.
  destruct (filter matches db) as [|u [|u' rest]] eqn:F; try discriminate.
  intros H. injection H as ->. apply filter_In. rewrite F. now left.
Qed.

End ResetFacts.

(** X19. A password reset requested and used within the hour works.  In
    a [users] table with unique primary keys and unique emails, after
    [ForgotPasswordView] stored a non-empty token that no other user
    holds for the user with the given email, [ResetPasswordView] with
    that token, at most one hour later, answers 200 and leaves the table
    as it was before the two requests except for that user's row, which
    has the new password hashed and no reset token or expiry. *)
Theorem forgot_then_reset (body : Type)
  (PasswordResetRequestSerializer : body -> option string)
  (PasswordResetSerializer : body -> option (string * string))
  (make_password : string -> string)
  (db : list Accounts.User) (user : Accounts.User)
  (forgot reset : body) (token new_password : string) (now later : Z) :
  NoDup (map Accounts.id db) ->
  NoDup (map Accounts.email db) ->
  In user db ->
  PasswordResetRequestSerializer forgot = Some (Accounts.email user) ->
  PasswordResetSerializer reset = Some (token, new_password) ->
  token <> "" ->
  (forall u, In u db -> Accounts.id u <> Accounts.id user ->
             Accounts.password_reset_token u <> Some token) ->
  now <= later <= now + Accounts.one_hour ->
  let db1 :=
    fst (Accounts.ForgotPasswordView_post body
           PasswordResetRequestSerializer forgot token now db) in
  let changed :=
    Accounts.mk_user (Accounts.id user) (Accounts.email user)
      (make_password new_password) None None in
  Accounts.ResetPasswordView_post body PasswordResetSerializer
    make_password reset later db1
  = (Accounts.save changed db,
     Accounts.mk_response Accounts.HTTP_200_OK false
       "Password successfully reset.")
  /\ In changed (Accounts.save changed db)
  /\ forall u, In u db -> Accounts.id u <> Accounts.id user ->
               In u (Accounts.save changed db).
Proof.
  intros Ni Ne Hin Sf Sr Nt Fresh Time db1 changed.
  pose proof (ResetFacts.NoDup_ids db Ni) as Nd.
  set (issued := Accounts.generate_password_reset_token token now user).
  assert (E1 : db1 = Accounts.save issued db).
  { subst db1. unfold Accounts.ForgotPasswordView_post. rewrite Sf.
    rewrite (ResetFacts.get_found _ db user Nd Hin).
    - reflexivity.
    - unfold Accounts.has_email. apply String.eqb_refl.
    - intros x Hx Ex. unfold Accounts.has_email in Ex.
      apply String.eqb_eq in Ex.
      apply (ResetFacts.NoDup_map_inj Accounts.email db); auto. }
  assert (Ii : In issued db1).
  { rewrite E1. apply ResetFacts.In_save. left. split; [reflexivity|].
    exists user. auto. }
  assert (N1 : NoDup db1).
  { apply ResetFacts.NoDup_ids. rewrite E1, ResetFacts.save_ids. exact Ni. }
  assert (L : Accounts.objects_get (Accounts.has_token token) db1
              = Accounts.Found issued).
  { apply ResetFacts.get_found; auto.
    - unfold Accounts.has_token. cbn. apply String.eqb_refl.
    - intros x Hx Tx. rewrite E1 in Hx. apply ResetFacts.In_save in Hx.
      destruct Hx as [[-> _]|[Hx Hid]]; [reflexivity|].
      exfalso. apply (Fresh x Hx Hid).
      unfold Accounts.has_token in Tx.
      destruct (Accounts.password_reset_token x) as [stored|];
        [|discriminate].
      apply String.eqb_eq in Tx. now subst. }
  assert (V : Accounts.is_password_reset_token_valid token later issued
              = true).
  { apply AccountsFacts.valid_iff. exists (now + Accounts.one_hour).
    repeat split; [exact Nt|apply Time]. }
  split; [|split].
  - unfold Accounts.ResetPasswordView_post. rewrite Sr, L, V. cbn [negb].
    rewrite E1, ResetFacts.save_save by reflexivity. reflexivity.
  - apply ResetFacts.In_save. left. split; [reflexivity|]. exists user. auto.
  - intros u Hu Hid. apply ResetFacts.In_save. right. auto.
Qed.

Lemma forgot_then_reset_witness :
  let alice := Accounts.mk_user 1 "alice@example.org" "old" None None in
  let bob := Accounts.mk_user 2 "bob@example.org" "pw" (Some "t0") (Some 5) in
  let request_serializer := fun request : string * string => Some (fst request) in
  let reset_serializer := fun request : string * string => Some request in
  let hasher := fun raw : string => ("hash:" ++ raw)%string in
  let db1 :=
    fst (Accounts.ForgotPasswordView_post _ request_serializer
           ("alice@example.org", "") "s3cr3t" 1000 [alice; bob]) in
  Accounts.ResetPasswordView_post _ reset_serializer hasher
    ("s3cr3t", "new") 2000 db1
  = ([Accounts.mk_user 1 "alice@example.org" "hash:new" None None; bob],
     Accounts.mk_response 200 false "Password successfully reset.").
Proof.
  intros alice bob request_serializer reset_serializer hasher db1.
  refine (proj1 (forgot_then_reset (string * string) request_serializer
                   reset_serializer hasher [alice; bob] alice
                   ("alice@example.org", "") ("s3cr3t", "new")
                   "s3cr3t" "new" 1000 2000 _ _ _ _ _ _ _ _)).
  - repeat constructor; cbn; intuition discriminate.
  - repeat constructor; cbn; intuition discriminate.
  - now left.
  - reflexivity.
  - reflexivity.
  - discriminate.
  - intros u [<-|[<-|[]]] H; [now contradiction H|discriminate].
  - vm_compute. split; discriminate.
Defined.

(** X20. [ResetPasswordView] changes nothing unless it answers 200, and
    it answers 200 only for a validated request whose token is stored,
    not empty and not expired: then the holder of the token, and in a
    table with unique primary keys no other user, gets the new password
    hashed and loses the token. *)
Theorem reset_needs_valid_token (body : Type)
  (PasswordResetSerializer : body -> option (string * string))
  (make_password : string -> string)
  (request : body) (now : Z) (db : list Accounts.User) :
  let result :=
    Accounts.ResetPasswordView_post body PasswordResetSerializer
      make_password request now db in
  (Accounts.status_code (snd result) <> Accounts.HTTP_200_OK ->
   fst result = db)
  /\ (Accounts.status_code (snd result) = Accounts.HTTP_200_OK ->
      exists token new_password user expires,
        PasswordResetSerializer request = Some (token, new_password)
        /\ In user db
        /\ Accounts.password_reset_token user = Some token
        /\ token <> ""
        /\ Accounts.password_reset_expires user = Some expires
        /\ now <= expires
        /\ fst result
           = Accounts.save
               (Accounts.mk_user (Accounts.id user) (Accounts.email user)
                  (make_password new_password) None None) db
        /\ (NoDup (map Accounts.id db) ->
            forall u, In u db -> u <> user -> In u (fst result))).
Proof.
  intros result. subst result. unfold Accounts.ResetPasswordView_post.
  destruct (PasswordResetSerializer request) as [[token new_password]|];
    [|split; [reflexivity|discriminate]].
  destruct (Accounts.objects_get (Accounts.has_token token) db)
    as [user| |] eqn:L; try (split; [reflexivity|discriminate]).
  destruct (Accounts.is_password_reset_token_valid token now user) eqn:V;
    cbn [negb]; [|split; [reflexivity|discriminate]].
  split; [intros H; exfalso; apply H; reflexivity|]. intros _.
  apply AccountsFacts.valid_iff in V.
  destruct V as [expires [Ht [Nt [He Le]]]].
  destruct (ResetFacts.get_found_In _ _ _ L) as [Hin _].
  exists token, new_password, user, expires. cbn [fst].
  repeat (split; [auto; fail|]).
  intros Ni u Hu Hne. apply ResetFacts.In_save. right.
  split; [exact Hu|]. cbn [Accounts.id]. intros Hid. apply Hne.
  apply (ResetFacts.NoDup_map_inj Accounts.id db); auto.
Qed.

(** ** Email verification *)

Module VerificationFacts.

Import Verification VerificationSpec.

Lemma saved_ids (user : User) (db : list User) :
  map id (save user db) = map id db.
Proof.
  unfold save. rewrite map_map. apply map_ext_in. intros row _.
  destruct (Nat.eqb (id row) (id user)) eqn:E; [|reflexivity].
  apply Nat.eqb_eq in E. now rewrite E.
Qed.

Lemma In_saved (user x : User) (db : list User) :
  In x (save user db)
  <-> (x = user /\ exists row, In row db /\ id row = id user)
      \/ (In x db /\ id x <> id user).
Proof.
  unfold save. rewrite in_map_iff. split.
  - intros [row [E Hrow]].
    destruct (Nat.eqb (id row) (id user)) eqn:Ei.
    + apply Nat.eqb_eq in Ei. left. split; [auto|]. exists row. auto.
    + apply Nat.eqb_neq in Ei. right. subst x. auto.
  - intros [[-> [row [Hrow Ei]]]|[Hx Ei]].
    + exists row. split; [|exact Hrow].
      apply Nat.eqb_eq in Ei. now rewrite Ei.
    + exists x. split; [|exact Hx].
      apply Nat.eqb_neq in Ei. now rewrite Ei.
Qed.

Lemma saved_twice (a b : User) (db : list User) :
  id a = id b -> save b (save a db) = save b db.
Proof.
  intros E. unfold save. rewrite map_map. apply map_ext. intros row.
  destruct (Nat.eqb (id row) (id a)) eqn:Ea.
  - rewrite E, Nat.eqb_refl. rewrite E in Ea. now rewrite Ea.
  - reflexivity.
Qed.

Lemma lookup_found (matches : User -> bool) (db : list User) (user : User) :
  NoDup db -> In user db -> matches user = true ->
  (forall x, In x db -> matches x = true -> x = user) ->
  objects_get matches db = Found user.
Proof.
  intros N Hin Hm Hu. unfold objects_get.
  assert (F : filter matches db = [user]).
  { induction db as [|row db IH]; [destruct Hin|].
    inversion N as [|? ? Hnot N']; subst. cbn [filter].
    destruct (matches row) eqn:E.
    - assert (row = user) by (apply Hu; [now left|exact E]). subst row.
      f_equal. apply AccountsFacts.filter_none. intros x Hx.
      destruct (matches x) eqn:Ex; [|reflexivity].
      assert (x = user) by (apply Hu; [now right|exact Ex]).
      subst x. contradiction.
    - destruct Hin as [->|Hin]; [congruence|].
      apply IH; auto. intros x Hx. apply Hu. now right. }
  now rewrite F.
Qed.

Lemma lookup_found_In (matches : User -> bool) (db : list User) (user : User) :
  objects_get matches db = Found user ->
  In user db /\ matches user = true
  /\ forall x, In x db -> matches x = true -> x = user.
Proof.
  unfold objects_get.
  destruct (filter matches db) as [|u [|u' rest]] eqn:F; try discriminate.
  intros H. injection H as ->.
  assert (I : forall x, In x db /\ matches x = true <-> In x [user])
    by (intros x; rewrite <- F; symmetry; apply filter_In).
  split; [apply I; now left|]. split; [apply I; now left|].
  intros x Hx Mx. destruct (proj1 (I x) (conj Hx Mx)) as [E|[]]. now symmetry.
Qed.

Lemma lookup_none (matches : User -> bool) (db : list User) :
  (forall x, In x db -> matches x = false) ->
  objects_get matches db = DoesNotExist.
Proof.
  intros H. unfold objects_get. now rewrite AccountsFacts.filter_none.
Qed.

(** What [VerifyEmailView] does to the table. *)
Lemma verify_effect (query_token data_token : option string)
  (db : list User) :
  let result := VerifyEmailView_post query_token data_token db in
  (fst result = db
   /\ Accounts.detail (snd result) <> "Email successfully verified.")
  \/ (exists token user,
         or_else query_token data_token = Some token
         /\ token <> ""
         /\ objects_get (has_token token) db = Found user
         /\ is_verified user = false
         /\ result
            = (save (mk_user (id user) (email user) true None None) db,
               Accounts.mk_response Accounts.HTTP_200_OK false
                 "Email successfully verified.")).
Proof.
  intros result. subst result. unfold VerifyEmailView_post.
  destruct (or_else query_token data_token) as [token|];
    [|left; split; [reflexivity|discriminate]].
  destruct (String.eqb token "") eqn:E;
    [left; split; [reflexivity|discriminate]|].
  apply String.eqb_neq in E.
  destruct (objects_get (has_token token) db) as [user| |] eqn:L;
    try (left; split; [reflexivity|discriminate]).
  destruct (is_verified user) eqn:V;
    [left; split; [reflexivity|discriminate]|].
  right. exists token, user. auto.
Qed.

End VerificationFacts.

(** X21. A verification link works once.  In a [users] table with unique
    primary keys and emails, after [ResendVerificationView] stored a
    non-empty token that no other user holds for an unverified user,
    [VerifyEmailView] with that token answers 200 and leaves the table as
    it was before the two requests except for that user's row, which is
    verified and has no token; the same request again is answered with
    400 'Invalid verification token.' and changes nothing. *)
Theorem resend_then_verify (db : list Verification.User)
  (user : Verification.User) (token : string) (now : Z)
  (data_token : option string) :
  NoDup (map Verification.id db) ->
  NoDup (map Verification.email db) ->
  In user db ->
  Verification.email user <> "" ->
  Verification.is_verified user = false ->
  token <> "" ->
  (forall u, In u db -> Verification.id u <> Verification.id user ->
             Verification.verification_token u <> Some token) ->
  let db1 :=
    fst (Verification.ResendVerificationView_post
           (Some (Verification.email user)) token now db) in
  let verified :=
    Verification.mk_user (Verification.id user) (Verification.email user)
      true None None in
  let db2 := Verification.save verified db in
  Verification.VerifyEmailView_post (Some token) data_token db1
  = (db2,
     Accounts.mk_response Accounts.HTTP_200_OK false
       "Email successfully verified.")
  /\ Verification.VerifyEmailView_post (Some token) data_token db2
     = (db2,
        Accounts.mk_response Accounts.HTTP_400_BAD_REQUEST true
          "Invalid verification token.")
  /\ In verified db2
  /\ forall u, In u db -> Verification.id u <> Verification.id user ->
               In u db2.
Proof.
  intros Ni Ne Hin Nm Hv Nt Fresh db1 verified db2.
  pose proof (NoDup_map_inv _ _ Ni) as Nd.
  set (issued := Verification.generate_verification_token token now user).
  assert (E1 : db1 = Verification.save issued db).
  { subst db1. unfold Verification.ResendVerificationView_post.
    apply String.eqb_neq in Nm. rewrite Nm.
    rewrite (VerificationFacts.lookup_found _ db user Nd Hin).
    - now rewrite Hv.
    - unfold Verification.has_email. apply String.eqb_refl.
    - intros x Hx Ex. unfold Verification.has_email in Ex.
      apply String.eqb_eq in Ex.
      apply (ResetFacts.NoDup_map_inj Verification.email db); auto. }
  assert (N1 : NoDup db1).
  { apply (NoDup_map_inv Verification.id).
    rewrite E1, VerificationFacts.saved_ids. exact Ni. }
  assert (L : Verification.objects_get (Verification.has_token token) db1
              = Verification.Found issued).
  { apply VerificationFacts.lookup_found; auto.
    - rewrite E1. apply VerificationFacts.In_saved. left.
      split; [reflexivity|]. exists user. auto.
    - unfold Verification.has_token. cbn. apply String.eqb_refl.
    - intros x Hx Tx. rewrite E1 in Hx.
      apply VerificationFacts.In_saved in Hx.
      destruct Hx as [[-> _]|[Hx Hid]]; [reflexivity|].
      exfalso. apply (Fresh x Hx Hid).
      unfold Verification.has_token in Tx.
      destruct (Verification.verification_token x) as [stored|];
        [|discriminate].
      apply String.eqb_eq in Tx. now subst. }
  assert (T : String.eqb token "" = false) by now apply String.eqb_neq.
  split; [|split; [|split]].
  - unfold Verification.VerifyEmailView_post, Verification.or_else.
    rewrite T. cbv beta iota zeta. rewrite T, L. subst issued.
    cbn [Verification.is_verified Verification.generate_verification_token].
    rewrite Hv. cbn [Verification.id Verification.email].
    rewrite E1, VerificationFacts.saved_twice by reflexivity. reflexivity.
  - unfold Verification.VerifyEmailView_post, Verification.or_else.
    rewrite T. cbv beta iota zeta. rewrite T.
    rewrite VerificationFacts.lookup_none; [reflexivity|].
    intros x Hx. apply VerificationFacts.In_saved in Hx.
    destruct Hx as [[-> _]|[Hx Hid]]; [reflexivity|].
    unfold Verification.has_token.
    destruct (Verification.verification_token x) as [stored|] eqn:Es;
      [|reflexivity].
    apply String.eqb_neq. intros ->. exact (Fresh x Hx Hid Es).
  - apply VerificationFacts.In_saved. left. split; [reflexivity|].
    exists user. auto.
  - intros u Hu Hid. apply VerificationFacts.In_saved. right. auto.
Qed.

Lemma resend_then_verify_witness :
  let alice := Verification.mk_user 1 "alice@example.org" false None None in
  let root := Verification.mk_user 2 "root@example.org" true None None in
  let db1 :=
    fst (Verification.ResendVerificationView_post
           (Some "alice@example.org") "t0k3n" 1000 [alice; root]) in
  let db2 :=
    [Verification.mk_user 1 "alice@example.org" true None None; root] in
  Verification.VerifyEmailView_post (Some "t0k3n") None db1
  = (db2, Accounts.mk_response 200 false "Email successfully verified.")
  /\ Verification.VerifyEmailView_post (Some "t0k3n") None db2
     = (db2, Accounts.mk_response 400 true "Invalid verification token.").
Proof.
  intros alice root db1 db2.
  destruct (resend_then_verify [alice; root] alice "t0k3n" 1000 None)
    as [A [B _]].
  - repeat constructor; cbn; intuition discriminate.
  - repeat constructor; cbn; intuition discriminate.
  - now left.
  - discriminate.
  - reflexivity.
  - discriminate.
  - intros u [<-|[<-|[]]] H; [now contradiction H|discriminate].
  - split; [exact A|exact B].
Defined.

(** X22. Both verification views keep the table consistent (a verified
    user holds no verification token), and on a consistent table
    [VerifyEmailView] never answers 'Email is already verified.': a
    token that is found belongs to an unverified user.  The view changes
    the table only when it answers 'Email successfully verified.', and
    then only by verifying the one holder of the token. *)
Theorem already_verified_unreachable (db : list Verification.User) :
  VerificationSpec.consistent db ->
  (forall query_token data_token,
      let result :=
        Verification.VerifyEmailView_post query_token data_token db in
      VerificationSpec.consistent (fst result)
      /\ Accounts.detail (snd result) <> "Email is already verified."
      /\ (Accounts.detail (snd result) <> "Email successfully verified." ->
          fst result = db))
  /\ (forall address token now,
         VerificationSpec.consistent
           (fst (Verification.ResendVerificationView_post address token
                   now db))).
Proof.
  intros C. split.
  - intros query_token data_token result.
    destruct (VerificationFacts.verify_effect query_token data_token db)
      as [[E D]|[token [user [Et [Nt [L [V E]]]]]]]; fold result in E.
    + fold result in D. rewrite E. split; [exact C|]. split; [|auto].
      subst result. unfold Verification.VerifyEmailView_post.
      destruct (Verification.or_else query_token data_token) as [token|];
        [|discriminate].
      destruct (String.eqb token ""); [discriminate|].
      destruct (Verification.objects_get (Verification.has_token token) db)
        as [user| |] eqn:L; try discriminate.
      destruct (VerificationFacts.lookup_found_In _ _ _ L) as [Hin [Ht _]].
      destruct (Verification.is_verified user) eqn:V; [|discriminate].
      unfold Verification.has_token in Ht.
      rewrite (C user Hin V) in Ht. discriminate.
    + rewrite E. cbn [fst snd Accounts.detail].
      split; [|split; [discriminate|intros H; now contradiction H]].
      intros u Hu Vu. apply VerificationFacts.In_saved in Hu.
      destruct Hu as [[-> _]|[Hu _]]; [reflexivity|exact (C u Hu Vu)].
  - intros address token now.
    unfold Verification.ResendVerificationView_post.
    destruct address as [address|]; [|exact C].
    destruct (String.eqb address ""); [exact C|].
    destruct (Verification.objects_get (Verification.has_email address) db)
      as [user| |]; try exact C.
    destruct (Verification.is_verified user) eqn:V; [exact C|].
    cbn [fst]. intros u Hu Vu. apply VerificationFacts.In_saved in Hu.
    destruct Hu as [[-> _]|[Hu _]]; [|exact (C u Hu Vu)].
    cbn in Vu. congruence.
Qed.

Lemma already_verified_unreachable_witness :
  let alice :=
    Verification.mk_user 1 "alice@example.org" false (Some "t0k3n")
      (Some 1000) in
  let root := Verification.mk_user 2 "root@example.org" true None None in
  Accounts.detail
    (snd (Verification.VerifyEmailView_post (Some "t0k3n") None
            [alice; root]))
  <> "Email is already verified.".
Proof.
  intros alice root.
  assert (C : VerificationSpec.consistent [alice; root]).
  { intros u [<-|[<-|[]]]; [discriminate|reflexivity]. }
  exact (proj1 (proj2 (proj1 (already_verified_unreachable [alice; root] C)
                         (Some "t0k3n") None))).
Defined.

(** X23. [ResendVerificationView] tells whether an email is registered.
    Over a table with unique emails, a request for the email of an
    unverified user is answered 'Verification email sent.', one for the
    email of a verified user 'Email is already verified.', and one for an
    email of nobody 'If the email exists, a verification email has been
    sent.': the answer to a registered email differs from the answer to
    an unregistered one, all with status 200. *)
Theorem resend_reveals_registration (db : list Verification.User)
  (user : Verification.User) (unknown : string)
  (token token' : string) (now now' : Z) :
  NoDup (map Verification.email db) ->
  In user db ->
  Verification.email user <> "" ->
  unknown <> "" ->
  (forall u, In u db -> Verification.email u <> unknown) ->
  let known_response :=
    snd (Verification.ResendVerificationView_post
           (Some (Verification.email user)) token now db) in
  let unknown_response :=
    snd (Verification.ResendVerificationView_post (Some unknown) token'
           now' db) in
  known_response
  = Accounts.mk_response Accounts.HTTP_200_OK false
      (if Verification.is_verified user then "Email is already verified."
       else "Verification email sent.")
  /\ unknown_response
     = Accounts.mk_response Accounts.HTTP_200_OK false
         "If the email exists, a verification email has been sent."
  /\ known_response <> unknown_response.
Proof.
  intros Ne Hin Nm Nu Hnone known_response unknown_response.
  assert (K : known_response
              = Accounts.mk_response Accounts.HTTP_200_OK false
                  (if Verification.is_verified user
                   then "Email is already verified."
                   else "Verification email sent.")).
  { subst known_response.
    unfold Verification.ResendVerificationView_post.
    apply String.eqb_neq in Nm. rewrite Nm.
    assert (F : filter (Verification.has_email (Verification.email user)) db
                = [user]).
    { clear Hnone. induction db as [|row db IH]; [destruct Hin|].
      cbn in Ne. inversion Ne as [|? ? Hnot Ne']; subst. cbn [filter].
      unfold Verification.has_email at 1.
      destruct Hin as [->|Hin].
      - rewrite String.eqb_refl. f_equal.
        apply AccountsFacts.filter_none. intros x Hx.
        unfold Verification.has_email. apply String.eqb_neq.
        intros Ex. apply Hnot. rewrite <- Ex. now apply in_map.
      - destruct (String.eqb (Verification.email row)
                    (Verification.email user)) eqn:Er; [|now apply IH].
        apply String.eqb_eq in Er. exfalso. apply Hnot. rewrite Er.
        now apply in_map. }
    unfold Verification.objects_get. rewrite F.
    now destruct (Verification.is_verified user). }
  assert (U : unknown_response
              = Accounts.mk_response Accounts.HTTP_200_OK false
                  "If the email exists, a verification email has been sent.").
  { subst unknown_response.
    unfold Verification.ResendVerificationView_post.
    apply String.eqb_neq in Nu. rewrite Nu.
    rewrite VerificationFacts.lookup_none; [reflexivity|].
    intros x Hx. unfold Verification.has_email. apply String.eqb_neq.
    now apply Hnone. }
  split; [exact K|]. split; [exact U|].
  rewrite K, U. now destruct (Verification.is_verified user).
Qed.

Lemma resend_reveals_registration_witness :
  let alice := Verification.mk_user 1 "alice@example.org" false None None in
  snd (Verification.ResendVerificationView_post (Some "alice@example.org")
         "t1" 10 [alice])
  <> snd (Verification.ResendVerificationView_post (Some "bob@example.org")
            "t2" 20 [alice]).
Proof.
  intros alice.
  refine (proj2 (proj2 (resend_reveals_registration [alice] alice
                          "bob@example.org" "t1" "t2" 10 20 _ _ _ _ _))).
  - repeat constructor. intros [].
  - now left.
  - discriminate.
  - discriminate.
  - intros u [<-|[]]. discriminate.
Defined.

(** X24. [fetch_weather_data] asks the weather provider only for
    coordinates in range: for a latitude outside [-90, 90], or a longitude
    outside [-180, 180], it returns [None] whatever the provider would
    answer, and for a coordinate that is not a number it raises.  When it
    returns a weather block, the coordinates were in range and the
    provider answered with a non-empty object whose 'current' entry (or
    its default, the empty object) is an object; the three readings are
    taken from it and are [None] where it lacks them, so an answer
    without 'current' gives a block of three [None]s. *)
Theorem fetch_weather_data_guard
  (W : Py.value -> Py.value -> Py.value -> option (Py.dict Py.value))
  (latitude longitude timezone : Py.value) :
  (forall lat,
      Py.as_number latitude = Some lat -> (lat < -90 \/ 90 < lat)%Q ->
      forall W', Services.fetch_weather_data W' latitude longitude timezone
                 = Py.Return None)
  /\ (forall lat lon,
         Py.as_number latitude = Some lat ->
         Py.as_number longitude = Some lon ->
         (lon < -180 \/ 180 < lon)%Q ->
         forall W', Services.fetch_weather_data W' latitude longitude timezone
                    = Py.Return None)
  /\ (Py.as_number latitude = None ->
      Services.fetch_weather_data W latitude longitude timezone = Py.Raised)
  /\ (forall w,
         Services.fetch_weather_data W latitude longitude timezone
         = Py.Return (Some w) ->
         exists lat lon data current,
           Py.as_number latitude = Some lat
           /\ Py.as_number longitude = Some lon
           /\ (-90 <= lat /\ lat <= 90)%Q
           /\ (-180 <= lon /\ lon <= 180)%Q
           /\ W latitude longitude timezone = Some data
           /\ data <> []
           /\ Py.get_or "current" (Py.VDict []) data = Py.VDict current
           /\ w = Services.mk_weather
                    (Py.get_or "temperature_2m" Py.VNone current)
                    (Py.get_or "relative_humidity_2m" Py.VNone current)
                    (Py.get_or "wind_speed_10m" Py.VNone current))
  /\ (forall lat lon data,
         Py.as_number latitude = Some lat ->
         Py.as_number longitude = Some lon ->
         (-90 <= lat /\ lat <= 90)%Q ->
         (-180 <= lon /\ lon <= 180)%Q ->
         W latitude longitude timezone = Some data ->
         data <> [] ->
         Py.get "current" data = None ->
         Services.fetch_weather_data W latitude longitude timezone
         = Py.Return (Some (Services.mk_weather Py.VNone Py.VNone Py.VNone))).
Proof.
  assert (B : forall lo hi x,
             Qle_bool lo x && Qle_bool x hi = true <-> (lo <= x /\ x <= hi)%Q).
  { intros lo hi x. rewrite andb_true_iff, !Qle_bool_iff. tauto. }
  unfold Services.fetch_weather_data, Services.between.
  split; [|split; [|split; [|split]]].
  - intros lat El Out W'. rewrite El. cbn [Py.of_option Py.bind].
    destruct (Qle_bool (-90) lat && Qle_bool lat 90) eqn:E; [|reflexivity].
    apply B in E. lra.
  - intros lat lon El Eo Out W'. rewrite El, Eo. cbn [Py.of_option Py.bind].
    destruct (Qle_bool (-90) lat && Qle_bool lat 90); [|reflexivity].
    cbn [negb].
    destruct (Qle_bool (-180) lon && Qle_bool lon 180) eqn:E; [|reflexivity].
    apply B in E. lra.
  - intros El. now rewrite El.
  - intros w.
    destruct (Py.as_number latitude) as [lat|]; [|discriminate].
    cbn [Py.of_option Py.bind].
    destruct (Qle_bool (-90) lat && Qle_bool lat 90) eqn:E1;
      [|discriminate].
    cbn [negb].
    destruct (Py.as_number longitude) as [lon|]; [|discriminate].
    cbn [Py.of_option Py.bind].
    destruct (Qle_bool (-180) lon && Qle_bool lon 180) eqn:E2;
      [|discriminate].
    cbn [negb].
    destruct (W latitude longitude timezone) as [data|]; [|discriminate].
    destruct data as [|entry data]; [discriminate|].
    cbn [Py.truthy List.length Nat.eqb negb].
    destruct (Py.get_or "current" (Py.VDict []) (entry :: data))
      as [| | | | |current] eqn:Ec; try discriminate.
    intros H. injection H as <-.
    exists lat, lon, (entry :: data), current.
    apply B in E1, E2. repeat split; try tauto; discriminate.
  - intros lat lon data El Eo Rl Ro Ew Ne Ec.
    rewrite El, Eo, Ew. cbn [Py.of_option Py.bind].
    apply B in Rl, Ro. rewrite Rl, Ro. cbn [negb].
    destruct data as [|entry data]; [contradiction|].
    cbn [Py.truthy List.length Nat.eqb negb].
    unfold Py.get_or at 1. rewrite Ec. reflexivity.
Qed.

Lemma fetch_weather_data_guard_witness :
  let W := fun _ _ _ : Py.value =>
             Some [("current", Py.VDict [("temperature_2m", Py.VNum 21)])] in
  Services.fetch_weather_data W (Py.VNum 91) (Py.VNum 0) (Py.VStr "auto")
  = Py.Return None
  /\ Services.fetch_weather_data W (Py.VNum 31.5) (Py.VNum 74.3)
       (Py.VStr "auto")
     = Py.Return (Some (Services.mk_weather (Py.VNum 21) Py.VNone Py.VNone)).
Proof.
  intros W.
  destruct (fetch_weather_data_guard W (Py.VNum 91) (Py.VNum 0)
              (Py.VStr "auto")) as [A _].
  split; [|reflexivity].
  apply (A 91%Q eq_refl). right. reflexivity.
Defined.

(** ** Dominant pollutant of a formatted response *)

Module DominantFacts.

Import Py Services FormatSpec.

Lemma set_absent {V : Type} (k : string) (v : V) (d : dict V) :
  ~ In k (keys d) -> Py.set k v d = (d ++ [(k, v)])%list.
Proof.
  induction d as [|[k' v'] d IH]; intros H; [reflexivity|].
  cbn [Py.set]. destruct (String.eqb k k') eqn:E.
  - apply String.eqb_eq in E. subst. exfalso. apply H. now left.
  - cbn. rewrite IH; [reflexivity|]. intros Hin. apply H. now right.
Qed.

Lemma entries_In (considered : list (string * string)) (c : current_block)
  (k : string) (a : option Z) :
  In (k, a) (entries considered c)
  <-> exists table,
        In (k, table) considered
        /\ is_none (reading k c) = false
        /\ Utils.calculate_epa_aqi_value table (reading k c) = Return a.
Proof.
  unfold entries. rewrite in_flat_map. split.
  - intros [[key table] [Hin H]].
    destruct (is_none (reading key c)) eqn:I; [destruct H|].
    destruct (Utils.calculate_epa_aqi_value table (reading key c))
      as [a'|] eqn:C; [|destruct H].
    destruct H as [H|[]]. injection H as -> ->. exists table. auto.
  - intros [table [Hin [I C]]]. exists (k, table). split; [exact Hin|].
    rewrite I, C. now left.
Qed.

Lemma entries_keys (considered : list (string * string)) (c : current_block)
  (k : string) :
  In k (keys (entries considered c)) -> In k (map fst considered).
Proof.
  unfold keys. intros H. apply in_map_iff in H.
  destruct H as [[k' a] [<- H]]. apply entries_In in H.
  destruct H as [table [H _]]. apply in_map_iff. now exists (k', table).
Qed.

Lemma entries_NoDup (considered : list (string * string))
  (c : current_block) :
  NoDup (map fst considered) -> NoDup (keys (entries considered c)).
Proof.
  induction considered as [|[key table] considered IH]; intros N;
    [constructor|].
  cbn in N. inversion N as [|? ? Hnot N']; subst.
  change (entries ((key, table) :: considered) c)
    with ((if is_none (reading key c) then []
           else
             match Utils.calculate_epa_aqi_value table (reading key c) with
             | Return a => [(key, a)]
             | Raised => []
             end) ++ entries considered c)%list.
  destruct (is_none (reading key c)); [now apply IH|].
  destruct (Utils.calculate_epa_aqi_value table (reading key c));
    [|now apply IH].
  cbn. constructor; [|now apply IH].
  intros Hin. apply Hnot. eapply entries_keys; eauto.
Qed.

(** One [if v is not None: pollutant_aqis[key] = ...] step. *)
Lemma entries_step (c : current_block) (considered : list (string * string))
  (d d' : dict (option Z)) (key table : string) (v : value) :
  d = entries considered c ->
  ~ In key (map fst considered) ->
  reading key c = v ->
  add_pollutant key table v d = Return d' ->
  d' = entries (considered ++ [(key, table)]) c.
Proof.
  intros -> N <-.
  assert (E : entries (considered ++ [(key, table)]) c
              = (entries considered c
                 ++ (if is_none (reading key c) then []
                     else
                       match Utils.calculate_epa_aqi_value table
                               (reading key c) with
                       | Return a => [(key, a)]
                       | Raised => []
                       end))%list).
  { unfold entries. rewrite flat_map_app. cbn [flat_map].
    now rewrite app_nil_r. }
  rewrite E. unfold add_pollutant.
  destruct (is_none (reading key c)).
  - intros H. injection H as <-. now rewrite app_nil_r.
  - destruct (Utils.calculate_epa_aqi_value table (reading key c))
      as [a|]; [|discriminate].
    cbn [Py.bind]. intros H. injection H as <-.
    apply set_absent. intros Hin. apply N. eapply entries_keys; eauto.
Qed.

(** *** The largest present value and the first key that has it *)

Lemma max_present_from (vs : list (option Z)) (acc : option Z) :
  let m :=
    fold_left
      (fun acc v =>
         match v, acc with
         | Some z, Some m => Some (if m <? z then z else m)
         | Some z, None => Some z
         | None, _ => acc
         end)
      vs acc in
  match m with
  | Some m =>
      (acc = Some m \/ In (Some m) vs)
      /\ (forall z, acc = Some z -> z <= m)
      /\ (forall z, In (Some z) vs -> z <= m)
  | None => acc = None /\ forall z, ~ In (Some z) vs
  end.
Proof.
  revert acc. induction vs as [|v vs IH]; intros acc.
  - cbn. destruct acc as [m|].
    + split; [now left|]. split; [|intros z []].
      intros z E. injection E as ->. lia.
    + split; [reflexivity|]. intros z [].
  - cbn [fold_left].
    destruct v as [z|].
    + destruct acc as [m0|].
      * specialize (IH (Some (if m0 <? z then z else m0))).
        cbn zeta in IH.
        destruct (fold_left _ vs (Some (if m0 <? z then z else m0)))
          as [m|].
        -- destruct IH as [A [B C]]. specialize (B _ eq_refl).
           split; [|split].
           ++ destruct A as [A|A]; [|right; now right].
              injection A as A. destruct (Z.ltb_spec m0 z).
              ** right. left. now subst.
              ** left. now subst.
           ++ intros z' E. injection E as <-.
              destruct (Z.ltb_spec m0 z); lia.
           ++ intros z' [E|Hin]; [|now apply C].
              injection E as <-. destruct (Z.ltb_spec m0 z); lia.
        -- destruct IH as [A _]. discriminate.
      * specialize (IH (Some z)). cbn zeta in IH.
        destruct (fold_left _ vs (Some z)) as [m|].
        -- destruct IH as [A [B C]]. specialize (B _ eq_refl).
           split; [|split].
           ++ right. destruct A as [A|A]; [left; exact A|now right].
           ++ discriminate.
           ++ intros z' [E|Hin]; [|now apply C]. injection E as <-. lia.
        -- destruct IH as [A _]. discriminate.
    + specialize (IH acc). cbn zeta in IH.
      destruct (fold_left _ vs acc) as [m|].
      * destruct IH as [A [B C]]. split; [|split; [exact B|]].
        -- destruct A as [A|A]; [now left|right; now right].
        -- intros z [E|Hin]; [discriminate|now apply C].
      * destruct IH as [A B]. split; [exact A|].
        intros z [E|Hin]; [discriminate|now apply (B z)].
Qed.

Lemma first_key_with_spec (m : Z) (d : dict (option Z)) :
  match first_key_with m d with
  | Some k => In (k, Some m) d
  | None => forall k, ~ In (k, Some m) d
  end.
Proof.
  induction d as [|[k [z|]] d IH]; cbn [first_key_with].
  - intros k [].
  - destruct (Z.eqb_spec z m) as [->|Ne]; [now left|].
    destruct (first_key_with m d) as [k'|].
    + now right.
    + intros k0 [E|Hin]; [injection E as _ E; contradiction|].
      now apply (IH k0).
  - destruct (first_key_with m d) as [k'|].
    + now right.
    + intros k0 [E|Hin]; [discriminate|]. now apply (IH k0).
Qed.

(** The dominant pollutant of a dict of sub-indices none of which is
    negative. *)
Lemma dominant_of_spec (d : dict (option Z)) :
  (forall k a, In (k, Some a) d -> 0 <= a) ->
  match dominant_of d with
  | Some k =>
      exists m, In (k, Some m) d /\ 0 < m
                /\ forall k' m', In (k', Some m') d -> m' <= m
  | None => forall k' m', In (k', Some m') d -> m' = 0
  end.
Proof.
  intros P. unfold dominant_of.
  destruct d as [|e d']; [intros k' m' []|].
  set (d := e :: d') in *. clearbody d.
  pose proof (max_present_from (values d) None) as M. cbn zeta in M.
  fold (max_present (values d)) in M.
  assert (V : forall z, In (Some z) (values d) <-> exists k, In (k, Some z) d).
  { intros z. unfold values. rewrite in_map_iff. split.
    - intros [[k v] [E Hin]]. cbn in E. subst v. now exists k.
    - intros [k Hin]. now exists (k, Some z). }
  destruct (max_present (values d)) as [m|].
  - destruct M as [A [_ C]]. destruct A as [A|A]; [discriminate|].
    apply V in A. destruct A as [k0 Hk0].
    destruct (Z.eqb_spec m 0) as [->|Ne].
    + intros k' m' Hin. pose proof (P k' m' Hin).
      assert (m' <= 0) by (apply C, V; now exists k'). lia.
    + pose proof (first_key_with_spec m d) as F.
      destruct (first_key_with m d) as [k|].
      * exists m. split; [exact F|]. pose proof (P k0 m Hk0).
        split; [lia|]. intros k' m' Hin. apply C, V. now exists k'.
      * exfalso. exact (F k0 Hk0).
  - destruct M as [_ N]. intros k' m' Hin. exfalso.
    apply (N m'), V. now exists k'.
Qed.

End DominantFacts.

(** X25. The dominant pollutant of a formatted response.  When the
    index is the provider's US AQI, the dominant pollutant named by
    [_format_current_response] is one of the six pollutants whose reading
    is present, has a positive EPA sub-index, and no other of them has a
    higher one; none is named when none of them has a non-zero
    sub-index.  The same holds with a European AQI for the five
    pollutants other than carbon monoxide.  When the index is calculated
    from PM2.5 or PM10 that pollutant is named, whatever its sub-index;
    with no index source, none is named and the index is [None]. *)
Theorem format_dominant_pollutant
  (W : Py.value -> Py.value -> Py.value -> option (Py.dict Py.value))
  (G : Py.value -> Py.value -> option (Py.value * Py.value))
  (data latitude longitude : Py.value) (r : Services.formatted) :
  Services._format_current_response W G data latitude longitude
  = Py.Return r ->
  (Services.f_aqi_source r = Some "us_aqi" ->
   Services.f_aqi r = Services.f_us_aqi r
   /\ FormatSpec.dominant_among FormatSpec.considered_us r)
  /\ (Services.f_aqi_source r = Some "european_aqi" ->
      Services.f_aqi r = Services.f_european_aqi r
      /\ FormatSpec.dominant_among FormatSpec.considered_european r)
  /\ (Services.f_aqi_source r = Some "calculated_pm25" ->
      Services.f_dominant_pollutant r = Some "pm2_5")
  /\ (Services.f_aqi_source r = Some "calculated_pm10" ->
      Services.f_dominant_pollutant r = Some "pm10")
  /\ (Services.f_aqi_source r = None ->
      Services.f_dominant_pollutant r = None
      /\ Services.f_aqi r = Py.VNone).
Proof.
  unfold Services._format_current_response.
  destruct data as [| | | | |d]; try discriminate.
  destruct (Py.get_or "current" (Py.VDict []) d)
    as [| | | | |current]; try discriminate.
  match goal with
  | |- (Py.bind ?m _) = _ -> _ =>
      destruct m as [[[a dp] src]|] eqn:Ch
  end; [|discriminate].
  cbn [Py.bind].
  destruct (Services.fetch_weather_data W latitude longitude _);
    [|discriminate].
  cbn [Py.bind]. intros H. injection H as <-.
  cbn [Services.f_aqi_source Services.f_aqi Services.f_us_aqi
       Services.f_european_aqi Services.f_dominant_pollutant].
  unfold FormatSpec.dominant_among.
  cbn [Services.f_dominant_pollutant Services.f_current].
  set (c := Services.mk_current _ _ _ _ _ _ _ _ _).
  assert (Sub : forall considered,
             NoDup (map fst considered) ->
             match Services.dominant_of (FormatSpec.entries considered c) with
             | Some key =>
                 exists table m,
                   In (key, table) considered
                   /\ FormatSpec.sub_index key table c = Some m
                   /\ 0 < m
                   /\ forall key' table' m',
                        In (key', table') considered ->
                        FormatSpec.sub_index key' table' c = Some m' ->
                        m' <= m
             | None =>
                 forall key' table' m',
                   In (key', table') considered ->
                   FormatSpec.sub_index key' table' c = Some m' -> m' = 0
             end).
  { intros considered N.
    assert (I : forall k t m,
               In (k, t) considered ->
               FormatSpec.sub_index k t c = Some m ->
               In (k, Some m) (FormatSpec.entries considered c)).
    { intros k t m Hin S. apply DominantFacts.entries_In. exists t.
      unfold FormatSpec.sub_index in S.
      destruct (Py.is_none (FormatSpec.reading k c)); [discriminate|].
      destruct (Utils.calculate_epa_aqi_value t (FormatSpec.reading k c))
        as [x|]; [|discriminate].
      subst x. auto. }
    assert (P : forall k x,
               In (k, Some x) (FormatSpec.entries considered c) -> 0 <= x).
    { intros k x Hin. apply DominantFacts.entries_In in Hin.
      destruct Hin as [t [_ [_ C]]].
      unfold Utils.calculate_epa_aqi_value in C.
      destruct (Py.as_number (FormatSpec.reading k c)) as [q|];
        [|discriminate].
      cbn in C. injection C as C.
      exact (proj1 (proj1 (sub_index_range _ _ _ C))). }
    pose proof (DominantFacts.dominant_of_spec
                  (FormatSpec.entries considered c) P) as D.
    destruct (Services.dominant_of (FormatSpec.entries considered c))
      as [key|].
    - destruct D as [m [Hin [Pos Max]]].
      apply DominantFacts.entries_In in Hin.
      destruct Hin as [table [Hin [Hn Hc]]].
      exists table, m. split; [exact Hin|]. split.
      { unfold FormatSpec.sub_index. now rewrite Hn, Hc. }
      split; [exact Pos|].
      intros k' t' m' Hin' S'. apply (Max k'). now apply (I k' t').
    - intros k' t' m' Hin' S'. apply (D k'). now apply (I k' t'). }
  revert Ch.
  destruct (Py.is_none (Py.get_or "us_aqi" Py.VNone current)) eqn:Us;
    cbn [negb].
  2:{ (* the provider gave a US AQI *)
      repeat match goal with
             | |- (Py.bind ?m _) = _ -> _ =>
                 let E := fresh "E" in
                 destruct m eqn:E; [cbn [Py.bind]|discriminate]
             end.
      intros H. injection H as <- <- <-.
      split; [|repeat split; discriminate].
      intros _. split; [reflexivity|].
      match goal with
      | |- context [Services.dominant_of ?a6] =>
          replace a6 with (FormatSpec.entries FormatSpec.considered_us c)
      end.
      - apply Sub. repeat constructor; cbn; intuition discriminate.
      - symmetry.
        repeat match goal with
               | H : Services.add_pollutant ?k ?t ?v ?d = Py.Return ?d' |- _ =>
                   first
                     [ apply (DominantFacts.entries_step c [] d d' k t v
                                eq_refl) in H;
                       [|cbn; intuition discriminate|reflexivity]
                     | match goal with
                       | H0 : d = FormatSpec.entries ?cs c |- _ =>
                           apply (DominantFacts.entries_step c cs d d' k t v
                                    H0) in H;
                           [|cbn; intuition discriminate|reflexivity]
                       end ]
               end.
        assumption. }
  destruct (Py.is_none (Py.get_or "european_aqi" Py.VNone current)) eqn:Eu;
    cbn [negb].
  2:{ repeat match goal with
             | |- (Py.bind ?m _) = _ -> _ =>
                 let E := fresh "E" in
                 destruct m eqn:E; [cbn [Py.bind]|discriminate]
             end.
      intros H. injection H as <- <- <-.
      split; [discriminate|]. split; [|repeat split; discriminate].
      intros _. split; [reflexivity|].
      match goal with
      | |- context [Services.dominant_of ?a5] =>
          replace a5
            with (FormatSpec.entries FormatSpec.considered_european c)
      end.
      - apply Sub. repeat constructor; cbn; intuition discriminate.
      - symmetry.
        repeat match goal with
               | H : Services.add_pollutant ?k ?t ?v ?d = Py.Return ?d' |- _ =>
                   first
                     [ apply (DominantFacts.entries_step c [] d d' k t v
                                eq_refl) in H;
                       [|cbn; intuition discriminate|reflexivity]
                     | match goal with
                       | H0 : d = FormatSpec.entries ?cs c |- _ =>
                           apply (DominantFacts.entries_step c cs d d' k t v
                                    H0) in H;
                           [|cbn; intuition discriminate|reflexivity]
                       end ]
               end.
        assumption. }
  destruct (Py.is_none (Py.get_or "pm2_5" Py.VNone current)); cbn [negb].
  2:{ destruct (Utils.calculate_epa_aqi_value "pm25" _); [|discriminate].
      cbn [Py.bind]. intros H. injection H as <- <- <-.
      repeat split; try discriminate. }
  destruct (Py.is_none (Py.get_or "pm10" Py.VNone current)); cbn [negb].
  2:{ destruct (Utils.calculate_epa_aqi_value "pm10" _); [|discriminate].
      cbn [Py.bind]. intros H. injection H as <- <- <-.
      repeat split; try discriminate. }
  intros H. injection H as <- <- <-.
  repeat split; discriminate.
Qed.

Lemma format_dominant_pollutant_witness :
  let W := fun _ _ _ : Py.value => @None (Py.dict Py.value) in
  let G := fun _ _ : Py.value => @None (Py.value * Py.value) in
  let data :=
    Py.VDict [("current",
               Py.VDict [("us_aqi", Py.VNum 155); ("pm2_5", Py.VNum 12);
                         ("pm10", Py.VNum 260)])] in
  exists r,
    Services._format_current_response W G data (Py.VNum 1) (Py.VNum 2)
    = Py.Return r
    /\ Services.f_dominant_pollutant r = Some "pm10"
    /\ FormatSpec.dominant_among FormatSpec.considered_us r.
Proof.
  intros W G data. eexists. split; [reflexivity|]. split; [reflexivity|].
  exact (proj2 (proj1 (format_dominant_pollutant W G data (Py.VNum 1)
                         (Py.VNum 2) _ eq_refl) eq_refl)).
Defined.

(** ** A response without a dominant pollutant *)

Module UndeterminedFacts.

Import Py Tasks.

Section OneSubscription.

Variable W : value -> value -> value -> option (dict value).
Variable G : value -> value -> option (value * value).

(** The sweep over a single active subscription of an active user whose
    coordinate is answered with an index of at least 100, with its
    summary. *)
Lemma sweep_single_summary (today : Z) (s : CitySubscription)
  (responses : list value) (aqi_data : Services.formatted) (a : Q)
  (w : world) :
  sub_is_active s = true ->
  user_is_active (sub_user s) = true ->
  Services.fetch_batch_current_aqi W G
    [Services.mk_loc (round4 (sub_latitude s)) (round4 (sub_longitude s))]
    responses (VStr "auto") = [aqi_data] ->
  Services.f_aqi aqi_data = VNum a ->
  (AQI_THRESHOLD <= a)%Q ->
  check_and_send_aqi_alerts W G today [s] responses w
  = (fst (process_pair today a aqi_data (sub_user s, s) (w, (O, O))),
     mk_summary Success
       (fst (snd (process_pair today a aqi_data (sub_user s, s)
                    (w, (O, O)))))
       (snd (snd (process_pair today a aqi_data (sub_user s, s)
                    (w, (O, O)))))).
Proof.
  intros Ha Hu Hf Hv Hq. unfold check_and_send_aqi_alerts.
  cbn [filter]. rewrite Ha.
  unfold group_subscriptions. cbn [fold_left]. rewrite Hu.
  cbn [negb append_to_group map fst]. rewrite Hf.
  cbn [process_groups process_group location_aqi_map_get].
  rewrite SweepFacts.coordinate_eqb_refl, Hv. cbn [is_none as_number].
  destruct (Qlt_le_dec a AQI_THRESHOLD) as [L|L]; [lra|].
  cbn [fold_left].
  now destruct (process_pair today a aqi_data (sub_user s, s) (w, (O, O)))
    as [w' [sent errors]].
Qed.

End OneSubscription.

(** A pair whose data names no dominant pollutant: building the email
    raises, nothing is sent or written, and an error is counted unless
    the pair had been notified today. *)
Lemma process_pair_undetermined (today : Z) (a : Q)
  (aqi_data : Services.formatted) (user : User)
  (subscription : CitySubscription) (w : world) (sent errors : nat) :
  Services.f_dominant_pollutant aqi_data = None ->
  let l := fst (get_or_create user subscription w) in
  let w1 := snd (get_or_create user subscription w) in
  process_pair today a aqi_data (user, subscription) (w, (sent, errors))
  = (w1, (sent, if notified user l today w then errors else S errors)).
Proof.
  intros D l w1. unfold process_pair. subst l w1.
  pose proof (SweepFacts.get_or_create_keeps user subscription w) as K.
  destruct (get_or_create user subscription w) as [l w1].
  cbn [fst snd] in *. destruct K as [Kn _].
  assert (N : notified user l today w1 = notified user l today w)
    by (unfold notified; now rewrite Kn).
  rewrite N. destruct (notified user l today w); [reflexivity|].
  unfold send_aqi_alert_email. now rewrite D.
Qed.

End UndeterminedFacts.

(** X26. No alert is sent for a location whose response names no
    dominant pollutant, however high its index: building the email raises
    on the missing name.  For a single active subscription of an active
    user whose coordinate is answered with an index of at least 100 and no
    dominant pollutant, the sweep sends no email and writes no
    notification row, reports 'success' with 0 notifications, and counts
    one error unless the pair had already been notified today. *)
Theorem sweep_needs_dominant_pollutant
  (W : Py.value -> Py.value -> Py.value -> option (Py.dict Py.value))
  (G : Py.value -> Py.value -> option (Py.value * Py.value))
  (today : Z) (s : Tasks.CitySubscription) (responses : list Py.value)
  (aqi_data : Services.formatted) (a : Q) (w : Tasks.world) :
  Tasks.sub_is_active s = true ->
  Tasks.user_is_active (Tasks.sub_user s) = true ->
  Services.fetch_batch_current_aqi W G
    [Services.mk_loc (Tasks.round4 (Tasks.sub_latitude s))
       (Tasks.round4 (Tasks.sub_longitude s))]
    responses (Py.VStr "auto") = [aqi_data] ->
  Services.f_aqi aqi_data = Py.VNum a ->
  (Tasks.AQI_THRESHOLD <= a)%Q ->
  Services.f_dominant_pollutant aqi_data = None ->
  let result :=
    Tasks.check_and_send_aqi_alerts W G today [s] responses w in
  let l := fst (Tasks.get_or_create (Tasks.sub_user s) s w) in
  Tasks.outbox (fst result) = Tasks.outbox w
  /\ Tasks.notifications (fst result) = Tasks.notifications w
  /\ Tasks.transport (fst result) = Tasks.transport w
  /\ snd result
     = Tasks.mk_summary Tasks.Success 0
         (if Tasks.notified (Tasks.sub_user s) l today w then 0 else 1).
Proof.
  intros Ha Hu Hf Hv Hq Hd result l. subst result.
  rewrite (UndeterminedFacts.sweep_single_summary W G today s responses
             aqi_data a w Ha Hu Hf Hv Hq).
  rewrite (UndeterminedFacts.process_pair_undetermined today a aqi_data
             (Tasks.sub_user s) s w O O Hd).
  cbn [fst snd]. fold l.
  destruct (SweepFacts.get_or_create_keeps (Tasks.sub_user s) s w)
    as [Kn [Ko Kt]].
  repeat split; assumption.
Qed.

Lemma sweep_needs_dominant_pollutant_witness :
  let nobody := fun _ _ => @None (Py.value * Py.value) in
  let no_weather := fun _ _ _ => @None (Py.dict Py.value) in
  let alice := Tasks.mk_user 7 "alice@example.org" true in
  let s := Tasks.mk_subscription alice "Delhi" "India" 28.6139 77.209 true in
  let answer :=
    Py.VDict [ ("latitude", Py.VNum 28.6139);
               ("longitude", Py.VNum 77.209);
               ("current", Py.VDict [ ("us_aqi", Py.VNum 155) ]) ] in
  let w := Tasks.mk_world [] [] [] [true] in
  let result :=
    Tasks.check_and_send_aqi_alerts no_weather nobody 100 [s] [answer] w in
  Tasks.outbox (fst result) = []
  /\ Tasks.notifications (fst result) = []
  /\ Tasks.transport (fst result) = [true]
  /\ snd result = Tasks.mk_summary Tasks.Success 0 1.
Proof.
  intros nobody no_weather alice s answer w result.
  eapply (sweep_needs_dominant_pollutant no_weather nobody 100 s [answer]
            _ 155%Q w).
  all: try reflexivity.
  all: vm_compute; discriminate.
Defined.

(** ** Daily aggregates *)

Module DailyFacts.

Import Py Daily DailySpec.

Lemma valid_In (chunk : list (option Q)) (x : Q) :
  In x (valid chunk) <-> In (Some x) chunk.
Proof.
  induction chunk as [|[v|] chunk IH]; cbn; [tauto| |].
  - rewrite IH. split; intros [H|H]; auto; left; congruence.
  - rewrite IH. split; [auto|]. intros [H|H]; [discriminate|exact H].
Qed.

Lemma max_of_spec (first : Q) (rest : list Q) :
  In (max_of first rest) (first :: rest)
  /\ forall x, In x (first :: rest) -> (x <= max_of first rest)%Q.
Proof.
  unfold max_of. revert first.
  induction rest as [|y rest IH]; intros first.
  - cbn. split; [now left|]. intros x [<-|[]]. lra.
  - cbn [fold_left].
    destruct (Qlt_le_dec first y) as [L|L].
    + destruct (IH y) as [A B]. split.
      * right. exact A.
      * intros x [<-|Hx]; [|now apply B].
        specialize (B y (or_introl eq_refl)). lra.
    + destruct (IH first) as [A B]. split.
      * destruct A as [A|A]; [now left|right; now right].
      * intros x [<-|[<-|Hx]].
        -- apply B. now left.
        -- specialize (B first (or_introl eq_refl)). lra.
        -- apply B. now right.
Qed.

(** The value of a day is the largest reading present in its hours. *)
Lemma day_value_spec (vals : list (option Q)) (d : nat) :
  match day_value vals d with
  | Some m => largest_of (window vals d) m
  | None => forall x, ~ In (Some x) (window vals d)
  end.
Proof.
  unfold day_value, largest_of.
  destruct (valid (window vals d)) as [|first rest] eqn:V.
  - intros x Hx. apply valid_In in Hx. rewrite V in Hx. destruct Hx.
  - destruct (max_of_spec first rest) as [A B]. rewrite <- V in A, B.
    split; [now apply valid_In|].
    intros x Hx. apply B. now apply valid_In.
Qed.

(** One pollutant's step appends the day's entry to that pollutant's
    list and leaves the other lists alone. *)
Lemma pollutant_step_get (h : hourly) (d : nat)
  (agg : dict (list (option Q))) (p q : string) :
  Py.get q (pollutant_step h d agg p)
  = if String.eqb q p then
      match Py.get p agg with
      | Some l => Some (l ++ day_entry (series_of p h) d)%list
      | None => None
      end
    else Py.get q agg.
Proof.
  unfold pollutant_step, day_entry, day_value, window.
  set (vals := series_of p h).
  assert (E : negb (Nat.eqb (List.length vals) 0)
              && (d * 24 <? List.length vals)%nat
              = (d * 24 <? List.length vals)%nat).
  { destruct (Nat.ltb_spec (d * 24) (List.length vals)) as [L|L];
      [|apply andb_false_r].
    destruct (List.length vals); [lia|reflexivity]. }
  rewrite E.
  destruct (String.eqb_spec q p) as [->|Ne].
  - destruct (d * 24 <? List.length vals)%nat.
    + destruct (valid (slice vals (d * 24) (d * 24 + 24)))
        as [|first rest];
        unfold append; destruct (Py.get p agg) as [series|] eqn:G;
        rewrite ?WaqiFacts.get_set_same, ?G; reflexivity.
    + destruct (Py.get p agg); [now rewrite app_nil_r|reflexivity].
  - destruct (d * 24 <? List.length vals)%nat; [|reflexivity].
    destruct (valid (slice vals (d * 24) (d * 24 + 24)))
      as [|first rest];
      unfold append; destruct (Py.get p agg) as [series|];
      rewrite ?WaqiFacts.get_set_other by exact Ne; reflexivity.
Qed.

Lemma pollutants_step_get (h : hourly) (d : nat) (ps : list string)
  (agg : dict (list (option Q))) (q : string) :
  NoDup ps ->
  Py.get q (fold_left (pollutant_step h d) ps agg)
  = if in_dec string_dec q ps then
      match Py.get q agg with
      | Some l => Some (l ++ day_entry (series_of q h) d)%list
      | None => None
      end
    else Py.get q agg.
Proof.
  revert agg. induction ps as [|p ps IH]; intros agg N; [reflexivity|].
  inversion N as [|? ? Hnot N']; subst.
  cbn [fold_left]. rewrite (IH _ N'), pollutant_step_get.
  destruct (in_dec string_dec q ps) as [I|I];
    destruct (in_dec string_dec q (p :: ps)) as [J|J].
  - destruct (String.eqb_spec q p) as [->|Ne]; [contradiction|reflexivity].
  - exfalso. apply J. now right.
  - destruct J as [<-|J]; [|contradiction].
    now rewrite String.eqb_refl.
  - destruct (String.eqb_spec q p) as [->|Ne]; [|reflexivity].
    exfalso. apply J. now left.
Qed.

(** The aggregates after the first [n] days. *)
Lemma days_spec (h : hourly) (n : nat) :
  (n * 24 <= List.length (h_time h))%nat ->
  let agg :=
    fold_left (day_step h (List.length (h_time h))) (seq 0 n)
      (mk_daily [] (map (fun p => (p, [])) pollutants)) in
  d_time agg = map (fun d => nth (d * 24 + 12) (h_time h) VNone) (seq 0 n)
  /\ forall p, In p pollutants ->
       Py.get p (d_series agg)
       = Some (flat_map (day_entry (series_of p h)) (seq 0 n)).
Proof.
  induction n as [|n IH]; intros L.
  - cbn [seq fold_left map flat_map d_time d_series]. split; [reflexivity|].
    intros p Hp. unfold pollutants in *. cbn in Hp.
    repeat (destruct Hp as [<-|Hp]; [reflexivity|]). destruct Hp.
  - rewrite seq_S, fold_left_app. cbn [fold_left Nat.add].
    destruct IH as [T S]; [lia|].
    set (agg := fold_left (day_step h (List.length (h_time h))) (seq 0 n) _)
      in *.
    unfold day_step. cbn [d_time d_series]. split.
    + replace (n * 24 <? List.length (h_time h))%nat with true
        by (symmetry; apply Nat.ltb_lt; lia).
      replace (n * 24 + 12 <? List.length (h_time h))%nat with true
        by (symmetry; apply Nat.ltb_lt; lia).
      now rewrite T, map_app.
    + intros p Hp. rewrite pollutants_step_get.
      * destruct (in_dec string_dec p pollutants) as [_|N];
          [|contradiction].
        rewrite (S p Hp), flat_map_app. cbn [flat_map].
        now rewrite app_nil_r.
      * unfold pollutants. repeat constructor; cbn; intuition discriminate.
Qed.

(** The entries of a series: one per day the series reaches into. *)
Lemma entries_spec (vals : list (option Q)) (n : nat) :
  flat_map (day_entry vals) (seq 0 n)
  = map (day_value vals)
      (seq 0 (Nat.min n ((List.length vals + 23) / 24))).
Proof.
  induction n as [|n IH]; [reflexivity|].
  rewrite seq_S, flat_map_app, IH. cbn [flat_map Nat.add].
  rewrite app_nil_r. unfold day_entry.
  pose proof (Nat.div_mod_eq (List.length vals + 23) 24) as D.
  pose proof (Nat.mod_upper_bound (List.length vals + 23) 24 ltac:(lia)) as B.
  set (k := ((List.length vals + 23) / 24)%nat) in *.
  destruct (Nat.ltb_spec (n * 24) (List.length vals)) as [L|L].
  - assert (n < k)%nat by lia.
    rewrite (Nat.min_l n k), (Nat.min_l (S n) k) by lia.
    now rewrite seq_S, map_app.
  - assert (k <= n)%nat by lia.
    rewrite (Nat.min_r n k), (Nat.min_r (S n) k) by lia.
    now rewrite app_nil_r.
Qed.

End DailyFacts.

(** X27. The daily aggregates of [_enhance_with_aqi_calculations].  With
    [count] hourly time stamps there are [count // 24] days, and the time
    of day [d] is the stamp of its 13th hour.  For every pollutant the
    daily list has one entry for each of these days that its hourly
    series reaches into (so a series shorter than the time axis gives a
    shorter list), and the entry of day [d] is the largest reading
    present among the hours [24 d .. 24 d + 23] of the series, or [None]
    when all of them are missing. *)
Theorem daily_agg_spec (h : Daily.hourly) :
  let count := List.length (Daily.h_time h) in
  let days := (count / 24)%nat in
  let agg := Daily.daily_agg h in
  Daily.d_time agg
  = map (fun d => nth (d * 24 + 12) (Daily.h_time h) Py.VNone) (seq 0 days)
  /\ forall p, In p Daily.pollutants ->
       let vals := Daily.series_of p h in
       exists l,
         Py.get p (Daily.d_series agg) = Some l
         /\ List.length l
            = Nat.min days ((List.length vals + 23) / 24)
         /\ forall d, (d < List.length l)%nat ->
              match nth_error l d with
              | Some (Some m) =>
                  DailySpec.largest_of (DailySpec.window vals d) m
              | Some None =>
                  forall x, ~ In (Some x) (DailySpec.window vals d)
              | None => False
              end.
Proof.
  intros count days agg.
  assert (E : agg
              = fold_left (Daily.day_step h count) (seq 0 days)
                  (Daily.mk_daily []
                     (map (fun p => (p, [])) Daily.pollutants))).
  { subst agg. unfold Daily.daily_agg. fold count.
    destruct (Nat.leb_spec 24 count) as [L|L]; [reflexivity|].
    subst days. rewrite (Nat.div_small count 24) by lia. reflexivity. }
  destruct (DailyFacts.days_spec h days) as [T S].
  { subst days. fold count.
    pose proof (Nat.div_mod_eq count 24). lia. }
  fold count in T, S. rewrite <- E in T, S.
  split; [exact T|].
  intros p Hp vals. rewrite (S p Hp). fold vals.
  rewrite DailyFacts.entries_spec.
  set (k := Nat.min days ((List.length vals + 23) / 24)).
  eexists. split; [reflexivity|].
  split; [now rewrite length_map, length_seq|].
  intros d Hd. rewrite length_map, length_seq in Hd.
  rewrite nth_error_map, nth_error_seq.
  replace (d <? k)%nat with true by (symmetry; now apply Nat.ltb_lt).
  cbn [option_map Nat.add].
  exact (DailyFacts.day_value_spec vals d).
Qed.

(** ** Indoor index: the scale *)

Module IndoorScaleFacts.

Import Indoor IndoorScaleSpec.

Lemma co_index_scale (x : Q) :
  In (co_index x) steps /\ (co_index x = 400 <-> (100 < x)%Q).
Proof.
  unfold co_index, steps. IndoorFacts.thresholds; cbn.
  all: split; [tauto|]; split; intros C;
    first [discriminate C | reflexivity | lra | (exfalso; lra)].
Qed.

Lemma co2_index_scale (x : Q) :
  In (co2_index x) steps /\ co2_index x <= 300.
Proof.
  unfold co2_index, steps. IndoorFacts.thresholds; cbn; split; (tauto || lia).
Qed.

Lemma ch4_index_scale (x : Q) :
  In (ch4_index x) steps /\ ch4_index x <= 300.
Proof.
  unfold ch4_index, steps. IndoorFacts.thresholds; cbn; split; (tauto || lia).
Qed.

End IndoorScaleFacts.

(** ** Indoor index: unchecked readings *)

Module SensorsFacts.

Import Sensors IndoorScaleSpec SensorsSpec.

Lemma report_indoor (co co2 ch4 : option Q) :
  report (option_map Indoor.co_index co) (option_map Indoor.co2_index co2)
    (option_map Indoor.ch4_index ch4)
  = Indoor.calculate_indoor_aqi co co2 ch4.
Proof. destruct co, co2, ch4; reflexivity. Qed.

Lemma co_index_finite (q : Q) : co_index (Finite q) = Indoor.co_index q.
Proof. reflexivity. Qed.

Lemma co2_index_finite (q : Q) : co2_index (Finite q) = Indoor.co2_index q.
Proof. reflexivity. Qed.

Lemma ch4_index_finite (q : Q) : ch4_index (Finite q) = Indoor.ch4_index q.
Proof. reflexivity. Qed.

Lemma co_index_steps (x : number) :
  In (co_index x) steps /\ (co_index x = 400 <-> beyond_100 x).
Proof.
  destruct x as [q| | |].
  - rewrite co_index_finite. apply IndoorScaleFacts.co_index_scale.
  - cbn. tauto.
  - cbn. split; [tauto|]. split; [discriminate|tauto].
  - cbn. tauto.
Qed.

Lemma co2_index_steps (x : number) :
  In (co2_index x) steps /\ co2_index x <= 300.
Proof.
  destruct x as [q| | |].
  - rewrite co2_index_finite. apply IndoorScaleFacts.co2_index_scale.
  - cbn. split; [tauto|lia].
  - cbn. split; [tauto|lia].
  - cbn. split; [tauto|lia].
Qed.

Lemma ch4_index_steps (x : number) :
  In (ch4_index x) steps /\ ch4_index x <= 300.
Proof.
  destruct x as [q| | |].
  - rewrite ch4_index_finite. apply IndoorScaleFacts.ch4_index_scale.
  - cbn. split; [tauto|lia].
  - cbn. split; [tauto|lia].
  - cbn. split; [tauto|lia].
Qed.

(** The report, from the sub-indices. *)
Lemma report_spec (co co2 ch4 : option Z) :
  let r := report co co2 ch4 in
  (Indoor.aqi r = None <-> co = None /\ co2 = None /\ ch4 = None)
  /\ (Indoor.aqi r = None -> r = Indoor.mk_indoor None None None None)
  /\ forall m, Indoor.aqi r = Some m ->
       (forall i, co = Some i -> i <= m)
       /\ (forall i, co2 = Some i -> i <= m)
       /\ (forall i, ch4 = Some i -> i <= m)
       /\ ((Indoor.dominant_pollutant r = Some "CO" /\ co = Some m)
           \/ (Indoor.dominant_pollutant r = Some "CO₂" /\ co2 = Some m
               /\ forall i, co = Some i -> i < m)
           \/ (Indoor.dominant_pollutant r = Some "CH₄" /\ ch4 = Some m
               /\ (forall i, co = Some i -> i < m)
               /\ forall i, co2 = Some i -> i < m))
       /\ Indoor.category r
          = Some (Utils.category (Utils.category_of_int m)).
Proof.
  assert (I : forall m, Utils.get_aqi_category (Py.VNum (inject_Z m))
                        = Utils.category_of_int m).
  { intros m. unfold Utils.get_aqi_category. cbn [Py.as_number].
    now rewrite SubIndexFacts.int_of_integer. }
  destruct co as [a|], co2 as [b|], ch4 as [c|];
    unfold report;
    cbn [Py.set String.eqb Ascii.eqb Bool.eqb Indoor.max_key fst snd];
    repeat match goal with
           | |- context [?a <? ?b] =>
               let E := fresh "E" in
               destruct (Z.ltb_spec a b) as [E|E]
           end;
    cbn [Indoor.max_key fst snd]; rewrite ?I; cbn;
    (split;
     [split; [intros H; first [discriminate H | auto]
             |intros [? [? ?]]; first [discriminate | reflexivity]]|]);
    (split; [intros H; first [discriminate H | reflexivity]|]);
    intros m H; first [discriminate H | injection H as <-];
    (split; [intros x Hx; first [discriminate Hx | injection Hx as <-; lia]|]);
    (split; [intros x Hx; first [discriminate Hx | injection Hx as <-; lia]|]);
    (split; [intros x Hx; first [discriminate Hx | injection Hx as <-; lia]|]);
    (split; [|reflexivity]);
    first
      [ left; split; reflexivity
      | right; left; split; [reflexivity|];
        split; [reflexivity|];
        intros x Hx; first [discriminate Hx | injection Hx as <-; lia]
      | right; right; split; [reflexivity|];
        split; [reflexivity|];
        split; intros x Hx;
        first [discriminate Hx | injection Hx as <-; lia] ].
Qed.

Lemma sub_index_cases (index : number -> Z) (r : reading) :
  (r = Other /\ sub_index index r = Py.Raised)
  \/ (r = Absent /\ sub_index index r = Py.Return None)
  \/ (exists x, r = Number x /\ sub_index index r = Py.Return (Some (index x))).
Proof. destruct r as [|x|]; cbn; eauto. Qed.

End SensorsFacts.

(** X28. [calculate_indoor_aqi] on the readings the MQTT listener passes
    on unchecked.  It raises exactly when a reading is neither absent nor
    a number.  Otherwise the index is one of the nine values 25, 50, 75,
    100, 125, 150, 200, 300 and 400, and only carbon monoxide reaches
    'Hazardous': the category is 'Hazardous' exactly when a CO reading is
    present that is not at most 100, which is a reading above 100 ppm, an
    infinite one, or NaN (every comparison with NaN is false, so it falls
    through to the last branch); then the index is 400 and the dominant
    pollutant is CO, whatever the CO2 and CH4 readings are.  On readings
    that are absent or finite the result is the one of the function on
    optional floats. *)
Theorem indoor_hazardous_only_from_co
  (co_ppm co2_ppm ch4_ppm : Sensors.reading) :
  let result := Sensors.calculate_indoor_aqi co_ppm co2_ppm ch4_ppm in
  (result = Py.Raised
   <-> co_ppm = Sensors.Other \/ co2_ppm = Sensors.Other
       \/ ch4_ppm = Sensors.Other)
  /\ (forall r, result = Py.Return r ->
        (forall m, Indoor.aqi r = Some m -> In m IndoorScaleSpec.steps)
        /\ (Indoor.category r = Some "Hazardous"
            <-> exists x, co_ppm = Sensors.Number x
                          /\ SensorsSpec.beyond_100 x)
        /\ (Indoor.category r = Some "Hazardous" ->
            Indoor.aqi r = Some 400
            /\ Indoor.dominant_pollutant r = Some "CO"))
  /\ (forall co co2 ch4 : option Q,
        Sensors.calculate_indoor_aqi (Sensors.of_float co)
          (Sensors.of_float co2) (Sensors.of_float ch4)
        = Py.Return (Indoor.calculate_indoor_aqi co co2 ch4))
  /\ Sensors.calculate_indoor_aqi (Sensors.Number Sensors.NaN)
       (Sensors.Number (Sensors.Finite 450)) Sensors.Absent
     = Py.Return (Indoor.mk_indoor (Some 400) (Some "Hazardous")
                    (Some "#7E0023") (Some "CO")).
Proof.
  intros result. split; [|split; [|split; [|reflexivity]]].
  - unfold result, Sensors.calculate_indoor_aqi.
    destruct co_ppm, co2_ppm, ch4_ppm; cbn; split;
      first [ discriminate
            | intros [H|[H|H]]; discriminate H
            | reflexivity
            | tauto
            | idtac ].
  - intros r Hr. unfold result, Sensors.calculate_indoor_aqi in Hr.
    destruct (SensorsFacts.sub_index_cases Sensors.co_index co_ppm)
      as [[_ E1]|E1]; [rewrite E1 in Hr; discriminate|].
    destruct (SensorsFacts.sub_index_cases Sensors.co2_index co2_ppm)
      as [[_ E2]|E2];
      [destruct E1 as [[_ E1]|[x [_ E1]]]; rewrite E1, E2 in Hr;
       discriminate|].
    destruct (SensorsFacts.sub_index_cases Sensors.ch4_index ch4_ppm)
      as [[_ E3]|E3];
      [destruct E1 as [[_ E1]|[x [_ E1]]];
       destruct E2 as [[_ E2]|[y [_ E2]]]; rewrite E1, E2, E3 in Hr;
       discriminate|].
    set (co := match co_ppm with
               | Sensors.Number x => Some (Sensors.co_index x)
               | _ => None
               end).
    set (co2 := match co2_ppm with
                | Sensors.Number x => Some (Sensors.co2_index x)
                | _ => None
                end).
    set (ch4 := match ch4_ppm with
                | Sensors.Number x => Some (Sensors.ch4_index x)
                | _ => None
                end).
    assert (R : r = Sensors.report co co2 ch4).
    { destruct E1 as [[-> E1]|[x [-> E1]]];
        destruct E2 as [[-> E2]|[y [-> E2]]];
        destruct E3 as [[-> E3]|[z [-> E3]]];
        cbn in Hr; injection Hr as <-; reflexivity. }
    assert (C1 : forall i, co = Some i ->
                   exists x, co_ppm = Sensors.Number x
                             /\ i = Sensors.co_index x).
    { intros i. unfold co. destruct co_ppm as [|x|]; try discriminate.
      intros H. injection H as <-. eauto. }
    assert (C2 : forall i, co2 = Some i ->
                   In i IndoorScaleSpec.steps /\ i <= 300).
    { intros i. unfold co2. destruct co2_ppm as [|x|]; try discriminate.
      intros H. injection H as <-. apply SensorsFacts.co2_index_steps. }
    assert (C3 : forall i, ch4 = Some i ->
                   In i IndoorScaleSpec.steps /\ i <= 300).
    { intros i. unfold ch4. destruct ch4_ppm as [|x|]; try discriminate.
      intros H. injection H as <-. apply SensorsFacts.ch4_index_steps. }
    assert (C1' : forall x, co_ppm = Sensors.Number x ->
                    co = Some (Sensors.co_index x)).
    { intros x ->. reflexivity. }
    clearbody co co2 ch4. subst r. clear Hr E1 E2 E3.
    destruct (SensorsFacts.report_spec co co2 ch4) as [N [E S]].
    set (r := Sensors.report co co2 ch4) in *.
    assert (Scale : forall m, Indoor.aqi r = Some m ->
                      In m IndoorScaleSpec.steps).
    { intros m Hm. destruct (S m Hm) as [_ [_ [_ [D _]]]].
      destruct D as [[_ D]|[[_ [D _]]|[_ [D _]]]].
      - destruct (C1 m D) as [x [_ ->]]. apply SensorsFacts.co_index_steps.
      - apply (C2 m D).
      - apply (C3 m D). }
    assert (Haz : forall m, In m IndoorScaleSpec.steps ->
                    (Utils.category (Utils.category_of_int m) = "Hazardous"
                     <-> m = 400)).
    { intros m Hm. unfold IndoorScaleSpec.steps in Hm. cbn in Hm.
      repeat (destruct Hm as [<-|Hm];
              [cbn; split; intros C; first [discriminate C | reflexivity]|]).
      destruct Hm. }
    assert (Top : Indoor.category r = Some "Hazardous" ->
                  Indoor.aqi r = Some 400
                  /\ Indoor.dominant_pollutant r = Some "CO"
                  /\ exists x, co_ppm = Sensors.Number x
                               /\ SensorsSpec.beyond_100 x).
    { intros C. destruct (Indoor.aqi r) as [m|] eqn:Hm.
      - destruct (S m eq_refl) as [_ [_ [_ [D Cat]]]].
        rewrite Cat in C. injection C as C.
        apply (Haz m (Scale m eq_refl)) in C. subst m.
        destruct D as [[Dp D]|[[_ [D _]]|[_ [D _]]]].
        + split; [reflexivity|]. split; [exact Dp|].
          destruct (C1 400 D) as [x [Ex Ix]]. exists x.
          split; [exact Ex|]. now apply SensorsFacts.co_index_steps.
        + pose proof (proj2 (C2 400 D)). lia.
        + pose proof (proj2 (C3 400 D)). lia.
      - rewrite (E eq_refl) in C. discriminate. }
    split; [exact Scale|]. split; [|intros C; split; apply (Top C)].
    split; [intros C; apply (Top C)|].
    intros [x [Ex Hx]].
    apply C1' in Ex.
    rewrite (proj2 (proj2 (SensorsFacts.co_index_steps x)) Hx) in Ex.
    destruct (Indoor.aqi r) as [m|] eqn:Hm.
    + destruct (S m eq_refl) as [U [_ [_ [_ Cat]]]].
      rewrite Cat. f_equal. apply (Haz m (Scale m eq_refl)).
      specialize (U 400 Ex).
      pose proof (Scale m eq_refl) as Hs.
      unfold IndoorScaleSpec.steps in Hs. cbn in Hs.
      repeat (destruct Hs as [<-|Hs]; [lia|]). destruct Hs.
    + destruct (proj1 N eq_refl) as [C _]. congruence.
  - intros co co2 ch4. rewrite <- SensorsFacts.report_indoor.
    destruct co, co2, ch4; reflexivity.
Qed.

(** ** Subscription validation *)



(** ** Batch fetch: when positions are kept *)

Module AlignFacts.

Import Py Services.

Lemma valid_results_complete (results : list (option formatted)) :
  List.length (valid_results results) = List.length results
  <-> results = map Some (valid_results results).
Proof.
  induction results as [|[r|] results IH]; cbn [valid_results map List.length].
  - tauto.
  - split; intros H.
    + f_equal. apply IH. lia.
    + injection H as H. f_equal. now apply IH.
  - pose proof (BatchFacts.valid_results_length results) as B.
    split; [lia|]. intros H.
    destruct (valid_results results); cbn [map] in H; discriminate H.
Qed.

End AlignFacts.

(** X30. [fetch_batch_current_aqi] keeps positions exactly when it drops
    nothing: its output is as long as the list of locations if and only
    if every slot of [all_results] is filled, and then the [i]-th output
    is the result of the [i]-th location.  This is the case in which
    pairing results with locations by position, as the alert sweep does,
    is right. *)
Theorem fetch_batch_positions
  (W : Py.value -> Py.value -> Py.value -> option (Py.dict Py.value))
  (G : Py.value -> Py.value -> option (Py.value * Py.value))
  (locations : list Services.location) (responses : list Py.value)
  (timezone : Py.value) :
  let all := Services.all_results W G locations responses timezone in
  let out :=
    Services.fetch_batch_current_aqi W G locations responses timezone in
  (List.length out = List.length locations <-> all = map Some out)
  /\ (List.length out = List.length locations ->
      forall i, nth_error all i = option_map Some (nth_error out i))
  /\ ((List.length out < List.length locations)%nat ->
      exists i, (i < List.length locations)%nat /\ nth_error all i = Some None).
Proof.
  intros all out.
  assert (E : out = Services.valid_results all).
  { subst out all. destruct locations; reflexivity. }
  pose proof (BatchFacts.all_results_length W G locations responses timezone)
    as L.
  fold all in L.
  assert (A : List.length out = List.length locations <-> all = map Some out).
  { rewrite E, <- L. apply AlignFacts.valid_results_complete. }
  split; [exact A|]. split.
  - intros H i. rewrite (proj1 A H) at 1. apply nth_error_map.
  - intros H. rewrite <- L. rewrite E, <- L in H. clear - H.
    induction all as [|[r|] all IH]; cbn in *; [lia| |].
    + destruct IH as [i [Hi Hn]]; [lia|]. exists (S i). split; [lia|exact Hn].
    + exists O. split; [lia|reflexivity].
Qed.

Lemma fetch_batch_positions_witness :
  let W := fun _ _ _ : Py.value => @None (Py.dict Py.value) in
  let G := fun _ _ : Py.value => @None (Py.value * Py.value) in
  let locations := [Services.mk_loc 0 40] in
  let all :=
    Services.all_results W G locations [SweepSpec.single_155]
      (Py.VStr "auto") in
  let out :=
    Services.fetch_batch_current_aqi W G locations [SweepSpec.single_155]
      (Py.VStr "auto") in
  nth_error all 0 = option_map Some (nth_error out 0).
Proof.
  intros W G locations all out.
  apply (proj1 (proj2 (fetch_batch_positions W G locations
                         [SweepSpec.single_155] (Py.VStr "auto")))).
  reflexivity.
Defined.
